(* ===== verification/_CoqProject ===== *)
-Q . S2P
Prelude.v
GoStd.v
Dis.v
DisMessage.v
Client.v
Conn.v
Job.v
JobManager.v
Node.v
Queue.v
Route.v
ServerConfig.v
Store.v
Persist.v
PersistConf.v
ServerState.v
Submit.v
JobControl.v
Exec.v
ExecSpec.v
Sched.v
SchedSpec.v
Cec.v
CecSpec.v
PersistNodes.v
Recover.v
Restart.v
Status.v
StatusSpec.v
StatusJobs.v
PersistServer.v
PersistServerSpec.v
Auth.v
NetStd.v
Admin.v
AdminSpec.v
StatusServer.v
Dispatch.v
DispatchSpec.v
FloatStd.v
MomConfig.v
MomJob.v
MomExec.v
MomConn.v
Mom.v
MomSpec.v
ToMom.v
MomLink.v
Acct.v
Cost.v
CostSpec.v
SchedConf.v
SchedMain.v
SchedLink.v
SchedLoop.v
Qmgr.v
Commands.v
Qsub.v
PgStore.v
Ha.v
FmtStd.v
Drmaa.v
Qstat.v
