(* ===== verification/Prelude.v ===== *)
(** * OpenTorque: a verification development

    OpenTorque is a batch system: users submit jobs to queues of a server, a scheduler
    chooses nodes for them, the daemon of each compute node runs them and reports their
    end.  This library models the program's own logic as executable functions over explicit
    state, file by file and function by function under the names of the source, and proves
    what makes it correct.

    ** The parts and how they interact

    - [pbs_server] (src/internal/server, job, node, queue, config, dis, auth) keeps the tables
      of jobs, queues and nodes, answers the requests of clients, of compute nodes and of the
      scheduler, and saves its state in a store.
    - [pbs_mom] (src/internal/mom) runs on every compute node: it takes jobs from the server,
      starts their processes, watches them, and sends an obituary when one ends.
    - [pbs_sched] (src/internal/sched) asks the server for its jobs, queues and nodes, decides
      what runs where, and tells the server to run it.  The cloud elastic controller
      (src/internal/cec, crp) grows and shrinks pools of machines for it.
    - The commands (cmd/) reach the server through the client library (src/internal/cli).
    All of them speak the DIS encoding over TCP.

    ** Files, from the bottom up

    - [Prelude]: record update, 64-bit integers, Go's map order, the [switch] statement,
      multisets, shared tactics.  [GoStd], [NetStd], [FloatStd]: the parts of Go's standard
      library the program uses (strings, strconv, time, sort, net, float64), written out.
    - [Dis] (internal/dis/codec.go), [DisMessage] (message.go, protocol.go): the codec and the
      messages.  Readers are functions of the bytes left ([Reader]); an error of the network
      is the end of the bytes, and a panic (an allocation that cannot succeed) is a result of
      its own.  [Client] (internal/cli): the client's own codec and its calls, as what is
      written and how the reply is read.  [Conn], [Dispatch] (handleConnection and
      dispatchRequest of internal/server/server.go): a connection as a function from its bytes
      to the server's new state and the bytes sent back; a handler that never returns leaves
      the connection [Stuck].
    - [Job], [JobManager] (internal/job), [Node] (internal/node), [Queue] (internal/queue):
      the tables.  [Route] (internal/server/route.go): admission and routing.
    - [Store] (internal/server/store.go): the files of the state, with every write and removal
      that can fail.  [Persist], [PersistConf]: the texts of jobs and queues.
    - [ServerConfig], [ServerState]: the settings and the state of the server with the helpers of
      its handlers; what it saved of a queue is the text handed to the store.  [Submit],
      [JobControl]: submission and control of jobs.  [Exec], [ExecSpec]: running, ending,
      requeueing, background tasks, recovery of running jobs.  [Admin], [AdminSpec]: qmgr
      requests, node registration, authentication ([Auth]: internal/auth/token.go with
      HMAC-SHA-256 written out).  [Status], [StatusServer], [StatusSpec], [StatusJobs]: the
      replies to status requests and what the scheduler makes of them.
    - [PersistNodes], [PersistServer], [PersistServerSpec], [Recover], [Restart]: the texts of
      the nodes and of the server's settings, and the start of a server from what it saved.
    - [Sched], [SchedSpec] (internal/sched/scheduler): a scheduling cycle.  [Cec], [CecSpec]
      (internal/cec, internal/crp): the elastic controller over a provider of machines.  The
      theorems ask of the provider the laws [ProviderLaws] (new machines have new ids, ids are
      not used again) and, for the size of a pool, [at_most_asked]; the stub provider and the
      Azure provider, whose [Ensure] skips machines that fail, are shown to have them.
    - [SchedConf] (internal/sched/config and loadSchedConfig of the server): the configuration
      file and its two readers.  [SchedMain] (internal/sched/client, internal/sched/dis,
      cmd/pbs_sched): the scheduler's connections, a cycle over one of them, the node
      controller and the hand-over to the elastic controller.  [SchedLoop] (cmd/pbs_sched): the
      main loop, as a relation whose steps are those of the loop, of the triggers and of the
      clock.  [SchedLink]: scheduler and server together.
    - [Qmgr], [Commands], [Qsub], [Qstat] (cmd/): the commands of administrators and users, as
      functions of their options over a connection to the server.  [FmtStd]: UTF-8, widths and
      quoting, as Go prints them.  [Drmaa] (pkg/drmaa): the library for programs.
    - [MomConfig], [MomJob], [MomExec], [MomConn], [Mom], [MomSpec] (internal/mom): the daemon
      of a compute node.  The machine it runs on is the parameter [Os], which answers every
      call the daemon makes of it, and its history is the list [World] of what was done; the
      goroutines that wait for a process and the timers are part of the state, so requests,
      polls, ends of processes and timers interleave in any order.
    - [ToMom], [MomLink]: the server's side of a dispatch, and the two daemons together.
    - [PgStore] (internal/server/pgstore.go): the database store and the migration to it.  [Ha]
      (haLeaderLoop, TryAcquireLease): the servers that share a database, as a relation whose
      steps are the statements of their attempts, the calls that follow a change of the leader,
      failures, starts, ends and the clock.
    - [Acct] (internal/acct), [Cost], [CostSpec] (internal/cost, cmd/pbs_cost): the accounting
      records and the report that shares the bills of machines among accounts.

    ** How the source is modelled

    Integers are [Z] with the wrap-around of [int64] and [uint64] written out.  Maps are
    [gmap]; where Go's unspecified order matters, the order is an argument ([map_order],
    [MapRange], [Env]).  Time, host names, random bytes and the answers of other processes are
    arguments.  A handler is a function from the state and the decoded body to the new state,
    the reply and whether the connection stays; effects outside the tables (log and accounting
    records, dispatches, commands to compute nodes) are a trace in the state.  A handler
    is one step, also where the source takes and releases several locks in it, with these
    exceptions, which are split: RunJob is its checks and its start ([run_check],
    [run_resume]), and the loop of the leader election and that of the scheduler are one step
    per statement or call.  Log lines are left out.

    ** What the theorems show

    - Protocol: what is written is read back, a connection ends on any bytes, or is
      left waiting by the one handler that can wait for itself ([serve_total]), and a connection
      of client commands is the run of their handlers in that order ([client_session]).
    - Tables: the counters of jobs and queues are exact under the operations of their managers
      (the handlers that set a state directly are outside, see [start_not_counted]), the slots of
      a node are those of a ledger of its placements, admission is sound and complete, an array
      is committed whole or not at all.
    - Running and ending: a job passes the check before a start only when its guards hold, and
      gives back the slots it took
      ([run_then_obit], [handleRunJob_guarded], [requeueNodeJobs_correct], [reconcile_exact]).
    - Server and compute node: a dispatched job arrives as it was and runs, or the dispatch is
      taken back ([dispatch_reaches_mom], [dispatch_refused]); each job whose process has ended
      leaves the daemon's table with exactly one attempt at an obituary per server
      ([mom_step_accounts], [end_is_reported]; [lost_obituary] shows an attempt that fails), an
      obituary that arrives completes the job at the server ([obit_completes_job]), and the list
      of running jobs the server asks for is exact ([mom_reports_running]).
    - Restart: what the saved texts hold is recovered, job numbers are never used twice, a
      setting an administrator changes survives ([restart_roundtrip], [serverdb_roundtrip],
      [restart_numbering], [set_survives_restart], [file_store_refines]).
    - Several servers: the database holds the same documents as the files ([pg_store_refines],
      [migration_keeps]), and at most one server acts on a lease that is still its own
      ([one_leader]).
    - Scheduling: what the scheduler reads is what the server holds, a cycle ends, does not give
      a node more than it has, starts no job twice, chooses a node that suits the job, orders
      jobs as configured; over the wire, the one-node jobs a cycle counts run where it chose
      ([cycle_starts_jobs]), a drained node is not used ([drained_node_unused]), no trigger that
      arrived is lost ([triggers_served]), and server and scheduler
      agree on the settings they share ([conf_readers_agree]).
    - Cloud pools: the counters of a pool are at most what they stand for in every interleaving,
      and exact where the code keeps them so; a pool does not outgrow its maximum, only idle
      machines are reclaimed.
    - Commands: what is typed in a session of [qmgr] is what the server's handlers are called
      with ([qmgr_session]), a submitted job has the options listed there as given
      ([qsub_submits]), and the commands for jobs and queues do what they ask for to each
      argument ([commands_perform]); the table of [qstat] is that of the server's jobs that pass
      its filters ([qstat_shows_jobs]).
    - Programs: a submitted template becomes the job it describes ([run_job_submits]), and waiting
      for a job ends with the state the server has ([wait_ends]).
    - Costs: the end record of a job is read back as the use it stands for, and the shares of the
      accounts and the overhead add up to the bills ([ended_is_charged], [allocate_conserves]).
    - Examples and theorems on the side show where the code does not do what it means to.

    ** Bounds and fuel

    Loops over the bytes of a connection take the number of bytes plus one as fuel, since each
    turn reads at least a byte; [serve_total] and [mom_connection_enough] show that it is
    enough.  The recursion of [disrsi] takes the number of bytes left, the cycle of the
    scheduler the number of jobs ([runCycle_returns]), the polls of [Wait] their number
    ([wait_ends]), the parsers of XML and durations the
    length of their text.  [maxAlloc] is 2^48 bytes, the size of the address space: a longer
    string cannot exist in memory, so the domain [wire_str] of the round trips leaves nothing
    out.

    ** Not modelled

    - The requests of the Azure provider to the cloud: only their outcomes are.
    - The database server: that it applies a statement whole or not at all is relied on.
    - Listening, dialling, TLS, deadlines, the http pages, the dated log files, mail.
    - The readers of the kernel's counters (internal/mom/resource): a parameter.
    - PAM, the flags of the commands, and tracejob, momctl and pbsdsh, which print. *)

From Stdlib Require Export Ascii.
From stdpp Require Export base tactics list gmap strings numbers sorting.

(** ** Functional record update

    [r <| f := v |>] is the record [r] with field [f] replaced by [v], the Go
    assignment [r.f = v].  A record type opts in with an [Eta] instance, its
    eta-expansion; the setter of a field is then computed by abstracting that
    field in the eta-expansion. *)

Class Eta (R : Type) := eta : R → R.
Class Setter {R T : Type} (proj : R → T) := set_field : T → R → R.

Ltac solve_setter :=
  lazymatch goal with
  | |- @Setter ?R ?T ?proj =>
    let v := fresh "v" in
    let r := fresh "r" in
    intros v r;
    let e := constr:(_ : Eta R) in
    let h := match e with ?h _ => h | ?h => h end in
    let b := eval cbv beta delta [h eta] in (e r) in
    let p := eval pattern (proj r) in b in
    lazymatch p with
    | ?f _ => let u := eval cbv beta in (f v) in exact u
    end
  end.

#[export] Hint Extern 0 (Setter _) => solve_setter : typeclass_instances.

Declare Scope go_scope.
Delimit Scope go_scope with go.
Notation "r <| proj := v |>" := (set_field (proj := proj) v r)
  (at level 1, left associativity, format "r <| proj  :=  v |>") : go_scope.
Global Open Scope go_scope.
Global Open Scope Z_scope.

(** ** Machine integers

    Go's [int] and [int64] are 64-bit two's complement: an arithmetic result is
    wrapped with [int64]; [uint64] is the conversion to the unsigned type. *)

Definition int64 (z : Z) : Z := (z + 2 ^ 63) mod 2 ^ 64 - 2 ^ 63.
Definition uint64 (z : Z) : Z := z mod 2 ^ 64.
Definition MaxInt64 : Z := 2 ^ 63 - 1.
Definition MinInt64 : Z := - 2 ^ 63.
Definition MaxUint64 : Z := 2 ^ 64 - 1.

Definition is_int64 (z : Z) : Prop := MinInt64 ≤ z ≤ MaxInt64.
Definition is_uint64 (z : Z) : Prop := 0 ≤ z ≤ MaxUint64.

#[export] Instance is_int64_dec z : Decision (is_int64 z).
Proof. unfold is_int64. apply _. Defined.
#[export] Instance is_uint64_dec z : Decision (is_uint64 z).
Proof. unfold is_uint64. apply _. Defined.

Ltac unfold_int :=
  unfold int64, uint64, is_int64, is_uint64, MaxInt64, MinInt64, MaxUint64 in *.

Lemma int64_range z : is_int64 (int64 z).
Proof.
  unfold_int. pose proof (Z.mod_pos_bound (z + 2 ^ 63) (2 ^ 64)). lia.
Qed.

Lemma int64_id z : is_int64 z → int64 z = z.
Proof. unfold_int. intros ?. rewrite Z.mod_small by lia. lia. Qed.

Lemma int64_add_l a b : int64 (int64 a + b) = int64 (a + b).
Proof.
  unfold int64. replace ((a + 2 ^ 63) mod 2 ^ 64 - 2 ^ 63 + b + 2 ^ 63) with ((a + 2 ^ 63) mod 2 ^ 64 + b) by lia.
  rewrite Zplus_mod_idemp_l. do 2 f_equal. lia.
Qed.

Lemma uint64_id z : is_uint64 z → uint64 z = z.
Proof. unfold_int. intros ?. apply Z.mod_small. lia. Qed.

Lemma uint64_range z : is_uint64 (uint64 z).
Proof. unfold_int. pose proof (Z.mod_pos_bound z (2 ^ 64)). lia. Qed.

(** Conversion of an [int64] to [uint64] and back is the identity. *)
Lemma int64_uint64 z : is_int64 z → int64 (uint64 z) = z.
Proof.
  intros H. unfold_int.
  rewrite Zplus_mod_idemp_l, Z.mod_small by lia. lia.
Qed.

Create HintDb go_int.
Create Rewrite HintDb go_int.
#[export] Hint Resolve int64_range uint64_range : go_int.
#[export] Hint Rewrite int64_id uint64_id using lia : go_int.

(** ** Results

    A Go function that returns a value and an [error] gives an [Ok] or an [Err];
    [Panic] is a run-time panic, which no caller in this program recovers from. *)

Inductive result (E A : Type) :=
  | Ok (a : A)
  | Err (e : E)
  | Panic.
Arguments Ok {E A} _.
Arguments Err {E A} _.
Arguments Panic {E A}.

#[export] Instance result_eq_dec `{EqDecision E, EqDecision A} : EqDecision (result E A).
Proof. solve_decision. Defined.

Definition is_ok {E A} (r : result E A) : bool :=
  match r with Ok _ => true | _ => false end.

Definition map_err {E E' A} (f : E → E') (r : result E A) : result E' A :=
  match r with Ok a => Ok a | Err e => Err (f e) | Panic => Panic end.

(** ** Maps

    [a_lookup d k m] reads a Go map the way [m[k]] does: the zero value [d] for a
    missing key. *)

Definition lookup_or {A} (d : A) (k : string) (m : gmap string A) : A :=
  default d (m !! k).

(** Go ranges over a map in an unspecified order.  Code whose effect depends on
    that order takes it as an argument: a [map_order] of a map lists each of its
    keys once. *)
Definition map_order {A} (m : gmap string A) (ks : list string) : Prop :=
  ks ≡ₚ (map_to_list m).*1.

Lemma map_order_NoDup {A} (m : gmap string A) ks : map_order m ks → NoDup ks.
Proof. intros ->. apply NoDup_fst_map_to_list. Qed.

Lemma map_order_elem {A} (m : gmap string A) ks k :
  map_order m ks → k ∈ ks ↔ is_Some (m !! k).
Proof.
  intros ->. rewrite list_elem_of_fmap. split.
  - intros ([k' a] & -> & Hin%elem_of_map_to_list). eauto.
  - intros [a Ha]. exists (k, a). by rewrite elem_of_map_to_list.
Qed.

(** The canonical order, for evaluation. *)
Definition keys {A} (m : gmap string A) : list string := (map_to_list m).*1.

Lemma map_order_keys {A} (m : gmap string A) : map_order m (keys m).
Proof. unfold map_order, keys. reflexivity. Qed.

(** The same as an interface, for code that ranges over several maps. *)
Class MapRange := {
  range : ∀ {A : Type}, gmap string A → list string;
  range_order : ∀ {A} (m : gmap string A), map_order m (range m);
}.
#[export] Instance keys_MapRange : MapRange := { range := @keys; range_order := @map_order_keys }.

(** ** Switches

    [switch x [(names, a); ...] d] is Go's [switch x { case names...: a ... default: d }]. *)
Fixpoint switch {A} (x : string) (cases : list (list string * A)) (d : A) : A :=
  match cases with
  | [] => d
  | (names, a) :: cases => if bool_decide (x ∈ names) then a else switch x cases d
  end.

(** A property that every branch has, the switch has. *)
Lemma switch_ind {A} (P : A → Prop) x cases d :
  Forall (λ c, P c.2) cases → P d → P (switch x cases d).
Proof. induction 1 as [|[ns a] cs Ha Hcs IH]; simpl; [done|]. intros Hd. case_match; auto. Qed.

(** The same, knowing which case is taken. *)
Lemma switch_ind_in {A} (P : A → Prop) x cases d :
  Forall (λ c, x ∈ c.1 → P c.2) cases → P d → P (switch x cases d).
Proof.
  induction 1 as [|[ns a] cs Ha Hcs IH]; simpl; [done|]. intros Hd.
  case_bool_decide as Hx; [by apply Ha|by apply IH].
Qed.

(** ** Generic lemmas on lists *)

(** Removing the first occurrence of an element. *)
Fixpoint remove1 `{EqDecision A} (x : A) (l : list A) : list A :=
  match l with
  | [] => []
  | y :: l => if decide (y = x) then l else y :: remove1 x l
  end.

Section remove1.
Context `{EqDecision A}.
Implicit Types (x : A) (l : list A).

Lemma remove1_not_in x l : x ∉ l → remove1 x l = l.
Proof.
  induction l as [|y l IH]; simpl; [done|]. intros Hn%not_elem_of_cons.
  case_decide; [naive_solver|]. f_equal. naive_solver.
Qed.

Lemma remove1_app x l : x ∉ l → remove1 x (l ++ [x]) = l.
Proof.
  induction l as [|y l IH]; simpl; intros Hn.
  - by rewrite decide_True.
  - apply not_elem_of_cons in Hn as [??]. rewrite decide_False by done. f_equal. auto.
Qed.

Lemma remove1_perm x l : x ∈ l → l ≡ₚ x :: remove1 x l.
Proof.
  induction l as [|y l IH]; [by intros ?%elem_of_nil|].
  simpl. intros Hin. case_decide; [by subst|].
  apply elem_of_cons in Hin as [?|?]; [congruence|].
  rewrite IH at 1 by done. apply perm_swap.
Qed.

Lemma remove1_subseteq x y l : y ∈ remove1 x l → y ∈ l.
Proof.
  induction l as [|z l IH]; simpl; [done|].
  case_decide; rewrite ?elem_of_cons; naive_solver.
Qed.

Lemma remove1_other x y l : x ≠ y → y ∈ l → y ∈ remove1 x l.
Proof.
  intros Hne. induction l as [|z l IH]; simpl; [done|].
  intros Hin%elem_of_cons. case_decide; [naive_solver|].
  rewrite elem_of_cons. naive_solver.
Qed.

Lemma remove1_NoDup x l : NoDup l → NoDup (remove1 x l) ∧ x ∉ remove1 x l.
Proof.
  induction 1 as [|y l Hy Hl [IH1 IH2]]; simpl; [split; [constructor|set_solver]|].
  case_decide; [by subst|].
  split; [constructor; [|done]|]; [|set_solver].
  contradict Hy. eauto using remove1_subseteq.
Qed.
End remove1.

Lemma filter_all {A} (P : A → Prop) `{!∀ x, Decision (P x)} (l : list A) :
  Forall P l → filter P l = l.
Proof. induction 1; [done|]. rewrite filter_cons_True by done. by f_equal. Qed.

(** The sum of an integer measure over a list. *)
Definition sum_Z {A} (f : A → Z) (l : list A) : Z := foldr (λ x s, f x + s) 0 l.

Lemma sum_Z_app {A} (f : A → Z) l1 l2 : sum_Z f (l1 ++ l2) = sum_Z f l1 + sum_Z f l2.
Proof. induction l1; simpl; lia. Qed.

#[export] Instance sum_Z_perm {A} (f : A → Z) : Proper ((≡ₚ) ==> (=)) (sum_Z f).
Proof. intros l1 l2. induction 1; simpl; lia. Qed.

Lemma sum_Z_nonneg {A} (f : A → Z) l : (∀ x, x ∈ l → 0 ≤ f x) → 0 ≤ sum_Z f l.
Proof.
  induction l as [|x l IH]; simpl; [lia|]. intros H.
  pose proof (H x ltac:(left)). assert (0 ≤ sum_Z f l); [|lia].
  apply IH. intros y Hy. apply H. by right.
Qed.

Lemma sum_Z_ext {A} (f g : A → Z) l : (∀ x, x ∈ l → f x = g x) → sum_Z f l = sum_Z g l.
Proof.
  induction l as [|x l IH]; simpl; [done|]. intros H.
  rewrite (H x) by left. rewrite IH; [done|]. intros y Hy. apply H. by right.
Qed.

(** ** Counting in maps *)

Definition count_if {A} (P : A → bool) (m : gmap string A) : Z :=
  sum_Z (λ kv, if P kv.2 then 1 else 0) (map_to_list m).

Section count_if.
Context {A : Type} (P : A → bool).
Implicit Types (m : gmap string A) (k : string).

Lemma count_if_empty : count_if P ∅ = 0.
Proof. unfold count_if. by rewrite map_to_list_empty. Qed.

Lemma count_if_insert m k a :
  m !! k = None → count_if P (<[k:=a]> m) = (if P a then 1 else 0) + count_if P m.
Proof. intros Hk. unfold count_if. by rewrite map_to_list_insert. Qed.

Lemma count_if_delete m k a :
  m !! k = Some a → count_if P m = (if P a then 1 else 0) + count_if P (delete k m).
Proof.
  intros Hk. rewrite <- (insert_delete_id m k a) at 1 by done.
  apply count_if_insert, lookup_delete_eq.
Qed.

Lemma count_if_update m k a b :
  m !! k = Some a →
  count_if P (<[k:=b]> m)
  = count_if P m - (if P a then 1 else 0) + (if P b then 1 else 0).
Proof.
  intros Hk. rewrite <- insert_delete_eq.
  rewrite count_if_insert by apply lookup_delete_eq.
  rewrite (count_if_delete m k a) by done. lia.
Qed.

Lemma count_if_nonneg m : 0 ≤ count_if P m.
Proof. apply sum_Z_nonneg. intros [k a] _. simpl. destruct (P a); lia. Qed.

Lemma count_if_pos m k a : m !! k = Some a → P a = true → 0 < count_if P m.
Proof.
  intros Hk HP. rewrite (count_if_delete m k a) by done. rewrite HP.
  pose proof (count_if_nonneg (delete k m)). lia.
Qed.

Lemma count_if_zero m k a : count_if P m = 0 → m !! k = Some a → P a = false.
Proof.
  intros H0 Hk. destruct (P a) eqn:HP; [|done].
  pose proof (count_if_pos m k a Hk HP). lia.
Qed.
End count_if.

Lemma count_if_ext {A} (P Q : A → bool) (m : gmap string A) :
  (∀ k a, m !! k = Some a → P a = Q a) → count_if P m = count_if Q m.
Proof.
  intros H. apply sum_Z_ext. intros [k a] Hin%elem_of_map_to_list. simpl.
  by rewrite (H k a).
Qed.

(** ** Tactics *)

(** Case analysis on the scrutinee of an [if] or [match] in the goal. *)
Ltac go_case :=
  match goal with
  | |- context [if ?b then _ else _] => let E := fresh "E" in destruct b eqn:E
  | |- context [match ?b with _ => _ end] => let E := fresh "E" in destruct b eqn:E
  end.

(** A decidable fact about closed values, by evaluation. *)
Ltac by_decide := apply (bool_decide_unpack _); vm_compute; exact I.

(** Boolean comparisons to propositions. *)
Ltac bool_to_prop :=
  repeat match goal with
  | H : (_ && _) = true |- _ => apply andb_true_iff in H as [? ?]
  | H : (_ || _) = false |- _ => apply orb_false_iff in H as [? ?]
  | H : negb _ = true |- _ => apply negb_true_iff in H
  | H : negb _ = false |- _ => apply negb_false_iff in H
  | H : (_ <? _) = true |- _ => apply Z.ltb_lt in H
  | H : (_ <? _) = false |- _ => apply Z.ltb_ge in H
  | H : (_ <=? _) = true |- _ => apply Z.leb_le in H
  | H : (_ <=? _) = false |- _ => apply Z.leb_gt in H
  | H : (_ =? _) = true |- _ => apply Z.eqb_eq in H
  | H : (_ =? _) = false |- _ => apply Z.eqb_neq in H
  | H : bool_decide _ = true |- _ => apply bool_decide_eq_true in H
  | H : bool_decide _ = false |- _ => apply bool_decide_eq_false in H
  end.
