(* ===== verification/GoStd.v ===== *)
(** * The parts of Go's standard library the program uses

    Packages [strings], [strconv], [fmt] (the [%d] scan and the decimal verbs)
    and [time], as executable functions on byte strings and integers.  A Go
    string is a byte sequence, modelled by [string]; the letter and white-space
    classes are the ASCII ones, so the Unicode folding and the non-ASCII white
    space of [strings.EqualFold], [ToLower], [TrimSpace] and [Fields] are not
    modelled. *)

From S2P Require Import Prelude.

Local Open Scope string_scope.
Local Open Scope Z_scope.

#[global] Arguments String.append !_ _ : simpl nomatch.

(** ** Bytes *)

Definition byte_val (c : ascii) : Z := Z.of_nat (Ascii.nat_of_ascii c).
Definition byte_of (z : Z) : ascii := Ascii.ascii_of_nat (Z.to_nat z).

Definition is_digit (c : ascii) : bool := (48 <=? byte_val c) && (byte_val c <=? 57).
Definition digit_val (c : ascii) : Z := byte_val c - 48.
Definition digit_char (d : Z) : ascii := byte_of (48 + d).

Definition is_space (c : ascii) : bool :=
  ((9 <=? byte_val c) && (byte_val c <=? 13)) || (byte_val c =? 32).

Definition lower_byte (c : ascii) : ascii :=
  if (65 <=? byte_val c) && (byte_val c <=? 90) then byte_of (byte_val c + 32) else c.

Definition newline : ascii := byte_of 10.

(** ** Package strings *)

Definition len (s : string) : Z := Z.of_nat (String.length s).

Fixpoint has_byte (c : ascii) (s : string) : bool :=
  match s with
  | EmptyString => false
  | String d s => bool_decide (d = c) || has_byte c s
  end.

Fixpoint all_bytes (p : ascii → bool) (s : string) : bool :=
  match s with
  | EmptyString => true
  | String d s => p d && all_bytes p s
  end.

Definition HasPrefix (s p : string) : bool := String.prefix p s.

Fixpoint strip_prefix (p s : string) : option string :=
  match p, s with
  | EmptyString, _ => Some s
  | String a p, String b s => if decide (a = b) then strip_prefix p s else None
  | String _ _, EmptyString => None
  end.

Definition TrimPrefix (s p : string) : string := default s (strip_prefix p s).

(** [strip_suffix x s] is [Some p] when [s] is [p] followed by [x]. *)
Fixpoint strip_suffix (x s : string) : option string :=
  if decide (s = x) then Some EmptyString
  else match s with
       | EmptyString => None
       | String c s => String c <$> strip_suffix x s
       end.

(** [cut_str sub s] is what comes before and after the first occurrence of [sub]. *)
Fixpoint cut_str (sub s : string) : option (string * string) :=
  match strip_prefix sub s with
  | Some rest => Some (EmptyString, rest)
  | None =>
    match s with
    | EmptyString => None
    | String c s => prod_map (String c) id <$> cut_str sub s
    end
  end.

Definition Contains (s sub : string) : bool := bool_decide (is_Some (cut_str sub s)).

Fixpoint ToLower (s : string) : string :=
  match s with
  | EmptyString => EmptyString
  | String c s => String (lower_byte c) (ToLower s)
  end.

Definition EqualFold (a b : string) : bool := bool_decide (ToLower a = ToLower b).

Fixpoint trim_left (s : string) : string :=
  match s with
  | EmptyString => EmptyString
  | String c s' => if is_space c then trim_left s' else s
  end.

Fixpoint trim_right (s : string) : string :=
  match s with
  | EmptyString => EmptyString
  | String c s =>
    let t := trim_right s in
    if is_space c && bool_decide (t = EmptyString) then EmptyString else String c t
  end.

Definition TrimSpace (s : string) : string := trim_right (trim_left s).

(** [cut c s] is [s[:i]] and [s[i+1:]] for [i = strings.Index(s, c)], [None] when
    the index is -1. *)
Fixpoint cut (c : ascii) (s : string) : option (string * string) :=
  match s with
  | EmptyString => None
  | String d s =>
    if decide (d = c) then Some (EmptyString, s)
    else prod_map (String d) id <$> cut c s
  end.

(** The same for [strings.LastIndex]. *)
Fixpoint cut_last (c : ascii) (s : string) : option (string * string) :=
  match s with
  | EmptyString => None
  | String d s =>
    match cut_last c s with
    | Some (a, b) => Some (String d a, b)
    | None => if decide (d = c) then Some (EmptyString, s) else None
    end
  end.

(** [strings.Split] with a one-byte separator; the result is never empty. *)
Fixpoint Split (c : ascii) (s : string) : list string :=
  match s with
  | EmptyString => [EmptyString]
  | String d s =>
    if decide (d = c) then EmptyString :: Split c s
    else match Split c s with
         | [] => [String d EmptyString]
         | x :: xs => String d x :: xs
         end
  end.

(** [strings.Split(s, sep)[0]], which always exists. *)
Definition split_hd (c : ascii) (s : string) : string := hd EmptyString (Split c s).

Fixpoint Join (sep : string) (l : list string) : string :=
  match l with
  | [] => EmptyString
  | [x] => x
  | x :: l => x +:+ sep +:+ Join sep l
  end.

(** [strings.Fields]: the maximal runs of non-space bytes. *)
Fixpoint fields_go (s acc : string) : list string :=
  match s with
  | EmptyString => if decide (acc = EmptyString) then [] else [acc]
  | String c s =>
    if is_space c
    then (if decide (acc = EmptyString) then [] else [acc]) ++ fields_go s EmptyString
    else fields_go s (acc +:+ String c EmptyString)
  end.

Definition Fields (s : string) : list string := fields_go s EmptyString.

(** ** Package strconv *)

(** [FormatUint(n, 10)]: 20 digits hold every [uint64]. *)
Fixpoint fmt_digits (fuel : nat) (n : Z) (acc : string) : string :=
  match fuel with
  | O => acc
  | S fuel =>
    let acc := String (digit_char (n mod 10)) acc in
    if n <? 10 then acc else fmt_digits fuel (n / 10) acc
  end.

Definition FormatUint (n : Z) : string := fmt_digits 20 n EmptyString.

Definition FormatInt (n : Z) : string :=
  if n <? 0 then String "-" (FormatUint (- n)) else FormatUint n.

Definition Itoa : Z → string := FormatInt.

Inductive num_error := ErrSyntax | ErrRange.
#[export] Instance num_error_eq_dec : EqDecision num_error.
Proof. solve_decision. Defined.

(** [ParseUint(s, 10, 64)], scanning left to right: a non-digit is a syntax error,
    a value past the largest [uint64] a range error, whichever comes first. *)
Fixpoint parse_digits (acc : Z) (s : string) : Z * option num_error :=
  match s with
  | EmptyString => (acc, None)
  | String c s =>
    if is_digit c then
      let acc := acc * 10 + digit_val c in
      if MaxUint64 <? acc then (MaxUint64, Some ErrRange) else parse_digits acc s
    else (0, Some ErrSyntax)
  end.

Definition ParseUint (s : string) : Z * option num_error :=
  match s with EmptyString => (0, Some ErrSyntax) | _ => parse_digits 0 s end.

(** [ParseInt(s, 10, 64)]: an optional sign, then digits.  A range error returns
    the nearest [int64], a syntax error returns 0. *)
Definition ParseInt (s : string) : Z * option num_error :=
  let '(neg, ds) :=
    match s with
    | String c ds =>
      if decide (c = "-"%char) then (true, ds)
      else if decide (c = "+"%char) then (false, ds) else (false, s)
    | EmptyString => (false, s)
    end in
  let '(un, err) := ParseUint ds in
  match err with
  | Some ErrSyntax => (0, Some ErrSyntax)
  | _ =>
    if negb neg && (2 ^ 63 <=? un) then (MaxInt64, Some ErrRange)
    else if neg && (2 ^ 63 <? un) then (MinInt64, Some ErrRange)
    else (if neg then - un else un, None)
  end.

(** [Atoi] is [ParseInt] at the width of [int]. *)
Definition Atoi : string → Z * option num_error := ParseInt.

(** [n, err := strconv.Atoi(s); err == nil]. *)
Definition atoi_ok (s : string) : option Z :=
  match Atoi s with (n, None) => Some n | (_, Some _) => None end.

(** ** Package path/filepath *)

(** One component of a path under [Clean], with the components kept so far, last first. *)
Definition clean_step (rooted : bool) (kept : list string) (c : string) : list string :=
  if decide (c = EmptyString ∨ c = ".") then kept
  else if decide (c = "..") then
    match kept with
    | top :: kept' => if decide (top = "..") then c :: kept else kept'
    | [] => if rooted then [] else [c]
    end
  else c :: kept.

Definition path_Clean (path : string) : string :=
  let rooted := HasPrefix path "/" in
  let kept := rev (foldl (clean_step rooted) [] (Split "/" path)) in
  let out := (if rooted then "/" else EmptyString) +:+ Join "/" kept in
  if decide (out = EmptyString) then "." else out.

Definition path_Join (elems : list string) : string :=
  match filter (λ e, e ≠ EmptyString) elems with
  | [] => EmptyString
  | es => path_Clean (Join "/" es)
  end.

(** ** Package fmt: scanning [%d] *)

Fixpoint span_digits (s : string) : string * string :=
  match s with
  | EmptyString => (EmptyString, EmptyString)
  | String c s' =>
    if is_digit c then prod_map (String c) id (span_digits s') else (EmptyString, s)
  end.

(** Blanks before a number are skipped; a newline there is an error. *)
Fixpoint skip_blanks (s : string) : option string :=
  match s with
  | EmptyString => Some EmptyString
  | String c s' =>
    if decide (c = newline) then None
    else if is_space c then skip_blanks s' else Some s
  end.

(** One [%d] verb: the value and the rest of the input, [None] on an error. *)
Definition scan_d (s : string) : option (Z * string) :=
  s ← skip_blanks s;
  let '(sign, ds) :=
    match s with
    | String c ds =>
      if decide (c = "-"%char) then (String c EmptyString, ds)
      else if decide (c = "+"%char) then (String c EmptyString, ds)
      else (EmptyString, s)
    | EmptyString => (EmptyString, EmptyString)
    end in
  let '(tok, rest) := span_digits ds in
  if decide (tok = EmptyString) then None
  else match ParseInt (sign +:+ tok) with
       | (n, None) => Some (n, rest)
       | (_, Some _) => None
       end.

(** [fmt.Sscanf(s, "%d", &x)]: [x] keeps its value when the scan fails; input after
    the number is ignored. *)
Definition Sscanf_d (s : string) (x : Z) : Z :=
  match scan_d s with Some (n, _) => n | None => x end.

(** ** Package fmt: the verb [%02d] *)

Definition fmt_02d (n : Z) : string :=
  let s := FormatUint (Z.abs n) in
  if n <? 0 then String "-" s
  else if n <? 10 then String "0" s else s.

(** ** Package time

    A [Time] is the number of nanoseconds since the zero time (January 1, year 1,
    UTC); a [Duration] a number of nanoseconds. *)

Abbreviation Time := Z (only parsing).
Abbreviation Duration := Z (only parsing).

Definition Nanosecond : Z := 1.
Definition Second : Z := 1000000000.
Definition Minute : Z := 60 * Second.
Definition Hour : Z := 60 * Minute.

Definition zero_time : Time := 0.
Definition IsZero (t : Time) : bool := t =? 0.
Definition Before (t u : Time) : bool := t <? u.
Definition After (t u : Time) : bool := u <? t.

(** [t.Sub(u)] saturates at the largest and smallest [Duration]. *)
Definition Sub (t u : Time) : Duration := Z.max MinInt64 (Z.min MaxInt64 (t - u)).
Definition Add (t : Time) (d : Duration) : Time := t + d.

(** Seconds from the zero time to the Unix epoch. *)
Definition unix_epoch : Z := 62135596800.
Definition time_Unix (sec : Z) : Time := (sec + unix_epoch) * Second.
Definition Unix (t : Time) : Z := t / Second - unix_epoch.

(** ** Lemmas: byte strings *)

Lemma app_str_nil_r (s : string) : s +:+ "" = s.
Proof. induction s; simpl; congruence. Qed.

Lemma app_str_assoc (a b c : string) : (a +:+ b) +:+ c = a +:+ (b +:+ c).
Proof. induction a; simpl; congruence. Qed.

Lemma len_app a b : len (a +:+ b) = len a + len b.
Proof. unfold len. induction a; simpl; lia. Qed.

Lemma len_nonneg s : 0 ≤ len s.
Proof. unfold len. lia. Qed.

Lemma len_cons c s : len (String c s) = 1 + len s.
Proof. unfold len. simpl. lia. Qed.

Lemma has_byte_app c a b : has_byte c (a +:+ b) = has_byte c a || has_byte c b.
Proof. induction a; simpl; [done|]. by rewrite IHa, orb_assoc. Qed.

Lemma all_bytes_app p a b : all_bytes p (a +:+ b) = all_bytes p a && all_bytes p b.
Proof. induction a; simpl; [done|]. by rewrite IHa, andb_assoc. Qed.

Lemma all_bytes_has p c s : all_bytes p s = true → p c = false → has_byte c s = false.
Proof.
  induction s as [|d s IH]; simpl; [done|]. intros [??]%andb_true_iff ?.
  rewrite IH by done. rewrite bool_decide_eq_false_2 by congruence. done.
Qed.

Lemma cut_app c a b : has_byte c a = false → cut c (a +:+ String c b) = Some (a, b).
Proof.
  induction a as [|d a IH]; simpl; intros Ha.
  - by rewrite decide_True.
  - apply orb_false_iff in Ha as [Hd%bool_decide_eq_false ?].
    rewrite decide_False by done. by rewrite IH.
Qed.

Lemma cut_none c s : cut c s = None ↔ has_byte c s = false.
Proof.
  induction s as [|d s IH]; simpl; [done|]. case_decide.
  - subst. rewrite bool_decide_eq_true_2 by done. done.
  - rewrite bool_decide_eq_false_2 by done. simpl. rewrite <- IH. destruct (cut c s); done.
Qed.

Lemma cut_some c s a b :
  cut c s = Some (a, b) → s = a +:+ String c b ∧ has_byte c a = false.
Proof.
  revert a. induction s as [|d s IH]; simpl; intros a; [done|]. case_decide.
  - intros [= <- <-]. by subst.
  - destruct (cut c s) as [[a' b']|] eqn:E; simpl; [|done]. intros [= <- <-].
    destruct (IH a' eq_refl) as [-> Ha']. simpl. rewrite Ha'.
    by rewrite bool_decide_eq_false_2.
Qed.

Lemma strip_prefix_app p s : strip_prefix p (p +:+ s) = Some s.
Proof. induction p; simpl; [done|]. by rewrite decide_True. Qed.

Lemma strip_prefix_some p s t : strip_prefix p s = Some t → s = p +:+ t.
Proof.
  revert s. induction p as [|a p IH]; simpl; intros s; [by intros [= ->]|].
  destruct s as [|b s]; [done|]. case_decide; [|done]. subst.
  intros ?%IH. by subst.
Qed.

Lemma HasPrefix_strip s p : HasPrefix s p = bool_decide (is_Some (strip_prefix p s)).
Proof.
  unfold HasPrefix. revert s. induction p as [|a p IH]; intros s; simpl.
  - by destruct s.
  - destruct s as [|b s]; [done|]. simpl. case_decide.
    + subst. destruct (ascii_dec b b); [|done]. apply IH.
    + destruct (ascii_dec a b); [done|]. done.
Qed.

(** *** Split and Join *)

Lemma Split_nonempty c s : Split c s ≠ [].
Proof. destruct s; simpl; [done|]. case_decide; [done|]. by destruct (Split c s). Qed.

Lemma Split_no_sep c s : has_byte c s = false → Split c s = [s].
Proof.
  induction s as [|d s IH]; simpl; [done|].
  intros [Hd%bool_decide_eq_false ?]%orb_false_iff.
  rewrite decide_False by done. by rewrite IH.
Qed.

Lemma Split_cons c a s :
  has_byte c a = false → Split c (a +:+ String c s) = a :: Split c s.
Proof.
  induction a as [|d a IH]; simpl; intros Ha.
  - by rewrite decide_True.
  - apply orb_false_iff in Ha as [Hd%bool_decide_eq_false ?].
    rewrite decide_False by done. by rewrite IH.
Qed.

Lemma Split_Join c l :
  l ≠ [] → Forall (λ x, has_byte c x = false) l → Split c (Join (String c "") l) = l.
Proof.
  intros Hl HF. induction HF as [|x l Hx HF IH]; [done|].
  destruct l as [|y l].
  - simpl. by apply Split_no_sep.
  - change (Join (String c "") (x :: y :: l))
      with (x +:+ String c (Join (String c "") (y :: l))).
    rewrite Split_cons by done. by rewrite IH.
Qed.

Lemma Split_elem_no_sep c s x : x ∈ Split c s → has_byte c x = false.
Proof.
  revert x. induction s as [|d s IH]; simpl; intros x.
  - by intros ->%list_elem_of_singleton.
  - case_decide as Hd.
    + intros [->|?]%elem_of_cons; [done|auto].
    + destruct (Split c s) as [|y l] eqn:E.
      * intros ->%list_elem_of_singleton. simpl. by rewrite bool_decide_eq_false_2.
      * intros [->|?]%elem_of_cons.
        -- simpl. rewrite bool_decide_eq_false_2 by done. apply IH. left.
        -- apply IH. by right.
Qed.

Lemma Join_Split c s : Join (String c "") (Split c s) = s.
Proof.
  induction s as [|d s IH]; simpl; [done|]. case_decide.
  - subst. destruct (Split c s) as [|y l] eqn:E; [by apply Split_nonempty in E|].
    simpl in *. by rewrite IH.
  - destruct (Split c s) as [|y l] eqn:E; [by apply Split_nonempty in E|].
    destruct l; simpl in *; congruence.
Qed.

(** *** Trimming *)

Definition trimmed (s : string) : Prop := TrimSpace s = s.
#[export] Instance trimmed_dec s : Decision (trimmed s).
Proof. unfold trimmed. apply _. Defined.

Definition no_space (s : string) : bool := all_bytes (λ c, negb (is_space c)) s.

Lemma trim_left_no_space s : no_space s = true → trim_left s = s.
Proof. destruct s; simpl; [done|]. intros [H%negb_true_iff _]%andb_true_iff. by rewrite H. Qed.

Lemma trim_right_no_space s : no_space s = true → trim_right s = s.
Proof.
  unfold no_space. induction s as [|c s IH]; simpl; [done|].
  intros [H%negb_true_iff Hs]%andb_true_iff. rewrite H. simpl. by rewrite IH.
Qed.

Lemma TrimSpace_no_space s : no_space s = true → TrimSpace s = s.
Proof.
  intros H. unfold TrimSpace. rewrite trim_left_no_space by done.
  by apply trim_right_no_space.
Qed.

Lemma trim_right_idemp s : trim_right (trim_right s) = trim_right s.
Proof.
  induction s as [|c s IH]; simpl; [done|].
  destruct (is_space c && bool_decide (trim_right s = "")) eqn:E; [done|].
  simpl. by rewrite IH, E.
Qed.

Lemma trim_left_right s : trim_left (trim_right (trim_left s)) = trim_right (trim_left s).
Proof.
  assert (∀ s, match trim_left s with "" => True | String c _ => is_space c = false end)
    as Hl.
  { induction s0 as [|c s0 IH]; simpl; [done|]. destruct (is_space c) eqn:E; simpl; auto. }
  specialize (Hl s). destruct (trim_left s) as [|c t]; [done|].
  simpl. rewrite Hl. simpl. by rewrite Hl.
Qed.

Lemma TrimSpace_idemp s : TrimSpace (TrimSpace s) = TrimSpace s.
Proof. unfold TrimSpace. rewrite trim_left_right. apply trim_right_idemp. Qed.

(** *** Fields *)

Lemma fields_go_word w acc s :
  no_space w = true → fields_go (w +:+ s) acc = fields_go s (acc +:+ w).
Proof.
  revert acc. induction w as [|c w IH]; simpl; intros acc.
  - by rewrite app_str_nil_r.
  - intros [H%negb_true_iff Hw]%andb_true_iff. rewrite H, IH by done.
    by rewrite app_str_assoc.
Qed.

Lemma Fields_word w : no_space w = true → w ≠ "" → Fields w = [w].
Proof.
  intros Hw Hne. unfold Fields.
  rewrite <- (app_str_nil_r w) at 1. rewrite fields_go_word by done.
  simpl. by rewrite decide_False.
Qed.

Lemma fields_go_clean s acc x :
  no_space acc = true → x ∈ fields_go s acc → no_space x = true ∧ x ≠ "".
Proof.
  revert acc. induction s as [|c s IH]; simpl; intros acc Hacc.
  - case_decide; [by intros ?%elem_of_nil|]. intros ->%list_elem_of_singleton. auto.
  - destruct (is_space c) eqn:Hc.
    + intros [Hx|Hx]%elem_of_app; [|by apply IH in Hx].
      case_decide; [by apply elem_of_nil in Hx|].
      apply list_elem_of_singleton in Hx as ->. auto.
    + apply IH. unfold no_space in *. rewrite all_bytes_app, Hacc. simpl. by rewrite Hc.
Qed.

Lemma Fields_clean s x : x ∈ Fields s → no_space x = true ∧ x ≠ "".
Proof. by apply fields_go_clean. Qed.

(** *** Decimal numbers *)

Lemma byte_val_of z : 0 ≤ z < 256 → byte_val (byte_of z) = z.
Proof. intros ?. unfold byte_val, byte_of. rewrite nat_ascii_embedding by lia. lia. Qed.

Lemma byte_val_range c : 0 ≤ byte_val c < 256.
Proof. unfold byte_val. pose proof (nat_ascii_bounded c). lia. Qed.

Lemma byte_of_val c : byte_of (byte_val c) = c.
Proof. unfold byte_val, byte_of. by rewrite Nat2Z.id, ascii_nat_embedding. Qed.

Lemma digit_char_val d : 0 ≤ d < 10 → digit_val (digit_char d) = d.
Proof. intros ?. unfold digit_val, digit_char. rewrite byte_val_of by lia. lia. Qed.

Lemma digit_char_digit d : 0 ≤ d < 10 → is_digit (digit_char d) = true.
Proof. intros ?. unfold is_digit, digit_char. rewrite byte_val_of by lia. lia. Qed.

Lemma fmt_digits_S fuel n acc :
  fmt_digits (S fuel) n acc =
  let acc := String (digit_char (n mod 10)) acc in
  if n <? 10 then acc else fmt_digits fuel (n / 10) acc.
Proof. done. Qed.

Lemma fmt_digits_app fuel n acc : fmt_digits fuel n acc = fmt_digits fuel n "" +:+ acc.
Proof.
  revert n acc. induction fuel as [|fuel IH]; intros n acc; simpl; [done|].
  destruct (n <? 10); [done|].
  rewrite IH, (IH _ (String _ "")), app_str_assoc. done.
Qed.

Lemma fmt_digits_len fuel n acc :
  len (fmt_digits fuel n acc) ≤ Z.of_nat fuel + len acc.
Proof.
  revert n acc. induction fuel as [|fuel IH]; intros n acc; simpl; [lia|].
  destruct (n <? 10); [rewrite len_cons; lia|].
  etrans; [apply IH|]. rewrite len_cons. lia.
Qed.

Lemma fmt_digits_digits fuel n :
  0 ≤ n → all_bytes is_digit (fmt_digits fuel n "") = true.
Proof.
  revert n. induction fuel as [|fuel IH]; intros n Hn; simpl; [done|].
  pose proof (Z.mod_pos_bound n 10 ltac:(lia)).
  assert (is_digit (digit_char (n mod 10)) = true) as Hd
    by (apply digit_char_digit; lia).
  destruct (n <? 10); simpl; [by rewrite Hd|].
  rewrite fmt_digits_app, all_bytes_app. simpl. rewrite Hd, IH; [done|].
  apply Z.div_pos; lia.
Qed.

(** The value of a digit string continued from an accumulator. *)
Fixpoint dec_value (acc : Z) (s : string) : Z :=
  match s with
  | "" => acc
  | String c s => dec_value (acc * 10 + digit_val c) s
  end.

Lemma dec_value_app acc a b : dec_value acc (a +:+ b) = dec_value (dec_value acc a) b.
Proof. revert acc. induction a; simpl; intros acc; [done|]. apply IHa. Qed.

Lemma dec_value_mono acc s :
  0 ≤ acc → all_bytes is_digit s = true → acc ≤ dec_value acc s.
Proof.
  revert acc. induction s as [|c s IH]; simpl; intros acc Hacc; [lia|].
  intros [Hc Hs]%andb_true_iff. unfold is_digit in Hc. bool_to_prop.
  etrans; [|apply IH; [|done]]; unfold digit_val; lia.
Qed.

Lemma dec_value_fmt_digits fuel n :
  0 ≤ n < 10 ^ Z.of_nat fuel → dec_value 0 (fmt_digits fuel n "") = n.
Proof.
  revert n. induction fuel as [|fuel IH]; intros n Hn; simpl.
  - change (10 ^ Z.of_nat 0) with 1 in Hn. lia.
  - pose proof (Z.mod_pos_bound n 10 ltac:(lia)).
    pose proof (Z.div_mod n 10 ltac:(lia)).
    destruct (n <? 10) eqn:E; bool_to_prop; simpl.
    + rewrite digit_char_val by lia. rewrite Z.mod_small by lia. lia.
    + rewrite fmt_digits_app, dec_value_app, IH.
      * simpl. rewrite digit_char_val by lia. lia.
      * rewrite Nat2Z.inj_succ, Z.pow_succ_r in Hn by lia.
        split; [apply Z.div_pos; lia|]. apply Z.div_lt_upper_bound; lia.
Qed.

Lemma parse_digits_value acc s :
  0 ≤ acc → all_bytes is_digit s = true → dec_value acc s ≤ MaxUint64 →
  parse_digits acc s = (dec_value acc s, None).
Proof.
  revert acc. induction s as [|c s IH]; simpl; intros acc Hacc; [done|].
  intros [Hc Hs]%andb_true_iff Hv. rewrite Hc.
  assert (0 ≤ acc * 10 + digit_val c).
  { unfold is_digit in Hc. bool_to_prop. unfold digit_val. lia. }
  pose proof (dec_value_mono (acc * 10 + digit_val c) s) as Hm.
  destruct (MaxUint64 <? _) eqn:E; bool_to_prop; [|by apply IH].
  specialize (Hm ltac:(done) Hs). lia.
Qed.

Lemma FormatUint_digits n : 0 ≤ n → all_bytes is_digit (FormatUint n) = true.
Proof. apply fmt_digits_digits. Qed.

Lemma FormatUint_nonempty n : FormatUint n ≠ "".
Proof.
  unfold FormatUint. rewrite fmt_digits_S. cbv zeta.
  destruct (n <? 10); [done|]. rewrite fmt_digits_app.
  by destruct (fmt_digits 19 _ "").
Qed.

Lemma FormatUint_len n : 1 ≤ len (FormatUint n) ≤ 20.
Proof.
  split.
  - pose proof (FormatUint_nonempty n). destruct (FormatUint n); [done|].
    rewrite len_cons. pose proof (len_nonneg s). lia.
  - apply (fmt_digits_len 20 n "").
Qed.

Lemma FormatUint_small n : 0 ≤ n < 10 → FormatUint n = String (digit_char n) "".
Proof.
  intros ?. unfold FormatUint. rewrite fmt_digits_S. cbv zeta.
  rewrite Z.mod_small by lia. by replace (n <? 10) with true by lia.
Qed.

(** A number above 1 has fewer digits than its value. *)
Lemma fmt_digits_len_lt fuel n : 1 < n → len (fmt_digits fuel n "") < n.
Proof.
  revert n. induction fuel as [|fuel IH]; intros n Hn; [simpl; unfold len; simpl; lia|].
  rewrite fmt_digits_S. cbv zeta. destruct (n <? 10) eqn:E; bool_to_prop.
  - unfold len. simpl. lia.
  - rewrite fmt_digits_app, len_app. change (len (String _ "")) with 1.
    pose proof (Z.div_mod n 10 ltac:(lia)). pose proof (Z.mod_pos_bound n 10 ltac:(lia)).
    destruct (decide (1 < n / 10)) as [Hq|Hq]; [specialize (IH (n / 10) Hq); lia|].
    assert (n / 10 = 1) as -> by lia.
    destruct fuel; [unfold len; simpl; lia|].
    rewrite fmt_digits_S. cbn. change (len (String _ "")) with 1. lia.
Qed.

Lemma Itoa_len_lt n : 1 < n → 1 ≤ len (Itoa n) < n.
Proof.
  intros Hn. unfold Itoa, FormatInt. replace (n <? 0) with false by lia.
  split; [apply FormatUint_len|by apply fmt_digits_len_lt].
Qed.

Lemma ParseUint_FormatUint n : is_uint64 n → ParseUint (FormatUint n) = (n, None).
Proof.
  intros Hn. unfold_int.
  assert (dec_value 0 (FormatUint n) = n) as Hv by (apply dec_value_fmt_digits; lia).
  pose proof (FormatUint_nonempty n). pose proof (FormatUint_digits n ltac:(lia)) as Hd.
  unfold ParseUint. destruct (FormatUint n) as [|c s] eqn:E; [done|].
  rewrite parse_digits_value; [by rewrite Hv|lia|done|].
  rewrite Hv. unfold_int. lia.
Qed.

(** A digit string has no sign, so [ParseInt] is [ParseUint] on it. *)
Lemma ParseInt_FormatUint n : 0 ≤ n ≤ MaxInt64 → ParseInt (FormatUint n) = (n, None).
Proof.
  intros Hn. pose proof (ParseUint_FormatUint n) as HP.
  pose proof (FormatUint_digits n ltac:(lia)) as Hd.
  pose proof (FormatUint_nonempty n). unfold ParseInt.
  destruct (FormatUint n) as [|c s]; [done|]. simpl in Hd.
  apply andb_true_iff in Hd as [Hc _].
  rewrite decide_False by (intros ->; done). rewrite decide_False by (intros ->; done).
  rewrite HP by (unfold_int; lia). simpl.
  replace (2 ^ 63 <=? n) with false by (unfold_int; lia). done.
Qed.

Lemma ParseInt_FormatUint_big n :
  MaxInt64 < n ≤ MaxUint64 → ParseInt (FormatUint n) = (MaxInt64, Some ErrRange).
Proof.
  intros Hn. pose proof (ParseUint_FormatUint n) as HP. unfold_int.
  pose proof (FormatUint_digits n ltac:(lia)) as Hd.
  pose proof (FormatUint_nonempty n). unfold ParseInt.
  destruct (FormatUint n) as [|c s]; [done|]. simpl in Hd.
  apply andb_true_iff in Hd as [Hc _].
  rewrite decide_False by (intros ->; done). rewrite decide_False by (intros ->; done).
  rewrite HP by lia. simpl. by replace (2 ^ 63 <=? n) with true by lia.
Qed.

Lemma ParseInt_FormatInt n : is_int64 n → ParseInt (FormatInt n) = (n, None).
Proof.
  intros Hn. unfold FormatInt. destruct (n <? 0) eqn:E; bool_to_prop.
  - unfold ParseInt. rewrite decide_True by done.
    rewrite ParseUint_FormatUint by (unfold_int; lia). simpl.
    replace (2 ^ 63 <? - n) with false by (unfold_int; lia). f_equal. lia.
  - apply ParseInt_FormatUint. unfold_int. lia.
Qed.

Lemma parse_digits_nonneg acc s n e : 0 ≤ acc → parse_digits acc s = (n, e) → 0 ≤ n.
Proof.
  revert acc. induction s as [|c s IH]; simpl; intros acc Ha; [by intros [= <- _]|].
  destruct (is_digit c) eqn:Hc; [|intros [= <- _]; lia].
  destruct (MaxUint64 <? _); [intros [= <- _]; unfold_int; lia|].
  apply IH. unfold is_digit in Hc. bool_to_prop. unfold digit_val. lia.
Qed.

Lemma ParseInt_range s n e : ParseInt s = (n, e) → is_int64 n.
Proof.
  unfold ParseInt. destruct (match s with "" => _ | _ => _ end) as [neg ds].
  destruct (ParseUint ds) as [un err] eqn:E.
  assert (0 ≤ un).
  { revert E. unfold ParseUint. destruct ds as [|c ds]; [intros [= <- _]; lia|].
    by apply parse_digits_nonneg. }
  destruct err as [[]|]; destruct neg; simpl; repeat case_match; intros [= <- <-];
    bool_to_prop; unfold_int; lia.
Qed.

(** *** Scanning [%d] *)

Lemma span_digits_app a b :
  all_bytes is_digit a = true →
  (match b with String c _ => is_digit c = false | "" => True end) →
  span_digits (a +:+ b) = (a, b).
Proof.
  intros Ha Hb. induction a as [|c a IH]; simpl in *.
  - destruct b; simpl; [done|]. by rewrite Hb.
  - apply andb_true_iff in Ha as [Hc Ha]. rewrite Hc, IH by done. done.
Qed.

Lemma is_digit_not_space c : is_digit c = true → is_space c = false.
Proof. unfold is_digit, is_space. intros ?. bool_to_prop. lia. Qed.

Lemma digit_ne_newline c : is_digit c = true → c ≠ newline.
Proof. intros H ->. done. Qed.

(** Scanning a printed [int64] gives it back, whatever non-digit follows. *)
Lemma scan_d_FormatInt n b :
  is_int64 n → (match b with String c _ => is_digit c = false | "" => True end) →
  scan_d (FormatInt n +:+ b) = Some (n, b).
Proof.
  intros Hn Hb. pose proof (ParseInt_FormatInt n Hn) as HP.
  unfold FormatInt in *. destruct (n <? 0) eqn:E; bool_to_prop.
  - pose proof (FormatUint_digits (- n) ltac:(lia)) as Hd.
    pose proof (FormatUint_nonempty (- n)) as Hne.
    unfold scan_d. simpl. rewrite span_digits_app, decide_False by done. by rewrite HP.
  - pose proof (FormatUint_digits n ltac:(lia)) as Hd.
    pose proof (FormatUint_nonempty n) as Hne.
    destruct (FormatUint n) as [|c s] eqn:Es; [done|].
    pose proof Hd as Hd'. simpl in Hd'. apply andb_true_iff in Hd' as [Hc _].
    unfold scan_d. simpl. rewrite decide_False by by apply digit_ne_newline.
    rewrite (is_digit_not_space c) by done. simpl.
    rewrite (decide_False (P := c = "-"%char)) by (intros ->; done).
    rewrite (decide_False (P := c = "+"%char)) by (intros ->; done).
    change (String c (s +:+ b)) with (String c s +:+ b).
    rewrite span_digits_app by done. rewrite decide_False by done. simpl.
    by rewrite HP.
Qed.

Lemma Sscanf_d_Itoa n x : is_int64 n → Sscanf_d (Itoa n) x = n.
Proof.
  intros Hn. unfold Sscanf_d, Itoa. rewrite <- (app_str_nil_r (FormatInt n)).
  by rewrite scan_d_FormatInt.
Qed.

Lemma Atoi_Itoa v : is_int64 v → Atoi (Itoa v) = (v, None).
Proof. apply ParseInt_FormatInt. Qed.

Lemma atoi_ok_Itoa v : is_int64 v → atoi_ok (Itoa v) = Some v.
Proof. intros Hv. unfold atoi_ok. by rewrite Atoi_Itoa. Qed.

Lemma FormatInt_no_space n : no_space (FormatInt n) = true.
Proof.
  assert (∀ s, all_bytes is_digit s = true → no_space s = true) as Hs.
  { unfold no_space. induction s as [|c s IH]; simpl; [done|].
    intros [Hc ?]%andb_true_iff. rewrite (is_digit_not_space c Hc), IH; done. }
  unfold FormatInt. destruct (n <? 0) eqn:E; bool_to_prop.
  - change (no_space (FormatUint (- n)) = true). apply Hs, FormatUint_digits. lia.
  - apply Hs, FormatUint_digits. lia.
Qed.

(** *** Time *)

Lemma Unix_time_Unix sec : Unix (time_Unix sec) = sec.
Proof. unfold Unix, time_Unix, Second. rewrite Z.div_mul by lia. lia. Qed.

(** Truncating a time to the second. *)
Lemma time_Unix_Unix t : time_Unix (Unix t) = t - t mod Second.
Proof.
  unfold Unix, time_Unix, Second.
  pose proof (Z.div_mod t 1000000000 ltac:(lia)). lia.
Qed.

Create HintDb go_str.
#[export] Hint Resolve TrimSpace_no_space FormatInt_no_space FormatUint_nonempty
  TrimSpace_idemp : go_str.

(** ** Package sort

    [sort.Slice] is not stable: its result is some sorted permutation.  What callers
    rely on is this interface; [insertion_sort], which is stable, implements it and is
    what [sort.SliceStable] computes. *)

Class strict_weak {A} (less : A → A → bool) : Prop := {
  sw_asym : ∀ x y, less x y = true → less y x = false;
  sw_negtrans : ∀ x y z, less x y = false → less y z = false → less x z = false;
}.

Class SliceSort := {
  sort_Slice : ∀ {A : Type}, (A → A → bool) → list A → list A;
  sort_Slice_perm : ∀ {A} (less : A → A → bool) l, sort_Slice less l ≡ₚ l;
  sort_Slice_sorted : ∀ {A} (less : A → A → bool) l, strict_weak less →
    Sorted (λ x y, less y x = false) (sort_Slice less l);
}.

Fixpoint insert_by {A} (less : A → A → bool) (x : A) (l : list A) : list A :=
  match l with
  | [] => [x]
  | y :: l' => if less y x then y :: insert_by less x l' else x :: l
  end.
Definition insertion_sort {A} (less : A → A → bool) (l : list A) : list A :=
  foldr (insert_by less) [] l.

Lemma insert_by_perm {A} (less : A → A → bool) x l : insert_by less x l ≡ₚ x :: l.
Proof.
  induction l as [|y l IH]; simpl; [done|]. destruct (less y x); [|done].
  rewrite IH. apply Permutation_swap.
Qed.

Lemma insertion_sort_perm {A} (less : A → A → bool) l : insertion_sort less l ≡ₚ l.
Proof. induction l as [|x l IH]; simpl; [done|]. by rewrite insert_by_perm, IH. Qed.

Lemma insert_by_sorted {A} (less : A → A → bool) `{!strict_weak less} x l :
  Sorted (λ x y, less y x = false) l → Sorted (λ x y, less y x = false) (insert_by less x l).
Proof.
  induction 1 as [|y l Hs IH Hh]; simpl; [by repeat constructor|].
  destruct (less y x) eqn:E; [|by repeat constructor]. constructor; [done|].
  destruct Hh as [|z l Hz]; simpl; [constructor; by apply sw_asym|].
  destruct (less z x); constructor; [done|by apply sw_asym].
Qed.

Lemma insertion_sort_sorted {A} (less : A → A → bool) l :
  strict_weak less → Sorted (λ x y, less y x = false) (insertion_sort less l).
Proof. intros H. induction l as [|x l IH]; simpl; [constructor|by apply insert_by_sorted]. Qed.

#[export] Instance stable_SliceSort : SliceSort := {
  sort_Slice := @insertion_sort;
  sort_Slice_perm := @insertion_sort_perm;
  sort_Slice_sorted := @insertion_sort_sorted;
}.

(** [sort.Strings], by the order of bytes. *)
Definition sort_Strings : list string → list string := insertion_sort String.ltb.

Lemma sort_Strings_perm l : sort_Strings l ≡ₚ l.
Proof. apply insertion_sort_perm. Qed.

(** ** Suffixes *)

Lemma strip_suffix_eq x s :
  strip_suffix x s = if decide (s = x) then Some ""
    else match s with EmptyString => None | String c s => String c <$> strip_suffix x s end.
Proof. by destruct s. Qed.

Lemma strip_suffix_app x p : strip_suffix x (p +:+ x) = Some p.
Proof.
  induction p as [|c p IH].
  - change ("" +:+ x) with x. rewrite strip_suffix_eq. by rewrite decide_True.
  - change (String c p +:+ x) with (String c (p +:+ x)). rewrite strip_suffix_eq.
    rewrite decide_False, IH; [done|]. intros E. apply (f_equal len) in E.
    rewrite len_cons, len_app in E. pose proof (len_nonneg p). lia.
Qed.

Lemma strip_suffix_some x s p : strip_suffix x s = Some p → s = p +:+ x.
Proof.
  revert p. induction s as [|c s IH]; intros p; rewrite strip_suffix_eq; destruct (decide _) as [Hs|Hs]; intros E;
    [injection E as <-; by rewrite <- Hs|done|injection E as <-; by rewrite <- Hs|].
  apply fmap_Some in E as (q & Hq & ->). by rewrite (IH _ Hq).
Qed.

Lemma app_str_inj_r x a b : a +:+ x = b +:+ x → a = b.
Proof. intros E. apply (f_equal (strip_suffix x)) in E. rewrite !strip_suffix_app in E. by simplify_eq. Qed.

Fixpoint last_byte (s : string) : option ascii :=
  match s with
  | EmptyString => None
  | String c s => Some (default c (last_byte s))
  end.

Lemma last_byte_app a c s : last_byte (a +:+ String c s) = last_byte (String c s).
Proof.
  induction a as [|d a IH]; [done|]. change (String d a +:+ String c s) with (String d (a +:+ String c s)).
  cbn [last_byte]. by rewrite IH.
Qed.

(** Strings that end in different bytes differ. *)
Lemma app_str_ne_last a b c s d t :
  last_byte (String c s) ≠ last_byte (String d t) → a +:+ String c s ≠ b +:+ String d t.
Proof. intros Hne E. apply Hne. by rewrite <- (last_byte_app a), E, last_byte_app. Qed.
