(* ===== verification/Dis.v ===== *)
(** * The DIS wire format: internal/dis/codec.go

    The reader and writer of the "Data Is Strings" encoding every OpenTorque
    component speaks.  A stream is the byte string still to be read, after which
    the connection is closed; a reader returns its result and the rest of the
    stream, also when it fails, because several callers ignore an error and read
    on. *)

From S2P Require Import Prelude GoStd.

Local Open Scope string_scope.
Local Open Scope Z_scope.

(** ** Errors

    [Wrapped e] is [fmt.Errorf("...: %w", e)]: it carries [e] and is never equal
    to it. *)
Inductive io_error :=
  | EOF
  | ErrUnexpectedEOF
  | ErrParseDigits        (* dis: parse digits *)
  | ErrNonDigit           (* dis: non-digit in count *)
  | ErrLeadingZero        (* dis: leading zero in count *)
  | ErrUnexpectedByte     (* dis: unexpected byte *)
  | ErrNegative           (* dis: ReadUint: unexpected negative *)
  | Wrapped (e : io_error).

#[export] Instance io_error_eq_dec : EqDecision io_error.
Proof. solve_decision. Defined.

(** ** The reader monad *)

Definition Reader (A : Type) : Type := string → result io_error A * string.

#[export] Instance Reader_ret : MRet Reader := λ A a s, (Ok a, s).
#[export] Instance Reader_bind : MBind Reader := λ A B f m s,
  match m s with
  | (Ok a, s) => f a s
  | (Err e, s) => (Err e, s)
  | (Panic, s) => (Panic, s)
  end.

Definition fail {A} (e : io_error) : Reader A := λ s, (Err e, s).
Definition panic {A} : Reader A := λ s, (Panic, s).

(** [wrap m] re-labels the error of [m] with [fmt.Errorf("...: %w", err)]. *)
Definition wrap {A} (m : Reader A) : Reader A := λ s,
  let '(r, s) := m s in (map_err Wrapped r, s).

(** [ignore m] runs [m] and drops its value and its error, as the statement
    [r.ReadUint()] does; a panic is not dropped. *)
Definition ignore {A} (m : Reader A) : Reader () := λ s,
  match m s with
  | (Panic, s) => (Panic, s)
  | (_, s) => (Ok (), s)
  end.

(** ** Buffers *)

Fixpoint str_split (n : nat) (s : string) : string * string :=
  match n, s with
  | O, _ => ("", s)
  | _, "" => ("", "")
  | S n, String c s => prod_map (String c) id (str_split n s)
  end.

(** The largest allocation the run time accepts (48 address bits, amd64): a
    [make] of more bytes panics. *)
Definition maxAlloc : Z := 2 ^ 48.

(** [make([]byte, n)] followed by [io.ReadFull]. *)
Definition read_full (n : Z) : Reader string := λ s,
  if (n <? 0) || (maxAlloc <? n) then (Panic, s)
  else if n <=? len s then
    let '(a, b) := str_split (Z.to_nat n) s in (Ok a, b)
  else if decide (s = "") then (Err EOF, "") else (Err ErrUnexpectedEOF, "").

Definition read_byte : Reader ascii := λ s,
  match s with "" => (Err EOF, "") | String c s => (Ok c, s) end.

(** ** Reading numbers: (Reader).disrsi *)

(** The loop over the remaining count digits, in [int] arithmetic. *)
Fixpoint count_digits (ndigs : Z) (buf : string) : result io_error Z :=
  match buf with
  | "" => Ok ndigs
  | String b buf =>
    if is_digit b then count_digits (int64 (10 * ndigs + digit_val b)) buf
    else Err ErrNonDigit
  end.

(** One call of [disrsi]: [rec] is the recursive call. *)
Definition disrsi_body (rec : Z → Reader (Z * bool)) (count : Z) : Reader (Z * bool) :=
  c ← read_byte;
  if bool_decide (c = "+"%char) || bool_decide (c = "-"%char) then
    buf ← read_full count;
    match ParseInt buf with
    | (val, None) => mret (val, bool_decide (c = "-"%char))
    | (_, Some _) => fail ErrParseDigits
    end
  else if is_digit c && negb (bool_decide (c = "0"%char)) then
    let ndigs := digit_val c in
    if 1 <? count then
      buf ← read_full (count - 1);
      match count_digits ndigs buf with
      | Ok ndigs => rec ndigs
      | Err e => fail e
      | Panic => panic
      end
    else rec ndigs
  else if bool_decide (c = "0"%char) then fail ErrLeadingZero
  else fail ErrUnexpectedByte.

(** Every call reads at least one byte, so a fuel larger than the stream is
    enough; [None] is running out of it. *)
Fixpoint disrsi_fuel (fuel : nat) (count : Z) (s : string) :
    option (result io_error (Z * bool) * string) :=
  match fuel with
  | O => None
  | S fuel =>
    Some (disrsi_body
            (λ ndigs s, default (Panic, s) (disrsi_fuel fuel ndigs s)) count s)
  end.

Definition disrsi (count : Z) : Reader (Z * bool) := λ s,
  default (Panic, s) (disrsi_fuel (S (String.length s)) count s).

(** (Reader).ReadUint *)
Definition ReadUint : Reader Z :=
  '(val, negate) ← wrap (disrsi 1);
  if (negate : bool) then fail ErrNegative else mret (uint64 val).

(** (Reader).ReadInt *)
Definition ReadInt : Reader Z :=
  '(val, negate) ← wrap (disrsi 1);
  mret (if (negate : bool) then int64 (- val) else val).

(** (Reader).ReadString *)
Definition ReadString : Reader string :=
  length ← wrap ReadUint;
  if length =? 0 then mret "" else wrap (read_full length).

(** ** Writing: (Writer).WriteUint, WriteInt, WriteString

    The bytes appended to the output buffer.  The errors of the underlying
    connection are not modelled. *)

(** The loop that prepends the count chain to the sign: it ends because the
    number of digits of [n > 1] is below [n]. *)
Fixpoint count_chain (fuel : nat) (ndigs : Z) (prefix : string) : string :=
  match fuel with
  | O => prefix
  | S fuel =>
    if 1 <? ndigs
    then let countStr := Itoa ndigs in
         count_chain fuel (len countStr) (countStr +:+ prefix)
    else prefix
  end.

Definition write_number (sign digits : string) : string :=
  let ndigs := len digits in
  count_chain (Z.to_nat ndigs) ndigs sign +:+ digits.

Definition WriteUint (val : Z) : string := write_number "+" (FormatUint val).

Definition WriteInt (val : Z) : string :=
  if val <? 0 then write_number "-" (FormatInt (int64 (- val)))
  else write_number "+" (FormatInt val).

Definition WriteString (s : string) : string := WriteUint (len s) +:+ s.

(** ** The interface the message layer relies on

    A format pairs a writer with a reader: on every value the format admits, the
    reader gives back what was written and leaves the rest of the stream alone. *)
Class Wire {A} (ok : A → Prop) (put : A → string) (get : Reader A) : Prop :=
  wire_roundtrip a rest : ok a → get (put a +:+ rest) = (Ok a, rest).

(** Values of the three base formats: [ReadUint] parses through [int64]. *)
Definition wire_uint (n : Z) : Prop := 0 ≤ n ≤ MaxInt64.
Definition wire_str (s : string) : Prop := len s ≤ maxAlloc.

#[export] Instance wire_uint_dec n : Decision (wire_uint n).
Proof. unfold wire_uint. apply _. Defined.
#[export] Instance wire_str_dec s : Decision (wire_str s).
Proof. unfold wire_str. apply _. Defined.

(** ** Properties of the reader *)

Lemma str_split_app a b : str_split (String.length a) (a +:+ b) = (a, b).
Proof. induction a; simpl; [done|]. by rewrite IHa. Qed.

Lemma str_split_len n s a b : str_split n s = (a, b) → (String.length b ≤ String.length s)%nat.
Proof.
  revert s a b. induction n as [|n IH]; intros s a b; simpl.
  - intros [= <- <-]. lia.
  - destruct s as [|c s]; [by intros [= <- <-]|].
    destruct (str_split n s) as [a' b'] eqn:E. simpl. intros [= <- <-].
    apply IH in E. lia.
Qed.

Lemma read_full_app a b :
  len a ≤ maxAlloc → read_full (len a) (a +:+ b) = (Ok a, b).
Proof.
  intros Ha. unfold read_full. pose proof (len_nonneg a). pose proof (len_nonneg b).
  replace (len a <? 0) with false by lia. replace (maxAlloc <? len a) with false by lia.
  rewrite len_app. replace (len a <=? len a + len b) with true by lia.
  unfold len. by rewrite Nat2Z.id, str_split_app.
Qed.

Lemma read_full_len n s r s' :
  read_full n s = (r, s') → (String.length s' ≤ String.length s)%nat.
Proof.
  unfold read_full. destruct (_ || _); [by intros [= _ <-]|].
  destruct (n <=? len s).
  - destruct (str_split _ s) as [a b] eqn:E. intros [= _ <-].
    by apply str_split_len in E.
  - case_decide; intros [= _ <-]; simpl; lia.
Qed.

(** [disrsi_body] only depends on the recursive calls on shorter streams. *)
Lemma disrsi_body_ext rec1 rec2 count s :
  (∀ n s', (String.length s' < String.length s)%nat → rec1 n s' = rec2 n s') →
  disrsi_body rec1 count s = disrsi_body rec2 count s.
Proof.
  intros Hrec. unfold disrsi_body, mbind, Reader_bind, read_byte.
  destruct s as [|c s]; [done|]. simpl in Hrec.
  destruct (_ || _); [done|]. destruct (_ && _); [|done].
  destruct (1 <? count); [|apply Hrec; lia].
  destruct (read_full (count - 1) s) as [[buf|e|] s'] eqn:E; [|done..].
  apply read_full_len in E. destruct (count_digits _ buf); [|done..].
  apply Hrec. lia.
Qed.

Lemma disrsi_fuel_enough fuel1 fuel2 count s :
  (String.length s < fuel1)%nat → (String.length s < fuel2)%nat →
  disrsi_fuel fuel1 count s = disrsi_fuel fuel2 count s.
Proof.
  revert fuel2 count s. induction fuel1 as [|f1 IH]; intros [|f2] count s H1 H2;
    [lia..|]. simpl. f_equal. apply disrsi_body_ext. intros n s' Hs.
  f_equal. apply IH; lia.
Qed.

(** The recursive equation of [disrsi], as in the code. *)
Lemma disrsi_eq count s : disrsi count s = disrsi_body disrsi count s.
Proof.
  unfold disrsi at 1. simpl. apply disrsi_body_ext. intros n s' Hs. unfold disrsi.
  f_equal. apply disrsi_fuel_enough; lia.
Qed.

(** *** Reading what the writer writes *)

Lemma count_digits_value acc s :
  0 ≤ acc → all_bytes is_digit s = true → dec_value acc s ≤ MaxInt64 →
  count_digits acc s = Ok (dec_value acc s).
Proof.
  revert acc. induction s as [|c s IH]; simpl; intros acc Hacc; [done|].
  intros [Hc Hs]%andb_true_iff Hv. rewrite Hc. rewrite (Z.mul_comm 10).
  assert (0 ≤ acc * 10 + digit_val c).
  { unfold is_digit in Hc. bool_to_prop. unfold digit_val. lia. }
  pose proof (dec_value_mono (acc * 10 + digit_val c) s ltac:(done) Hs).
  rewrite int64_id by (unfold_int; lia). by apply IH.
Qed.

(** The first digit of a positive number is not zero. *)
Lemma fmt_digits_head fuel n :
  0 < n < 10 ^ Z.of_nat fuel →
  ∃ c s, fmt_digits fuel n "" = String c s ∧ is_digit c = true ∧ c ≠ "0"%char.
Proof.
  revert n. induction fuel as [|fuel IH]; intros n Hn.
  - change (10 ^ Z.of_nat 0) with 1 in Hn. lia.
  - rewrite fmt_digits_S. cbv zeta. destruct (n <? 10) eqn:E; bool_to_prop.
    + exists (digit_char n), "". rewrite Z.mod_small by lia.
      split_and!; [done|apply digit_char_digit; lia|].
      intros H%(f_equal digit_val). rewrite digit_char_val in H by lia.
      change (digit_val "0"%char) with 0 in H. lia.
    + rewrite Nat2Z.inj_succ, Z.pow_succ_r in Hn by lia.
      destruct (IH (n / 10)) as (c & s & Hs & Hc & H0).
      { split; [apply Z.div_str_pos; lia|]. apply Z.div_lt_upper_bound; lia. }
      rewrite fmt_digits_app, Hs. by exists c, (s +:+ String (digit_char (n mod 10)) "").
Qed.

(** Reading the digits of [n] as a count continues with the count [n]. *)
Lemma disrsi_count n s :
  1 < n ≤ MaxInt64 → disrsi (len (Itoa n)) (Itoa n +:+ s) = disrsi n s.
Proof.
  intros Hn. rewrite disrsi_eq. unfold Itoa, FormatInt.
  replace (n <? 0) with false by lia. unfold FormatUint.
  destruct (fmt_digits_head 20 n) as (c & t & Ht & Hc & H0); [unfold_int; lia|].
  pose proof (fmt_digits_digits 20 n ltac:(lia)) as Hd.
  pose proof (dec_value_fmt_digits 20 n ltac:(unfold_int; lia)) as Hv.
  pose proof (fmt_digits_len 20 n "") as Hlen.
  rewrite Ht in *. simpl in Hd. apply andb_true_iff in Hd as [_ Hd].
  unfold disrsi_body, mbind, Reader_bind. simpl.
  rewrite (bool_decide_eq_false_2 (c = "+"%char)) by (intros ->; done).
  rewrite (bool_decide_eq_false_2 (c = "-"%char)) by (intros ->; done).
  rewrite Hc, (bool_decide_eq_false_2 (c = "0"%char)) by done. simpl.
  simpl in Hv. unfold is_digit in Hc. bool_to_prop.
  pose proof (dec_value_mono (0 * 10 + digit_val c) t ltac:(unfold digit_val; lia) Hd).
  rewrite len_cons in *. change (len "") with 0 in Hlen.
  destruct (1 <? 1 + len t) eqn:E; bool_to_prop.
  - replace (1 + len t - 1) with (len t) by lia.
    rewrite read_full_app by (unfold maxAlloc; lia).
    rewrite (count_digits_value (digit_val c));
      [|unfold digit_val; lia|done|by replace (digit_val c) with (0 * 10 + digit_val c) by lia; lia].
    by rewrite <- Hv.
  - destruct t; [|rewrite len_cons in E; pose proof (len_nonneg t); lia].
    simpl in Hv. by replace (digit_val c) with n by lia.
Qed.

(** Reading the count chain of [ndigs] ends in a call with that count. *)
Lemma disrsi_chain fuel ndigs prefix s :
  1 ≤ ndigs ≤ MaxInt64 → (Z.to_nat ndigs ≤ fuel)%nat →
  disrsi 1 (count_chain fuel ndigs prefix +:+ s) = disrsi ndigs (prefix +:+ s).
Proof.
  revert ndigs prefix. induction fuel as [|fuel IH]; intros ndigs prefix Hn Hf; [lia|].
  simpl. destruct (1 <? ndigs) eqn:E; bool_to_prop; [|by replace ndigs with 1 by lia].
  assert (1 ≤ len (Itoa ndigs) < ndigs) as Hlen by by apply Itoa_len_lt.
  rewrite IH by (unfold_int; lia). rewrite app_str_assoc. apply disrsi_count. lia.
Qed.

(** Reading a number: the sign and as many bytes as the count says. *)
Lemma disrsi_signed (c : ascii) digits s v :
  c = "+"%char ∨ c = "-"%char → len digits ≤ maxAlloc → ParseInt digits = (v, None) →
  disrsi (len digits) (String c (digits +:+ s)) = (Ok (v, bool_decide (c = "-"%char)), s).
Proof.
  intros Hc Hl HP. rewrite disrsi_eq. unfold disrsi_body, mbind, Reader_bind. simpl.
  destruct Hc as [-> | ->]; simpl; rewrite read_full_app by done; by rewrite HP.
Qed.

Lemma disrsi_write_number (c : ascii) digits s v :
  c = "+"%char ∨ c = "-"%char → 1 ≤ len digits ≤ 2 ^ 48 → ParseInt digits = (v, None) →
  disrsi 1 (write_number (String c "") digits +:+ s) = (Ok (v, bool_decide (c = "-"%char)), s).
Proof.
  intros Hc Hl HP. unfold write_number. cbv zeta. rewrite app_str_assoc.
  rewrite disrsi_chain by (unfold_int; lia).
  apply (disrsi_signed c digits s v); [done|unfold maxAlloc; lia|done].
Qed.

#[export] Instance Wire_uint : Wire wire_uint WriteUint ReadUint.
Proof.
  intros n rest Hn. unfold wire_uint in Hn. pose proof (FormatUint_len n).
  unfold ReadUint, WriteUint, mbind, Reader_bind, wrap.
  rewrite (disrsi_write_number _ _ _ n) by (auto using ParseInt_FormatUint; lia).
  simpl. rewrite uint64_id by (unfold_int; lia). done.
Qed.

Lemma FormatInt_len n : 1 ≤ len (FormatInt n) ≤ 21.
Proof.
  unfold FormatInt. destruct (n <? 0).
  - pose proof (FormatUint_len (- n)). rewrite len_cons. lia.
  - pose proof (FormatUint_len n). lia.
Qed.

#[export] Instance Wire_int : Wire is_int64 WriteInt ReadInt.
Proof.
  intros n rest Hn. unfold ReadInt, WriteInt, mbind, Reader_bind, wrap.
  destruct (n <? 0) eqn:E; bool_to_prop.
  - pose proof (FormatInt_len (int64 (- n))).
    rewrite (disrsi_write_number _ _ _ (int64 (- n)));
      [|by right|lia|apply ParseInt_FormatInt, int64_range].
    simpl. destruct (decide (n = MinInt64)) as [->|]; [done|].
    rewrite (int64_id (- n)) by (unfold_int; lia).
    rewrite int64_id by (unfold_int; lia). by rewrite Z.opp_involutive.
  - pose proof (FormatInt_len n).
    rewrite (disrsi_write_number _ _ _ n);
      [|by left|lia|by apply ParseInt_FormatInt].
    done.
Qed.

#[export] Instance Wire_str : Wire wire_str WriteString ReadString.
Proof.
  intros x rest Hx. unfold wire_str in Hx. pose proof (len_nonneg x).
  assert (wire_uint (len x)) by (unfold wire_uint, maxAlloc in *; unfold_int; lia).
  unfold ReadString, WriteString, mbind, Reader_bind, wrap.
  rewrite app_str_assoc, (wire_roundtrip (get := ReadUint)) by done. simpl.
  destruct (len x =? 0) eqn:E; bool_to_prop.
  - destruct x; [done|]. rewrite len_cons in E. pose proof (len_nonneg x). lia.
  - by rewrite read_full_app.
Qed.

(** *** Composing formats *)

Lemma bind_wire {A B} `{Wire A ok put get} (k : A → Reader B) a rest :
  ok a → (get ≫= k) (put a +:+ rest) = k a rest.
Proof. intros Ha. unfold mbind, Reader_bind. by rewrite wire_roundtrip. Qed.

#[export] Instance Wire_wrap {A} `{Wire A ok put get} : Wire ok put (wrap get).
Proof. intros a rest Ha. unfold wrap. by rewrite wire_roundtrip. Qed.

Lemma bind_ret {A B} (a : A) (k : A → Reader B) s : (mret a ≫= k) s = k a s.
Proof. done. Qed.

(** [wire_step] reads one field of a message that starts with that field. *)
Ltac wire_step :=
  rewrite ?app_str_assoc; erewrite bind_wire.


(** ** Theorems *)

(** [ReadUint] reads back every value [WriteUint] wrote, up to the largest
    [int64], and consumes exactly the bytes written. *)
Theorem ReadUint_WriteUint n rest :
  0 ≤ n ≤ MaxInt64 → ReadUint (WriteUint n +:+ rest) = (Ok n, rest).
Proof. apply Wire_uint. Qed.

Lemma ReadUint_WriteUint_witness :
  ReadUint (WriteUint 1234567890 +:+ "tail") = (Ok 1234567890, "tail").
Proof. apply (ReadUint_WriteUint 1234567890 "tail"). vm_compute. by split. Defined.

(** [ReadInt] reads back every [int64] that [WriteInt] wrote, the smallest one
    (whose negation overflows) included. *)
Theorem ReadInt_WriteInt n rest :
  is_int64 n → ReadInt (WriteInt n +:+ rest) = (Ok n, rest).
Proof. apply Wire_int. Qed.

Lemma ReadInt_WriteInt_witness :
  ReadInt (WriteInt MinInt64 +:+ "tail") = (Ok MinInt64, "tail").
Proof. apply (ReadInt_WriteInt MinInt64 "tail"). vm_compute. by split. Defined.

(** [ReadString] reads back every string [WriteString] wrote that fits in an
    allocation, whatever bytes it holds. *)
Theorem ReadString_WriteString x rest :
  len x ≤ maxAlloc → ReadString (WriteString x +:+ rest) = (Ok x, rest).
Proof. apply Wire_str. Qed.

Lemma ReadString_WriteString_witness :
  ReadString (WriteString "1+0 job" +:+ "tail") = (Ok "1+0 job", "tail").
Proof. apply (ReadString_WriteString "1+0 job" "tail"). vm_compute. done. Defined.

(** The encoding is self-delimiting: two streams that start with an encoded
    integer and an encoded string are equal only if the values and the rest are. *)
Theorem dis_prefix_free n x n' x' rest rest' :
  is_int64 n → is_int64 n' → len x ≤ maxAlloc → len x' ≤ maxAlloc →
  WriteInt n +:+ WriteString x +:+ rest = WriteInt n' +:+ WriteString x' +:+ rest' →
  n = n' ∧ x = x' ∧ rest = rest'.
Proof.
  intros Hn Hn' Hx Hx' H.
  apply (f_equal (λ s, ReadInt s)) in H.
  rewrite !(wire_roundtrip (get := ReadInt)) in H by done. injection H as -> H.
  apply (f_equal (λ s, ReadString s)) in H.
  rewrite !(wire_roundtrip (get := ReadString)) in H by done. by injection H as -> ->.
Qed.

Lemma dis_prefix_free_witness :
  (-5) = (-5) ∧ "ab" = "ab" ∧ "rest" = "rest".
Proof.
  apply (dis_prefix_free (-5) "ab" (-5) "ab" "rest" "rest"); vm_compute; try done; by split.
Defined.

(** An encoded [uint64] above the largest [int64] is never read back: [ReadUint]
    parses the digits with [ParseInt] and reports an error. *)
Theorem ReadUint_above_int64 n rest :
  MaxInt64 < n ≤ MaxUint64 →
  ReadUint (WriteUint n +:+ rest) = (Err (Wrapped ErrParseDigits), rest).
Proof.
  intros Hn. pose proof (FormatUint_len n).
  unfold ReadUint, WriteUint, write_number, mbind, Reader_bind, wrap. cbv zeta.
  rewrite app_str_assoc, disrsi_chain by (unfold_int; lia).
  rewrite disrsi_eq. unfold disrsi_body, mbind, Reader_bind. simpl.
  rewrite read_full_app by (unfold maxAlloc; lia).
  by rewrite ParseInt_FormatUint_big.
Qed.

Lemma ReadUint_above_int64_witness :
  ReadUint (WriteUint (2 ^ 63) +:+ "x") = (Err (Wrapped ErrParseDigits), "x").
Proof. apply (ReadUint_above_int64 (2 ^ 63) "x"). vm_compute. by split. Defined.

(** The reader follows the code's recursion exactly: on every stream and count,
    [disrsi] is one step of the code with the recursive call made on a strictly
    shorter stream, so it ends on every input. *)
Theorem disrsi_terminates count s fuel :
  (String.length s < fuel)%nat →
  disrsi_fuel fuel count s = Some (disrsi_body disrsi count s).
Proof.
  intros Hf. rewrite (disrsi_fuel_enough _ (S (String.length s))) by lia.
  rewrite <- disrsi_eq. done.
Qed.

Lemma disrsi_terminates_witness :
  disrsi_fuel 5 1 "2+15" = Some (disrsi_body disrsi 1 "2+15").
Proof. apply (disrsi_terminates 1 "2+15" 5). simpl. lia. Defined.

(** A count the run time cannot allocate. *)
Lemma disrsi_huge n s : maxAlloc < n → disrsi n (String "+" s) = (Panic, s).
Proof.
  intros Hn. rewrite disrsi_eq. unfold disrsi_body, mbind, Reader_bind, read_full. simpl.
  replace (maxAlloc <? n) with true by lia. by rewrite orb_true_r.
Qed.

(** A 22-byte message makes the reader ask for a buffer no run time can allocate,
    which is a panic: the announced count is believed before its digits arrive. *)
Theorem disrsi_count_panics rest :
  ReadUint ("218999999999999999999+" +:+ rest) = (Panic, rest).
Proof.
  set (big := 999999999999999999).
  assert ("218999999999999999999+" = Itoa 2 +:+ Itoa 18 +:+ Itoa big +:+ "+") as ->
    by by vm_compute.
  rewrite !app_str_assoc. unfold ReadUint, mbind, Reader_bind, wrap.
  change 1 with (len (Itoa 2)) at 1. rewrite disrsi_count by by vm_compute.
  change 2 with (len (Itoa 18)) at 1. rewrite disrsi_count by by vm_compute.
  change 18 with (len (Itoa big)) at 1. rewrite disrsi_count by by vm_compute.
  change ("+" +:+ rest) with (String "+" rest). by rewrite disrsi_huge.
Qed.

Lemma WriteString_eq x : WriteString x = WriteUint (len x) +:+ x.
Proof. done. Qed.

#[global] Opaque WriteUint WriteInt WriteString.
