(* ===== verification/DisMessage.v ===== *)
(** * Batch messages: internal/dis/protocol.go and internal/dis/message.go

    The request header, the attribute list, the replies, the request bodies the
    server reads and the status message of a compute node, built on the formats of
    [Dis]. *)

From S2P Require Import Prelude GoStd Dis.

Local Open Scope string_scope.
Local Open Scope Z_scope.

(** ** Protocol constants (protocol.go) *)

Module Proto.

Definition PbsBatchProtType : Z := 2.
Definition PbsBatchProtVer : Z := 2.
Definition ISProtocolType : Z := 4.

(** Batch request types. *)
Definition BatchReqConnect : Z := 0.
Definition BatchReqQueueJob : Z := 1.
Definition BatchReqJobCred : Z := 2.
Definition BatchReqJobScript : Z := 3.
Definition BatchReqRdytoCommit : Z := 4.
Definition BatchReqCommit : Z := 5.
Definition BatchReqDeleteJob : Z := 6.
Definition BatchReqHoldJob : Z := 7.
Definition BatchReqLocateJob : Z := 8.
Definition BatchReqManager : Z := 9.
Definition BatchReqMessJob : Z := 10.
Definition BatchReqModifyJob : Z := 11.
Definition BatchReqMoveJob : Z := 12.
Definition BatchReqReleaseJob : Z := 13.
Definition BatchReqRerun : Z := 14.
Definition BatchReqRunJob : Z := 15.
Definition BatchReqSelectJobs : Z := 16.
Definition BatchReqShutdown : Z := 17.
Definition BatchReqSignalJob : Z := 18.
Definition BatchReqStatusJob : Z := 19.
Definition BatchReqStatusQueue : Z := 20.
Definition BatchReqStatusServer : Z := 21.
Definition BatchReqCheckpointJob : Z := 27.
Definition BatchReqQueueJob2 : Z := 29.
Definition BatchReqCommit2 : Z := 30.
Definition BatchReqJobScript2 : Z := 31.
Definition BatchReqAuthenUser : Z := 49.
Definition BatchReqOrderJob : Z := 50.
Definition BatchReqJobObit : Z := 56.
Definition BatchReqStatusNode : Z := 58.
Definition BatchReqDisconnect : Z := 59.
Definition BatchReqAltAuthenUser : Z := 61.
Definition BatchReqAuthToken : Z := 63.

(** Reply choices. *)
Definition ReplyChoiceNull : Z := 1.
Definition ReplyChoiceQueue : Z := 2.
Definition ReplyChoiceRdytoCom : Z := 3.
Definition ReplyChoiceCommit : Z := 4.
Definition ReplyChoiceSelect : Z := 5.
Definition ReplyChoiceStatus : Z := 6.
Definition ReplyChoiceText : Z := 7.
Definition ReplyChoiceLocate : Z := 8.

(** Error codes. *)
Definition PbsErrNone : Z := 0.
Definition PbseUnkjobid : Z := 15001.
Definition PbseBadReq : Z := 15004.
Definition PbseQueNoDeflt : Z := 15005.
Definition PbseUnkQue : Z := 15006.
Definition PbsePerm : Z := 15007.
Definition PbseBadCred : Z := 15021.
Definition PbseUnkNode : Z := 15039.
Definition PbseUnkReq : Z := 15048.

(** Manager commands and object types. *)
Definition MgrCmdCreate : Z := 1.
Definition MgrCmdDelete : Z := 2.
Definition MgrCmdSet : Z := 3.
Definition MgrCmdUnset : Z := 4.
Definition MgrObjServer : Z := 1.
Definition MgrObjQueue : Z := 2.
Definition MgrObjJob : Z := 3.
Definition MgrObjNode : Z := 4.

End Proto.
Import Proto.

(** ** Data *)

Record RequestHeader := mkHeader {
  Protocol : Z;
  Version : Z;
  ReqType : Z;
  User : string;
}.

Record SvrAttrl := mkAttr {
  Name : string;
  HasResc : bool;
  Resc : string;
  Value : string;
  Op : Z;
}.

Record StatusObject := mkObject {
  obj_Type : Z;
  obj_Name : string;
  obj_Attrs : list SvrAttrl;
}.

Record ISMessage := mkIS {
  is_Version : Z;
  is_Command : Z;
  is_MomPort : Z;
  is_RmPort : Z;
  is_Items : list string;
}.

(** The five fields of a reply. *)
Record Reply := mkReply {
  rp_code : Z;
  rp_auxCode : Z;
  rp_choice : Z;
  rp_data : string;
}.

#[export] Instance SvrAttrl_eq_dec : EqDecision SvrAttrl.
Proof. solve_decision. Defined.
#[export] Instance StatusObject_eq_dec : EqDecision StatusObject.
Proof. solve_decision. Defined.
#[export] Instance Reply_eq_dec : EqDecision Reply.
Proof. solve_decision. Defined.

(** ** Request header *)

Definition ReadRequestHeader : Reader RequestHeader :=
  proto ← wrap ReadUint;
  ver ← wrap ReadUint;
  reqType ← wrap ReadUint;
  user ← wrap ReadString;
  mret (mkHeader (int64 proto) (int64 ver) (int64 reqType) user).

Definition WriteRequestHeader (reqType : Z) (user : string) : string :=
  WriteUint PbsBatchProtType +:+ WriteUint PbsBatchProtVer +:+
  WriteUint (uint64 reqType) +:+ WriteString user.

(** ** Request extension *)

Definition WriteReqExtend (ext : string) : string :=
  if decide (ext = "") then WriteUint 0 else WriteUint 1 +:+ WriteString ext.

Definition ReadReqExtend : Reader string :=
  hasExt ← ReadUint;
  if hasExt =? 0 then mret "" else ReadString.

(** ** Attribute lists *)

Definition WriteSvrAttr (a : SvrAttrl) : string :=
  let size := len (Name a) + len (Value a) + 2
              + (if HasResc a then len (Resc a) + 1 else 0) in
  WriteUint (uint64 size) +:+ WriteString (Name a) +:+
  (if HasResc a then WriteUint 1 +:+ WriteString (Resc a) else WriteUint 0) +:+
  WriteString (Value a) +:+ WriteUint (uint64 (Op a)).

Definition WriteSvrAttrl (attrs : list SvrAttrl) : string :=
  WriteUint (Z.of_nat (length attrs)) +:+
  foldr (λ a out, WriteSvrAttr a +:+ out) "" attrs.

Definition ReadSvrAttr : Reader SvrAttrl :=
  _ ← wrap ReadUint;
  name ← wrap ReadString;
  hasResc ← wrap ReadUint;
  resc ← (if hasResc =? 0 then mret "" else wrap ReadString);
  value ← wrap ReadString;
  op ← wrap ReadUint;
  mret (mkAttr name (negb (hasResc =? 0)) resc value (int64 op)).

(** The loop [for i := 0; i < count; i++] that reads [count] items and stops at the
    first error. *)
Fixpoint read_n {A} (m : Reader A) (n : nat) : Reader (list A) :=
  match n with
  | O => mret []
  | S n => x ← m; xs ← read_n m n; mret (x :: xs)
  end.

(** [make([]SvrAttrl, 0, count)], 64 bytes an element. *)
Definition attr_size : Z := 64.
Definition ReadSvrAttrl : Reader (list SvrAttrl) :=
  count ← wrap ReadUint;
  if maxAlloc <? count * attr_size then panic
  else read_n ReadSvrAttr (Z.to_nat count).

(** ** Replies *)

(** The cases of the [switch] on the choice that carry a string. *)
Definition carries_data (choice : Z) : bool :=
  bool_decide (choice ∈ [ReplyChoiceQueue; ReplyChoiceRdytoCom; ReplyChoiceCommit;
                         ReplyChoiceText]).

Definition WriteReply (r : Reply) : string :=
  WriteUint PbsBatchProtType +:+ WriteUint PbsBatchProtVer +:+
  WriteInt (rp_code r) +:+ WriteInt (rp_auxCode r) +:+ WriteUint (uint64 (rp_choice r)) +:+
  (if carries_data (rp_choice r)
   then WriteString (rp_data r) else "").

Definition SendOkReply : Reply := mkReply PbsErrNone 0 ReplyChoiceNull "".
Definition SendErrorReply (errCode auxCode : Z) : Reply :=
  mkReply errCode auxCode ReplyChoiceNull "".
Definition SendJobIDReply (choice : Z) (jobID : string) : Reply :=
  mkReply PbsErrNone 0 choice jobID.
Definition SendTextReply (text : string) : Reply :=
  mkReply PbsErrNone 0 ReplyChoiceText text.

Definition ReadReply : Reader Reply :=
  _ ← wrap ReadUint;
  _ ← wrap ReadUint;
  code ← wrap ReadInt;
  auxCode ← wrap ReadInt;
  choice ← wrap ReadUint;
  let choice := int64 choice in
  data ← (if carries_data choice
          then ReadString else mret "");
  mret (mkReply (int64 code) (int64 auxCode) choice data).

Definition WriteStatusObject (o : StatusObject) : string :=
  WriteUint (uint64 (obj_Type o)) +:+ WriteString (obj_Name o) +:+
  WriteSvrAttrl (obj_Attrs o).

Definition WriteStatusReply (objects : list StatusObject) : string :=
  WriteUint PbsBatchProtType +:+ WriteUint PbsBatchProtVer +:+
  WriteInt PbsErrNone +:+ WriteInt 0 +:+ WriteUint ReplyChoiceStatus +:+
  WriteUint (Z.of_nat (length objects)) +:+
  foldr (λ o out, WriteStatusObject o +:+ out) "" objects.

(** ** Request bodies *)

Definition ReadJobObit : Reader (string * Z * list SvrAttrl) :=
  jobID ← wrap ReadString;
  exitStatus ← wrap ReadInt;
  attrs ← wrap ReadSvrAttrl;
  mret (jobID, int64 exitStatus, attrs).

Definition ReadQueueJobBody : Reader (string * string * list SvrAttrl) :=
  jobID ← wrap ReadString;
  dest ← wrap ReadString;
  attrs ← wrap ReadSvrAttrl;
  mret (jobID, dest, attrs).

Definition ReadJobScriptBody : Reader (string * string) :=
  _ ← ReadUint;
  _ ← ReadUint;
  _ ← ReadUint;
  jobID ← ReadString;
  scriptData ← ReadString;
  mret (jobID, scriptData).

Definition ReadCommitBody : Reader string := ReadString.

Definition ReadDeleteJobBody : Reader string :=
  _ ← ignore ReadUint;
  _ ← ignore ReadUint;
  jobID ← ReadString;
  _ ← ignore ReadSvrAttrl;
  mret jobID.

Definition ReadSignalJobBody : Reader (string * string) :=
  jobID ← ReadString;
  signal ← ReadString;
  mret (jobID, signal).

Definition ReadStatusBody : Reader (string * list SvrAttrl) :=
  id ← ReadString;
  queryAttrs ← ReadSvrAttrl;
  mret (id, queryAttrs).

Definition ReadManagerBody : Reader (Z * Z * string * list SvrAttrl) :=
  command ← ReadUint;
  objType ← ReadUint;
  objName ← ReadString;
  attrs ← ReadSvrAttrl;
  mret (int64 command, int64 objType, objName, attrs).

Definition ReadHoldJobBody : Reader (string * list SvrAttrl) :=
  _ ← ignore ReadUint;
  _ ← ignore ReadUint;
  jobID ← ReadString;
  attrs ← ReadSvrAttrl;
  mret (jobID, attrs).

Definition ReadModifyJobBody : Reader (string * list SvrAttrl) :=
  _ ← ignore ReadUint;
  _ ← ignore ReadUint;
  jobID ← ReadString;
  attrs ← ReadSvrAttrl;
  mret (jobID, attrs).

Definition ReadRunJobBody : Reader (string * string) :=
  jobID ← ReadString;
  dest ← ReadString;
  mret (jobID, dest).

Definition ReadMoveJobBody : Reader (string * string) :=
  jobID ← ReadString;
  dest ← ReadString;
  mret (jobID, dest).

Definition ReadLocateJobBody : Reader string := ReadString.

Definition ReadJobCredBody : Reader (Z * string) :=
  credType ← ReadUint;
  credData ← ReadString;
  mret (int64 credType, credData).

(** ** Node status messages *)

(** The item loop of [ReadISMessage].  A successful read consumes at least one
    byte, so the stream bounds the number of iterations; [None] is running out of
    fuel. *)
Fixpoint read_items (fuel : nat) (s : string) :
    option (result io_error (list string) * string) :=
  match fuel with
  | O => None
  | S fuel =>
    match ReadString s with
    | (Err e, s) => if decide (e = EOF) then Some (Ok [], s) else Some (Err (Wrapped e), s)
    | (Panic, s) => Some (Panic, s)
    | (Ok x, s) =>
      if decide (x = "END_OF_LINE") then Some (Ok [], s)
      else match read_items fuel s with
           | Some (Ok xs, s) => Some (Ok (x :: xs), s)
           | r => r
           end
    end
  end.

Definition ReadItems : Reader (list string) := λ s,
  default (Panic, s) (read_items (S (String.length s)) s).

Definition ReadISMessage : Reader ISMessage :=
  ver ← wrap ReadInt;
  cmd ← wrap ReadInt;
  momPort ← wrap ReadUint;
  rmPort ← wrap ReadUint;
  items ← ReadItems;
  mret (mkIS (int64 ver) (int64 cmd) (int64 momPort) (int64 rmPort) items).

(** The bytes internal/mom/server/connection.go [SendStatusUpdate] sends: the
    protocol number the server's connection handler reads first, the header, the
    status strings and the end marker.  [first] is [c.lastUpdate.IsZero()]. *)
Definition ISEOLMessage : string := "END_OF_LINE".
Definition status_items (shortHost : string) (first : bool) (statusItems : list string) :
    list string :=
  ("node=" +:+ shortHost) :: (if first then ["first_update=true"] else []) ++ statusItems.
Definition SendStatusUpdate (momPort rmPort : Z) (shortHost : string) (first : bool)
    (statusItems : list string) : string :=
  WriteInt 4 +:+ WriteInt 3 +:+ WriteInt 4 +:+
  WriteUint (uint64 momPort) +:+ WriteUint (uint64 rmPort) +:+
  foldr (λ x out, WriteString x +:+ out) "" (status_items shortHost first statusItems) +:+
  WriteString ISEOLMessage.

(** ** Formats of the messages *)

Definition wire_attr (a : SvrAttrl) : Prop :=
  wire_str (Name a) ∧ wire_str (Resc a) ∧ wire_str (Value a) ∧ wire_uint (Op a) ∧
  (HasResc a = false → Resc a = "").

Definition wire_attrl (attrs : list SvrAttrl) : Prop :=
  Forall wire_attr attrs ∧ Z.of_nat (length attrs) * attr_size ≤ maxAlloc.

Definition wire_header (h : RequestHeader) : Prop :=
  Protocol h = PbsBatchProtType ∧ Version h = PbsBatchProtVer ∧
  wire_uint (ReqType h) ∧ wire_str (User h).

Definition wire_reply (r : Reply) : Prop :=
  is_int64 (rp_code r) ∧ is_int64 (rp_auxCode r) ∧ wire_uint (rp_choice r) ∧
  wire_str (rp_data r) ∧ (carries_data (rp_choice r) = false → rp_data r = "").

#[export] Instance wire_attr_dec a : Decision (wire_attr a).
Proof. unfold wire_attr. apply _. Defined.
#[export] Instance wire_attrl_dec l : Decision (wire_attrl l).
Proof. unfold wire_attrl. apply _. Defined.
#[export] Instance wire_header_dec h : Decision (wire_header h).
Proof. unfold wire_header. apply _. Defined.
#[export] Instance wire_reply_dec r : Decision (wire_reply r).
Proof. unfold wire_reply. apply _. Defined.

(** The attribute a reader gets: the resource of an attribute without one is not
    transmitted. *)
Definition norm_attr (a : SvrAttrl) : SvrAttrl :=
  mkAttr (Name a) (HasResc a) (if HasResc a then Resc a else "") (Value a) (Op a).

Lemma wire_uint_int64 n : wire_uint n → uint64 n = n ∧ int64 n = n.
Proof.
  unfold wire_uint. intros Hn. split; [apply uint64_id|apply int64_id]; unfold_int; lia.
Qed.

Ltac solve_wire :=
  unfold wire_uint, wire_str, maxAlloc, attr_size, Proto.PbsBatchProtType,
    Proto.PbsBatchProtVer in *; unfold_int; try lia; try done.

#[export] Instance Wire_attr : Wire wire_attr WriteSvrAttr ReadSvrAttr.
Proof.
  intros [n h r v o] rest (Hn & Hr & Hv & Ho & Hh). simpl in *.
  destruct (wire_uint_int64 o Ho) as [Hu Hi].
  unfold WriteSvrAttr, ReadSvrAttr. cbn [Name HasResc Resc Value Op]. rewrite Hu.
  pose proof (len_nonneg n). pose proof (len_nonneg v). pose proof (len_nonneg r).
  wire_step; [|rewrite uint64_id; destruct h; solve_wire].
  wire_step; [|done]. destruct h; cbv iota.
  - wire_step; [|solve_wire]. cbn [Z.eqb]. wire_step; [|done].
    wire_step; [|done]. wire_step; [|done]. by rewrite Hi.
  - rewrite Hh by done. wire_step; [|solve_wire]. cbn [Z.eqb]. rewrite bind_ret.
    wire_step; [|done]. wire_step; [|done]. by rewrite Hi.
Qed.

(** Reading [length l] items from the concatenation of their encodings. *)
Lemma read_n_wire {A} `{Wire A ok put get} (l : list A) rest :
  Forall ok l →
  read_n get (length l) (foldr (λ a out, put a +:+ out) "" l +:+ rest) = (Ok l, rest).
Proof.
  induction 1 as [|a l Ha Hl IH]; [done|]. simpl.
  wire_step; [|done]. unfold mbind, Reader_bind. by rewrite IH.
Qed.

#[export] Instance Wire_attrl : Wire wire_attrl WriteSvrAttrl ReadSvrAttrl.
Proof.
  intros l rest [Hl Hn]. unfold WriteSvrAttrl, ReadSvrAttrl.
  wire_step; [|solve_wire]. replace (maxAlloc <? _) with false by lia.
  rewrite Nat2Z.id. by apply read_n_wire.
Qed.

Definition put_header (h : RequestHeader) : string := WriteRequestHeader (ReqType h) (User h).

#[export] Instance Wire_header : Wire wire_header put_header ReadRequestHeader.
Proof.
  intros [p v t u] rest (Hp & Hv & Ht & Hu). simpl in *. subst.
  destruct (wire_uint_int64 t Ht) as [Hut Hit].
  unfold put_header, WriteRequestHeader, ReadRequestHeader. cbn [ReqType User]. rewrite Hut.
  do 3 (wire_step; [|solve_wire]). wire_step; [|done]. by rewrite Hit.
Qed.

#[export] Instance Wire_ext : Wire wire_str WriteReqExtend ReadReqExtend.
Proof.
  intros x rest Hx. unfold WriteReqExtend, ReadReqExtend. case_decide.
  - wire_step; [|solve_wire]. by subst.
  - wire_step; [|solve_wire]. simpl. by rewrite wire_roundtrip.
Qed.

#[export] Instance Wire_reply : Wire wire_reply WriteReply ReadReply.
Proof.
  intros [c x k d] rest (Hc & Hx & Hk & Hd & Hn). simpl in *.
  destruct (wire_uint_int64 k Hk) as [Huk Hik].
  unfold WriteReply, ReadReply. cbn [rp_code rp_auxCode rp_choice rp_data]. rewrite Huk.
  do 2 (wire_step; [|solve_wire]). do 2 (wire_step; [|done]). wire_step; [|done].
  rewrite !int64_id by done. rewrite int64_id by solve_wire.
  destruct (carries_data k); [by wire_step|]. by rewrite Hn.
Qed.


(** ** The item loop *)

(** A successful read of a number, hence of a string, consumes at least one byte. *)
Lemma disrsi_len s count r s' :
  disrsi count s = (r, s') →
  (String.length s' ≤ String.length s)%nat ∧
  (is_ok r = true → (String.length s' < String.length s)%nat).
Proof.
  remember (String.length s) as n eqn:Hn. revert s Hn count r s'.
  induction (lt_wf n) as [n _ IH]. intros s -> count r s'. rewrite disrsi_eq.
  unfold disrsi_body, mbind, Reader_bind, read_byte.
  destruct s as [|c s]; [by intros [= <- <-]|].
  destruct (_ || _).
  { destruct (read_full count s) as [[buf|e|] t] eqn:E; apply read_full_len in E.
    - destruct (ParseInt buf) as [v [?|]]; intros [= <- <-]; simpl; split; intros; lia.
    - intros [= <- <-]. simpl. split; [lia|done].
    - intros [= <- <-]. simpl. split; [lia|done]. }
  destruct (_ && _).
  2:{ destruct (bool_decide _); intros [= <- <-]; simpl; split; [lia|done|lia|done]. }
  assert (∀ k t, (String.length t ≤ String.length s)%nat → disrsi k t = (r, s') →
    (String.length s' ≤ String.length (String c s))%nat ∧
    (is_ok r = true → (String.length s' < String.length (String c s))%nat)) as Hrec.
  { intros k t Ht Hk. destruct (IH (String.length t) ltac:(simpl; lia) t eq_refl k r s' Hk).
    simpl. split; intros; lia. }
  destruct (1 <? count); [|by apply Hrec].
  destruct (read_full (count - 1) s) as [[buf|e|] t] eqn:E; apply read_full_len in E;
    [|intros [= <- <-]; simpl; split; [lia|done]..].
  destruct (count_digits (digit_val c) buf); [by apply Hrec|..];
    intros [= <- <-]; simpl; split; [lia|done|lia|done].
Qed.

Lemma ReadString_len s x s' : ReadString s = (Ok x, s') → (String.length s' < String.length s)%nat.
Proof.
  unfold ReadString, ReadUint, wrap, mbind, Reader_bind.
  destruct (disrsi 1 s) as [[[v []]|e|] t] eqn:E; simpl; try done.
  apply disrsi_len in E as [_ E]. specialize (E eq_refl).
  unfold mret, Reader_ret. simpl. destruct (_ =? 0).
  - by intros [= <- <-].
  - destruct (read_full _ t) as [[y|?|] u] eqn:E2; simpl; try done.
    apply read_full_len in E2. intros [= <- <-]. lia.
Qed.

(** The error of a string read is never the bare [io.EOF] the item loop looks for. *)
Lemma ReadString_not_EOF s e s' : ReadString s = (Err e, s') → ∃ e', e = Wrapped e'.
Proof.
  unfold ReadString, ReadUint, wrap, mbind, Reader_bind.
  destruct (disrsi 1 s) as [[[v []]|?|] t]; simpl; try (intros [= <- _]; eauto; done).
  unfold mret, Reader_ret. simpl. destruct (_ =? 0); [done|].
  destruct (read_full _ t) as [[?|?|] ?]; simpl; try done. intros [= <- _]. eauto.
Qed.

(** A fuel larger than the stream is enough. *)
Lemma read_items_fuel fuel s :
  (String.length s < fuel)%nat → read_items fuel s = Some (ReadItems s).
Proof.
  enough (∀ fuel fuel' s, (String.length s < fuel)%nat → (String.length s < fuel')%nat →
    read_items fuel s = read_items fuel' s ∧ is_Some (read_items fuel s)) as H.
  { intros Hf. destruct (H fuel (S (String.length s)) s Hf ltac:(lia)) as [He [r Hr]].
    unfold ReadItems. rewrite <- He, Hr. done. }
  clear. intros fuel. induction fuel as [|fuel IH]; intros [|fuel'] s Hf Hf'; [lia..|].
  simpl. destruct (ReadString s) as [[x|e|] t] eqn:E; [|case_decide; eauto|eauto].
  apply ReadString_len in E. case_decide; [eauto|].
  destruct (IH fuel' t ltac:(lia) ltac:(lia)) as [He Hs]. rewrite <- He. split; [done|].
  destruct Hs as [[[xs|?|] u] ->]; eauto.
Qed.

Lemma ReadItems_eq s :
  ReadItems s =
  match ReadString s with
  | (Err e, s) => (Err (Wrapped e), s)
  | (Panic, s) => (Panic, s)
  | (Ok x, s) =>
    if decide (x = "END_OF_LINE") then (Ok [], s)
    else match ReadItems s with
         | (Ok xs, s) => (Ok (x :: xs), s)
         | r => r
         end
  end.
Proof.
  unfold ReadItems at 1. simpl.
  destruct (ReadString s) as [[x|e|] t] eqn:E; [..|done].
  - case_decide; [done|]. apply ReadString_len in E.
    rewrite read_items_fuel by lia. destruct (ReadItems t) as [[?|?|] ?]; done.
  - apply ReadString_not_EOF in E as [e' ->]. by rewrite decide_False.
Qed.

Definition wire_item (x : string) : Prop := wire_str x ∧ x ≠ "END_OF_LINE".

Lemma ReadItems_write l rest :
  Forall wire_item l →
  ReadItems (foldr (λ x out, WriteString x +:+ out) "" l +:+ WriteString ISEOLMessage +:+ rest)
  = (Ok l, rest).
Proof.
  induction 1 as [|x l [Hx Hne] Hl IH]; simpl; rewrite ReadItems_eq.
  - by rewrite wire_roundtrip by by vm_compute.
  - rewrite !app_str_assoc, wire_roundtrip by done. rewrite decide_False by done.
    by rewrite IH.
Qed.

(** ** Theorems *)

(** The server reads back the header of every request written for it: the request
    type and the user name, with the protocol type and version the writer fixes. *)
Theorem ReadRequestHeader_Write reqType user rest :
  0 ≤ reqType ≤ MaxInt64 → wire_str user →
  ReadRequestHeader (WriteRequestHeader reqType user +:+ rest)
  = (Ok (mkHeader PbsBatchProtType PbsBatchProtVer reqType user), rest).
Proof.
  intros Ht Hu. apply (Wire_header (mkHeader PbsBatchProtType PbsBatchProtVer reqType user)).
  by split_and!.
Qed.

Lemma ReadRequestHeader_Write_witness :
  ReadRequestHeader (WriteRequestHeader BatchReqStatusNode "alice" +:+ "rest")
  = (Ok (mkHeader 2 2 58 "alice"), "rest").
Proof. apply (ReadRequestHeader_Write BatchReqStatusNode "alice" "rest"); by vm_compute. Defined.

(** An attribute list is read back attribute by attribute, in order; the resource
    name of an attribute that has none is not transmitted and comes back empty. *)
Theorem ReadSvrAttrl_Write attrs rest :
  Forall (λ a, wire_str (Name a) ∧ wire_str (Resc a) ∧ wire_str (Value a) ∧ wire_uint (Op a))
    attrs →
  Z.of_nat (length attrs) * attr_size ≤ maxAlloc →
  ReadSvrAttrl (WriteSvrAttrl attrs +:+ rest) = (Ok (norm_attr <$> attrs), rest).
Proof.
  intros Ha Hn.
  assert (WriteSvrAttrl attrs = WriteSvrAttrl (norm_attr <$> attrs)) as ->.
  { unfold WriteSvrAttrl. rewrite length_fmap. f_equal. clear.
    induction attrs as [|[n h r v o] l IH]; [done|]. cbn [foldr fmap list_fmap].
    rewrite IH. f_equal. unfold WriteSvrAttr, norm_attr. simpl. by destruct h. }
  apply wire_roundtrip. split; [|by rewrite length_fmap].
  apply Forall_fmap. eapply Forall_impl; [exact Ha|].
  intros [n h r v o] (? & ? & ? & ?). by destruct h; split_and!.
Qed.

Lemma ReadSvrAttrl_Write_witness :
  ReadSvrAttrl (WriteSvrAttrl
      [mkAttr "Resource_List" true "walltime" "01:00:00" 1; mkAttr "Job_Name" false "x" "sim" 0]
      +:+ "rest")
  = (Ok [mkAttr "Resource_List" true "walltime" "01:00:00" 1;
         mkAttr "Job_Name" false "" "sim" 0], "rest").
Proof.
  apply (ReadSvrAttrl_Write
    [mkAttr "Resource_List" true "walltime" "01:00:00" 1; mkAttr "Job_Name" false "x" "sim" 0]
    "rest"); [|by vm_compute].
  repeat constructor; by vm_compute.
Defined.

(** Every reply the server or a compute node sends is read back with its codes and
    its choice; the string is there exactly for the choices that carry one. *)
Theorem ReadReply_WriteReply code auxCode choice data rest :
  is_int64 code → is_int64 auxCode → wire_uint choice → wire_str data →
  ReadReply (WriteReply (mkReply code auxCode choice data) +:+ rest)
  = (Ok (mkReply code auxCode choice (if carries_data choice then data else "")), rest).
Proof.
  intros Hc Hx Hk Hd.
  replace (WriteReply (mkReply code auxCode choice data)) with
    (WriteReply (mkReply code auxCode choice (if carries_data choice then data else ""))).
  2:{ unfold WriteReply. cbn [rp_code rp_auxCode rp_choice rp_data].
      by destruct (carries_data choice). }
  apply wire_roundtrip. split_and!; cbn [rp_code rp_auxCode rp_choice rp_data]; try done.
  - by destruct (carries_data choice).
  - by destruct (carries_data choice).
Qed.

Lemma ReadReply_WriteReply_witness :
  ReadReply (WriteReply (SendJobIDReply ReplyChoiceQueue "12.srv") +:+ "rest")
  = (Ok (mkReply 0 0 2 "12.srv"), "rest").
Proof.
  apply (ReadReply_WriteReply 0 0 ReplyChoiceQueue "12.srv" "rest"); by vm_compute.
Defined.

(** The server decodes every status update a compute node sends: after the protocol
    number it reads the ports and the status strings in order, up to the end marker,
    however many there are. *)
Theorem ReadISMessage_SendStatusUpdate momPort rmPort host first items rest :
  wire_uint momPort → wire_uint rmPort → Forall wire_item (status_items host first items) →
  (ReadUint ≫= λ proto, ReadISMessage ≫= λ m, mret (proto, m))
    (SendStatusUpdate momPort rmPort host first items +:+ rest)
  = (Ok (ISProtocolType, mkIS 3 4 momPort rmPort (status_items host first items)), rest).
Proof.
  intros Hm Hr Hi. unfold SendStatusUpdate.
  destruct (wire_uint_int64 _ Hm) as [Hm1 Hm2]. destruct (wire_uint_int64 _ Hr) as [Hr1 Hr2].
  rewrite Hm1, Hr1. change (WriteInt 4) with (WriteUint 4) at 1.
  wire_step; [|solve_wire]. unfold mbind, Reader_bind at 1. unfold ReadISMessage.
  wire_step; [|solve_wire]. wire_step; [|solve_wire]. do 2 (wire_step; [|done]).
  unfold mbind, Reader_bind. rewrite ReadItems_write by done.
  by rewrite Hm2, Hr2.
Qed.

Lemma ReadISMessage_SendStatusUpdate_witness :
  (ReadUint ≫= λ proto, ReadISMessage ≫= λ m, mret (proto, m))
    (SendStatusUpdate 15002 15003 "n1" true ["state=free"; "ncpus=8"] +:+ "rest")
  = (Ok (4, mkIS 3 4 15002 15003 ["node=n1"; "first_update=true"; "state=free"; "ncpus=8"]),
     "rest").
Proof.
  apply (ReadISMessage_SendStatusUpdate 15002 15003 "n1" true ["state=free"; "ncpus=8"] "rest");
    [by vm_compute..|]. repeat constructor; by vm_compute.
Defined.

(** A status message that ends before its end marker is refused, whatever items came
    before: the loop means to stop at [io.EOF], but every error [ReadString] returns is
    wrapped, so that test never holds. *)
Theorem ReadItems_truncated items :
  Forall wire_item items →
  ReadItems (foldr (λ x out, WriteString x +:+ out) "" items)
  = (Err (Wrapped (Wrapped (Wrapped EOF))), "").
Proof.
  induction 1 as [|x l [Hx Hne] Hl IH]; rewrite ReadItems_eq; simpl; [done|].
  rewrite wire_roundtrip by done. rewrite decide_False by done. by rewrite IH.
Qed.

Lemma ReadItems_truncated_witness :
  ReadItems (WriteString "node=n1" +:+ WriteString "state=free" +:+ "")
  = (Err (Wrapped (Wrapped (Wrapped EOF))), "").
Proof.
  apply (ReadItems_truncated ["node=n1"; "state=free"]).
  repeat constructor; by vm_compute.
Defined.
