(* ===== verification/Client.v ===== *)
(** * The command-line client: internal/cli/dis/codec.go and internal/cli/client/client.go

    The client's own copy of the DIS reader, and the requests the user commands
    send.  A client call is a program over the connection: it flushes messages and
    reads from the stream of replies.  The writers of internal/cli/dis are the code
    of internal/dis byte for byte, so the writers of [Dis] and [DisMessage] stand for
    both. *)

From S2P Require Import Prelude GoStd Dis DisMessage.
Import Proto.

Local Open Scope string_scope.
Local Open Scope Z_scope.

(** ** The client's reader (internal/cli/dis/codec.go)

    It differs from the server's: the count digits are not checked, [b - '0'] is byte
    arithmetic, and errors are returned as they are. *)

Fixpoint count_digits_cli (ndigs : Z) (buf : string) : Z :=
  match buf with
  | "" => ndigs
  | String b buf => count_digits_cli (int64 (10 * ndigs + (byte_val b - 48) mod 256)) buf
  end.

Definition disrsi_body_cli (rec : Z → Reader (Z * bool)) (count : Z) : Reader (Z * bool) :=
  c ← read_byte;
  if bool_decide (c = "+"%char) || bool_decide (c = "-"%char) then
    buf ← read_full count;
    match ParseInt buf with
    | (val, None) => mret (val, bool_decide (c = "-"%char))
    | (_, Some _) => fail ErrParseDigits
    end
  else if is_digit c && negb (bool_decide (c = "0"%char)) then
    let ndigs := digit_val c in
    if 1 <? count then
      buf ← read_full (count - 1);
      rec (count_digits_cli ndigs buf)
    else rec ndigs
  else if bool_decide (c = "0"%char) then fail ErrLeadingZero
  else fail ErrUnexpectedByte.

Fixpoint disrsi_fuel_cli (fuel : nat) (count : Z) (s : string) :
    option (result io_error (Z * bool) * string) :=
  match fuel with
  | O => None
  | S fuel =>
    Some (disrsi_body_cli
            (λ ndigs s, default (Panic, s) (disrsi_fuel_cli fuel ndigs s)) count s)
  end.

Definition disrsi_cli (count : Z) : Reader (Z * bool) := λ s,
  default (Panic, s) (disrsi_fuel_cli (S (String.length s)) count s).

Definition ReadUint_cli : Reader Z :=
  '(val, negate) ← disrsi_cli 1;
  if (negate : bool) then fail ErrNegative else mret (uint64 val).

Definition ReadInt_cli : Reader Z :=
  '(val, negate) ← disrsi_cli 1;
  if (negate : bool) then mret (int64 (- val)) else mret val.

Definition ReadString_cli : Reader string :=
  length ← ReadUint_cli;
  if length =? 0 then mret "" else read_full length.

Definition ReadSvrAttr_cli : Reader SvrAttrl :=
  _ ← ReadUint_cli;
  name ← ReadString_cli;
  hasResc ← ReadUint_cli;
  resc ← (if hasResc =? 0 then mret "" else ReadString_cli);
  value ← ReadString_cli;
  op ← ReadUint_cli;
  mret (mkAttr name (negb (hasResc =? 0)) resc value (int64 op)).

Definition ReadSvrAttrl_cli : Reader (list SvrAttrl) :=
  count ← ReadUint_cli;
  if maxAlloc <? count * attr_size then panic
  else read_n ReadSvrAttr_cli (Z.to_nat count).

(** ** Replies (client.go) *)

Definition readReply : Reader Reply :=
  _ ← ReadUint_cli;
  _ ← ReadUint_cli;
  code ← ReadInt_cli;
  auxCode ← ReadInt_cli;
  choice ← ReadUint_cli;
  let choice := int64 choice in
  data ← (if carries_data choice then ReadString_cli else mret "");
  mret (mkReply (int64 code) (int64 auxCode) choice data).

Definition read_object : Reader StatusObject :=
  objType ← ReadUint_cli;
  name ← ReadString_cli;
  attrs ← ReadSvrAttrl_cli;
  mret (mkObject (int64 objType) name attrs).

(** [make([]StatusObject, 0, count)], 48 bytes an element. *)
Definition object_size : Z := 48.

Inductive reply_error :=
  | ServerError (code : Z)            (* server error, rejected *)
  | UnexpectedChoice (choice : Z).

Definition readStatusReply : Reader (reply_error + list StatusObject) :=
  _ ← ReadUint_cli;
  _ ← ReadUint_cli;
  codeI ← ReadInt_cli;
  _ ← ReadInt_cli;
  choiceU ← ReadUint_cli;
  if negb (codeI =? 0) then mret (inl (ServerError codeI))
  else if negb (int64 choiceU =? ReplyChoiceStatus) then mret (inl (UnexpectedChoice choiceU))
  else
    count ← ReadUint_cli;
    if maxAlloc <? count * object_size then panic
    else objects ← read_n read_object (Z.to_nat count); mret (inr objects).

(** ** Calls

    [Call A] runs against the stream of bytes the server sends; it returns the
    messages flushed to the connection, the outcome and the unread bytes.  Writes do
    not fail. *)

Inductive call_error := IOError (e : io_error) | ReplyError (e : reply_error).

Definition Call (A : Type) : Type := string → list string * result call_error A * string.

#[export] Instance Call_ret : MRet Call := λ A a s, ([], Ok a, s).
#[export] Instance Call_bind : MBind Call := λ A B f m s,
  match m s with
  | (out, Ok a, s) => let '(out', r, s) := f a s in ((out ++ out')%list, r, s)
  | (out, Err e, s) => (out, Err e, s)
  | (out, Panic, s) => (out, Panic, s)
  end.

Definition flush (m : string) : Call () := λ s, ([m], Ok (), s).
Definition recv {A} (m : Reader A) : Call A := λ s,
  let '(r, s) := m s in ([], map_err IOError r, s).
Definition reject {A} (e : reply_error) : Call A := λ s, ([], Err (ReplyError e), s).

(** (Conn).writeHeader *)
Definition writeHeader (user : string) (reqType : Z) : string :=
  WriteUint PbsBatchProtType +:+ WriteUint PbsBatchProtVer +:+
  WriteUint (uint64 reqType) +:+ WriteString user.

(** The end of most calls: read the reply and turn a code other than 0 into an error. *)
Definition expect_ok : Call () :=
  r ← recv readReply;
  if rp_code r =? 0 then mret () else reject (ServerError (rp_code r)).

(** *** The messages of each call *)

Definition status_request (user : string) (reqType : Z) (id : string) : string :=
  writeHeader user reqType +:+ WriteString id +:+ WriteSvrAttrl [] +:+ WriteString "".

Definition sendStatusRequest (user : string) (reqType : Z) (id : string) :
    Call (list StatusObject) :=
  _ ← flush (status_request user reqType id);
  r ← recv readStatusReply;
  match r with
  | inl e => reject e
  | inr objects => mret objects
  end.

Definition queuejob_request (user queue : string) (attrs : list SvrAttrl) : string :=
  writeHeader user BatchReqQueueJob2 +:+ WriteString "" +:+ WriteString queue +:+
  WriteSvrAttrl attrs +:+ WriteString "".

Definition jobscript_request (user jobID script : string) : string :=
  writeHeader user BatchReqJobScript2 +:+ WriteUint 0 +:+ WriteUint 0 +:+
  WriteUint (uint64 (len script)) +:+ WriteString jobID +:+ WriteString script +:+
  WriteString "".

Definition SubmitJob (user queue : string) (attrs : list SvrAttrl) (script : string) :
    Call string :=
  _ ← flush (queuejob_request user queue attrs);
  r ← recv readReply;
  if negb (rp_code r =? 0) then reject (ServerError (rp_code r))
  else if negb (rp_choice r =? ReplyChoiceQueue) then reject (UnexpectedChoice (rp_choice r))
  else
    let jobID := rp_data r in
    _ ← flush (jobscript_request user jobID script);
    _ ← expect_ok;
    mret jobID.

(** The "Manage" format of delete, hold, release, modify and manager requests. *)
Definition manage_body (cmd objType : Z) (name : string) (attrs : list SvrAttrl)
    (ext : string) : string :=
  WriteUint (uint64 cmd) +:+ WriteUint (uint64 objType) +:+ WriteString name +:+
  WriteSvrAttrl attrs +:+ WriteString ext.

Definition delete_request (user jobID extend : string) : string :=
  writeHeader user BatchReqDeleteJob +:+ manage_body 0 MgrObjJob jobID [] extend.
Definition DeleteJobExtend (user jobID extend : string) : Call () :=
  _ ← flush (delete_request user jobID extend); expect_ok.
Definition DeleteJob (user jobID : string) : Call () := DeleteJobExtend user jobID "".

Definition hold_attrs (holdType : string) : list SvrAttrl :=
  [mkAttr "Hold_Types" false "" holdType 1].
Definition hold_request (user jobID holdType : string) : string :=
  writeHeader user BatchReqHoldJob +:+ manage_body 0 MgrObjJob jobID (hold_attrs holdType) "".
Definition HoldJob (user jobID holdType : string) : Call () :=
  _ ← flush (hold_request user jobID holdType); expect_ok.

Definition release_request (user jobID holdType : string) : string :=
  writeHeader user BatchReqReleaseJob +:+
  manage_body 0 MgrObjJob jobID (hold_attrs holdType) "".
Definition ReleaseJob (user jobID holdType : string) : Call () :=
  _ ← flush (release_request user jobID holdType); expect_ok.

Definition manager_request (user : string) (cmd objType : Z) (objName : string)
    (attrs : list SvrAttrl) : string :=
  writeHeader user BatchReqManager +:+ manage_body cmd objType objName attrs "".
Definition Manager (user : string) (cmd objType : Z) (objName : string)
    (attrs : list SvrAttrl) : Call () :=
  _ ← flush (manager_request user cmd objType objName attrs); expect_ok.

Definition modify_request (user jobID : string) (attrs : list SvrAttrl) : string :=
  writeHeader user BatchReqModifyJob +:+ manage_body 0 MgrObjJob jobID attrs "".
Definition ModifyJob (user jobID : string) (attrs : list SvrAttrl) : Call () :=
  _ ← flush (modify_request user jobID attrs); expect_ok.

Definition two_strings (a b : string) : string :=
  WriteString a +:+ WriteString b +:+ WriteString "".

Definition run_request (user jobID destination : string) : string :=
  writeHeader user BatchReqRunJob +:+ two_strings jobID destination.
Definition RunJob (user jobID destination : string) : Call () :=
  _ ← flush (run_request user jobID destination); expect_ok.

Definition signal_request (user jobID signal : string) : string :=
  writeHeader user BatchReqSignalJob +:+ two_strings jobID signal.
Definition SignalJob (user jobID signal : string) : Call () :=
  _ ← flush (signal_request user jobID signal); expect_ok.

Definition move_request (user jobID destination : string) : string :=
  writeHeader user BatchReqMoveJob +:+ two_strings jobID destination.
Definition MoveJob (user jobID destination : string) : Call () :=
  _ ← flush (move_request user jobID destination); expect_ok.

Definition order_request (user jobID1 jobID2 : string) : string :=
  writeHeader user BatchReqOrderJob +:+ two_strings jobID1 jobID2.
Definition OrderJob (user jobID1 jobID2 : string) : Call () :=
  _ ← flush (order_request user jobID1 jobID2); expect_ok.

Definition rerun_request (user jobID : string) (force : bool) : string :=
  writeHeader user BatchReqRerun +:+ WriteString jobID +:+
  (if force then WriteString "RERUNFORCE" else WriteString "").
Definition RerunJob (user jobID : string) (force : bool) : Call () :=
  _ ← flush (rerun_request user jobID force); expect_ok.

Definition messjob_request (user jobID : string) (fileOpt : Z) (message : string) : string :=
  writeHeader user BatchReqMessJob +:+ WriteString jobID +:+ WriteUint (uint64 fileOpt) +:+
  WriteString message +:+ WriteString "".
Definition MessJob (user jobID : string) (fileOpt : Z) (message : string) : Call () :=
  _ ← flush (messjob_request user jobID fileOpt message); expect_ok.

Definition checkpoint_request (user jobID : string) : string :=
  writeHeader user BatchReqCheckpointJob +:+ WriteString jobID +:+ WriteString "".
Definition CheckpointJob (user jobID : string) : Call () :=
  _ ← flush (checkpoint_request user jobID); expect_ok.

Definition select_request (user : string) (attrs : list SvrAttrl) : string :=
  writeHeader user BatchReqSelectJobs +:+ WriteString "" +:+ WriteSvrAttrl attrs +:+
  WriteString "".

(** The job ids of the text reply, one per line. *)
Definition parse_ids (data : string) : list string :=
  if decide (data = "") then []
  else filter (λ id, id ≠ "") (TrimSpace <$> Split newline data).

Definition SelectJobs (user : string) (attrs : list SvrAttrl) : Call (list string) :=
  _ ← flush (select_request user attrs);
  r ← recv readReply;
  if rp_code r =? 0 then mret (parse_ids (rp_data r)) else reject (ServerError (rp_code r)).

(** ** The client's reader agrees with the server's

    [Agrees get_c get_s]: wherever the server's reader succeeds, the client's gives the
    same value and leaves the same rest. *)
Class Agrees {A} (get_c get_s : Reader A) : Prop :=
  agrees s a s' : get_s s = (Ok a, s') → get_c s = (Ok a, s').

#[export] Instance Agrees_refl {A} (m : Reader A) : Agrees m m | 10.
Proof. by intros s a s'. Qed.

#[export] Instance Agrees_wrap {A} `{Agrees A mc ms} : Agrees mc (wrap ms).
Proof.
  intros s a s'. unfold wrap. destruct (ms s) as [[x|?|] t] eqn:E; simpl; try done.
  intros [= <- <-]. by apply agrees.
Qed.

Lemma Agrees_bind {A B} (mc ms : Reader A) (fc fs : A → Reader B) :
  Agrees mc ms → (∀ a, Agrees (fc a) (fs a)) → Agrees (mc ≫= fc) (ms ≫= fs).
Proof.
  intros Hm Hf s b s'. unfold mbind, Reader_bind.
  destruct (ms s) as [[x|?|] t] eqn:E; try done. rewrite (Hm _ _ _ E). apply Hf.
Qed.

Lemma Agrees_if {A} (b : bool) (mc ms nc ns : Reader A) :
  Agrees mc ms → Agrees nc ns → Agrees (if b then mc else nc) (if b then ms else ns).
Proof. by destruct b. Qed.

(** A format the server reads is one the client reads. *)
Lemma Wire_agrees {A} `{Wire A ok put ms} mc : Agrees mc ms → Wire ok put mc.
Proof. intros Ha a rest Hok. by apply Ha, wire_roundtrip. Qed.

Ltac solve_agrees :=
  repeat first
    [ progress cbv zeta | apply Agrees_bind; [|intros] | apply Agrees_if
    | case_match | by typeclasses eauto ].

Lemma count_digits_agree acc s n : count_digits acc s = Ok n → count_digits_cli acc s = n.
Proof.
  revert acc. induction s as [|b s IH]; simpl; intros acc; [by intros [= ->]|].
  destruct (is_digit b) eqn:Hb; [|done]. intros <-%IH. do 3 f_equal.
  unfold is_digit in Hb. bool_to_prop. unfold digit_val. rewrite Z.mod_small; lia.
Qed.

Lemma disrsi_body_agree rec_c rec_s count :
  (∀ n, Agrees (rec_c n) (rec_s n)) →
  Agrees (disrsi_body_cli rec_c count) (disrsi_body rec_s count).
Proof.
  intros Hrec. unfold disrsi_body_cli, disrsi_body.
  apply Agrees_bind; [apply _|]. intros c.
  apply Agrees_if; [apply _|]. apply Agrees_if; [|apply _]. cbv zeta.
  apply Agrees_if; [|done]. apply Agrees_bind; [apply _|]. intros buf.
  destruct (count_digits (digit_val c) buf) eqn:E; [|by intros ???..].
  by rewrite (count_digits_agree _ _ _ E).
Qed.

Lemma disrsi_fuel_agree fuel count :
  Agrees (λ s, default (Panic, s) (disrsi_fuel_cli fuel count s))
         (λ s, default (Panic, s) (disrsi_fuel fuel count s)).
Proof.
  revert count. induction fuel as [|fuel IH]; intros count; [done|].
  by apply disrsi_body_agree.
Qed.

#[export] Instance disrsi_agree count : Agrees (disrsi_cli count) (disrsi count).
Proof. intros s a s'. apply (disrsi_fuel_agree (S (String.length s)) count s). Qed.

#[export] Instance ReadUint_agree : Agrees ReadUint_cli ReadUint.
Proof. apply Agrees_bind; [apply _|]. intros [v n]. apply _. Qed.
#[export] Instance ReadInt_agree : Agrees ReadInt_cli ReadInt.
Proof. apply Agrees_bind; [apply _|]. intros [v []]; apply _. Qed.
#[export] Instance ReadString_agree : Agrees ReadString_cli ReadString.
Proof. unfold ReadString_cli, ReadString. solve_agrees. Qed.
#[export] Instance ReadSvrAttr_agree : Agrees ReadSvrAttr_cli ReadSvrAttr.
Proof. unfold ReadSvrAttr_cli, ReadSvrAttr. solve_agrees. Qed.

Lemma read_n_agree {A} `{Agrees A mc ms} n : Agrees (read_n mc n) (read_n ms n).
Proof. induction n; simpl; solve_agrees; apply _. Qed.

#[export] Instance ReadSvrAttrl_agree : Agrees ReadSvrAttrl_cli ReadSvrAttrl.
Proof.
  unfold ReadSvrAttrl_cli, ReadSvrAttrl. apply Agrees_bind; [apply _|]. intros count.
  apply Agrees_if; [apply _|apply read_n_agree].
Qed.
#[export] Instance readReply_agree : Agrees readReply ReadReply.
Proof. unfold readReply, ReadReply. solve_agrees. Qed.

#[export] Instance Wire_uint_cli : Wire wire_uint WriteUint ReadUint_cli.
Proof. apply Wire_agrees, _. Qed.
#[export] Instance Wire_int_cli : Wire is_int64 WriteInt ReadInt_cli.
Proof. apply Wire_agrees, _. Qed.
#[export] Instance Wire_str_cli : Wire wire_str WriteString ReadString_cli.
Proof. apply Wire_agrees, _. Qed.
#[export] Instance Wire_attrl_cli : Wire wire_attrl WriteSvrAttrl ReadSvrAttrl_cli.
Proof. apply Wire_agrees, _. Qed.
#[export] Instance Wire_reply_cli : Wire wire_reply WriteReply readReply.
Proof. apply Wire_agrees, _. Qed.

(** ** Status replies *)

Definition wire_object (o : StatusObject) : Prop :=
  wire_uint (obj_Type o) ∧ wire_str (obj_Name o) ∧ wire_attrl (obj_Attrs o).

#[export] Instance wire_object_dec o : Decision (wire_object o).
Proof. unfold wire_object. apply _. Defined.

#[export] Instance Wire_object : Wire wire_object WriteStatusObject read_object.
Proof.
  intros [t n l] rest (Ht & Hn & Hl). simpl in *.
  destruct (wire_uint_int64 _ Ht) as [Ht1 Ht2].
  unfold WriteStatusObject, read_object. cbn [obj_Type obj_Name obj_Attrs]. rewrite Ht1.
  do 3 (wire_step; [|done]). by rewrite Ht2.
Qed.

(** ** Calls against the replies they expect *)

Lemma recv_wire {A} `{Wire A ok put get} a rest :
  ok a → recv get (put a +:+ rest) = ([], Ok a, rest).
Proof. intros Ha. unfold recv. by rewrite wire_roundtrip. Qed.

(** ** Theorems *)

(** Wherever the server's codec reads a number, a string, an attribute list or a
    reply, the client's codec, which lacks the check of the count digits, reads the
    same value and leaves the same bytes. *)
Theorem cli_codec_agrees s s' :
  (∀ n, ReadUint s = (Ok n, s') → ReadUint_cli s = (Ok n, s')) ∧
  (∀ n, ReadInt s = (Ok n, s') → ReadInt_cli s = (Ok n, s')) ∧
  (∀ x, ReadString s = (Ok x, s') → ReadString_cli s = (Ok x, s')) ∧
  (∀ l, ReadSvrAttrl s = (Ok l, s') → ReadSvrAttrl_cli s = (Ok l, s')) ∧
  (∀ r, ReadReply s = (Ok r, s') → readReply s = (Ok r, s')).
Proof. split_and!; intros ?; apply agrees. Qed.

(** The client's codec also reads streams the server's refuses: a count with a byte
    that is no digit is taken as a number. *)
Theorem cli_codec_accepts_non_digit :
  ReadUint ("2" +:+ "1:" +:+ "+12345678901234567890") = (Err (Wrapped ErrNonDigit), "+12345678901234567890") ∧
  ReadUint_cli ("2" +:+ "1:" +:+ "+00000000000000000042") = (Ok 42, "").
Proof. by vm_compute. Qed.

(** A status command gets exactly the objects the server put in its reply, with
    their attributes in order. *)
Theorem sendStatusRequest_objects user reqType id objects rest :
  Forall wire_object objects → Z.of_nat (length objects) * object_size ≤ maxAlloc →
  sendStatusRequest user reqType id (WriteStatusReply objects +:+ rest)
  = ([status_request user reqType id], Ok objects, rest).
Proof.
  intros Ho Hn. unfold sendStatusRequest, mbind, Call_bind, flush, recv.
  enough (readStatusReply (WriteStatusReply objects +:+ rest) = (Ok (inr objects), rest))
    as -> by done.
  unfold readStatusReply, WriteStatusReply.
  do 4 (wire_step; [|solve_wire]). wire_step; [|solve_wire].
  change (negb (PbsErrNone =? 0)) with false.
  change (negb (int64 ReplyChoiceStatus =? ReplyChoiceStatus)) with false.
  cbv iota. wire_step; [|unfold object_size in *; solve_wire].
  replace (maxAlloc <? _) with false by lia. rewrite Nat2Z.id.
  unfold mbind, Reader_bind. by rewrite read_n_wire.
Qed.

Lemma sendStatusRequest_objects_witness :
  let o := mkObject 2 "batch" [mkAttr "total_jobs" false "" "3" 0] in
  sendStatusRequest "alice" BatchReqStatusQueue "" (WriteStatusReply [o] +:+ "rest")
  = ([status_request "alice" BatchReqStatusQueue ""], Ok [o], "rest").
Proof.
  apply (sendStatusRequest_objects "alice" BatchReqStatusQueue ""
    [mkObject 2 "batch" [mkAttr "total_jobs" false "" "3" 0]] "rest"); [|by vm_compute].
  repeat constructor; by vm_compute.
Defined.

(** A submission sends the script under the job id the server assigned, and returns
    that id once the script is accepted; when the server refuses the job, the script is
    never sent and the code is reported. *)
Theorem SubmitJob_protocol user queue attrs script rest :
  (∀ jobID, wire_str jobID →
    SubmitJob user queue attrs script
      (WriteReply (SendJobIDReply ReplyChoiceQueue jobID) +:+ WriteReply SendOkReply +:+ rest)
    = ([queuejob_request user queue attrs; jobscript_request user jobID script],
       Ok jobID, rest)) ∧
  (∀ code aux, is_int64 code → is_int64 aux → code ≠ 0 →
    SubmitJob user queue attrs script (WriteReply (SendErrorReply code aux) +:+ rest)
    = ([queuejob_request user queue attrs], Err (ReplyError (ServerError code)), rest)).
Proof.
  split.
  - intros jobID Hj. unfold SubmitJob, expect_ok, mbind, Call_bind, flush.
    rewrite recv_wire by by split_and!. simpl. by rewrite recv_wire by by vm_compute.
  - intros code aux Hc Ha Hne. unfold SubmitJob, mbind, Call_bind, flush.
    rewrite recv_wire by by split_and!. simpl. by replace (code =? 0) with false by lia.
Qed.

Lemma SubmitJob_protocol_witness :
  SubmitJob "alice" "batch" [] "sleep 1"
    (WriteReply (SendJobIDReply ReplyChoiceQueue "7.srv") +:+ WriteReply SendOkReply +:+ "")
  = ([queuejob_request "alice" "batch" []; jobscript_request "alice" "7.srv" "sleep 1"],
     Ok "7.srv", "").
Proof.
  destruct (SubmitJob_protocol "alice" "batch" [] "sleep 1" "") as [H _].
  apply H. by vm_compute.
Defined.

Lemma cli_codec_agrees_witness : ReadUint_cli "2+15rest" = (Ok 15, "rest").
Proof. destruct (cli_codec_agrees "2+15rest" "rest") as [H _]. apply H. by vm_compute. Defined.
