(* ===== verification/Conn.v ===== *)
(** * Connections: internal/server/server.go, [handleConnection]

    The loop that reads batch requests from a connection and hands them to the
    dispatcher, and how it frames the requests of [Client].  The dispatcher is an
    argument: it takes the header and the stream positioned at the body. *)

From S2P Require Import Prelude GoStd Dis DisMessage Client.
Import Proto.

Local Open Scope string_scope.
Local Open Scope Z_scope.

(** Requests whose extension is not read by the loop. *)
Definition no_extension (reqType : Z) : bool :=
  bool_decide (reqType ∈ [BatchReqConnect; BatchReqDisconnect; BatchReqAuthenUser;
                          BatchReqAltAuthenUser; BatchReqAuthToken; BatchReqRerun]).

(** What becomes of a connection: the handler goroutine returns, a panic ends the server, or
    the handler of a request never returns and the connection stays open, unread. *)
Inductive conn_end (St : Type) := Closed (st : St) | Crashed | Stuck.
Arguments Closed {St} _.
Arguments Crashed {St}.
Arguments Stuck {St}.

Section conn.
Context {St : Type}.
(** [dispatchRequest]: the new state and whether to keep reading; [Err] is a handler that never
    returns. *)
Context (dispatch : RequestHeader → St → string → result () (St * bool) * string).
(** [handleISMessage]; [None] is a panic. *)
Context (isMessage : St → string → option St).

(** One turn of the loop: [inr] continues with a state and the rest of the stream. *)
Definition handle_one (st : St) (s : string) : conn_end St + St * string :=
  match ReadUint s with
  | (Panic, _) => inl Crashed
  | (Err _, _) => inl (Closed st)
  | (Ok protoType, s) =>
    if int64 protoType =? ISProtocolType then
      match isMessage st s with None => inl Crashed | Some st => inl (Closed st) end
    else if negb (int64 protoType =? PbsBatchProtType) then inl (Closed st)
    else
      match (ver ← ReadUint; reqType ← ReadUint; user ← ReadString;
             mret (mkHeader (int64 protoType) (int64 ver) (int64 reqType) user)) s with
      | (Panic, _) => inl Crashed
      | (Err _, _) => inl (Closed st)
      | (Ok header, s) =>
        match dispatch header st s with
        | (Panic, _) => inl Crashed
        | (Err _, _) => inl Stuck
        | (Ok (st, keepGoing), s) =>
          let go_on s := if (keepGoing : bool) then inr (st, s) else inl (Closed st) in
          if no_extension (ReqType header) then go_on s
          else match ReadReqExtend s with
               | (Panic, _) => inl Crashed
               | (Err _, _) => inl (Closed st)
               | (Ok _, s) => go_on s
               end
        end
      end
  end.

Fixpoint handleConnection_fuel (fuel : nat) (st : St) (s : string) : option (conn_end St) :=
  match fuel with
  | O => None
  | S fuel =>
    match handle_one st s with
    | inl e => Some e
    | inr (st, s) => handleConnection_fuel fuel st s
    end
  end.

(** Each turn reads at least the protocol number. *)
Definition handleConnection (st : St) (s : string) : conn_end St :=
  default Crashed (handleConnection_fuel (S (String.length s)) st s).

(** ** Termination *)

Context (dispatch_len : ∀ h st s r s',
  dispatch h st s = (r, s') → (String.length s' ≤ String.length s)%nat).

Lemma wrap_fst {A} (m : Reader A) s : (wrap m s).2 = (m s).2.
Proof. unfold wrap. by destruct (m s). Qed.

Lemma ReadUint_len s r s' :
  ReadUint s = (r, s') →
  (String.length s' ≤ String.length s)%nat ∧
  (is_ok r = true → (String.length s' < String.length s)%nat).
Proof.
  unfold ReadUint, wrap, mbind, Reader_bind.
  destruct (disrsi 1 s) as [[[v []]|e|] t] eqn:E; apply disrsi_len in E as [H1 H2];
    intros [= <- <-]; simpl; split; intros; try done; auto.
Qed.

Lemma ReadString_len_le s r s' :
  ReadString s = (r, s') → (String.length s' ≤ String.length s)%nat.
Proof.
  unfold ReadString, wrap, mbind, Reader_bind.
  destruct (ReadUint s) as [[v|e|] t] eqn:E; apply ReadUint_len in E as [H1 H2];
    try (intros [= <- <-]; simpl; lia).
  simpl. unfold mret, Reader_ret. destruct (v =? 0); [intros [= <- <-]; lia|].
  destruct (read_full v t) as [[y|?|] u] eqn:E2; apply read_full_len in E2;
    intros [= <- <-]; lia.
Qed.

Lemma handle_one_shorter st s st' s' :
  handle_one st s = inr (st', s') → (String.length s' < String.length s)%nat.
Proof.
  unfold handle_one, mbind, Reader_bind, ReadReqExtend.
  destruct (ReadUint s) as [[proto|?|] s0] eqn:E0; try done.
  apply ReadUint_len in E0 as [_ L0]. specialize (L0 eq_refl).
  destruct (_ =? ISProtocolType); [by destruct (isMessage st s0)|].
  destruct (negb _); [done|].
  destruct (ReadUint s0) as [[ver|?|] s1] eqn:E1; try done. apply ReadUint_len in E1 as [L1 _].
  destruct (ReadUint s1) as [[ty|?|] s2] eqn:E2; try done. apply ReadUint_len in E2 as [L2 _].
  destruct (ReadString s2) as [[user|?|] s3] eqn:E3; try done. apply ReadString_len_le in E3.
  unfold mret, Reader_ret. destruct (dispatch _ st s3) as [[[st1 go]|?|] s4] eqn:E4; [|done..].
  apply dispatch_len in E4. destruct (no_extension _); [destruct go; intros [= <- <-]; lia|].
  unfold mbind, Reader_bind.
  destruct (ReadUint s4) as [[hasExt|?|] s5] eqn:E5; try done. apply ReadUint_len in E5 as [L5 _].
  destruct (hasExt =? 0); simpl; [destruct go; intros [= <- <-]; lia|].
  destruct (ReadString s5) as [[x|?|] s6] eqn:E6; try done. apply ReadString_len_le in E6.
  destruct go; intros [= <- <-]; lia.
Qed.

Lemma handleConnection_enough fuel st s :
  (String.length s < fuel)%nat →
  handleConnection_fuel fuel st s = Some (handleConnection st s).
Proof.
  enough (∀ f g st s, (String.length s < f)%nat → (String.length s < g)%nat →
    handleConnection_fuel f st s = handleConnection_fuel g st s ∧
    is_Some (handleConnection_fuel f st s)) as H.
  { intros Hf. destruct (H fuel (S (String.length s)) st s) as [He [r Hr]]; [lia..|].
    unfold handleConnection. by rewrite <- He, Hr. }
  clear fuel st s. intros f. induction f as [|f IH]; intros [|g] st s Hf Hg; [lia..|].
  simpl. destruct (handle_one st s) as [e|[st' s']] eqn:E; [eauto|].
  apply handle_one_shorter in E. apply IH; lia.
Qed.

Lemma handleConnection_eq st s :
  handleConnection st s =
  match handle_one st s with
  | inl e => e
  | inr (st, s) => handleConnection st s
  end.
Proof.
  unfold handleConnection at 1. simpl. destruct (handle_one st s) as [e|[st' s']] eqn:E; [done|].
  apply handle_one_shorter in E. by rewrite handleConnection_enough by lia.
Qed.

(** The turns of the loop, and what a connection that stays open has come to. *)
Definition turn (x y : St * string) : Prop := handle_one x.1 x.2 = inr y.

Lemma handleConnection_stuck st s :
  handleConnection st s = Stuck →
  ∃ st' s' h body rest, rtc turn (st, s) (st', s') ∧ dispatch h st' body = (Err (), rest).
Proof.
  remember (String.length s) as n eqn:Hn. revert st s Hn. induction (lt_wf n) as [n _ IH]. intros st s -> Hs.
  rewrite handleConnection_eq in Hs. destruct (handle_one st s) as [e|[st1 s1]] eqn:E.
  - subst e. exists st, s. unfold handle_one in E. repeat case_match; simplify_eq.
    match goal with H : dispatch ?h st ?b = (Err ?u, ?r) |- _ => destruct u; exists h, b, r end. by split.
  - pose proof (handle_one_shorter _ _ _ _ E) as Hl. destruct (IH _ Hl st1 s1 eq_refl Hs) as (st' & s' & h & b & r & Hr & Hd).
    exists st', s', h, b, r. split; [|done]. by apply (rtc_l _ _ (st1, s1)).
Qed.

(** ** Framing *)

(** A request as the client frames it: its type, its user, the bytes of its body and of
    its extension. *)
Record request := mkReq { rq_type : Z; rq_user : string; rq_body : string; rq_ext : string }.
Definition frame (q : request) : string :=
  writeHeader (rq_user q) (rq_type q) +:+ rq_body q +:+ WriteString (rq_ext q).
Definition header_of (q : request) : RequestHeader :=
  mkHeader PbsBatchProtType PbsBatchProtVer (rq_type q) (rq_user q).

(** The handler of [q] reads the body of [q] exactly, and takes the state to [f st]. *)
Definition reads_body (q : request) (f : St → St) : Prop :=
  ∀ st rest, dispatch (header_of q) st (rq_body q +:+ rest) = (Ok (f st, true), rest).

Definition ok_request (q : request) : Prop :=
  wire_uint (rq_type q) ∧ wire_str (rq_user q) ∧ no_extension (rq_type q) = false.

(** The loop up to the extension of a request. *)
Lemma handle_one_frame q f st rest :
  ok_request q → reads_body q f →
  handle_one st (frame q +:+ rest) =
  match ReadReqExtend (WriteString (rq_ext q) +:+ rest) with
  | (Panic, _) => inl Crashed
  | (Err _, _) => inl (Closed (f st))
  | (Ok _, s) => inr (f st, s)
  end.
Proof.
  intros (Ht & Hu & Hn) Hd. destruct (wire_uint_int64 _ Ht) as [Ht1 Ht2].
  unfold handle_one, frame, writeHeader. rewrite !app_str_assoc, Ht1.
  rewrite (wire_roundtrip (get := ReadUint)) by by vm_compute.
  change (int64 PbsBatchProtType) with PbsBatchProtType. cbn [Z.eqb].
  change (PbsBatchProtType =? ISProtocolType) with false.
  change (negb (PbsBatchProtType =? PbsBatchProtType)) with false. cbv iota.
  wire_step; [|by vm_compute]. wire_step; [|done]. wire_step; [|done].
  unfold mret, Reader_ret. rewrite Ht2. change (int64 PbsBatchProtVer) with PbsBatchProtVer.
  fold (header_of q). rewrite Hd. change (ReqType (header_of q)) with (rq_type q).
  by rewrite Hn.
Qed.

Lemma handle_one_empty_ext q f st rest :
  ok_request q → reads_body q f → rq_ext q = "" →
  handle_one st (frame q +:+ rest) = inr (f st, rest).
Proof.
  intros Hq Hf He. rewrite (handle_one_frame q f) by done. rewrite He.
  change (WriteString "") with (WriteReqExtend ""). by rewrite wire_roundtrip by by vm_compute.
Qed.

Definition concat_str : list string → string := foldr String.append "".

End conn.

(** ** Readers only consume *)

Class Shrinks {A} (m : Reader A) : Prop :=
  shrinks : ∀ s r s', m s = (r, s') → (String.length s' ≤ String.length s)%nat.

#[export] Instance shrinks_ret {A} (a : A) : Shrinks (mret a).
Proof. by intros s r s' [= _ <-]. Qed.
#[export] Instance shrinks_panic {A} : Shrinks (panic (A := A)).
Proof. by intros s r s' [= _ <-]. Qed.
#[export] Instance shrinks_bind {A B} (m : Reader A) (f : A → Reader B) :
  Shrinks m → (∀ a, Shrinks (f a)) → Shrinks (m ≫= f).
Proof.
  intros Hm Hf s r s'. unfold mbind, Reader_bind. destruct (m s) as [[a|e|] t] eqn:E; apply Hm in E.
  - intros H%Hf. lia.
  - intros [= _ <-]. lia.
  - intros [= _ <-]. lia.
Qed.
#[export] Instance shrinks_wrap {A} (m : Reader A) : Shrinks m → Shrinks (wrap m).
Proof. intros Hm s r s'. unfold wrap. destruct (m s) as [x t] eqn:E. intros [= _ <-]. by apply Hm in E. Qed.
#[export] Instance shrinks_ignore {A} (m : Reader A) : Shrinks m → Shrinks (ignore m).
Proof. intros Hm s r s'. unfold ignore. destruct (m s) as [[a|e|] t] eqn:E; intros [= _ <-]; by apply Hm in E. Qed.
#[export] Instance shrinks_if {A} (b : bool) (m n : Reader A) : Shrinks m → Shrinks n → Shrinks (if b then m else n).
Proof. by destruct b. Qed.
#[export] Instance shrinks_uint : Shrinks ReadUint.
Proof. intros s r s' H. by apply ReadUint_len in H as [? _]. Qed.
#[export] Instance shrinks_int : Shrinks ReadInt.
Proof.
  intros s r s'. unfold ReadInt, wrap, mbind, Reader_bind.
  destruct (disrsi 1 s) as [[[v b]|e|] t] eqn:E; apply disrsi_len in E as [H1 _]; by intros [= _ <-].
Qed.
#[export] Instance shrinks_string : Shrinks ReadString.
Proof. intros s r s'. apply ReadString_len_le. Qed.
#[export] Instance shrinks_read_n {A} (m : Reader A) n : Shrinks m → Shrinks (read_n m n).
Proof. intros Hm. induction n as [|n IH]; cbn [read_n]; apply _. Qed.
#[export] Instance shrinks_attr : Shrinks ReadSvrAttr.
Proof. unfold ReadSvrAttr. apply _. Qed.
#[export] Instance shrinks_attrl : Shrinks ReadSvrAttrl.
Proof. unfold ReadSvrAttrl. apply _. Qed.
#[export] Instance shrinks_extend : Shrinks ReadReqExtend.
Proof. unfold ReadReqExtend. apply _. Qed.

(** ** Theorems *)

(** The connection loop ends on every byte stream, whatever the handlers do, as long
    as they only consume the stream: the fuel of the model is always enough. *)
Theorem handleConnection_total {St}
    (dispatch : RequestHeader → St → string → result () (St * bool) * string) isMessage st s fuel :
  (∀ h st s r s', dispatch h st s = (r, s') → (String.length s' ≤ String.length s)%nat) →
  (String.length s < fuel)%nat →
  handleConnection_fuel dispatch isMessage fuel st s
  = Some (handleConnection dispatch isMessage st s).
Proof. intros Hd Hf. by apply handleConnection_enough. Qed.

(** A dispatcher for the witnesses: it reads a run request and records it. *)
Definition log_run (h : RequestHeader) (st : list (string * string)) (s : string) :
    result () (list (string * string) * bool) * string :=
  match ReadRunJobBody s with
  | (Ok x, s) => (Ok ((st ++ [x])%list, true), s)
  | (Err _, s) => (Ok (st, false), s)
  | (Panic, s) => (Panic, s)
  end.

Lemma log_run_len h st s r s' : log_run h st s = (r, s') → (String.length s' ≤ String.length s)%nat.
Proof.
  unfold log_run, ReadRunJobBody, mbind, Reader_bind.
  destruct (ReadString s) as [[x|?|] t] eqn:E; apply ReadString_len_le in E;
    try (intros [= <- <-]; lia).
  destruct (ReadString t) as [[y|?|] u] eqn:E2; apply ReadString_len_le in E2;
    intros [= <- <-]; lia.
Qed.

Lemma handleConnection_total_witness :
  handleConnection_fuel log_run (λ st _, Some st) 50 [] "+2+2+15x"
  = Some (handleConnection log_run (λ st _, Some st) [] "+2+2+15x").
Proof.
  apply (handleConnection_total log_run (λ st _, Some st) [] "+2+2+15x" 50);
    [apply log_run_len|simpl; lia].
Defined.

(** A connection that carries any number of client requests with empty extensions
    serves all of them, in order, each from the state the previous one left. *)
Theorem handleConnection_serves {St}
    (dispatch : RequestHeader → St → string → result () (St * bool) * string) isMessage
    (qs : list (request * (St → St))) st :
  (∀ h st s r s', dispatch h st s = (r, s') → (String.length s' ≤ String.length s)%nat) →
  Forall (λ qf, ok_request qf.1 ∧ reads_body dispatch qf.1 qf.2 ∧ rq_ext qf.1 = "") qs →
  handleConnection dispatch isMessage st (concat_str (frame ∘ fst <$> qs))
  = Closed (foldl (λ st qf, qf.2 st) st qs).
Proof.
  intros Hd Hq. revert st. induction Hq as [|[q f] qs (Hok & Hb & He) Hqs IH]; intros st.
  - done.
  - cbn [fmap list_fmap concat_str foldr foldl fst snd] in *. rewrite handleConnection_eq by done.
    unfold compose at 1. cbn [fst].
    rewrite (handle_one_empty_ext dispatch isMessage q f) by done. apply IH.
Qed.

Lemma log_run_reads user a b :
  wire_str a → wire_str b →
  reads_body log_run (mkReq BatchReqRunJob user (WriteString a +:+ WriteString b) "")
    (λ st, (st ++ [(a, b)])%list).
Proof.
  intros Ha Hb st rest. unfold log_run, ReadRunJobBody. simpl.
  wire_step; [|done]. by wire_step.
Qed.

Lemma handleConnection_serves_witness :
  handleConnection log_run (λ st _, Some st) []
    (concat_str [run_request "root" "1.srv" "n1"; run_request "root" "2.srv" "n2"])
  = Closed [("1.srv", "n1"); ("2.srv", "n2")].
Proof.
  apply (handleConnection_serves log_run (λ st _, Some st)
    [(mkReq BatchReqRunJob "root" (WriteString "1.srv" +:+ WriteString "n1") "",
      λ st, (st ++ [("1.srv", "n1")])%list);
     (mkReq BatchReqRunJob "root" (WriteString "2.srv" +:+ WriteString "n2") "",
      λ st, (st ++ [("2.srv", "n2")])%list)] []); [apply log_run_len|].
  repeat (apply Forall_cons; split); [..|apply Forall_nil_2];
    (split; [by vm_compute|split; [by apply log_run_reads|done]]).
Defined.

(** A request with an extension that starts with a letter, such as the [purge] of
    [qdel -p], ends the connection after its handler: the client writes the extension
    as a bare string, the server expects a flag in front of it, so every later request
    of the connection is dropped. *)
Theorem extension_ends_connection {St}
    (dispatch : RequestHeader → St → string → result () (St * bool) * string) isMessage
    q f c ext st rest :
  (∀ h st s r s', dispatch h st s = (r, s') → (String.length s' ≤ String.length s)%nat) →
  ok_request q → reads_body dispatch q f → rq_ext q = String c ext → wire_str (rq_ext q) →
  is_digit c = false → c ≠ "+"%char → c ≠ "-"%char →
  handleConnection dispatch isMessage st (frame q +:+ rest) = Closed (f st).
Proof.
  intros Hd Hq Hf He Hw Hc Hp Hm. rewrite handleConnection_eq by done.
  rewrite (handle_one_frame dispatch isMessage q f) by done.
  rewrite WriteString_eq, app_str_assoc. unfold ReadReqExtend.
  pose proof (len_nonneg ext). pose proof (len_nonneg (rq_ext q)).
  wire_step; [|clear He; solve_wire].
  rewrite He, len_cons. replace (1 + len ext =? 0) with false by lia.
  assert (∀ t, ∃ e u, ReadString (String c t) = (Err e, u)) as Hbad.
  { intros t. unfold ReadString, ReadUint, wrap, mbind, Reader_bind.
    rewrite disrsi_eq. unfold disrsi_body, mbind, Reader_bind. simpl.
    rewrite !bool_decide_eq_false_2 by done. rewrite Hc. simpl.
    destruct (bool_decide _); simpl; eauto. }
  destruct (Hbad (ext +:+ rest)) as (e & u & Hb). simpl. by rewrite Hb.
Qed.

Lemma extension_ends_connection_witness :
  handleConnection log_run (λ st _, Some st) []
    (frame (mkReq BatchReqRunJob "root" (WriteString "1.srv" +:+ WriteString "n1") "purge")
     +:+ run_request "root" "2.srv" "n2")
  = Closed [("1.srv", "n1")].
Proof.
  apply (extension_ends_connection log_run (λ st _, Some st)
    (mkReq BatchReqRunJob "root" (WriteString "1.srv" +:+ WriteString "n1") "purge")
    (λ st, (st ++ [("1.srv", "n1")])%list) "p" "urge" [] (run_request "root" "2.srv" "n2"));
    [apply log_run_len|by vm_compute|by apply log_run_reads|by vm_compute..].
Defined.

(** ** The bodies of the client's requests *)

(** A whole request as the server reads it: type, user, body and extension. *)
Definition read_request {A} (body : Reader A) : Reader (Z * string * A * string) :=
  h ← ReadRequestHeader;
  b ← body;
  e ← ReadReqExtend;
  mret (ReqType h, User h, b, e).

Lemma bind_assoc {A B C} (m : Reader A) (f : A → Reader B) (k : B → Reader C) s :
  ((m ≫= f) ≫= k) s = (m ≫= λ x, f x ≫= k) s.
Proof. unfold mbind, Reader_bind. by destruct (m s) as [[?|?|] ?]. Qed.

Lemma ignore_wire {A B} `{Wire A ok put get} (k : () → Reader B) a rest :
  ok a → (ignore get ≫= k) (put a +:+ rest) = k () rest.
Proof. intros Ha. unfold mbind, Reader_bind, ignore. by rewrite wire_roundtrip. Qed.

Lemma header_wire {B} (k : RequestHeader → Reader B) user reqType rest :
  wire_uint reqType → wire_str user →
  (ReadRequestHeader ≫= k) (writeHeader user reqType +:+ rest)
  = k (mkHeader PbsBatchProtType PbsBatchProtVer reqType user) rest.
Proof.
  intros Ht Hu. change (writeHeader user reqType)
    with (put_header (mkHeader PbsBatchProtType PbsBatchProtVer reqType user)).
  by apply bind_wire.
Qed.

Lemma ext_wire {B} (k : string → Reader B) rest :
  (ReadReqExtend ≫= k) (WriteString "" +:+ rest) = k "" rest.
Proof. change (WriteString "") with (WriteReqExtend ""). by apply bind_wire. Qed.

(** Decode a framed request field by field. *)
Ltac decode_fields :=
  repeat (rewrite ?bind_assoc;
          first [ rewrite bind_ret | rewrite ext_wire
                | erewrite ignore_wire; [|done]
                | erewrite bind_wire; [|done] ]).
Ltac decode :=
  rewrite !app_str_assoc; unfold read_request; rewrite header_wire by done;
  decode_fields; try done.

(** For each of its commands, the client sends a request whose type, user, arguments
    and empty extension the server's body reader gets back, with nothing left over. *)
Theorem client_requests_decode user a b attrs cmd objType rest :
  wire_str user → wire_str a → wire_str b → wire_attrl attrs → wire_uint cmd →
  wire_uint objType →
  read_request ReadQueueJobBody (queuejob_request user a attrs +:+ rest)
    = (Ok (BatchReqQueueJob2, user, ("", a, attrs), ""), rest) ∧
  read_request ReadJobScriptBody (jobscript_request user a b +:+ rest)
    = (Ok (BatchReqJobScript2, user, (a, b), ""), rest) ∧
  read_request ReadDeleteJobBody (delete_request user a "" +:+ rest)
    = (Ok (BatchReqDeleteJob, user, a, ""), rest) ∧
  read_request ReadHoldJobBody (hold_request user a b +:+ rest)
    = (Ok (BatchReqHoldJob, user, (a, hold_attrs b), ""), rest) ∧
  read_request ReadHoldJobBody (release_request user a b +:+ rest)
    = (Ok (BatchReqReleaseJob, user, (a, hold_attrs b), ""), rest) ∧
  read_request ReadModifyJobBody (modify_request user a attrs +:+ rest)
    = (Ok (BatchReqModifyJob, user, (a, attrs), ""), rest) ∧
  read_request ReadManagerBody (manager_request user cmd objType a attrs +:+ rest)
    = (Ok (BatchReqManager, user, (cmd, objType, a, attrs), ""), rest) ∧
  read_request ReadRunJobBody (run_request user a b +:+ rest)
    = (Ok (BatchReqRunJob, user, (a, b), ""), rest) ∧
  read_request ReadSignalJobBody (signal_request user a b +:+ rest)
    = (Ok (BatchReqSignalJob, user, (a, b), ""), rest) ∧
  read_request ReadMoveJobBody (move_request user a b +:+ rest)
    = (Ok (BatchReqMoveJob, user, (a, b), ""), rest) ∧
  read_request ReadStatusBody (select_request user attrs +:+ rest)
    = (Ok (BatchReqSelectJobs, user, ("", attrs), ""), rest) ∧
  read_request ReadStatusBody (status_request user BatchReqStatusJob a +:+ rest)
    = (Ok (BatchReqStatusJob, user, (a, []), ""), rest).
Proof.
  intros Hu Ha Hb Hl Hc Ho. destruct (wire_uint_int64 _ Hc) as [Hc1 Hc2].
  destruct (wire_uint_int64 _ Ho) as [Ho1 Ho2].
  assert (wire_attrl (hold_attrs b)).
  { split; [|by vm_compute]. repeat constructor; done. }
  assert (wire_uint (uint64 (len b))).
  { pose proof (len_nonneg b). rewrite uint64_id; solve_wire. }
  unfold queuejob_request, jobscript_request, delete_request, hold_request, release_request,
    modify_request, manager_request, run_request, signal_request, move_request, select_request,
    status_request, manage_body, two_strings.
  unfold ReadQueueJobBody, ReadJobScriptBody, ReadDeleteJobBody, ReadHoldJobBody,
    ReadModifyJobBody, ReadManagerBody, ReadRunJobBody, ReadSignalJobBody, ReadMoveJobBody,
    ReadStatusBody.
  rewrite Hc1, Ho1. split_and!; decode. by rewrite Hc2, Ho2.
Qed.

Lemma client_requests_decode_witness :
  read_request ReadManagerBody
    (manager_request "root" 1 2 "batch" [mkAttr "queue_type" false "" "Execution" 0] +:+ "")
  = (Ok (BatchReqManager, "root",
         (1, 2, "batch", [mkAttr "queue_type" false "" "Execution" 0]), ""), "").
Proof.
  destruct (client_requests_decode "root" "batch" "x"
    [mkAttr "queue_type" false "" "Execution" 0] 1 2 "") as (_ & _ & _ & _ & _ & _ & H & _);
    [by_decide..|exact H].
Defined.
