(* ===== verification/Job.v ===== *)
(** * Jobs: internal/job/job.go

    The job record and its own operations.  [time.Now()] is an argument of the
    operations that read the clock; the calls within one operation read the same
    instant.  The locks are not modelled: every operation runs under the job's or the
    manager's lock. *)

From S2P Require Import Prelude GoStd.

Local Open Scope string_scope.
Local Open Scope Z_scope.

(** ** Job states and substates *)

Definition StateTransit : Z := 0.
Definition StateQueued : Z := 1.
Definition StateHeld : Z := 2.
Definition StateWaiting : Z := 3.
Definition StateRunning : Z := 4.
Definition StateExiting : Z := 5.
Definition StateComplete : Z := 6.
Definition StateProvisioning : Z := 7.

Definition SubstateTransitQ : Z := 0.
Definition SubstateQueued : Z := 10.
Definition SubstateHeld : Z := 20.
Definition SubstateWaiting : Z := 30.
Definition SubstateStagedIn : Z := 37.
Definition SubstateRunning : Z := 42.
Definition SubstateExiting : Z := 50.
Definition SubstateComplete : Z := 59.
Definition SubstateObitSent : Z := 53.

Definition StateNames (state : Z) : option string :=
  match state with
  | 0 => Some "T" | 1 => Some "Q" | 2 => Some "H" | 3 => Some "W"
  | 4 => Some "R" | 5 => Some "E" | 6 => Some "C" | 7 => Some "D"
  | _ => None
  end.

(** ** The job record *)

Record Job := mkJob {
  ID : string;
  Name : string;
  Owner : string;
  Queue : string;
  Server : string;
  HashName : string;
  State : Z;
  Substate : Z;
  ExecHost : string;
  ExecPort : Z;
  SessionID : Z;
  ExitStatus : Z;
  CreateTime : Time;
  QueueTime : Time;
  StartTime : Time;
  CompTime : Time;
  ModifyTime : Time;
  MTime : Time;
  ExecutionTime : Time;
  Script : string;
  ScriptFile : string;
  ScriptArgs : string;
  StdoutPath : string;
  StderrPath : string;
  JoinPath : string;
  Checkpoint : string;
  ResourceReq : gmap string string;
  ResourceUsed : gmap string string;
  EUser : string;
  EGroup : string;
  Shell : string;
  UserList : string;
  Account : string;
  Attrs : gmap string string;
  VariableList : gmap string string;
  KeepFiles : string;
  FaultTolerant : string;
  JobRadix : string;
  ReqVersion : string;
  Priority : Z;
  Rerunnable : string;
  MailPoints : string;
  MailUsers : string;
  Comment : string;
  DependList : string;
  StageinList : string;
  StageoutList : string;
  GroupList : string;
  JobArrayReq : string;
  InitWorkDir : string;
  RootDir : string;
  NodeCount : Z;
  TaskCount : Z;
  NeedNodes : string;
  ProvisionVM : string;
  ProvisionNode : string;
  Modified : bool;
  FromRoute : bool;
  HoldTypes : string;
  Interactive : bool;
}.

#[export] Instance eta_Job : Eta Job := λ j, mkJob (ID j) (Name j) (Owner j) (Queue j)
    (Server j) (HashName j) (State j) (Substate j) (ExecHost j) (ExecPort j) (SessionID j)
    (ExitStatus j) (CreateTime j) (QueueTime j) (StartTime j) (CompTime j) (ModifyTime j)
    (MTime j) (ExecutionTime j) (Script j) (ScriptFile j) (ScriptArgs j) (StdoutPath j)
    (StderrPath j) (JoinPath j) (Checkpoint j) (ResourceReq j) (ResourceUsed j) (EUser j)
    (EGroup j) (Shell j) (UserList j) (Account j) (Attrs j) (VariableList j) (KeepFiles j)
    (FaultTolerant j) (JobRadix j) (ReqVersion j) (Priority j) (Rerunnable j) (MailPoints
    j) (MailUsers j) (Comment j) (DependList j) (StageinList j) (StageoutList j)
    (GroupList j) (JobArrayReq j) (InitWorkDir j) (RootDir j) (NodeCount j) (TaskCount j)
    (NeedNodes j) (ProvisionVM j) (ProvisionNode j) (Modified j) (FromRoute j) (HoldTypes
    j) (Interactive j).

(** The zero value of the struct. *)
Definition zero_job : Job := mkJob "" "" "" "" "" "" 0 0 "" 0 0 0 zero_time zero_time
    zero_time zero_time zero_time zero_time zero_time "" "" "" "" "" "" "" ∅ ∅ "" "" "" ""
    "" ∅ ∅ "" "" "" "" 0 "" "" "" "" "" "" "" "" "" "" "" 0 0 "" "" "" false false ""
    false.

#[export] Instance Job_eq_dec : EqDecision Job.
Proof. solve_decision. Defined.

(** ** Operations *)

Definition NewJob (now : Time) (id queue server : string) : Job :=
  zero_job <| ID := id |> <| Queue := queue |> <| Server := server |>
    <| State := StateTransit |> <| Substate := SubstateTransitQ |> <| CreateTime := now |>.

Definition StateName (j : Job) : string := default "?" (StateNames (State j)).

Definition IsRunning (j : Job) : bool := State j =? StateRunning.
Definition IsQueued (j : Job) : bool := State j =? StateQueued.
Definition IsProvisioning (j : Job) : bool := State j =? StateProvisioning.
Definition IsComplete (j : Job) : bool := State j =? StateComplete.

(** [SetState]: the new state and the time stamps that go with it. *)
Definition SetState (now : Time) (state substate : Z) (j : Job) : Job :=
  let j := j <| State := state |> <| Substate := substate |> <| MTime := now |>
             <| Modified := true |> in
  if state =? StateQueued then
    (if IsZero (QueueTime j) then j <| QueueTime := now |> else j)
  else if state =? StateRunning then j <| StartTime := now |>
  else if state =? StateComplete then j <| CompTime := now |>
  else j.

(** [FormatResourceUsed].  A duration converts to hours, minutes and seconds by
    truncation (exactly here; the code goes through [float64]), and so does [%]. *)
Definition walltime_str (dur : Duration) : string :=
  fmt_02d (dur ÷ Hour) +:+ ":" +:+ fmt_02d (Z.rem (dur ÷ Minute) 60) +:+ ":" +:+
  fmt_02d (Z.rem (dur ÷ Second) 60).

Definition FormatResourceUsed (now : Time) (j : Job) : gmap string string :=
  match ResourceUsed j !! "walltime" with
  | Some _ => ResourceUsed j
  | None =>
    if IsZero (StartTime j) then ResourceUsed j
    else let end_ := if IsZero (CompTime j) then now else CompTime j in
         <["walltime" := walltime_str (Sub end_ (StartTime j))]> (ResourceUsed j)
  end.

(** [CloneForArray]: every field of the parent but the ones named; [QueueTime],
    [StartTime], [CompTime], [ModifyTime], [MTime] and [ExecutionTime] are left zero. *)
Definition CloneForArray (now : Time) (index : Z) (server : string) (j : Job) : Job :=
  j <| State := StateTransit |> <| Substate := SubstateTransitQ |> <| CreateTime := now |>
    <| QueueTime := zero_time |> <| StartTime := zero_time |> <| CompTime := zero_time |>
    <| ModifyTime := zero_time |> <| MTime := zero_time |> <| ExecutionTime := zero_time |>
    <| JobArrayReq := Itoa index |> <| Modified := true |> <| Server := server |>.

(** ** Lemmas *)

Ltac setstate := intros; unfold SetState; cbv zeta; repeat case_match; reflexivity.

Lemma SetState_State now st sub j : State (SetState now st sub j) = st.
Proof. setstate. Qed.
Lemma SetState_ID now st sub j : ID (SetState now st sub j) = ID j.
Proof. setstate. Qed.
Lemma SetState_Queue now st sub j : Queue (SetState now st sub j) = Queue j.
Proof. setstate. Qed.
Lemma SetState_Owner now st sub j : Owner (SetState now st sub j) = Owner j.
Proof. setstate. Qed.
Lemma SetState_ExecHost now st sub j : ExecHost (SetState now st sub j) = ExecHost j.
Proof. setstate. Qed.
Lemma SetState_ResourceReq now st sub j : ResourceReq (SetState now st sub j) = ResourceReq j.
Proof. setstate. Qed.

Lemma SetState_ExitStatus now st sub j : ExitStatus (SetState now st sub j) = ExitStatus j.
Proof. setstate. Qed.
Lemma SetState_HoldTypes now st sub j : HoldTypes (SetState now st sub j) = HoldTypes j.
Proof. setstate. Qed.
Lemma SetState_Script now st sub j : Script (SetState now st sub j) = Script j.
Proof. setstate. Qed.

(** Conversion unfolds these last: their bodies are large records. *)
#[global] Strategy 100 [SetState CloneForArray].

Create Rewrite HintDb job.
#[export] Hint Rewrite SetState_State SetState_ID SetState_Queue SetState_Owner
  SetState_ExecHost SetState_ResourceReq SetState_Script : job.

(** A job's time of entering the queue is set once. *)
Lemma SetState_QueueTime_once now st sub j :
  IsZero (QueueTime j) = false → QueueTime (SetState now st sub j) = QueueTime j.
Proof.
  intros H. unfold SetState. cbv zeta. cbn [QueueTime set_field]. rewrite H.
  repeat case_match; reflexivity.
Qed.
