(* ===== verification/JobManager.v ===== *)
(** * The job manager: internal/job/manager.go

    The table of jobs, the id counter and the per-state counters, which the server's
    handlers share. *)

From S2P Require Import Prelude GoStd Job.

Local Open Scope string_scope.
Local Open Scope Z_scope.

(** ** State *)

Record Manager := mkManager {
  jobs : gmap string Job;
  nextJobID : Z;
  serverName : string;
  stateCounts : list Z;   (* [7]int *)
}.
#[export] Instance eta_Manager : Eta Manager := λ m,
  mkManager (jobs m) (nextJobID m) (serverName m) (stateCounts m).

Definition NewManager (server : string) (startingJobID : Z) : Manager :=
  mkManager ∅ startingJobID server (replicate 7 0).

(** ** Counters *)

Definition in_counts (m : Manager) (state : Z) : bool :=
  (0 <=? state) && (state <? Z.of_nat (length (stateCounts m))).
Definition count_at (m : Manager) (state : Z) : Z :=
  default 0 (stateCounts m !! Z.to_nat state).
Definition incr_count (state : Z) (m : Manager) : Manager :=
  if in_counts m state
  then m <| stateCounts := alter (λ c, int64 (c + 1)) (Z.to_nat state) (stateCounts m) |> else m.
(** Guarded against underflow. *)
Definition decr_count (state : Z) (m : Manager) : Manager :=
  if in_counts m state && (0 <? count_at m state)
  then m <| stateCounts := alter (λ c, int64 (c - 1)) (Z.to_nat state) (stateCounts m) |> else m.

(** ** Operations *)

Definition NextJobID (m : Manager) : string * Manager :=
  (Itoa (nextJobID m) +:+ "." +:+ serverName m, m <| nextJobID := int64 (nextJobID m + 1) |>).

Definition GetNextJobIDNum (m : Manager) : Z := nextJobID m.
Definition SetNextJobIDNum (n : Z) (m : Manager) : Manager := m <| nextJobID := n |>.

Definition AddJob (j : Job) (m : Manager) : Manager :=
  incr_count (State j) (m <| jobs := <[ID j := j]> (jobs m) |>).

Definition RemoveJob (id : string) (m : Manager) : Manager :=
  match jobs m !! id with
  | Some j => decr_count (State j) m <| jobs := delete id (jobs m) |>
  | None => m
  end.

(** The last attempt of [GetJob]: the first job, in the order [ks] the map is ranged in,
    whose number is [id] and whose server matches up to case. *)
Definition short_match (id server stored : string) : bool :=
  match cut "." stored with
  | Some (num, suffix) => bool_decide (num = id) && EqualFold suffix server
  | None => false
  end.
Definition GetJob (ks : list string) (id : string) (m : Manager) : option Job :=
  let id := TrimSpace id in
  match jobs m !! id with
  | Some j => Some j
  | None =>
    if has_byte "." id then None
    else match jobs m !! (id +:+ "." +:+ serverName m) with
         | Some j => Some j
         | None =>
           k ← list_find (λ k, short_match id (serverName m) k = true) ks;
           jobs m !! k.2
         end
  end.

Definition UpdateJobState (now : Time) (id : string) (newState newSubstate : Z) (m : Manager) :
    Manager :=
  match jobs m !! id with
  | None => m
  | Some j =>
    incr_count newState
      (decr_count (State j) m
         <| jobs := <[id := SetState now newState newSubstate j]> (jobs m) |>)
  end.

(** The snapshots return the jobs in the map's order. *)
Definition AllJobs (ks : list string) (m : Manager) : list Job := omap (λ k, jobs m !! k) ks.
Definition QueuedJobs (ks : list string) (m : Manager) : list Job :=
  filter (λ j, IsQueued j = true) (AllJobs ks m).
Definition RunningJobs (ks : list string) (m : Manager) : list Job :=
  filter (λ j, (State j =? StateRunning) || (State j =? StateExiting) = true) (AllJobs ks m).
Definition JobsInQueue (ks : list string) (queueName : string) (m : Manager) : list Job :=
  filter (λ j, Queue j = queueName) (AllJobs ks m).
Definition CompletedJobs (ks : list string) (m : Manager) : list Job :=
  filter (λ j, IsComplete j = true) (AllJobs ks m).

Definition JobCount (m : Manager) : Z := Z.of_nat (size (jobs m)).
Definition StateCount (state : Z) (m : Manager) : Z :=
  if in_counts m state then count_at m state else 0.
Definition CountByState (state : Z) (m : Manager) : Z :=
  count_if (λ j, State j =? state) (jobs m).
Definition CountJobsByOwner (owner : string) (m : Manager) : Z :=
  count_if (λ j, bool_decide (Owner j = owner)) (jobs m).
Definition CountRunningByOwner (owner : string) (m : Manager) : Z :=
  count_if (λ j, (State j =? StateRunning) && bool_decide (Owner j = owner)) (jobs m).
Definition CountRunningByGroup (group : string) (m : Manager) : Z :=
  count_if (λ j, (State j =? StateRunning) && bool_decide (EGroup j = group)) (jobs m).
Definition CountByStateInQueue (queueName : string) (states : list Z) (m : Manager) : Z :=
  count_if (λ j, bool_decide (Queue j = queueName) && bool_decide (State j ∈ states)) (jobs m).
Definition CountQueuedByOwnerInQueue (queueName owner : string) (m : Manager) : Z :=
  count_if (λ j, bool_decide (Queue j = queueName)
                 && ((State j =? StateQueued) || (State j =? StateProvisioning))
                 && bool_decide (Owner j = owner)) (jobs m).
Definition CountRunningByOwnerInQueue (queueName owner : string) (m : Manager) : Z :=
  count_if (λ j, bool_decide (Queue j = queueName) && (State j =? StateRunning)
                 && bool_decide (Owner j = owner)) (jobs m).

(** What the operations do to the table. *)
Lemma incr_count_jobs st m : jobs (incr_count st m) = jobs m.
Proof. unfold incr_count. by destruct (in_counts m st). Qed.
Lemma decr_count_jobs st m : jobs (decr_count st m) = jobs m.
Proof. unfold decr_count. by destruct (_ && _). Qed.
Lemma AddJob_jobs j m : jobs (AddJob j m) = <[ID j := j]> (jobs m).
Proof. unfold AddJob. by rewrite incr_count_jobs. Qed.
Lemma RemoveJob_jobs id m : jobs (RemoveJob id m) = delete id (jobs m).
Proof.
  unfold RemoveJob. destruct (jobs m !! id) eqn:E; [by rewrite decr_count_jobs|].
  by rewrite delete_id.
Qed.
Lemma UpdateJobState_jobs now id st sub m :
  jobs (UpdateJobState now id st sub m) = alter (SetState now st sub) id (jobs m).
Proof.
  unfold UpdateJobState. destruct (jobs m !! id) as [j|] eqn:E.
  - rewrite incr_count_jobs, decr_count_jobs. unfold set_field. cbn [jobs].
    apply map_eq. intros k. destruct (decide (k = id)) as [->|].
    + rewrite lookup_insert_eq, lookup_alter_eq. by rewrite E.
    + by rewrite lookup_insert_ne, lookup_alter_ne by done.
  - symmetry. apply alter_id. intros j Hj. congruence.
Qed.
#[export] Hint Rewrite AddJob_jobs RemoveJob_jobs UpdateJobState_jobs : job.

(** ** The invariant

    A job is stored under its id, and the counter of each of the first seven states is the
    number of jobs in it.  The number of jobs stays far below the largest [int]. *)
Record mgr_ok (m : Manager) : Prop := {
  ok_ids : ∀ k j, jobs m !! k = Some j → ID j = k;
  ok_len : length (stateCounts m) = 7%nat;
  ok_counts : ∀ s, 0 ≤ s < 7 → count_at m s = CountByState s m;
  ok_small : Z.of_nat (size (jobs m)) < 2 ^ 60;
}.

Lemma count_if_size {A} (P : A → bool) (m : gmap string A) : count_if P m ≤ Z.of_nat (size m).
Proof.
  unfold count_if. rewrite <- length_map_to_list.
  induction (map_to_list m) as [|kv l IH]; simpl; [lia|]. destruct (P kv.2); lia.
Qed.

Lemma NewManager_ok server start : mgr_ok (NewManager server start).
Proof.
  split; simpl; [by intros k j; rewrite lookup_empty|done| |by rewrite map_size_empty].
  intros s Hs. unfold CountByState, count_at. simpl. rewrite count_if_empty.
  assert (s = 0 ∨ s = 1 ∨ s = 2 ∨ s = 3 ∨ s = 4 ∨ s = 5 ∨ s = 6) as Hc by lia.
  by destruct_or! Hc; subst.
Qed.

(** What the two counter operations do to each counter. *)
Lemma incr_count_at m s t :
  length (stateCounts m) = 7%nat → 0 ≤ t < 7 → is_int64 (count_at m t + 1) →
  count_at (incr_count s m) t = count_at m t + (if s =? t then 1 else 0) ∧
  length (stateCounts (incr_count s m)) = 7%nat ∧ jobs (incr_count s m) = jobs m.
Proof.
  intros Hl Ht Hi. unfold incr_count, in_counts. rewrite Hl. change (Z.of_nat 7) with 7.
  destruct ((0 <=? s) && (s <? 7)) eqn:E; bool_to_prop.
  2:{ apply andb_false_iff in E. replace (s =? t) with false by (destruct E; bool_to_prop; lia).
      split_and!; [simpl; lia|done|done]. }
  cbn [stateCounts jobs set_field]. rewrite length_alter. split_and!; [|done|done].
  unfold count_at in *. cbn [stateCounts set_field]. destruct (s =? t) eqn:Est; bool_to_prop.
  - subst. rewrite list_lookup_alter_eq. destruct (stateCounts m !! Z.to_nat t) eqn:Ec; simpl.
    + simpl in Hi. by rewrite int64_id.
    + apply lookup_ge_None in Ec. lia.
  - rewrite list_lookup_alter_ne by lia. simpl. lia.
Qed.

Lemma decr_count_at m s t :
  length (stateCounts m) = 7%nat → 0 ≤ t < 7 → is_int64 (count_at m t) →
  (s = t → 0 < count_at m t) →
  count_at (decr_count s m) t = count_at m t - (if s =? t then 1 else 0) ∧
  length (stateCounts (decr_count s m)) = 7%nat ∧ jobs (decr_count s m) = jobs m.
Proof.
  intros Hl Ht Hi Hpos. unfold decr_count, in_counts. rewrite Hl. change (Z.of_nat 7) with 7.
  destruct ((0 <=? s) && (s <? 7) && (0 <? count_at m s)) eqn:E; bool_to_prop.
  2:{ replace (s =? t) with false; [split_and!; [simpl; lia|done|done]|].
      symmetry. apply Z.eqb_neq. intros ->. specialize (Hpos eq_refl).
      apply andb_false_iff in E as [E|E]; [apply andb_false_iff in E as [E|E]|]; bool_to_prop; lia. }
  cbn [stateCounts jobs set_field]. rewrite length_alter. split_and!; [|done|done].
  unfold count_at in *. cbn [stateCounts set_field]. destruct (s =? t) eqn:Est; bool_to_prop.
  - subst. rewrite list_lookup_alter_eq. destruct (stateCounts m !! Z.to_nat t) eqn:Ec; simpl.
    + simpl in Hi, Hpos. rewrite int64_id; [done|]. unfold_int. specialize (Hpos eq_refl). lia.
    + apply lookup_ge_None in Ec. lia.
  - rewrite list_lookup_alter_ne by lia. simpl. lia.
Qed.

Section preserve.
Context (m : Manager) (Hm : mgr_ok m).

Lemma count_int64 s : 0 ≤ s < 7 → is_int64 (count_at m s) ∧ is_int64 (count_at m s + 1).
Proof.
  intros Hs. rewrite (ok_counts m Hm) by done.
  pose proof (count_if_size (λ j, State j =? s) (jobs m)).
  pose proof (count_if_nonneg (λ j, State j =? s) (jobs m)).
  pose proof (ok_small m Hm). unfold CountByState. unfold_int. lia.
Qed.

Lemma AddJob_ok j :
  jobs m !! ID j = None → Z.of_nat (size (jobs m)) + 1 < 2 ^ 60 → mgr_ok (AddJob j m).
Proof.
  intros Hnew Hsz. unfold AddJob. set (m' := m <| jobs := _ |>).
  assert (∀ t, 0 ≤ t < 7 → count_at (incr_count (State j) m') t
     = count_at m t + (if State j =? t then 1 else 0) ∧
     length (stateCounts (incr_count (State j) m')) = 7%nat ∧
     jobs (incr_count (State j) m') = <[ID j:=j]> (jobs m)) as Hi.
  { intros t Ht. apply (incr_count_at m'); [apply Hm|done|]. apply (count_int64 t Ht). }
  destruct (Hi 0 ltac:(lia)) as (_ & Hl & Hj). split.
  - intros k j'. rewrite Hj. intros [[<- <-]|[_ Hk]]%lookup_insert_Some; [done|].
    by apply (ok_ids m Hm).
  - done.
  - intros s Hs. destruct (Hi s Hs) as (-> & _ & _). unfold CountByState. rewrite Hj.
    rewrite count_if_insert by done. rewrite (ok_counts m Hm) by done.
    unfold CountByState. lia.
  - rewrite Hj, map_size_insert_None by done. lia.
Qed.

Lemma RemoveJob_ok id : mgr_ok (RemoveJob id m).
Proof.
  unfold RemoveJob. destruct (jobs m !! id) as [j|] eqn:Hj; [|done].
  set (m' := m <| jobs := _ |>).
  assert (∀ t, 0 ≤ t < 7 → count_at (decr_count (State j) m') t
     = count_at m t - (if State j =? t then 1 else 0) ∧
     length (stateCounts (decr_count (State j) m')) = 7%nat ∧
     jobs (decr_count (State j) m') = delete id (jobs m)) as Hd.
  { intros t Ht. apply (decr_count_at m'); [apply Hm|done|apply (count_int64 t Ht)|].
    intros <-. change (count_at m' (State j)) with (count_at m (State j)).
    rewrite (ok_counts m Hm) by done. eapply count_if_pos; [done|]. apply Z.eqb_refl. }
  destruct (Hd 0 ltac:(lia)) as (_ & Hl & Hjs). split.
  - intros k j'. rewrite Hjs. intros [_ Hk]%lookup_delete_Some. by apply (ok_ids m Hm).
  - done.
  - intros s Hs. destruct (Hd s Hs) as (-> & _ & _). unfold CountByState. rewrite Hjs.
    rewrite (ok_counts m Hm) by done. unfold CountByState.
    rewrite (count_if_delete _ (jobs m) id j) by done. lia.
  - rewrite Hjs. pose proof (ok_small m Hm). rewrite map_size_delete, Hj. lia.
Qed.

Lemma UpdateJobState_ok now id st sub : mgr_ok (UpdateJobState now id st sub m).
Proof.
  unfold UpdateJobState. destruct (jobs m !! id) as [j|] eqn:Hj; [|done].
  set (m1 := m <| jobs := _ |>). set (m2 := decr_count (State j) m1).
  assert (∀ t, 0 ≤ t < 7 → count_at m2 t = count_at m t - (if State j =? t then 1 else 0) ∧
     length (stateCounts m2) = 7%nat ∧ jobs m2 = <[id := SetState now st sub j]> (jobs m)) as Hd.
  { intros t Ht. apply (decr_count_at m1); [apply Hm|done|apply (count_int64 t Ht)|].
    intros <-. change (count_at m1 (State j)) with (count_at m (State j)).
    rewrite (ok_counts m Hm) by done. eapply count_if_pos; [done|]. apply Z.eqb_refl. }
  assert (∀ t, 0 ≤ t < 7 → count_at (incr_count st m2) t = count_at m2 t + (if st =? t then 1 else 0) ∧
     length (stateCounts (incr_count st m2)) = 7%nat ∧ jobs (incr_count st m2) = jobs m2) as Hi.
  { intros t Ht. destruct (Hd t Ht) as (Hc & Hl & _). apply incr_count_at; [done|done|].
    rewrite Hc. destruct (count_int64 t Ht). pose proof (ok_counts m Hm t Ht) as Hct.
    pose proof (count_if_nonneg (λ j, State j =? t) (jobs m)). unfold CountByState in Hct.
    unfold_int. destruct (State j =? t); lia. }
  destruct (Hd 0 ltac:(lia)) as (_ & Hl & Hjs). destruct (Hi 0 ltac:(lia)) as (_ & Hl' & Hjs').
  split.
  - intros k j'. rewrite Hjs', Hjs. intros [[<- <-]|[_ Hk]]%lookup_insert_Some;
      [rewrite SetState_ID|]; by apply (ok_ids m Hm).
  - done.
  - intros s Hs. destruct (Hi s Hs) as (-> & _ & _). destruct (Hd s Hs) as (-> & _ & _).
    unfold CountByState. rewrite Hjs', Hjs. rewrite (count_if_update _ (jobs m) id j) by done.
    rewrite SetState_State, (ok_counts m Hm) by done. unfold CountByState. lia.
  - rewrite Hjs', Hjs, map_size_insert_Some by done. apply (ok_small m Hm).
Qed.
End preserve.

(** ** Runs of the manager *)

(** The operations the server performs on the table; a new job has an id that is not in
    use. *)
Inductive mstep : Manager → Manager → Prop :=
  | step_next m : mstep m (NextJobID m).2
  | step_setnext n m : mstep m (SetNextJobIDNum n m)
  | step_add j m :
      jobs m !! ID j = None → Z.of_nat (size (jobs m)) + 1 < 2 ^ 60 → mstep m (AddJob j m)
  | step_remove id m : mstep m (RemoveJob id m)
  | step_update now id st sub m : mstep m (UpdateJobState now id st sub m).

Lemma mstep_ok m m' : mstep m m' → mgr_ok m → mgr_ok m'.
Proof.
  destruct 1; intros Hm.
  - by destruct Hm.
  - by destruct Hm.
  - by apply AddJob_ok.
  - by apply RemoveJob_ok.
  - by apply UpdateJobState_ok.
Qed.

Lemma reachable_ok server start m : rtc mstep (NewManager server start) m → mgr_ok m.
Proof.
  intros Hr. apply rtc_ind_r with (P := mgr_ok) in Hr; [done|apply NewManager_ok|].
  intros. by eapply mstep_ok.
Qed.

(** ** Ids *)

Fixpoint NextJobIDs (n : nat) (m : Manager) : list string :=
  match n with
  | O => []
  | S n => let '(id, m) := NextJobID m in id :: NextJobIDs n m
  end.

Lemma Itoa_inj a b : is_int64 a → is_int64 b → Itoa a = Itoa b → a = b.
Proof.
  intros Ha Hb H. pose proof (ParseInt_FormatInt a Ha) as Ea.
  pose proof (ParseInt_FormatInt b Hb) as Eb. unfold Itoa in H. rewrite H in Ea. congruence.
Qed.

Lemma Itoa_no_dot n : has_byte "." (Itoa n) = false.
Proof.
  unfold Itoa, FormatInt. assert (∀ k, 0 ≤ k → has_byte "." (FormatUint k) = false) as H.
  { intros k Hk. eapply all_bytes_has; [by apply FormatUint_digits|done]. }
  destruct (n <? 0) eqn:E; bool_to_prop; [simpl; apply H; lia|apply H; lia].
Qed.

Lemma job_id_inj a b sv : is_int64 a → is_int64 b →
  Itoa a +:+ "." +:+ sv = Itoa b +:+ "." +:+ sv → a = b.
Proof.
  intros Ha Hb H. apply Itoa_inj; [done..|].
  apply (f_equal (cut ".")) in H. change ("." +:+ sv) with (String "." sv) in H.
  rewrite !cut_app in H by apply Itoa_no_dot. congruence.
Qed.

Lemma NextJobIDs_elem n m id :
  0 ≤ nextJobID m → nextJobID m + Z.of_nat n ≤ MaxInt64 →
  id ∈ NextJobIDs n m →
  ∃ k, nextJobID m ≤ k < nextJobID m + Z.of_nat n ∧ id = Itoa k +:+ "." +:+ serverName m.
Proof.
  revert m. induction n as [|n IH]; intros m H0 Hn; simpl; [by intros ?%elem_of_nil|].
  intros [->|Hin]%elem_of_cons; [exists (nextJobID m); split; [lia|done]|].
  apply IH in Hin as (k & Hk & ->); cbn [nextJobID serverName set_field] in *;
    rewrite int64_id in * by (unfold_int; lia); [|lia..].
  exists k. split; [lia|done].
Qed.

(** ** Theorems *)

(** Whatever operations of the job manager are performed on the table, each per-state counter
    equals the number of jobs in that state, for every state the array covers.  The handlers
    that set the state of a job directly are outside of them. *)
Theorem StateCount_exact server start m s :
  rtc mstep (NewManager server start) m → 0 ≤ s < 7 → StateCount s m = CountByState s m.
Proof.
  intros Hm%reachable_ok Hs. unfold StateCount, in_counts. rewrite (ok_len m Hm).
  change (Z.of_nat 7) with 7. replace ((0 <=? s) && (s <? 7)) with true by lia. by apply (ok_counts m Hm).
Qed.

Lemma StateCount_exact_witness :
  let j := NewJob 5 "1.srv" "batch" "srv" in
  let m := UpdateJobState 6 "1.srv" StateQueued SubstateQueued
             (AddJob j (NextJobID (NewManager "srv" 1)).2) in
  StateCount StateQueued m = CountByState StateQueued m.
Proof.
  simpl. apply (StateCount_exact "srv" 1 _ StateQueued); [|by vm_compute].
  eapply rtc_l; [apply step_next|]. eapply rtc_l; [apply step_add; by vm_compute|].
  eapply rtc_l; [apply step_update|]. apply rtc_refl.
Defined.

(** Jobs that wait for a cloud machine are not counted at all: the counter array has
    seven entries and [StateProvisioning] is the eighth state, so [StateCount] reports
    none however many there are. *)
Theorem StateCount_provisioning server start m :
  rtc mstep (NewManager server start) m → StateCount StateProvisioning m = 0.
Proof.
  intros Hm%reachable_ok. unfold StateCount, in_counts. by rewrite (ok_len m Hm).
Qed.

Lemma StateCount_provisioning_witness :
  let m := AddJob (NewJob 5 "1.srv" "batch" "srv") (NewManager "srv" 1) in
  let m := UpdateJobState 6 "1.srv" StateProvisioning SubstateQueued m in
  StateCount StateProvisioning m = 0 ∧ CountByState StateProvisioning m = 1.
Proof.
  split; [|by vm_compute]. apply (StateCount_provisioning "srv" 1).
  eapply rtc_l; [apply step_add; by vm_compute|].
  eapply rtc_l; [apply step_update|]. apply rtc_refl.
Defined.

(** The ids handed out are pairwise distinct, until the counter reaches the largest
    [int]. *)
Theorem NextJobID_unique n m :
  0 ≤ nextJobID m → nextJobID m + Z.of_nat n ≤ MaxInt64 → NoDup (NextJobIDs n m).
Proof.
  revert m. induction n as [|n IH]; intros m H0 Hn; simpl; constructor.
  - intros (k & Hk & He)%NextJobIDs_elem; cbn [nextJobID serverName set_field] in *;
      rewrite int64_id in * by (unfold_int; lia); [|lia..].
    apply job_id_inj in He; unfold_int; lia.
  - apply IH; cbn [nextJobID set_field]; rewrite int64_id by (unfold_int; lia); lia.
Qed.

Lemma NextJobID_unique_witness : NoDup (NextJobIDs 3 (NewManager "srv" 9)).
Proof. apply (NextJobID_unique 3 (NewManager "srv" 9)); by vm_compute. Defined.

(** A job is found by its id, and by its bare number when its id is that number and
    this server's name, whatever the order the table is searched in and blanks around it. *)
Theorem GetJob_finds ks m j num :
  mgr_ok m → jobs m !! ID j = Some j →
  (trimmed (ID j) → GetJob ks (ID j) m = Some j) ∧
  (ID j = num +:+ "." +:+ serverName m → trimmed num → has_byte "." num = false →
   jobs m !! num = None → GetJob ks num m = Some j).
Proof.
  intros Hm Hj. split.
  - intros Ht. unfold GetJob. rewrite Ht. by rewrite Hj.
  - intros Hid Ht Hdot Hnone. unfold GetJob. rewrite Ht, Hnone, Hdot, <- Hid. by rewrite Hj.
Qed.

Lemma GetJob_finds_witness :
  let j := NewJob 5 "7.srv" "batch" "srv" in
  GetJob [] "7" (AddJob j (NewManager "srv" 1)) = Some j.
Proof.
  destruct (GetJob_finds [] (AddJob (NewJob 5 "7.srv" "batch" "srv") (NewManager "srv" 1))
    (NewJob 5 "7.srv" "batch" "srv") "7") as [_ H].
  - apply AddJob_ok; [apply NewManager_ok|by vm_compute..].
  - by vm_compute.
  - apply H; by vm_compute.
Defined.
