(* ===== verification/Node.v ===== *)
(** * Compute nodes: internal/node/node.go

    The node record, its slots and state flags, and the node manager.  A node is held by
    pointer in two tables of the manager; [byID] only ever holds the nodes of [nodes], so
    it is the list of their ids here. *)

From S2P Require Import Prelude GoStd.

Local Open Scope string_scope.
Local Open Scope list_scope.
Local Open Scope Z_scope.

(** ** State flags *)

Definition StateFree : Z := 0.
Definition StateDown : Z := 1.
Definition StateOffline : Z := 2.
Definition StateReserve : Z := 4.
Definition StateJob : Z := 8.
Definition StateBusy : Z := 16.
Definition StateUnknown : Z := 32.
Definition StateDrain : Z := 64.
Definition StateExcl : Z := 128.

(** [state & flag != 0] *)
Definition has_flag (state flag : Z) : bool := negb (Z.land state flag =? 0).
(** [state &^ flag] *)
Definition clear_flag (state flag : Z) : Z := Z.ldiff state flag.

(** ** The node record *)

Record Node := mkNode {
  Name : string;
  ID : Z;
  IP : string;
  State : Z;
  NumProcs : Z;
  MomPort : Z;
  RmPort : Z;
  Status : gmap string string;
  AssignedJobs : list string;
  SlotsTotal : Z;
  SlotsUsed : Z;
  LastUpdate : Time;
  LastHeardFrom : Time;
  FailCount : Z;
  PowerState : string;
  Properties : list string;
  Groups : list string;
  Note : string;
  Queue : string;
  GRes : gmap string Z;
  Dynamic : bool;
  Attrs : gmap string string;
  Modified : bool;
}.
#[export] Instance eta_Node : Eta Node := λ n,
  mkNode (Name n) (ID n) (IP n) (State n) (NumProcs n) (MomPort n) (RmPort n) (Status n)
    (AssignedJobs n) (SlotsTotal n) (SlotsUsed n) (LastUpdate n) (LastHeardFrom n)
    (FailCount n) (PowerState n) (Properties n) (Groups n) (Note n) (Queue n) (GRes n)
    (Dynamic n) (Attrs n) (Modified n).

#[export] Instance Node_eq_dec : EqDecision Node.
Proof. solve_decision. Defined.

Definition NewNode (name : string) (id : Z) : Node :=
  mkNode name id "" StateDown 1 15002 15003 ∅ [] 1 0 zero_time zero_time 0 "Running"
    [] [] "" "" ∅ false ∅ false.

(** ** Operations of a node *)

Definition checkFlags : list (Z * string) :=
  [(StateDown, "down"); (StateOffline, "offline"); (StateBusy, "busy");
   (StateJob, "job-exclusive"); (StateReserve, "reserve"); (StateDrain, "drain");
   (StateExcl, "excl"); (StateUnknown, "state-unknown")].

Definition StateName (n : Node) : string :=
  if State n =? StateFree then "free"
  else
    let result := Join "," (snd <$> filter (λ cf, has_flag (State n) cf.1 = true) checkFlags) in
    if decide (result = "") then "free" else result.

Definition IsFree (n : Node) : bool :=
  if has_flag (State n) (Z.lor StateDrain StateExcl) then false
  else (State n =? StateFree) && (SlotsUsed n <? SlotsTotal n).

Definition IsDown (n : Node) : bool := has_flag (State n) StateDown.

Definition HasGroup (g : string) (n : Node) : bool :=
  existsb (λ grp, EqualFold (TrimSpace grp) g) (Groups n).

Definition AvailableSlots (n : Node) : Z :=
  let avail := int64 (SlotsTotal n - SlotsUsed n) in if avail <? 0 then 0 else avail.

Definition AssignJob (jobID : string) (slots : Z) (n : Node) : Node :=
  let n := n <| AssignedJobs := AssignedJobs n ++ [jobID] |>
             <| SlotsUsed := int64 (SlotsUsed n + slots) |> in
  if SlotsTotal n <=? SlotsUsed n then n <| State := Z.lor (State n) StateJob |> else n.

Definition ReleaseJob (jobID : string) (slots : Z) (n : Node) : Node :=
  let n := n <| AssignedJobs := remove1 jobID (AssignedJobs n) |> in
  let used := int64 (SlotsUsed n - slots) in
  let n := n <| SlotsUsed := if used <? 0 then 0 else used |> in
  if decide (AssignedJobs n = []) then n <| State := clear_flag (State n) StateJob |> else n.

Definition applyStateString (s : string) (n : Node) : Node :=
  let adminFlags := Z.land (State n)
      (Z.lor (Z.lor (Z.lor StateOffline StateReserve) StateDrain) StateExcl) in
  let n :=
    if decide (s = "free") then n <| State := Z.lor StateFree adminFlags |>
    else if decide (s = "busy") then n <| State := Z.lor StateBusy adminFlags |>
    else if decide (s = "down") then n <| State := Z.lor StateDown adminFlags |>
    else n in
  if decide (AssignedJobs n = []) then n else n <| State := Z.lor (State n) StateJob |>.

(** One item of a status update: the text before the first [=] is the key. *)
Definition apply_item (n : Node) (item : string) : Node :=
  match cut "=" item with
  | None => n
  | Some (key, val) =>
    let n := n <| Status := <[key := val]> (Status n) |> in
    if decide (key = "state") then applyStateString val n
    else if decide (key = "ncpus") then
      let n := n <| NumProcs := Sscanf_d val (NumProcs n) |> in
      n <| SlotsTotal := NumProcs n |>
    else if decide (key = "np") then n <| SlotsTotal := Sscanf_d val (SlotsTotal n) |>
    else n
  end.

Definition UpdateFromStatus (now : Time) (items : list string) (n : Node) : Node :=
  let n := foldl apply_item n items in
  let n := n <| LastUpdate := now |> <| LastHeardFrom := now |> <| FailCount := 0 |> in
  if has_flag (State n) StateDown && negb (has_flag (State n) StateOffline)
  then n <| State := clear_flag (State n) StateDown |> else n.

(** ** The node manager *)

Record Manager := mkManager {
  nodes : gmap string Node;
  byID : list Z;
  nextID : Z;
}.
#[export] Instance eta_Manager : Eta Manager := λ m, mkManager (nodes m) (byID m) (nextID m).

Definition NewManager : Manager := mkManager ∅ [] 0.

(** Returns the node, new or existing. *)
Definition AddNode (name : string) (numProcs : Z) (m : Manager) : Node * Manager :=
  match nodes m !! name with
  | Some existing => (existing, m)
  | None =>
    let n := (NewNode name (nextID m)) <| NumProcs := numProcs |> <| SlotsTotal := numProcs |> in
    (n, mkManager (<[name := n]> (nodes m)) (byID m ++ [nextID m]) (int64 (nextID m + 1)))
  end.

Definition RemoveNode (name : string) (m : Manager) : bool * Manager :=
  match nodes m !! name with
  | Some n => (true, m <| byID := remove1 (ID n) (byID m) |> <| nodes := delete name (nodes m) |>)
  | None => (false, m)
  end.

Definition GetNode (name : string) (m : Manager) : option Node := nodes m !! name.
Definition AllNodes (ks : list string) (m : Manager) : list Node := omap (λ k, nodes m !! k) ks.
Definition FreeNodes (ks : list string) (m : Manager) : list Node :=
  filter (λ n, IsFree n = true) (AllNodes ks m).
Definition NodeCount (m : Manager) : Z := Z.of_nat (size (nodes m)).

Definition FindNodeForJob (ks : list string) (neededSlots : Z) (m : Manager) :
    option (Node * Z) :=
  (λ n, (n.2, neededSlots)) <$>
  list_find (λ n, IsFree n && (neededSlots <=? AvailableSlots n) = true) (AllNodes ks m).

Definition MarkNodeDown (name : string) (m : Manager) : Manager :=
  m <| nodes := alter (λ n, n <| State := Z.lor (State n) StateDown |>
                              <| FailCount := int64 (FailCount n + 1) |>) name (nodes m) |>.

(** ** Flags *)

Lemma has_flag_lor s f g : has_flag (Z.lor s f) g = has_flag s g || has_flag f g.
Proof.
  unfold has_flag. rewrite Z.land_lor_distr_l.
  destruct (Z.lor (Z.land s g) (Z.land f g) =? 0) eqn:E; bool_to_prop.
  - apply Z.lor_eq_0_iff in E as [-> ->]. done.
  - destruct (Z.land s g =? 0) eqn:E1, (Z.land f g =? 0) eqn:E2; bool_to_prop; try done.
    rewrite E1, E2 in E. done.
Qed.

Lemma has_flag_self s f : f ≠ 0 → has_flag (Z.lor s f) f = true.
Proof.
  intros Hf. rewrite has_flag_lor. unfold has_flag at 2. rewrite Z.land_diag.
  replace (f =? 0) with false by lia. apply orb_true_r.
Qed.

Lemma has_flag_clear s f : has_flag (clear_flag s f) f = false.
Proof. unfold has_flag, clear_flag. by rewrite Z.ldiff_land, <- Z.land_assoc, (Z.land_comm (Z.lnot f)),
  Z.land_lnot_diag, Z.land_0_r. Qed.

Lemma has_flag_land s a g : Z.land a g = g → has_flag (Z.land s a) g = has_flag s g.
Proof. intros H. unfold has_flag. by rewrite <- Z.land_assoc, H. Qed.

(** ** The slot ledger

    What the node promises the server: it keeps a ledger of the placements on it, each with
    the job and the slots it took; the same job can be placed more than once.  [ledger n l]:
    the node [n] implements the ledger [l]. *)

Definition ledger_slots (l : list (string * Z)) : Z := sum_Z snd l.

Record ledger (n : Node) (l : list (string * Z)) : Prop := {
  led_jobs : AssignedJobs n ≡ₚ l.*1;
  led_pos : Forall (λ js : string * Z, 0 ≤ js.2) l;
  led_slots : SlotsUsed n = ledger_slots l;
}.

Lemma NewNode_ledger name id : ledger (NewNode name id) [].
Proof. by split. Qed.

Lemma ledger_slots_nonneg l : Forall (λ js : string * Z, 0 ≤ js.2) l → 0 ≤ ledger_slots l.
Proof. intros H. unfold ledger_slots. induction H; simpl; lia. Qed.

Lemma AssignJob_ledger n l id slots :
  ledger n l → 0 ≤ slots → ledger_slots l + slots ≤ MaxInt64 →
  ledger (AssignJob id slots n) ((id, slots) :: l).
Proof.
  intros [Hj Hp Hs] Hsl Hb. pose proof (ledger_slots_nonneg l Hp).
  assert (ledger (n <| AssignedJobs := AssignedJobs n ++ [id] |>
                    <| SlotsUsed := int64 (SlotsUsed n + slots) |>) ((id, slots) :: l)) as Hl.
  { split; simpl.
    - rewrite <- Hj. rewrite Permutation_app_comm. done.
    - by constructor.
    - rewrite Hs. rewrite int64_id by (unfold_int; lia). lia. }
  unfold AssignJob. cbv zeta. destruct (_ <=? _); [|done]. by destruct Hl.
Qed.

(** A release gives back one placement of the job, with the slots that one took. *)
Lemma ReleaseJob_ledger n l l' id slots :
  ledger n l → l ≡ₚ (id, slots) :: l' → ledger_slots l ≤ MaxInt64 → ledger (ReleaseJob id slots n) l'.
Proof.
  intros [Hj Hp Hs] Hl Hb.
  assert (Forall (λ js : string * Z, 0 ≤ js.2) ((id, slots) :: l')) as Hp' by by rewrite <- Hl.
  apply Forall_cons in Hp' as [Hsl Hp']. simpl in Hsl. pose proof (ledger_slots_nonneg _ Hp').
  assert (ledger_slots l = slots + ledger_slots l') as Hsum.
  { unfold ledger_slots. by rewrite Hl at 1. }
  set (n1 := n <| AssignedJobs := remove1 id (AssignedJobs n) |> <| SlotsUsed := ledger_slots l' |>).
  assert (ledger n1 l') as Hn1.
  { split; simpl; [|done|done]. apply (Permutation_cons_inv (a := id)). rewrite <- remove1_perm.
    - by rewrite Hj, Hl at 1.
    - rewrite Hj, Hl. left. }
  unfold ReleaseJob. cbv zeta. unfold set_field. cbn [SlotsUsed AssignedJobs State].
  rewrite Hs, Hsum, int64_id by (unfold_int; lia).
  replace (slots + _ - slots <? 0) with false by lia.
  replace (slots + _ - slots) with (ledger_slots l') by lia.
  case_decide; [|done]. by destruct Hn1.
Qed.

(** ** Runs of a node *)

(** What the server does to a node, with the ledger it goes with. *)
Inductive nstep : Node * list (string * Z) → Node * list (string * Z) → Prop :=
  | nstep_assign n l id slots :
      0 ≤ slots → ledger_slots l + slots ≤ MaxInt64 →
      nstep (n, l) (AssignJob id slots n, (id, slots) :: l)
  | nstep_release n l l' id slots :
      l ≡ₚ (id, slots) :: l' → nstep (n, l) (ReleaseJob id slots n, l')
  | nstep_status n l now items : nstep (n, l) (UpdateFromStatus now items n, l).

Lemma applyStateString_frame s n :
  AssignedJobs (applyStateString s n) = AssignedJobs n ∧
  SlotsUsed (applyStateString s n) = SlotsUsed n.
Proof. unfold applyStateString. cbv zeta. repeat case_decide; done. Qed.

Lemma apply_item_frame n item :
  AssignedJobs (apply_item n item) = AssignedJobs n ∧ SlotsUsed (apply_item n item) = SlotsUsed n.
Proof.
  unfold apply_item. destruct (cut "=" item) as [[k v]|]; [|done]. cbv zeta.
  case_decide; [|repeat case_decide; done].
  by destruct (applyStateString_frame v (n <| Status := <[k:=v]> (Status n) |>)).
Qed.

Lemma UpdateFromStatus_frame now items n :
  AssignedJobs (UpdateFromStatus now items n) = AssignedJobs n ∧
  SlotsUsed (UpdateFromStatus now items n) = SlotsUsed n.
Proof.
  unfold UpdateFromStatus. cbv zeta.
  assert (AssignedJobs (foldl apply_item n items) = AssignedJobs n ∧
          SlotsUsed (foldl apply_item n items) = SlotsUsed n) as H.
  { revert n. induction items as [|i items IH]; intros n; [done|]. simpl.
    destruct (IH (apply_item n i)) as [-> ->]. apply apply_item_frame. }
  by destruct (_ && _).
Qed.

Lemma nstep_ledger x y : nstep x y → ledger x.1 x.2 ∧ ledger_slots x.2 ≤ MaxInt64 →
  ledger y.1 y.2 ∧ ledger_slots y.2 ≤ MaxInt64.
Proof.
  destruct 1 as [n l id slots H1 H2|n l l' id slots H1|n l now items]; simpl; intros [Hl Hb].
  - split; [by apply AssignJob_ledger|]. unfold ledger_slots in *. simpl. lia.
  - split; [by eapply ReleaseJob_ledger|].
    assert (ledger_slots l = slots + ledger_slots l') as Hsum by (unfold ledger_slots; by rewrite H1 at 1).
    destruct Hl as [_ Hpos _]. rewrite H1 in Hpos. apply Forall_cons in Hpos as [? _]. simpl in *. lia.
  - split; [|done]. destruct (UpdateFromStatus_frame now items n) as [Ha Hs].
    destruct Hl. split; rewrite ?Ha, ?Hs; done.
Qed.

Lemma nsteps_ledger x y : rtc nstep x y → ledger x.1 x.2 ∧ ledger_slots x.2 ≤ MaxInt64 →
  ledger y.1 y.2 ∧ ledger_slots y.2 ≤ MaxInt64.
Proof. induction 1; [done|]. eauto using nstep_ledger. Qed.

(** ** Theorems *)

(** C11: a node implements its slot ledger: through any sequence of placements, releases
    and status updates, the jobs listed on the node are those of the ledger, as often as
    they were placed and not released, the used slots are the sum of what these placements
    took, and releasing the last placement leaves the node empty, with no slot in use and not
    job-exclusive.  A release is of
    a placement that is in the ledger, with the slots it took, and the slots in use stay in
    the range of an int; the same job may be placed several times. *)
Theorem node_refines_ledger name id np n l :
  rtc nstep ((NewNode name id) <| SlotsTotal := np |>, []) (n, l) →
  AssignedJobs n ≡ₚ l.*1 ∧ SlotsUsed n = ledger_slots l ∧ 0 ≤ SlotsUsed n ∧
  ∀ k slots, l = [(k, slots)] → AssignedJobs (ReleaseJob k slots n) = [] ∧ SlotsUsed (ReleaseJob k slots n) = 0 ∧
    has_flag (State (ReleaseJob k slots n)) StateJob = false.
Proof.
  intros Hr. apply nsteps_ledger in Hr as [Hl Hb]; simpl in *.
  - pose proof Hl as [Hj Hp Hs]. split_and!; [done..| |]; [rewrite Hs; by apply ledger_slots_nonneg|].
    intros k slots ->. destruct (ReleaseJob_ledger n [(k, slots)] [] k slots Hl) as [Hj' _ Hs']; [done|done|].
    assert (AssignedJobs (ReleaseJob k slots n) = []) as He by (by apply Permutation_nil_r).
    split_and!; [done|done|]. revert He. unfold ReleaseJob. cbv zeta. case_decide as Hd; [intros _|by intros He; destruct Hd].
    cbn [State set_field]. unfold has_flag, clear_flag. by rewrite Z.land_ldiff.
  - split; [|by vm_compute]. destruct (NewNode_ledger name id). by split.
Qed.

Lemma node_refines_ledger_witness :
  let n := AssignJob "1.s" 3 (AssignJob "1.s" 2 ((NewNode "n1" 0) <| SlotsTotal := 8 |>)) in
  AssignedJobs (ReleaseJob "1.s" 2 n) ≡ₚ ["1.s"] ∧
  SlotsUsed (ReleaseJob "1.s" 2 n) = ledger_slots [("1.s", 3)] ∧ 0 ≤ SlotsUsed (ReleaseJob "1.s" 2 n) ∧
  ∀ k slots, [("1.s", 3)] = [(k, slots)] → AssignedJobs (ReleaseJob k slots (ReleaseJob "1.s" 2 n)) = [] ∧
    SlotsUsed (ReleaseJob k slots (ReleaseJob "1.s" 2 n)) = 0 ∧
    has_flag (State (ReleaseJob k slots (ReleaseJob "1.s" 2 n))) StateJob = false.
Proof.
  apply (node_refines_ledger "n1" 0 8 _ [("1.s", 3)]).
  eapply rtc_l; [apply (nstep_assign _ _ "1.s" 2); by vm_compute|].
  eapply rtc_l; [apply (nstep_assign _ _ "1.s" 3); by vm_compute|].
  eapply rtc_l; [apply (nstep_release _ _ [("1.s", 3)] "1.s" 2); apply Permutation_swap|].
  apply rtc_refl.
Defined.

(** Releasing a job with more slots than it took still leaves a count that is not
    negative, but one that no longer covers the jobs that stay: the node then offers
    slots that are in use. *)
Theorem ReleaseJob_clamps id slots n :
  0 ≤ SlotsUsed n ≤ MaxInt64 → 0 ≤ slots ≤ MaxInt64 →
  SlotsUsed (ReleaseJob id slots n) = Z.max 0 (SlotsUsed n - slots).
Proof.
  intros Hu Hs. unfold ReleaseJob. cbv zeta. unfold set_field. cbn [SlotsUsed AssignedJobs State].
  rewrite int64_id by (unfold_int; lia).
  destruct (_ <? 0) eqn:E; bool_to_prop; case_decide; cbn [SlotsUsed]; lia.
Qed.

Lemma ReleaseJob_clamps_witness :
  let n := AssignJob "2.s" 2 (AssignJob "1.s" 2 ((NewNode "n1" 0) <| SlotsTotal := 4 |>)) in
  SlotsUsed (ReleaseJob "1.s" 4 n) = 0 ∧ AssignedJobs (ReleaseJob "1.s" 4 n) = ["2.s"].
Proof.
  split; [|by vm_compute]. etransitivity.
  - apply (ReleaseJob_clamps "1.s" 4
      (AssignJob "2.s" 2 (AssignJob "1.s" 2 ((NewNode "n1" 0) <| SlotsTotal := 4 |>))));
      by vm_compute.
  - by vm_compute.
Defined.

(** The part of a state that the administrator sets. *)
Definition admin_flags : Z := Z.lor (Z.lor (Z.lor StateOffline StateReserve) StateDrain) StateExcl.

Lemma applyStateString_admin s n :
  Z.land (State (applyStateString s n)) admin_flags = Z.land (State n) admin_flags.
Proof.
  assert (∀ a, Z.land a admin_flags = 0 →
    Z.land (Z.lor a (Z.land (State n) admin_flags)) admin_flags = Z.land (State n) admin_flags) as H.
  { intros a Ha. by rewrite Z.land_lor_distr_l, Ha, Z.lor_0_l, <- Z.land_assoc, Z.land_diag. }
  assert (∀ st, Z.land st admin_flags = Z.land (State n) admin_flags →
    Z.land (Z.lor st StateJob) admin_flags = Z.land (State n) admin_flags) as HJ.
  { intros st Hst. rewrite Z.land_lor_distr_l, Hst. apply Z.lor_0_r. }
  unfold applyStateString. cbv zeta. fold admin_flags.
  repeat case_decide; unfold set_field; cbn [State AssignedJobs];
    try apply HJ; first [by apply H | done].
Qed.

Lemma clear_down_admin s : Z.land (clear_flag s StateDown) admin_flags = Z.land s admin_flags.
Proof.
  unfold clear_flag. rewrite Z.ldiff_land, <- Z.land_assoc. f_equal.
Qed.

Lemma apply_item_admin n item :
  Z.land (State (apply_item n item)) admin_flags = Z.land (State n) admin_flags.
Proof.
  unfold apply_item. destruct (cut "=" item) as [[k v]|]; [|done]. cbv zeta.
  case_decide; [|repeat case_decide; done]. by rewrite applyStateString_admin.
Qed.

Lemma UpdateFromStatus_admin now items n :
  Z.land (State (UpdateFromStatus now items n)) admin_flags = Z.land (State n) admin_flags.
Proof.
  unfold UpdateFromStatus. cbv zeta.
  assert (Z.land (State (foldl apply_item n items)) admin_flags = Z.land (State n) admin_flags) as <-.
  { revert n. induction items as [|i items IH]; intros n; [done|]. simpl. by rewrite IH, apply_item_admin. }
  destruct (_ && _); [apply clear_down_admin|done].
Qed.

Lemma admin_not_free n : Z.land (State n) admin_flags ≠ 0 → IsFree n = false.
Proof.
  intros Hne. unfold IsFree. destruct (has_flag _ _); [done|].
  destruct (_ =? StateFree) eqn:E; [|done]. bool_to_prop. by rewrite E in Hne.
Qed.

(** A compute node cannot undo what the administrator set: whatever items a status
    update holds, the offline, reserve, drain and excl flags stay as they were, so an
    offline or draining node is not made free by its own reports. *)
Theorem UpdateFromStatus_admin_flags now items n :
  Z.land (State (UpdateFromStatus now items n)) admin_flags = Z.land (State n) admin_flags ∧
  (Z.land (State n) admin_flags ≠ 0 → IsFree (UpdateFromStatus now items n) = false).
Proof.
  pose proof (UpdateFromStatus_admin now items n) as H. split; [done|]. intros Hne. apply admin_not_free. by rewrite H.
Qed.

Lemma UpdateFromStatus_admin_flags_witness :
  IsFree (UpdateFromStatus 9 ["state=free"; "ncpus=8"]
            ((NewNode "n1" 0) <| State := Z.lor StateOffline StateDown |>)) = false.
Proof.
  destruct (UpdateFromStatus_admin_flags 9 ["state=free"; "ncpus=8"]
    ((NewNode "n1" 0) <| State := Z.lor StateOffline StateDown |>)) as [_ H].
  apply H. by vm_compute.
Defined.

Lemma applyStateString_job s n :
  AssignedJobs n ≠ [] → has_flag (State (applyStateString s n)) StateJob = true.
Proof.
  intros Ha. unfold applyStateString. cbv zeta.
  set (n1 := if decide (s = "free") then _ else _).
  assert (AssignedJobs n1 = AssignedJobs n) as Hn1
    by (subst n1; repeat case_decide; reflexivity).
  rewrite decide_False by by rewrite Hn1. unfold set_field. cbn [State]. by apply has_flag_self.
Qed.

Lemma clear_down_job s : has_flag (clear_flag s StateDown) StateJob = has_flag s StateJob.
Proof.
  unfold has_flag, clear_flag. rewrite Z.ldiff_land, <- Z.land_assoc.
  by change (Z.land (Z.lnot StateDown) StateJob) with StateJob.
Qed.

Lemma UpdateFromStatus_State now items n :
  State (UpdateFromStatus now items n) =
  (let st := State (foldl apply_item n items) in
   if has_flag st StateDown && negb (has_flag st StateOffline) then clear_flag st StateDown else st).
Proof.
  unfold UpdateFromStatus. cbv zeta. generalize (foldl apply_item n items). intros m.
  cbn [State set_field]. by destruct (_ && _).
Qed.

(** A status report that says [free] marks every node that runs a job as
    job-exclusive, also one with unused slots: such a node takes no further job until it
    is empty. *)
Theorem free_report_marks_exclusive now n :
  AssignedJobs n ≠ [] →
  has_flag (State (UpdateFromStatus now ["state=free"] n)) StateJob = true ∧
  IsFree (UpdateFromStatus now ["state=free"] n) = false.
Proof.
  intros Ha. set (n' := UpdateFromStatus now ["state=free"] n).
  assert (has_flag (State n') StateJob = true) as H.
  { subst n'. rewrite UpdateFromStatus_State. cbn [foldl].
    set (n1 := n <| Status := <["state" := "free"]> (Status n) |>).
    assert (apply_item n "state=free" = applyStateString "free" n1) as -> by reflexivity.
    pose proof (applyStateString_job "free" n1 Ha) as Hf.
    destruct (_ && _); [by rewrite clear_down_job|done]. }
  split; [done|]. unfold IsFree. destruct (has_flag _ (Z.lor _ _)); [done|].
  destruct (State n' =? StateFree) eqn:E; [|done]. bool_to_prop. by rewrite E in H.
Qed.

Lemma free_report_marks_exclusive_witness :
  let n := AssignJob "1.s" 1 ((NewNode "n1" 0) <| SlotsTotal := 8 |> <| State := StateFree |>) in
  IsFree n = true ∧ IsFree (UpdateFromStatus 9 ["state=free"] n) = false.
Proof.
  split; [by vm_compute|].
  apply (free_report_marks_exclusive 9
    (AssignJob "1.s" 1 ((NewNode "n1" 0) <| SlotsTotal := 8 |> <| State := StateFree |>))).
  by vm_compute.
Defined.
