(* ===== verification/Queue.v ===== *)
(** * Queues: internal/queue/queue.go

    The queue record with its limits and job counters, and the queue manager.  The field
    [Type] of the source is [Type_] here. *)

From S2P Require Import Prelude GoStd.

Local Open Scope string_scope.
Local Open Scope list_scope.
Local Open Scope Z_scope.

Definition TypeExecution : Z := 0.
Definition TypeRoute : Z := 1.

(** ** The queue record *)

Record Queue := mkQueue {
  Name : string;
  Type_ : Z;
  Enabled : bool;
  Started : bool;
  Priority : Z;
  DisallowedTypes : list string;
  MaxJobs : Z;
  MaxRun : Z;
  MaxUserJobs : Z;
  MaxUserRun : Z;
  ResourceMax : gmap string string;
  ResourceMin : gmap string string;
  ResourceDflt : gmap string string;
  ACLUserEnabled : bool;
  ACLUsers : list string;
  ACLGroupEnabled : bool;
  ACLGroups : list string;
  ACLHostEnabled : bool;
  ACLHosts : list string;
  NaccessPolicy : string;
  HostList : list string;
  RouteDestin : list string;
  Attrs : gmap string string;
  TotalJobs : Z;
  StateJobs : list Z;
  Modified : bool;
  CloudProvider : string;
  CloudVMSKU : string;
  CloudMinNodes : Z;
  CloudMaxNodes : Z;
  CloudIdleTime : Z;
  CloudProvisionTimeout : Z;
  CloudReclaim : string;
  CloudSubnetID : string;
  CloudImageID : string;
  CloudDiskSize : Z;
  CloudDiskType : string;
  CloudSSHKey : string;
  CloudLocation : string;
  CloudRgName : string;
  CloudCooldown : Z;
  CloudScaleHeadroom : Z;
  CloudDrainTimeout : Z;
}.
#[export] Instance eta_Queue : Eta Queue := λ q, mkQueue (Name q) (Type_ q) (Enabled q)
    (Started q) (Priority q) (DisallowedTypes q) (MaxJobs q) (MaxRun q) (MaxUserJobs q)
    (MaxUserRun q) (ResourceMax q) (ResourceMin q) (ResourceDflt q) (ACLUserEnabled q)
    (ACLUsers q) (ACLGroupEnabled q) (ACLGroups q) (ACLHostEnabled q) (ACLHosts q)
    (NaccessPolicy q) (HostList q) (RouteDestin q) (Attrs q) (TotalJobs q) (StateJobs q)
    (Modified q) (CloudProvider q) (CloudVMSKU q) (CloudMinNodes q) (CloudMaxNodes q)
    (CloudIdleTime q) (CloudProvisionTimeout q) (CloudReclaim q) (CloudSubnetID q)
    (CloudImageID q) (CloudDiskSize q) (CloudDiskType q) (CloudSSHKey q) (CloudLocation q)
    (CloudRgName q) (CloudCooldown q) (CloudScaleHeadroom q) (CloudDrainTimeout q).

(** The zero value of the struct. *)
Definition zero_queue : Queue := mkQueue "" 0 false false 0 [] 0 0 0 0 ∅ ∅ ∅ false []
    false [] false [] "" [] [] ∅ 0 (replicate 7 0) false "" "" 0 0 0 0 "" "" "" 0 "" "" ""
    "" 0 0 0.

(** ** Configuration lists *)

(** The inner loop of [ParseList], with the list so far; [seen] holds exactly its
    elements. *)
Definition add_new (out : list string) (sub : string) : list string :=
  let sub := TrimSpace sub in
  if decide (sub = "") then out
  else if decide (sub ∈ out) then out
  else out ++ [sub].

Definition ParseList (v : string) : list string :=
  foldl (λ out part, foldl add_new out (Fields part)) [] (Split "," v).

Definition NewQueue (name : string) (qtype : Z) : Queue :=
  zero_queue <| Name := name |> <| Type_ := qtype |> <| Enabled := true |> <| Started := true |>.

(** ** Counters *)

Definition in_states (q : Queue) (state : Z) : bool :=
  (0 <=? state) && (state <? Z.of_nat (length (StateJobs q))).
Definition jobs_in (q : Queue) (state : Z) : Z := default 0 (StateJobs q !! Z.to_nat state).
Definition bump (d state : Z) (q : Queue) : Queue :=
  q <| StateJobs := alter (λ c, int64 (c + d)) (Z.to_nat state) (StateJobs q) |>.

Definition IncrJobCount (state : Z) (q : Queue) : Queue :=
  let q := q <| TotalJobs := int64 (TotalJobs q + 1) |> in
  if in_states q state then bump 1 state q else q.

Definition DecrJobCount (state : Z) (q : Queue) : Queue :=
  let q := if 0 <? TotalJobs q then q <| TotalJobs := int64 (TotalJobs q - 1) |> else q in
  if in_states q state && (0 <? jobs_in q state) then bump (-1) state q else q.

Definition TransferJobState (oldState newState : Z) (q : Queue) : Queue :=
  let q := if in_states q oldState && (0 <? jobs_in q oldState) then bump (-1) oldState q else q in
  if in_states q newState then bump 1 newState q else q.

(** ** The queue manager *)

Definition Manager : Type := gmap string Queue.

Definition NewManager : Manager := ∅.
Definition AddQueue (q : Queue) (m : Manager) : Manager := <[Name q := q]> m.
Definition RemoveQueue (name : string) (m : Manager) : bool * Manager :=
  match m !! name with
  | Some _ => (true, delete name m)
  | None => (false, m)
  end.
Definition GetQueue (name : string) (m : Manager) : option Queue := m !! name.
Definition AllQueues (ks : list string) (m : Manager) : list Queue := omap (λ k, m !! k) ks.

(** The two loops range over the map in orders of their own. *)
Definition DefaultQueue (ks ks' : list string) (m : Manager) : option Queue :=
  match list_find (λ q, Type_ q = TypeExecution) (AllQueues ks m) with
  | Some (_, q) => Some q
  | None => head (AllQueues ks' m)
  end.
Definition QueueCount (m : Manager) : Z := Z.of_nat (size m).

(** ** Lemmas *)

Definition clean_item (x : string) : Prop :=
  x ≠ "" ∧ no_space x = true ∧ has_byte "," x = false.

#[export] Instance clean_item_dec x : Decision (clean_item x).
Proof. unfold clean_item. apply _. Defined.

Lemma add_new_clean out x :
  NoDup out → Forall clean_item out → no_space x = true → has_byte "," x = false →
  NoDup (add_new out x) ∧ Forall clean_item (add_new out x).
Proof.
  intros Hn Hc Hx Hb. unfold add_new. cbv zeta. rewrite TrimSpace_no_space by done.
  case_decide; [done|]. case_decide; [done|]. split.
  - apply NoDup_app. split_and!; [done| |apply NoDup_singleton].
    intros y Hy ->%list_elem_of_singleton. done.
  - apply Forall_app. split; [done|]. by repeat constructor.
Qed.

Lemma Fields_no_comma s x :
  has_byte "," s = false → x ∈ Fields s → has_byte "," x = false.
Proof.
  unfold Fields.
  enough (∀ acc, has_byte "," s = false → has_byte "," acc = false →
    x ∈ fields_go s acc → has_byte "," x = false) as H by (intros Hs Hx; by apply (H "")).
  induction s as [|c s IH]; simpl; intros acc Hs Ha.
  - case_decide; [by intros ?%elem_of_nil|]. by intros ->%list_elem_of_singleton.
  - apply orb_false_iff in Hs as [Hc Hs]. destruct (is_space c).
    + intros [Hx|Hx]%elem_of_app; [|by apply (IH "")].
      case_decide; [by apply elem_of_nil in Hx|]. by apply list_elem_of_singleton in Hx as ->.
    + apply IH; [done|]. rewrite has_byte_app, Ha. simpl. by rewrite Hc.
Qed.

Lemma ParseList_clean v : NoDup (ParseList v) ∧ Forall clean_item (ParseList v).
Proof.
  unfold ParseList. pose proof (Split_elem_no_sep "," v) as Hsep. revert Hsep.
  generalize (Split "," v). intros parts Hsep.
  assert (NoDup (@nil string) ∧ Forall clean_item []) as Hinit by by split; constructor.
  revert Hinit. generalize (@nil string). induction parts as [|p parts IH]; intros out Hout; [done|].
  simpl. apply IH; [intros x Hx; apply Hsep; by right|].
  assert (∀ x, x ∈ Fields p → no_space x = true ∧ has_byte "," x = false) as Hf.
  { intros x Hx. split; [by apply Fields_clean in Hx as [? _]|].
    eapply Fields_no_comma; [|done]. apply Hsep. left. }
  revert out Hout Hf. generalize (Fields p). intros fs. induction fs as [|f fs IHf]; intros out [Hn Hc] Hf; [done|].
  simpl. apply IHf; [|intros x Hx; apply Hf; by right].
  destruct (Hf f) as [? ?]; [by left|]. by apply add_new_clean.
Qed.

Lemma foldl_add_new_id out l :
  NoDup (out ++ l) → Forall clean_item l →
  foldl (λ out part, foldl add_new out (Fields part)) out l = out ++ l.
Proof.
  revert out. induction l as [|x l IH]; intros out Hn Hc; [by rewrite app_nil_r|].
  apply Forall_cons in Hc as [(Hx & Hs & Hb) Hc]. simpl. rewrite Fields_word by done. simpl.
  unfold add_new at 2. cbv zeta. rewrite TrimSpace_no_space by done.
  rewrite decide_False by done. rewrite decide_False.
  2:{ apply NoDup_app in Hn as (_ & Hd & _). intros Hin. apply (Hd x Hin). left. }
  rewrite IH; [by rewrite <- app_assoc|by rewrite <- app_assoc|done].
Qed.

(** A clean list written with commas parses back. *)
Lemma ParseList_Join l : NoDup l → Forall clean_item l → ParseList (Join "," l) = l.
Proof.
  intros Hn Hc. destruct l as [|x l]; [done|].
  unfold ParseList. rewrite Split_Join; [by rewrite (foldl_add_new_id [])|done|].
  eapply Forall_impl; [exact Hc|]. by intros y (_ & _ & ?).
Qed.

(** Counting states in a list. *)
Definition count_state (s : Z) (l : list Z) : Z := sum_Z (λ t, if t =? s then 1 else 0) l.

Lemma count_state_bound s l : 0 ≤ count_state s l ≤ Z.of_nat (length l).
Proof. unfold count_state. induction l as [|t l IH]; simpl; [lia|]. destruct (t =? s); lia. Qed.

Lemma count_state_elem s l : s ∈ l → 0 < count_state s l.
Proof.
  intros Hin. unfold count_state. rewrite (remove1_perm s l Hin). simpl. rewrite Z.eqb_refl.
  pose proof (count_state_bound s (remove1 s l)). unfold count_state in *. lia.
Qed.

Lemma count_state_remove s t l :
  t ∈ l → count_state s (remove1 t l) = count_state s l - (if t =? s then 1 else 0).
Proof.
  intros Hin. unfold count_state. rewrite (remove1_perm t l Hin) at 2. simpl. lia.
Qed.

(** The queue's counters implement the list of the states of its jobs. *)
Record counts (q : Queue) (l : list Z) : Prop := {
  c_total : TotalJobs q = Z.of_nat (length l);
  c_len : length (StateJobs q) = 7%nat;
  c_state : ∀ s, 0 ≤ s < 7 → jobs_in q s = count_state s l;
  c_small : Z.of_nat (length l) < 2 ^ 62;
}.

Lemma in_states_eq q s : length (StateJobs q) = 7%nat → in_states q s = (0 <=? s) && (s <? 7).
Proof. intros H. unfold in_states. by rewrite H. Qed.

Lemma bump_jobs_in d s t q :
  length (StateJobs q) = 7%nat → 0 ≤ s < 7 → 0 ≤ t < 7 → is_int64 (jobs_in q t + d) →
  jobs_in (bump d s q) t = jobs_in q t + (if s =? t then d else 0).
Proof.
  intros Hl Hs Ht Hi. unfold jobs_in, bump in *. unfold set_field. cbn [StateJobs].
  destruct (s =? t) eqn:E; bool_to_prop.
  - subst. rewrite list_lookup_alter_eq. destruct (StateJobs q !! Z.to_nat t) eqn:Ec; simpl.
    + simpl in Hi. by rewrite int64_id.
    + apply lookup_ge_None in Ec. lia.
  - rewrite list_lookup_alter_ne by lia. lia.
Qed.

Lemma bump_len d s q : length (StateJobs (bump d s q)) = length (StateJobs q).
Proof. unfold bump, set_field. cbn [StateJobs]. apply length_alter. Qed.

(** Adding a state to the per-state counters. *)
Lemma bump_up q s t :
  length (StateJobs q) = 7%nat → 0 ≤ t < 7 → 0 ≤ jobs_in q t < 2 ^ 62 →
  jobs_in (if in_states q s then bump 1 s q else q) t
  = jobs_in q t + (if s =? t then 1 else 0).
Proof.
  intros Hl Ht Hb. rewrite in_states_eq by done.
  destruct ((0 <=? s) && (s <? 7)) eqn:E; bool_to_prop.
  - apply bump_jobs_in; [done|lia|done|unfold_int; lia].
  - apply andb_false_iff in E. destruct (s =? t) eqn:E2; bool_to_prop; [|lia].
    destruct E; bool_to_prop; lia.
Qed.

(** Taking one away, under the guard. *)
Lemma bump_down q s t :
  length (StateJobs q) = 7%nat → 0 ≤ t < 7 → 0 ≤ jobs_in q t < 2 ^ 62 →
  (s = t → 0 < jobs_in q t) →
  jobs_in (if in_states q s && (0 <? jobs_in q s) then bump (-1) s q else q) t
  = jobs_in q t - (if s =? t then 1 else 0).
Proof.
  intros Hl Ht Hb Hpos. rewrite in_states_eq by done.
  destruct ((0 <=? s) && (s <? 7) && (0 <? jobs_in q s)) eqn:E; bool_to_prop.
  - rewrite bump_jobs_in; [|done|lia|done|unfold_int; lia]. destruct (s =? t); lia.
  - destruct (s =? t) eqn:E2; bool_to_prop; [|lia]. subst. specialize (Hpos eq_refl).
    apply andb_false_iff in E as [E|E]; [apply andb_false_iff in E as [E|E]|]; bool_to_prop; lia.
Qed.

Lemma counts_range q l t : counts q l → 0 ≤ t < 7 → 0 ≤ jobs_in q t < 2 ^ 62.
Proof.
  intros H Ht. rewrite (c_state _ _ H) by done. pose proof (count_state_bound t l).
  pose proof (c_small _ _ H). lia.
Qed.

Lemma if_len {A} (b : bool) (x y : A) (f : A → nat) n : f x = n → f y = n → f (if b then x else y) = n.
Proof. by destruct b. Qed.

Lemma IncrJobCount_counts q l s :
  counts q l → Z.of_nat (length l) + 1 < 2 ^ 62 → counts (IncrJobCount s q) (s :: l).
Proof.
  intros H Hb. pose proof (c_total _ _ H) as Ht. unfold IncrJobCount. cbv zeta.
  set (q1 := q <| TotalJobs := _ |>).
  assert (length (StateJobs q1) = 7%nat) as Hl by apply (c_len _ _ H).
  split.
  - transitivity (TotalJobs q1); [by destruct (in_states q1 s)|]. unfold q1, set_field.
    cbn [TotalJobs length]. rewrite Ht, int64_id by (unfold_int; lia). lia.
  - apply (if_len _ _ _ (λ q, length (StateJobs q))); [by rewrite bump_len|done].
  - intros t Ht'. rewrite bump_up; [|done|done|by apply (counts_range q l)].
    change (jobs_in q1 t) with (jobs_in q t). rewrite (c_state _ _ H) by done.
    unfold count_state. simpl. lia.
  - cbn [length]. lia.
Qed.

Lemma DecrJobCount_counts q l s : counts q l → s ∈ l → counts (DecrJobCount s q) (remove1 s l).
Proof.
  intros H Hin. pose proof (c_total _ _ H) as Ht. pose proof (c_small _ _ H) as Hb.
  pose proof (Permutation_length (remove1_perm s l Hin)) as Hlen. cbn [length] in Hlen.
  unfold DecrJobCount. cbv zeta. replace (0 <? TotalJobs q) with true by lia.
  set (q1 := q <| TotalJobs := _ |>).
  assert (length (StateJobs q1) = 7%nat) as Hl by apply (c_len _ _ H).
  split.
  - transitivity (TotalJobs q1); [by destruct (_ && _)|]. unfold q1, set_field.
    cbn [TotalJobs]. rewrite Ht, int64_id by (unfold_int; lia). lia.
  - apply (if_len _ _ _ (λ q, length (StateJobs q))); [by rewrite bump_len|done].
  - intros t Ht'. rewrite bump_down; [|done|done|by apply (counts_range q l)|].
    + change (jobs_in q1 t) with (jobs_in q t). rewrite (c_state _ _ H) by done.
      by rewrite count_state_remove.
    + intros <-. change (jobs_in q1 s) with (jobs_in q s). rewrite (c_state _ _ H) by done.
      by apply count_state_elem.
  - lia.
Qed.

Lemma TransferJobState_counts q l s s' :
  counts q l → s ∈ l → counts (TransferJobState s s' q) (s' :: remove1 s l).
Proof.
  intros H Hin. pose proof (c_total _ _ H) as Ht. pose proof (c_small _ _ H) as Hb.
  pose proof (Permutation_length (remove1_perm s l Hin)) as Hlen. cbn [length] in Hlen.
  unfold TransferJobState. cbv zeta. set (q1 := if in_states q s && _ then _ else _).
  assert (length (StateJobs q1) = 7%nat) as Hl.
  { apply (if_len _ _ _ (λ q, length (StateJobs q))); [rewrite bump_len|]; apply (c_len _ _ H). }
  assert (∀ t, 0 ≤ t < 7 → jobs_in q1 t = count_state t (remove1 s l)) as Hj.
  { intros t Ht'. unfold q1. rewrite bump_down; [|apply (c_len _ _ H)|done|by apply (counts_range q l)|].
    - rewrite (c_state _ _ H) by done. by rewrite count_state_remove.
    - intros <-. rewrite (c_state _ _ H) by done. by apply count_state_elem. }
  split.
  - transitivity (TotalJobs q); [|cbn [length]; lia].
    unfold q1. by destruct (_ && _), (in_states _ s').
  - apply (if_len _ _ _ (λ q, length (StateJobs q))); [by rewrite bump_len|done].
  - intros t Ht'. pose proof (count_state_bound t (remove1 s l)).
    rewrite bump_up; [|done|done|rewrite Hj by done; lia]. rewrite Hj by done.
    unfold count_state. simpl. lia.
  - cbn [length]. lia.
Qed.

Inductive qstep : Queue * list Z → Queue * list Z → Prop :=
  | qstep_incr q l s :
      Z.of_nat (length l) + 1 < 2 ^ 62 → qstep (q, l) (IncrJobCount s q, s :: l)
  | qstep_decr q l s : s ∈ l → qstep (q, l) (DecrJobCount s q, remove1 s l)
  | qstep_transfer q l s s' :
      s ∈ l → qstep (q, l) (TransferJobState s s' q, s' :: remove1 s l).

Lemma qstep_counts x y : qstep x y → counts x.1 x.2 → counts y.1 y.2.
Proof.
  destruct 1; simpl; intros Hc;
    auto using IncrJobCount_counts, DecrJobCount_counts, TransferJobState_counts.
Qed.

Lemma NewQueue_counts name t : counts (NewQueue name t) [].
Proof.
  split; [done|done| |by vm_compute]. intros s Hs.
  assert (s = 0 ∨ s = 1 ∨ s = 2 ∨ s = 3 ∨ s = 4 ∨ s = 5 ∨ s = 6) as Hc by lia.
  by destruct_or! Hc; subst.
Qed.

(** ** Theorems *)

(** The elements of a configuration list come out once each, without blanks or
    commas, and writing such a list back with commas and parsing it again gives the same
    list: what the server stores for an ACL or a list of route destinations is stable. *)
Theorem ParseList_roundtrip v :
  NoDup (ParseList v) ∧ Forall clean_item (ParseList v) ∧
  ParseList (Join "," (ParseList v)) = ParseList v.
Proof.
  destruct (ParseList_clean v) as [Hn Hc]. split_and!; [done..|by apply ParseList_Join].
Qed.

(** A queue's counters follow the states of its jobs: as long as a job is taken out of
    the state it was counted in, the total is the number of jobs and each per-state
    counter the number of jobs in that state; none is ever negative. *)
Theorem queue_counts_exact name qtype q l s :
  rtc qstep (NewQueue name qtype, []) (q, l) → 0 ≤ s < 7 →
  TotalJobs q = Z.of_nat (length l) ∧ jobs_in q s = count_state s l ∧ 0 ≤ jobs_in q s.
Proof.
  intros Hr Hs.
  assert (counts q l) as H.
  { assert (∀ x y, rtc qstep x y → counts x.1 x.2 → counts y.1 y.2) as Hi.
    { induction 1; [done|]. eauto using qstep_counts. }
    apply (Hi _ _ Hr), NewQueue_counts. }
  split; [apply H|]. pose proof (counts_range q l s H Hs).
  split; [by apply (c_state _ _ H)|lia].
Qed.

Lemma queue_counts_exact_witness :
  let q := TransferJobState 1 4 (IncrJobCount 1 (IncrJobCount 1 (NewQueue "batch" 0))) in
  TotalJobs q = 2 ∧ jobs_in q 4 = count_state 4 [4; 1] ∧ 0 ≤ jobs_in q 4.
Proof.
  apply (queue_counts_exact "batch" 0 _ [4; 1] 4); [|by vm_compute].
  eapply rtc_l; [apply (qstep_incr _ _ 1); by vm_compute|].
  eapply rtc_l; [apply (qstep_incr _ _ 1); by vm_compute|].
  eapply rtc_l; [apply (qstep_transfer _ _ 1 4); by_decide|]. apply rtc_refl.
Defined.

(** Whatever the callers do, a decrement never takes a counter below zero. *)
Theorem DecrJobCount_guard s t q :
  0 ≤ TotalJobs q ≤ MaxInt64 → 0 ≤ jobs_in q t ≤ MaxInt64 →
  0 ≤ TotalJobs (DecrJobCount s q) ∧ (0 ≤ s < 7 → 0 ≤ jobs_in (DecrJobCount s q) t).
Proof.
  intros HT Hj. unfold DecrJobCount. cbv zeta.
  set (q1 := if 0 <? TotalJobs q then _ else _).
  assert (0 ≤ TotalJobs q1) as H1.
  { unfold q1. destruct (0 <? TotalJobs q) eqn:E; [|lia]. bool_to_prop.
    unfold set_field. cbn [TotalJobs]. rewrite int64_id by (unfold_int; lia). lia. }
  assert (jobs_in q1 t = jobs_in q t) as H2 by (unfold q1; by destruct (0 <? TotalJobs q)).
  destruct (in_states q1 s && (0 <? jobs_in q1 s)) eqn:E; [|split; [done|lia]].
  bool_to_prop. split; [done|]. intros Hs. unfold jobs_in in *. unfold bump, set_field in *.
  cbn [StateJobs] in *. destruct (decide (Z.to_nat s = Z.to_nat t)) as [He|Hne].
  - rewrite He in *. rewrite list_lookup_alter_eq.
    destruct (StateJobs q1 !! Z.to_nat t) as [c|]; simpl in *; [|lia].
    rewrite int64_id by (unfold_int; lia). lia.
  - rewrite list_lookup_alter_ne by done. lia.
Qed.

Lemma DecrJobCount_guard_witness :
  0 ≤ TotalJobs (DecrJobCount 4 (NewQueue "batch" 0)) ∧
  (0 ≤ 4 < 7 → 0 ≤ jobs_in (DecrJobCount 4 (NewQueue "batch" 0)) 4).
Proof. apply (DecrJobCount_guard 4 4 (NewQueue "batch" 0)); by vm_compute. Defined.
