(* ===== verification/Route.v ===== *)
(** * Queue routing and admission: internal/server/route.go

    The admission gate of a queue, the choice of a destination for a job submitted to a
    route queue, and the helpers of server.go the gate uses. *)

From S2P Require Import Prelude GoStd Job JobManager Queue.

Local Open Scope string_scope.
Local Open Scope list_scope.
Local Open Scope Z_scope.

(** ** Names and access lists (server.go) *)

Definition extractUser (s : string) : string :=
  match cut "@" s with Some (u, _) => u | None => s end.

Definition acl_match (user entry : string) : bool :=
  let entry := TrimSpace entry in
  if decide (entry = "") then false
  else bool_decide (entry = user) || bool_decide (extractUser entry = user).
Definition aclContains (aclList user : string) : bool :=
  existsb (acl_match user) (Split "," aclList).

Definition submitHostOf (j : Job) : string :=
  let h := lookup_or "" "PBS_O_HOST" (Job.VariableList j) in
  if decide (h = "") then
    match cut "@" (Job.Owner j) with Some (_, host) => host | None => "" end
  else h.

Definition queueAllowsSubmitHost (q : option Queue) (j : Job) : bool :=
  match q with
  | None => true
  | Some q =>
    if negb (Queue.ACLHostEnabled q) || bool_decide (Queue.ACLHosts q = []) then true
    else
      let host := submitHostOf j in
      if decide (host = "") then false
      else existsb (λ h, EqualFold (TrimSpace h) host) (Queue.ACLHosts q)
  end.

(** ** Values *)

Definition hostOf (s : string) : string :=
  match cut_last "@" s with Some (_, host) => host | None => "" end.

Definition qAttrTrue (v : string) : bool :=
  bool_decide (ToLower (TrimSpace v) ∈ ["true"; "1"; "yes"; "y"]).

(** [n, _ := strconv.ParseInt(s, 10, 64)] *)
Definition parse_or0 (s : string) : Z := (ParseInt s).1.

Definition parseWalltimeSec (s : string) : Z :=
  match Split ":" s with
  | [h; m; sec] => int64 (parse_or0 h * 3600 + parse_or0 m * 60 + parse_or0 sec)
  | [m; sec] => int64 (parse_or0 m * 60 + parse_or0 sec)
  | _ => parse_or0 s
  end.

Definition parseMemKB (s : string) : Z :=
  let s := TrimSpace (ToLower s) in
  let '(s, mult) :=
    match strip_suffix "kb" s with
    | Some s => (s, 1)
    | None =>
      match strip_suffix "mb" s with
      | Some s => (s, 1024)
      | None =>
        match strip_suffix "gb" s with
        | Some s => (s, 1024 * 1024)
        | None =>
          match strip_suffix "tb" s with
          | Some s => (s, 1024 * 1024 * 1024)
          | None => (s, 1)
          end
        end
      end
    end in
  int64 (parse_or0 s * mult).

Definition rescValue (name v : string) : Z :=
  if decide (name = "ncpus") then parse_or0 v
  else if decide (name = "walltime") then parseWalltimeSec v
  else if decide (name = "mem") then parseMemKB v
  else -1.

Definition jobTypes (j : Job) : list string :=
  ["batch"] ++
  (if Job.Interactive j then ["interactive"] else []) ++
  (if EqualFold (TrimSpace (Job.Rerunnable j)) "y" then ["rerunable"] else []) ++
  (if decide (Job.JobArrayReq j = "") then [] else ["job_array"]).

(** ** The admission gate *)

Inductive admit_error :=
  | QueueDisabled | QueueNotStarted | OnlyRoutedJobs
  | JobTypeDisallowed (t : string)
  | AtMaxQueuable | AtMaxRunning | UserAtMaxQueuable | UserAtMaxRun
  | UserNotInACL | GroupNotInACL | HostNotInACL
  | BelowResourceMin (name : string) | AboveResourceMax (name : string)
  | NoRouteDestinations | NoDestinationAccepts | QueueNotFound.

#[export] Instance admit_error_eq_dec : EqDecision admit_error.
Proof. solve_decision. Defined.

(** One turn of the loop of [checkResourceInterval]. *)
Definition check_resource (resMin resMax : gmap string string) (j : Job) (name : string) :
    option admit_error :=
  let req := lookup_or "" name (Job.ResourceReq j) in
  if decide (req = "") then None
  else
    let reqVal := rescValue name req in
    let minStr := lookup_or "" name resMin in
    let maxStr := lookup_or "" name resMax in
    if negb (bool_decide (minStr = "")) && (reqVal <? rescValue name minStr)
    then Some (BelowResourceMin name)
    else if negb (bool_decide (maxStr = ""))
            && ((0 <=? rescValue name maxStr) && (rescValue name maxStr <? reqVal))
    then Some (AboveResourceMax name)
    else None.

(** The first error of a list of checks. *)
Fixpoint first_error {E} (l : list (option E)) : option E :=
  match l with
  | [] => None
  | Some e :: _ => Some e
  | None :: l => first_error l
  end.

Definition checkResourceInterval (resMin resMax : gmap string string) (j : Job) :
    option admit_error :=
  first_error (check_resource resMin resMax j <$> ["ncpus"; "walltime"; "mem"]).

(** [when b e]: the statement [if b { return e }]. *)
Definition when {E} (b : bool) (e : E) : option E := if b then Some e else None.

Definition admitToQueue (jm : JobManager.Manager) (q : Queue) (j : Job) (user : string)
    (fromRoute : bool) : option admit_error :=
  let n := Queue.Name q in
  first_error
    ([when (negb (Queue.Enabled q)) QueueDisabled;
      when (negb (Queue.Started q)) QueueNotStarted;
      when (qAttrTrue (lookup_or "" "from_route_only" (Queue.Attrs q)) && negb fromRoute)
        OnlyRoutedJobs] ++
     ((λ jt, when (bool_decide (jt ∈ Queue.DisallowedTypes q)) (JobTypeDisallowed jt))
        <$> jobTypes j) ++
     [when ((0 <? Queue.MaxJobs q) &&
            (Queue.MaxJobs q <=?
               int64 (CountByStateInQueue n [StateQueued; StateProvisioning] jm +
                      CountByStateInQueue n [StateHeld] jm +
                      CountByStateInQueue n [StateWaiting] jm))) AtMaxQueuable;
      when ((0 <? Queue.MaxRun q) &&
            (Queue.MaxRun q <=? CountByStateInQueue n [StateRunning] jm)) AtMaxRunning;
      when ((0 <? Queue.MaxUserJobs q) &&
            (Queue.MaxUserJobs q <=? CountQueuedByOwnerInQueue n user jm)) UserAtMaxQueuable;
      when ((0 <? Queue.MaxUserRun q) &&
            (Queue.MaxUserRun q <=? CountRunningByOwnerInQueue n user jm)) UserAtMaxRun;
      when (Queue.ACLUserEnabled q && negb (bool_decide (Queue.ACLUsers q = [])) &&
            negb (aclContains (Join "," (Queue.ACLUsers q)) (extractUser user))) UserNotInACL;
      when (Queue.ACLGroupEnabled q && negb (bool_decide (Queue.ACLGroups q = [])) &&
            negb (aclContains (Join "," (Queue.ACLGroups q)) (Job.EGroup j))) GroupNotInACL;
      when (Queue.ACLHostEnabled q && negb (bool_decide (Queue.ACLHosts q = [])) &&
            (bool_decide (submitHostOf j = "") ||
             negb (aclContains (Join "," (Queue.ACLHosts q)) (submitHostOf j)))) HostNotInACL;
      checkResourceInterval (Queue.ResourceMin q) (Queue.ResourceMax q) j]).

(** ** Routing *)

Definition accepts (qm : Queue.Manager) (jm : JobManager.Manager) (j : Job) (user dest : string) :
    bool :=
  match Queue.GetQueue dest qm with
  | None => false
  | Some dq => bool_decide (admitToQueue jm dq j user true = None)
  end.

(** [routeJob]: the destination and whether routing occurred. *)
Definition routeJob (qm : Queue.Manager) (jm : JobManager.Manager) (j : Job) (user : string) :
    admit_error + string * bool :=
  match Queue.GetQueue (Job.Queue j) qm with
  | None => inr (Job.Queue j, false)
  | Some q =>
    if negb (Queue.Type_ q =? TypeRoute) then inr (Job.Queue j, false)
    else if decide (Queue.RouteDestin q = []) then inl NoRouteDestinations
    else match list_find (λ dest, accepts qm jm j user dest = true) (Queue.RouteDestin q) with
         | Some (_, dest) => inr (dest, true)
         | None => inl NoDestinationAccepts
         end
  end.

(** [finalizeRoute]: the job with its final queue, and the error that rejects it. *)
Definition finalizeRoute (qm : Queue.Manager) (jm : JobManager.Manager) (j : Job)
    (owner : string) : Job * option admit_error :=
  match routeJob qm jm j owner with
  | inl e => (j, Some e)
  | inr (dest, routed) =>
    let j := j <| Job.Queue := dest |> in
    if (routed : bool) then (j, None)
    else match Queue.GetQueue dest qm with
         | None => (j, Some QueueNotFound)
         | Some q => (j, admitToQueue jm q j owner false)
         end
  end.

(** ** Lemmas *)

Lemma first_error_None {E} (l : list (option E)) : first_error l = None ↔ Forall (λ o, o = None) l.
Proof.
  induction l as [|[e|] l IH]; simpl; [done| |].
  - split; [done|]. by intros [? _]%Forall_cons.
  - rewrite IH, Forall_cons. naive_solver.
Qed.

Lemma when_None {E} b (e : E) : when b e = None ↔ b = false.
Proof. by destruct b. Qed.

Lemma check_resource_None resMin resMax j name :
  check_resource resMin resMax j name = None ↔
  let req := lookup_or "" name (Job.ResourceReq j) in
  let minStr := lookup_or "" name resMin in
  let maxStr := lookup_or "" name resMax in
  req ≠ "" →
  (minStr ≠ "" → rescValue name minStr ≤ rescValue name req) ∧
  (maxStr ≠ "" → rescValue name maxStr < 0 ∨ rescValue name req ≤ rescValue name maxStr).
Proof.
  unfold check_resource. cbv zeta. case_decide as Hr; [naive_solver|].
  generalize (rescValue name (lookup_or "" name (Job.ResourceReq j))). intros rv.
  generalize (lookup_or "" name resMin) (lookup_or "" name resMax). intros mn mx.
  destruct (bool_decide_reflect (mn = "")), (bool_decide_reflect (mx = ""));
    destruct (Z.ltb_spec rv (rescValue name mn)), (Z.leb_spec 0 (rescValue name mx)),
      (Z.ltb_spec (rescValue name mx) rv); simpl; naive_solver lia.
Qed.

(** The gate does not look at the queue the job names. *)
Lemma admitToQueue_queue jm q j dest user b :
  admitToQueue jm q (j <| Job.Queue := dest |>) user b = admitToQueue jm q j user b.
Proof. reflexivity. Qed.

(** An entry of an access list that stands for [who]: the name itself, or the name before an
    at sign, blanks around it dropped. *)
Definition listed_in (acl : list string) (who : string) : Prop :=
  ∃ e, e ∈ Split "," (Join "," acl) ∧ TrimSpace e ≠ "" ∧ (TrimSpace e = who ∨ extractUser (TrimSpace e) = who).

Lemma aclContains_listed acl who : aclContains (Join "," acl) who = true ↔ listed_in acl who.
Proof.
  unfold aclContains, listed_in. rewrite existsb_exists. setoid_rewrite <- list_elem_of_In. split.
  - intros (e & He & Hm). exists e. split; [done|]. unfold acl_match in Hm. cbv zeta in Hm. case_decide; [done|].
    split; [done|]. apply orb_true_iff in Hm as [Hm|Hm]; bool_to_prop; auto.
  - intros (e & He & Hne & Hm). exists e. split; [done|]. unfold acl_match. cbv zeta. rewrite decide_False by done.
    apply orb_true_iff. destruct Hm as [Hm|Hm]; [left|right]; by apply bool_decide_eq_true.
Qed.

(** What the gate promises about an admitted job; [routed] is whether a route queue sent it. *)
Record admissible (jm : JobManager.Manager) (q : Queue) (j : Job) (user : string) (routed : bool) : Prop := {
  adm_enabled : Queue.Enabled q = true;
  adm_started : Queue.Started q = true;
  adm_routed : qAttrTrue (lookup_or "" "from_route_only" (Queue.Attrs q)) = true → routed = true;
  adm_types : ∀ t, t ∈ jobTypes j → t ∉ Queue.DisallowedTypes q;
  adm_jobs : 0 < Queue.MaxJobs q →
    CountByStateInQueue (Queue.Name q) [StateQueued; StateProvisioning] jm +
    CountByStateInQueue (Queue.Name q) [StateHeld] jm +
    CountByStateInQueue (Queue.Name q) [StateWaiting] jm < Queue.MaxJobs q;
  adm_run : 0 < Queue.MaxRun q →
    CountByStateInQueue (Queue.Name q) [StateRunning] jm < Queue.MaxRun q;
  adm_user_jobs : 0 < Queue.MaxUserJobs q →
    CountQueuedByOwnerInQueue (Queue.Name q) user jm < Queue.MaxUserJobs q;
  adm_user_run : 0 < Queue.MaxUserRun q →
    CountRunningByOwnerInQueue (Queue.Name q) user jm < Queue.MaxUserRun q;
  adm_users : Queue.ACLUserEnabled q = true → Queue.ACLUsers q ≠ [] → listed_in (Queue.ACLUsers q) (extractUser user);
  adm_groups : Queue.ACLGroupEnabled q = true → Queue.ACLGroups q ≠ [] → listed_in (Queue.ACLGroups q) (Job.EGroup j);
  adm_hosts : Queue.ACLHostEnabled q = true → Queue.ACLHosts q ≠ [] →
    submitHostOf j ≠ "" ∧ listed_in (Queue.ACLHosts q) (submitHostOf j);
  adm_resources : ∀ name, name ∈ ["ncpus"; "walltime"; "mem"] → lookup_or "" name (Job.ResourceReq j) ≠ "" →
    (lookup_or "" name (Queue.ResourceMin q) ≠ "" →
     rescValue name (lookup_or "" name (Queue.ResourceMin q)) ≤ rescValue name (lookup_or "" name (Job.ResourceReq j))) ∧
    (lookup_or "" name (Queue.ResourceMax q) ≠ "" →
     rescValue name (lookup_or "" name (Queue.ResourceMax q)) < 0 ∨
     rescValue name (lookup_or "" name (Job.ResourceReq j)) ≤ rescValue name (lookup_or "" name (Queue.ResourceMax q)));
}.

(** A job table of a size that counts without overflow. *)
Definition small (jm : JobManager.Manager) : Prop := Z.of_nat (size (jobs jm)) < 2 ^ 60.

(** The three counts of the queue limit do not overflow together. *)
Lemma queued_counts_small n jm :
  small jm →
  0 ≤ CountByStateInQueue n [StateQueued; StateProvisioning] jm +
      CountByStateInQueue n [StateHeld] jm + CountByStateInQueue n [StateWaiting] jm ≤ MaxInt64.
Proof.
  unfold small. intros Hs. rewrite <- length_map_to_list in Hs.
  unfold CountByStateInQueue, count_if.
  enough (∀ l : list (string * Job), 0 ≤ Z.of_nat (length l) →
    0 ≤ sum_Z (λ kv, if bool_decide (Job.Queue kv.2 = n) &&
                        bool_decide (Job.State kv.2 ∈ [StateQueued; StateProvisioning])
                     then 1 else 0) l +
        sum_Z (λ kv, if bool_decide (Job.Queue kv.2 = n) && bool_decide (Job.State kv.2 ∈ [StateHeld])
                     then 1 else 0) l +
        sum_Z (λ kv, if bool_decide (Job.Queue kv.2 = n) && bool_decide (Job.State kv.2 ∈ [StateWaiting])
                     then 1 else 0) l ≤ 3 * Z.of_nat (length l)) as H.
  { pose proof (H (map_to_list (jobs jm)) ltac:(lia)). unfold_int. lia. }
  intros l _. induction l as [|kv l IH]; simpl; [lia|].
  repeat match goal with |- context [if ?b then 1 else 0] => destruct b end; lia.
Qed.

(** A list that is enforced. *)
Lemma acl_passes (on : bool) acl who :
  on && negb (bool_decide (acl = [])) && negb (aclContains (Join "," acl) who) = false ↔
  (on = true → acl ≠ [] → listed_in acl who).
Proof.
  rewrite <- aclContains_listed. destruct on, (aclContains (Join "," acl) who); case_bool_decide; naive_solver.
Qed.

Lemma admitToQueue_admissible jm q j user b :
  small jm → admitToQueue jm q j user b = None ↔ admissible jm q j user b.
Proof.
  intros Hm. unfold admitToQueue. cbv zeta. rewrite first_error_None.
  rewrite !Forall_app, Forall_fmap, !Forall_cons, !Forall_nil, !when_None, !acl_passes.
  pose proof (queued_counts_small (Queue.Name q) jm Hm).
  rewrite int64_id by (unfold_int; lia).
  assert (∀ max cur, (0 <? max) && (max <=? cur) = false ↔ (0 < max → cur < max)) as Hlim.
  { intros max cur. rewrite andb_false_iff, Z.ltb_ge, Z.leb_gt. lia. }
  assert (Forall ((λ o, o = None) ∘ λ jt, when (bool_decide (jt ∈ Queue.DisallowedTypes q)) (JobTypeDisallowed jt)) (jobTypes j)
    ↔ ∀ t, t ∈ jobTypes j → t ∉ Queue.DisallowedTypes q) as Htypes.
  { rewrite Forall_forall. apply forall_proper. intros t. cbn. rewrite when_None, bool_decide_eq_false. done. }
  assert (checkResourceInterval (Queue.ResourceMin q) (Queue.ResourceMax q) j = None ↔
    ∀ name, name ∈ ["ncpus"; "walltime"; "mem"] → check_resource (Queue.ResourceMin q) (Queue.ResourceMax q) j name = None) as Hres.
  { unfold checkResourceInterval. by rewrite first_error_None, Forall_fmap, Forall_forall. }
  rewrite Htypes, Hres, !Hlim, !negb_false_iff. setoid_rewrite check_resource_None. cbv zeta.
  set (host := submitHostOf j).
  assert (Queue.ACLHostEnabled q && negb (bool_decide (Queue.ACLHosts q = [])) &&
    (bool_decide (host = "") || negb (aclContains (Join "," (Queue.ACLHosts q)) host)) = false ↔
    (Queue.ACLHostEnabled q = true → Queue.ACLHosts q ≠ [] → host ≠ "" ∧ listed_in (Queue.ACLHosts q) host)) as Hhost.
  { rewrite <- aclContains_listed. destruct (Queue.ACLHostEnabled q), (aclContains (Join "," (Queue.ACLHosts q)) host);
      repeat case_bool_decide; naive_solver. }
  rewrite Hhost. assert (∀ x : bool, x && negb b = false ↔ (x = true → b = true)) as Hroute by (intros []; destruct b; naive_solver).
  rewrite Hroute. split; [intros ((?&?&?&_)&?&?&?&?&?&?&?&?&?&_); by split|].
  intros []. by split_and!.
Qed.

(** ** Durations *)

Lemma fmt_02d_digits n : 0 ≤ n → all_bytes is_digit (fmt_02d n) = true.
Proof.
  intros Hn. unfold fmt_02d. cbv zeta. replace (n <? 0) with false by lia.
  rewrite Z.abs_eq by lia. pose proof (FormatUint_digits n Hn) as H.
  destruct (n <? 10); [|done]. simpl. by rewrite H.
Qed.

Lemma parse_fmt_02d n : 0 ≤ n ≤ MaxInt64 → parse_or0 (fmt_02d n) = n.
Proof.
  intros Hn. unfold fmt_02d. cbv zeta. replace (n <? 0) with false by lia.
  rewrite Z.abs_eq by lia. destruct (n <? 10) eqn:E; bool_to_prop.
  - assert (n = 0 ∨ n = 1 ∨ n = 2 ∨ n = 3 ∨ n = 4 ∨ n = 5 ∨ n = 6 ∨ n = 7 ∨ n = 8 ∨ n = 9)
      as Hc by lia. by destruct_or! Hc; subst.
  - unfold parse_or0. by rewrite ParseInt_FormatUint.
Qed.

Lemma Split_walltime a b c :
  has_byte ":" a = false → has_byte ":" b = false → has_byte ":" c = false →
  Split ":" (a +:+ ":" +:+ b +:+ ":" +:+ c) = [a; b; c].
Proof.
  intros Ha Hb Hc.
  change (a +:+ ":" +:+ b +:+ ":" +:+ c) with (Join (String ":" "") [a; b; c]).
  apply Split_Join; [done|]. by repeat constructor.
Qed.

(** ** Theorems *)

Definition small_queue : Queue :=
  (NewQueue "small" TypeExecution)
    <| Queue.ResourceMax := {["walltime" := "01:00:00"]} |> <| Queue.MaxJobs := 2 |>.
Definition short_job : Job :=
  (NewJob 5 "1.srv" "small" "srv") <| Job.ResourceReq := {["walltime" := "00:30:00"]} |>.

(** A job submitted to a route queue goes to the first destination of the list that
    exists and admits it, and it is refused exactly when no destination does. *)
Theorem routeJob_first qm jm j user q :
  Queue.GetQueue (Job.Queue j) qm = Some q → Queue.Type_ q = TypeRoute →
  match routeJob qm jm j user with
  | inr (dest, routed) =>
      routed = true ∧ ∃ before after, Queue.RouteDestin q = before ++ dest :: after ∧
      accepts qm jm j user dest = true ∧ Forall (λ d, accepts qm jm j user d = false) before
  | inl _ => Forall (λ d, accepts qm jm j user d = false) (Queue.RouteDestin q)
  end.
Proof.
  intros Hq Ht. unfold routeJob. rewrite Hq, Ht. simpl. case_decide as Hd; [by rewrite Hd|].
  destruct (list_find _ _) as [[i dest]|] eqn:E.
  - apply list_find_Some in E as (Hl & Ha & Hb). split; [done|].
    exists (take i (Queue.RouteDestin q)), (drop (S i) (Queue.RouteDestin q)). split_and!; [|done|].
    + by rewrite take_drop_middle.
    + apply Forall_forall. intros d Hin. apply list_elem_of_lookup in Hin as [k Hk].
      apply lookup_take_Some in Hk as [Hk Hlt]. apply not_true_iff_false. by apply (Hb k).
  - apply list_find_None in E. eapply Forall_impl; [exact E|]. intros d. apply not_true_iff_false.
Qed.

Definition route_queues : Queue.Manager :=
  {["in" := (NewQueue "in" TypeRoute) <| Queue.RouteDestin := ["none"; "small"; "big"] |>;
    "small" := small_queue; "big" := NewQueue "big" TypeExecution]}.

Definition long_job : Job :=
  short_job <| Job.Queue := "in" |> <| Job.ResourceReq := {["walltime" := "9:00:00"]} |>.

Lemma routeJob_first_witness :
  let jm := JobManager.NewManager "srv" 1 in
  ∃ before after, ["none"; "small"; "big"] = before ++ "big" :: after ∧
    accepts route_queues jm long_job "alice" "big" = true ∧
    Forall (λ d, accepts route_queues jm long_job "alice" d = false) before.
Proof.
  intros jm.
  pose proof (routeJob_first route_queues jm long_job "alice"
    ((NewQueue "in" TypeRoute) <| Queue.RouteDestin := ["none"; "small"; "big"] |>)) as H.
  assert (routeJob route_queues jm long_job "alice" = inr ("big", true)) as E by by vm_compute.
  rewrite E in H. apply H; by vm_compute.
Defined.

(** C12: admission is sound and complete.  A job that is accepted at submission is in a queue
    that exists and admits it: the queue is enabled and started, does not forbid the job's
    types, has room below each of its four limits, lists the user, the group and the
    submission host when it has such lists enforced, and bounds the processors, time and
    memory asked for; and a queue that takes routed jobs only got it from a route queue that
    names it as a destination.  Conversely, a job that names a queue other than a route queue
    which admits it is accepted unchanged.  The job table has fewer than 2^60 jobs. *)
Theorem finalizeRoute_admitted qm jm j owner :
  small jm →
  (∀ j', finalizeRoute qm jm j owner = (j', None) →
     ∃ q routed, Queue.GetQueue (Job.Queue j') qm = Some q ∧ admissible jm q j' owner routed ∧
       if routed : bool
       then ∃ rq, Queue.GetQueue (Job.Queue j) qm = Some rq ∧ Queue.Type_ rq = TypeRoute ∧ Job.Queue j' ∈ Queue.RouteDestin rq
       else j' = j) ∧
  (∀ q, Queue.GetQueue (Job.Queue j) qm = Some q → Queue.Type_ q ≠ TypeRoute → admissible jm q j owner false →
     finalizeRoute qm jm j owner = (j, None)).
Proof.
  intros Hm. assert (j <| Job.Queue := Job.Queue j |> = j) as Hj by by destruct j. split.
  - intros j'. unfold finalizeRoute. destruct (routeJob qm jm j owner) as [e|[dest routed]] eqn:Er; [done|].
    cbv zeta. unfold routeJob in Er. destruct routed.
    + intros [= <-]. destruct (Queue.GetQueue (Job.Queue j) qm) as [q|] eqn:Hq; [|done].
      destruct (Z.eqb_spec (Queue.Type_ q) TypeRoute) as [Ht|]; [|done]. cbn [negb] in Er. case_decide; [done|].
      destruct (list_find _ _) as [[i d]|] eqn:E; [|done]. injection Er as ->.
      apply list_find_Some in E as (Hi & Ha & _). unfold accepts in Ha.
      change (Job.Queue j<|Job.Queue := dest|>) with dest.
      destruct (Queue.GetQueue dest qm) as [dq|] eqn:Hg; [|done]. exists dq, true. split; [done|].
      bool_to_prop. split; [by apply admitToQueue_admissible|]. exists q. split_and!; [done..|]. by eapply list_elem_of_lookup_2.
    + assert (dest = Job.Queue j) as -> by (repeat case_match; by simplify_eq). rewrite Hj.
      destruct (Queue.GetQueue (Job.Queue j) qm) as [dq|] eqn:Hg; [|done]. intros [= <- Ha].
      exists dq, false. split_and!; [done| |done]. by apply admitToQueue_admissible.
  - intros q Hq Ht Ha. unfold finalizeRoute, routeJob. rewrite Hq. apply Z.eqb_neq in Ht. rewrite Ht. cbn [negb]. rewrite Hq, Hj.
    f_equal. by apply admitToQueue_admissible.
Qed.

Lemma finalizeRoute_admitted_witness :
  ∃ q routed, Queue.GetQueue "small" route_queues = Some q ∧
     admissible (JobManager.NewManager "srv" 1) q short_job "alice" routed ∧
     if routed : bool
     then ∃ rq, Queue.GetQueue "in" route_queues = Some rq ∧ Queue.Type_ rq = TypeRoute ∧ "small" ∈ Queue.RouteDestin rq
     else short_job = short_job <| Job.Queue := "in" |>.
Proof.
  destruct (finalizeRoute_admitted route_queues (JobManager.NewManager "srv" 1)
    (short_job <| Job.Queue := "in" |>) "alice" ltac:(by vm_compute)) as [H _].
  apply (H short_job). by vm_compute.
Defined.

(** A queue limit that is not a number, or is zero, does not mean unlimited: a job that
    requests any processors is refused by a queue whose maximum is such a value. *)
Theorem bad_limit_rejects resMin resMax j :
  let req := lookup_or "" "ncpus" (Job.ResourceReq j) in
  let limit := lookup_or "" "ncpus" resMax in
  limit ≠ "" → parse_or0 limit = 0 → lookup_or "" "ncpus" resMin = "" → 0 < parse_or0 req →
  checkResourceInterval resMin resMax j = Some (AboveResourceMax "ncpus").
Proof.
  cbv zeta. intros Hl H0 Hm Hr. unfold checkResourceInterval. cbn [fmap list_fmap first_error].
  assert (check_resource resMin resMax j "ncpus" = Some (AboveResourceMax "ncpus")) as ->; [|done].
  unfold check_resource. cbv zeta. rewrite decide_False.
  2:{ intros E. rewrite E in Hr. by vm_compute in Hr. }
  rewrite Hm. unfold rescValue. rewrite !decide_True by done. rewrite H0.
  rewrite bool_decide_eq_true_2 by done. rewrite bool_decide_eq_false_2 by done. simpl.
  by replace (0 <? parse_or0 _) with true by lia.
Qed.

Lemma bad_limit_rejects_witness :
  checkResourceInterval ∅ {["ncpus" := "unlimited"]}
    (short_job <| Job.ResourceReq := {["ncpus" := "1"]} |>) = Some (AboveResourceMax "ncpus").
Proof.
  apply (bad_limit_rejects ∅ {["ncpus" := "unlimited"]}
    (short_job <| Job.ResourceReq := {["ncpus" := "1"]} |>)); by vm_compute.
Defined.

(** The wall time a job is reported with reads back as the seconds it ran. *)
Theorem parseWalltimeSec_walltime_str d :
  0 ≤ d ≤ MaxInt64 → parseWalltimeSec (walltime_str d) = d / Second.
Proof.
  intros Hd. unfold walltime_str, parseWalltimeSec.
  assert (Hour = 3600 * Second ∧ Minute = 60 * Second ∧ Second = 1000000000) as (HH & HM & HS) by done.
  rewrite !Z.quot_div_nonneg by lia.
  assert (0 ≤ d / Second ≤ MaxInt64) as Hs.
  { rewrite HS. unfold_int. split; [apply Z.div_pos; lia|]. apply Z.div_le_upper_bound; lia. }
  assert (d / Hour = d / Second / 3600) as ->.
  { rewrite HH, Z.mul_comm, Z.div_div by lia. done. }
  assert (d / Minute = d / Second / 60) as ->.
  { rewrite HM, Z.mul_comm, Z.div_div by lia. done. }
  set (t := d / Second) in *.
  assert (0 ≤ t / 3600 ≤ t ∧ 0 ≤ t / 60 ≤ t) as [H1 H2].
  { split; split; try (apply Z.div_pos; lia); apply Z.div_le_upper_bound; lia. }
  rewrite !Z.rem_mod_nonneg by lia.
  pose proof (Z.mod_pos_bound (t / 60) 60 ltac:(lia)). pose proof (Z.mod_pos_bound t 60 ltac:(lia)).
  assert (∀ n, 0 ≤ n → has_byte ":" (fmt_02d n) = false) as Hb.
  { intros n Hn. eapply all_bytes_has; [by apply fmt_02d_digits|done]. }
  rewrite Split_walltime by (apply Hb; lia). cbv beta iota.
  rewrite !parse_fmt_02d by (unfold_int; lia).
  assert (t / 3600 * 3600 + (t / 60) mod 60 * 60 + t mod 60 = t) as ->.
  { replace (t / 3600) with (t / 60 / 60) by (by rewrite Z.div_div by lia).
    pose proof (Z.div_mod (t / 60) 60 ltac:(lia)). pose proof (Z.div_mod t 60 ltac:(lia)). lia. }
  apply int64_id. unfold_int. lia.
Qed.

Lemma parseWalltimeSec_walltime_str_witness :
  parseWalltimeSec (walltime_str (3725 * Second)) = 3725 * Second / Second.
Proof. apply (parseWalltimeSec_walltime_str (3725 * Second)); by vm_compute. Defined.
