(* ===== verification/ServerConfig.v ===== *)
(** * The server's configuration: internal/config/config.go and the attribute switches of
    internal/server/server.go

    [Config] is the whole record of settings and [NewConfig] its defaults.  Its attributes
    can be set by an administrator ([mgrSetServer]), put back ([mgrUnsetServer]) and read
    back from the saved text ([applyServerDBAttr]); each of the three is a switch over the
    attribute names whose cases assign one field.  A case is a value of [Field]: the field
    with its kind, which decides how the text of the attribute is read. *)

From S2P Require Import Prelude GoStd DisMessage.

Local Open Scope string_scope.
Local Open Scope list_scope.
Local Open Scope Z_scope.

(** ** Settings

    Field names that queues, jobs or the scheduler use too are prefixed with [cfg_]. *)

Record Config := mkConfig {
  PBSHome : string; Port : Z; StartType : string; Debug : bool; ServerPriv : string;
  JobsDir : string; QueuesDir : string; NodesFile : string; ServerDB : string; LogDir : string;
  AcctDir : string; ServerName : string; cfg_DefaultQueue : string; Scheduling : bool;
  SchedulerMode : string; SchedulerIteration : Z; NodeCheckRate : Z; TCPTimeout : Z;
  KeepCompleted : Z; JobStatRate : Z; PollJobs : bool; PingRate : Z; JobStartTimeout : Z;
  JobForceCancelTime : Z; JobSyncTimeout : Z; EventDriven : bool; SchedMinInterval : Z;
  cfg_DefaultQueueDepth : Z; cfg_SchedMaxJobStart : Z; cfg_MaxSchedTime : Z; SchedDefer : bool;
  SchedDeferBatch : bool; SchedTriggerPort : Z; LogLevel : Z; LogFileMaxSize : Z;
  LogFileRollDepth : Z; LogKeepDays : Z; RecordJobInfo : bool; RecordJobScript : bool;
  JobLogFileMaxSize : Z; JobLogFileRollDepth : Z; JobLogKeepDays : Z; Managers : string;
  Operators : string; ACLHostEnable : bool; cfg_ACLHosts : string; ACLUserEnable : bool;
  cfg_ACLUsers : string; ACLRoots : string; ACLLogicOr : bool; ACLGroupSloppy : bool;
  ACLUserHosts : string; ACLGroupHosts : string; MaxRunning : Z; cfg_MaxUserRun : Z;
  MaxGroupRun : Z; MaxUserQueuable : Z; ResourcesAvail : gmap string string;
  ResourcesDefault : gmap string string; ResourcesMax : gmap string string;
  ResourcesCost : gmap string string; MailDomain : string; MailFrom : string; NoMailForce : bool;
  MailSubjectFmt : string; MailBodyFmt : string; EmailBatchSeconds : Z; DefaultNode : string;
  NodePack : bool; QueryOtherJobs : bool; MOMJobSync : bool; DownOnError : bool;
  DisableServerIdCheck : bool; AllowNodeSubmit : bool; AllowProxyUser : bool; AutoNodeNP : bool;
  NPDefault : Z; AllowDynamicNodes : bool; NodeAllowedIPRanges : string; JobNanny : bool;
  OwnerPurge : bool; CopyOnRerun : bool; JobExclusiveOnUse : bool; DisableAutoRequeue : bool;
  AutoRequeueExitCode : Z; DontWriteNodesFile : bool; MaxJobArraySize : Z; MaxSlotLimit : Z;
  CloneBatchSize : Z; CloneBatchDelay : Z; MoabArrayCompatible : bool;
  DisplayJobServerSuffix : bool; JobSuffixAlias : string; UseJobsSubdirs : bool; KillDelay : Z;
  UserKillDelay : Z; ExitCodeCanceledJob : Z; TimeoutForJobDelete : Z; TimeoutForJobRequeue : Z;
  DefaultGpuMode : string; IdleSlotLimit : Z; CgroupPerTask : bool; PassCpuClock : bool;
  SubmitHosts : string; NodeSubmitExceptions : string; NodeSuffix : string; cfg_Comment : string;
  LockFileUpdateTime : Z; LockFileCheckTime : Z; InteractiveJobsCanRoam : bool;
  LegacyVmem : bool; GhostArrayRecovery : bool; TCPIncomingTimeout : Z; JobFullReportTime : Z;
}.
#[export] Instance eta_Config : Eta Config := λ c,
  mkConfig (PBSHome c) (Port c) (StartType c) (Debug c) (ServerPriv c) (JobsDir c) (QueuesDir c)
  (NodesFile c) (ServerDB c) (LogDir c) (AcctDir c) (ServerName c) (cfg_DefaultQueue c)
  (Scheduling c) (SchedulerMode c) (SchedulerIteration c) (NodeCheckRate c) (TCPTimeout c)
  (KeepCompleted c) (JobStatRate c) (PollJobs c) (PingRate c) (JobStartTimeout c)
  (JobForceCancelTime c) (JobSyncTimeout c) (EventDriven c) (SchedMinInterval c)
  (cfg_DefaultQueueDepth c) (cfg_SchedMaxJobStart c) (cfg_MaxSchedTime c) (SchedDefer c)
  (SchedDeferBatch c) (SchedTriggerPort c) (LogLevel c) (LogFileMaxSize c) (LogFileRollDepth c)
  (LogKeepDays c) (RecordJobInfo c) (RecordJobScript c) (JobLogFileMaxSize c)
  (JobLogFileRollDepth c) (JobLogKeepDays c) (Managers c) (Operators c) (ACLHostEnable c)
  (cfg_ACLHosts c) (ACLUserEnable c) (cfg_ACLUsers c) (ACLRoots c) (ACLLogicOr c)
  (ACLGroupSloppy c) (ACLUserHosts c) (ACLGroupHosts c) (MaxRunning c) (cfg_MaxUserRun c)
  (MaxGroupRun c) (MaxUserQueuable c) (ResourcesAvail c) (ResourcesDefault c) (ResourcesMax c)
  (ResourcesCost c) (MailDomain c) (MailFrom c) (NoMailForce c) (MailSubjectFmt c)
  (MailBodyFmt c) (EmailBatchSeconds c) (DefaultNode c) (NodePack c) (QueryOtherJobs c)
  (MOMJobSync c) (DownOnError c) (DisableServerIdCheck c) (AllowNodeSubmit c) (AllowProxyUser c)
  (AutoNodeNP c) (NPDefault c) (AllowDynamicNodes c) (NodeAllowedIPRanges c) (JobNanny c)
  (OwnerPurge c) (CopyOnRerun c) (JobExclusiveOnUse c) (DisableAutoRequeue c)
  (AutoRequeueExitCode c) (DontWriteNodesFile c) (MaxJobArraySize c) (MaxSlotLimit c)
  (CloneBatchSize c) (CloneBatchDelay c) (MoabArrayCompatible c) (DisplayJobServerSuffix c)
  (JobSuffixAlias c) (UseJobsSubdirs c) (KillDelay c) (UserKillDelay c) (ExitCodeCanceledJob c)
  (TimeoutForJobDelete c) (TimeoutForJobRequeue c) (DefaultGpuMode c) (IdleSlotLimit c)
  (CgroupPerTask c) (PassCpuClock c) (SubmitHosts c) (NodeSubmitExceptions c) (NodeSuffix c)
  (cfg_Comment c) (LockFileUpdateTime c) (LockFileCheckTime c) (InteractiveJobsCanRoam c)
  (LegacyVmem c) (GhostArrayRecovery c) (TCPIncomingTimeout c) (JobFullReportTime c).

Definition NewConfig (pbsHome : string) : Config :=
  {| PBSHome := pbsHome; Port := 15001; StartType := ""; Debug := false;
     ServerPriv := pbsHome +:+ "/server_priv"; JobsDir := pbsHome +:+ "/server_priv/jobs";
     QueuesDir := pbsHome +:+ "/server_priv/queues";
     NodesFile := pbsHome +:+ "/server_priv/nodes";
     ServerDB := pbsHome +:+ "/server_priv/serverdb"; LogDir := pbsHome +:+ "/server_logs";
     AcctDir := pbsHome +:+ "/server_priv/accounting"; ServerName := ""; cfg_DefaultQueue := "";
     Scheduling := true; SchedulerMode := "external"; SchedulerIteration := 10;
     NodeCheckRate := 600; TCPTimeout := 300; KeepCompleted := 300; JobStatRate := 0;
     PollJobs := false; PingRate := 300; JobStartTimeout := 300; JobForceCancelTime := 0;
     JobSyncTimeout := 120; EventDriven := true; SchedMinInterval := 100;
     cfg_DefaultQueueDepth := 100; cfg_SchedMaxJobStart := 0; cfg_MaxSchedTime := 2;
     SchedDefer := false; SchedDeferBatch := false; SchedTriggerPort := 25003; LogLevel := 511;
     LogFileMaxSize := 0; LogFileRollDepth := 1; LogKeepDays := 0; RecordJobInfo := false;
     RecordJobScript := false; JobLogFileMaxSize := 0; JobLogFileRollDepth := 0;
     JobLogKeepDays := 0; Managers := ""; Operators := ""; ACLHostEnable := false;
     cfg_ACLHosts := ""; ACLUserEnable := false; cfg_ACLUsers := ""; ACLRoots := "";
     ACLLogicOr := false; ACLGroupSloppy := false; ACLUserHosts := ""; ACLGroupHosts := "";
     MaxRunning := 0; cfg_MaxUserRun := 0; MaxGroupRun := 0; MaxUserQueuable := 0;
     ResourcesAvail := ∅; ResourcesDefault := ∅; ResourcesMax := ∅; ResourcesCost := ∅;
     MailDomain := ""; MailFrom := ""; NoMailForce := false; MailSubjectFmt := "";
     MailBodyFmt := ""; EmailBatchSeconds := 0; DefaultNode := ""; NodePack := false;
     QueryOtherJobs := true; MOMJobSync := true; DownOnError := false;
     DisableServerIdCheck := false; AllowNodeSubmit := false; AllowProxyUser := false;
     AutoNodeNP := false; NPDefault := 0; AllowDynamicNodes := false; NodeAllowedIPRanges := "";
     JobNanny := false; OwnerPurge := false; CopyOnRerun := false; JobExclusiveOnUse := false;
     DisableAutoRequeue := false; AutoRequeueExitCode := (-1); DontWriteNodesFile := false;
     MaxJobArraySize := 10000; MaxSlotLimit := 0; CloneBatchSize := 256; CloneBatchDelay := 2;
     MoabArrayCompatible := false; DisplayJobServerSuffix := true; JobSuffixAlias := "";
     UseJobsSubdirs := false; KillDelay := 2; UserKillDelay := 0; ExitCodeCanceledJob := 271;
     TimeoutForJobDelete := 120; TimeoutForJobRequeue := 120; DefaultGpuMode := "";
     IdleSlotLimit := 0; CgroupPerTask := false; PassCpuClock := false; SubmitHosts := "";
     NodeSubmitExceptions := ""; NodeSuffix := ""; cfg_Comment := ""; LockFileUpdateTime := 0;
     LockFileCheckTime := 0; InteractiveJobsCanRoam := false; LegacyVmem := false;
     GhostArrayRecovery := false; TCPIncomingTimeout := 0; JobFullReportTime := 0 |}.

(** ** Reading the text of an attribute *)

(** A field of the configuration: how it is read and assigned. *)
Inductive Field :=
  | FStr (get : Config → string) (set : string → Config → Config)
  | FInt (get : Config → Z) (set : Z → Config → Config)
  | FBool (get : Config → bool) (set : bool → Config → Config).

Abbreviation STR f := (FStr f (λ v (c : Config), c <| f := v |>)).
Abbreviation INT f := (FInt f (λ v (c : Config), c <| f := v |>)).
Abbreviation BOOL f := (FBool f (λ v (c : Config), c <| f := v |>)).

(** A map of resources of the configuration. *)
Record RescField := mkResc {
  rget : Config → gmap string string;
  rset : gmap string string → Config → Config;
}.
Abbreviation MAP f := (mkResc f (λ v (c : Config), c <| f := v |>)).

Definition parseBool (val : string) : bool :=
  bool_decide (val = "True") || bool_decide (val = "true") || bool_decide (val = "1").

(** Operation 7 is INCR. *)
Definition mergeACLValue (existing newVal : string) (op : Z) : string :=
  if (op =? 7) && negb (bool_decide (existing = "")) then existing +:+ "," +:+ newVal else newVal.

(** The assignment of a case: [s.cfg.F = val], [fmt.Sscanf(val, "%d", &s.cfg.F)] or
    [s.cfg.F = parseBool(val)]. *)
Definition assign (f : Field) (val : string) (c : Config) : Config :=
  match f with
  | FStr _ set => set val c
  | FInt get set => set (Sscanf_d val (get c)) c
  | FBool _ set => set (parseBool val) c
  end.

Fixpoint find_case {A} (key : string) (cases : list (string * A)) : option A :=
  match cases with
  | [] => None
  | (name, a) :: cases => if decide (key = name) then Some a else find_case key cases
  end.

Lemma find_case_elem {A} key (cases : list (string * A)) a :
  find_case key cases = Some a → (key, a) ∈ cases.
Proof.
  induction cases as [|[n b] cases IH]; [done|]. cbn [find_case]. rewrite elem_of_cons.
  destruct (decide (key = n)) as [<-|]; [intros [= <-]; by left|auto].
Qed.

Lemma find_case_in {A} key (cases : list (string * A)) a :
  NoDup cases.*1 → (key, a) ∈ cases → find_case key cases = Some a.
Proof.
  induction cases as [|[n b] cases IH]; [by intros _ ?%not_elem_of_nil|].
  cbn [fmap list_fmap fst]. intros [Hn Hd]%NoDup_cons. rewrite elem_of_cons. cbn [find_case].
  intros [[= <- <-]|Hin]; [by rewrite decide_True|]. rewrite decide_False; [by apply IH|].
  intros ->. apply Hn, list_elem_of_fmap. by exists (n, a).
Qed.

(** ** qmgr: set server *)

(** A case of [mgrSetServer]: an assignment, a list an increment can extend, or an entry
    of a resource map. *)
Inductive SetCase :=
  | SetField (f : Field)
  | SetACL (get : Config → string) (set : string → Config → Config)
  | SetResc (r : RescField).

Abbreviation ACL f := (SetACL f (λ v (c : Config), c <| f := v |>)).
Abbreviation RESC f := (SetResc (MAP f)).

(** Scheduling, timing, logging and access control. *)
Definition set_cases_general : list (string * SetCase) :=
  [("scheduling", SetField (BOOL Scheduling));
   ("default_queue", SetField (STR cfg_DefaultQueue));
   ("scheduler_iteration", SetField (INT SchedulerIteration));
   ("node_check_rate", SetField (INT NodeCheckRate)); ("tcp_timeout", SetField (INT TCPTimeout));
   ("keep_completed", SetField (INT KeepCompleted));
   ("job_stat_rate", SetField (INT JobStatRate)); ("poll_jobs", SetField (BOOL PollJobs));
   ("ping_rate", SetField (INT PingRate)); ("job_start_timeout", SetField (INT JobStartTimeout));
   ("job_force_cancel_time", SetField (INT JobForceCancelTime));
   ("job_sync_timeout", SetField (INT JobSyncTimeout));
   ("sched_interval", SetField (INT SchedulerIteration));
   ("event_driven", SetField (BOOL EventDriven));
   ("sched_min_interval", SetField (INT SchedMinInterval));
   ("default_queue_depth", SetField (INT cfg_DefaultQueueDepth));
   ("sched_max_job_start", SetField (INT cfg_SchedMaxJobStart));
   ("max_sched_time", SetField (INT cfg_MaxSchedTime)); ("defer", SetField (BOOL SchedDefer));
   ("defer_batch", SetField (BOOL SchedDeferBatch)); ("log_events", SetField (INT LogLevel));
   ("log_file_max_size", SetField (INT LogFileMaxSize));
   ("log_file_roll_depth", SetField (INT LogFileRollDepth));
   ("log_keep_days", SetField (INT LogKeepDays));
   ("record_job_info", SetField (BOOL RecordJobInfo));
   ("record_job_script", SetField (BOOL RecordJobScript));
   ("job_log_file_max_size", SetField (INT JobLogFileMaxSize));
   ("job_log_file_roll_depth", SetField (INT JobLogFileRollDepth));
   ("job_log_keep_days", SetField (INT JobLogKeepDays)); ("managers", ACL Managers);
   ("operators", ACL Operators); ("acl_host_enable", SetField (BOOL ACLHostEnable));
   ("acl_hosts", ACL cfg_ACLHosts); ("acl_user_enable", SetField (BOOL ACLUserEnable));
   ("acl_users", ACL cfg_ACLUsers); ("acl_roots", ACL ACLRoots);
   ("acl_logic_or", SetField (BOOL ACLLogicOr));
   ("acl_group_sloppy", SetField (BOOL ACLGroupSloppy)); ("acl_user_hosts", ACL ACLUserHosts);
   ("acl_group_hosts", ACL ACLGroupHosts)].

(** Limits, mail, node and job policy, arrays, timeouts, hardware and the rest. *)
Definition set_cases_policy : list (string * SetCase) :=
  [("max_running", SetField (INT MaxRunning)); ("max_user_run", SetField (INT cfg_MaxUserRun));
   ("max_group_run", SetField (INT MaxGroupRun));
   ("max_user_queuable", SetField (INT MaxUserQueuable));
   ("resources_available", RESC ResourcesAvail); ("resources_default", RESC ResourcesDefault);
   ("resources_max", RESC ResourcesMax); ("resources_cost", RESC ResourcesCost);
   ("mail_domain", SetField (STR MailDomain)); ("mail_from", SetField (STR MailFrom));
   ("no_mail_force", SetField (BOOL NoMailForce));
   ("mail_subject_fmt", SetField (STR MailSubjectFmt));
   ("mail_body_fmt", SetField (STR MailBodyFmt));
   ("email_batch_seconds", SetField (INT EmailBatchSeconds));
   ("default_node", SetField (STR DefaultNode)); ("node_pack", SetField (BOOL NodePack));
   ("query_other_jobs", SetField (BOOL QueryOtherJobs));
   ("mom_job_sync", SetField (BOOL MOMJobSync)); ("down_on_error", SetField (BOOL DownOnError));
   ("disable_server_id_check", SetField (BOOL DisableServerIdCheck));
   ("allow_node_submit", SetField (BOOL AllowNodeSubmit));
   ("allow_proxy_user", SetField (BOOL AllowProxyUser));
   ("auto_node_np", SetField (BOOL AutoNodeNP)); ("np_default", SetField (INT NPDefault));
   ("allow_dynamic_nodes", SetField (BOOL AllowDynamicNodes));
   ("node_allowed_ip_ranges", SetField (STR NodeAllowedIPRanges));
   ("job_nanny", SetField (BOOL JobNanny)); ("owner_purge", SetField (BOOL OwnerPurge));
   ("copy_on_rerun", SetField (BOOL CopyOnRerun));
   ("job_exclusive_on_use", SetField (BOOL JobExclusiveOnUse));
   ("disable_automatic_requeue", SetField (BOOL DisableAutoRequeue));
   ("automatic_requeue_exit_code", SetField (INT AutoRequeueExitCode));
   ("dont_write_nodes_file", SetField (BOOL DontWriteNodesFile));
   ("max_job_array_size", SetField (INT MaxJobArraySize));
   ("max_slot_limit", SetField (INT MaxSlotLimit));
   ("clone_batch_size", SetField (INT CloneBatchSize));
   ("clone_batch_delay", SetField (INT CloneBatchDelay));
   ("moab_array_compatible", SetField (BOOL MoabArrayCompatible));
   ("display_job_server_suffix", SetField (BOOL DisplayJobServerSuffix));
   ("job_suffix_alias", SetField (STR JobSuffixAlias));
   ("use_jobs_subdirs", SetField (BOOL UseJobsSubdirs));
   ("kill_delay", SetField (INT KillDelay)); ("user_kill_delay", SetField (INT UserKillDelay));
   ("exit_code_canceled_job", SetField (INT ExitCodeCanceledJob));
   ("timeout_for_job_delete", SetField (INT TimeoutForJobDelete));
   ("timeout_for_job_requeue", SetField (INT TimeoutForJobRequeue));
   ("default_gpu_mode", SetField (STR DefaultGpuMode));
   ("idle_slot_limit", SetField (INT IdleSlotLimit));
   ("cgroup_per_task", SetField (BOOL CgroupPerTask));
   ("pass_cpu_clock", SetField (BOOL PassCpuClock)); ("submit_hosts", ACL SubmitHosts);
   ("node_submit_exceptions", SetField (STR NodeSubmitExceptions));
   ("node_suffix", SetField (STR NodeSuffix)); ("comment", SetField (STR cfg_Comment));
   ("lock_file_update_time", SetField (INT LockFileUpdateTime));
   ("lock_file_check_time", SetField (INT LockFileCheckTime));
   ("interactive_jobs_can_roam", SetField (BOOL InteractiveJobsCanRoam));
   ("legacy_vmem", SetField (BOOL LegacyVmem));
   ("ghost_array_recovery", SetField (BOOL GhostArrayRecovery));
   ("tcp_incoming_timeout", SetField (INT TCPIncomingTimeout));
   ("job_full_report_time", SetField (INT JobFullReportTime))].

Definition set_cases : list (string * SetCase) := set_cases_general ++ set_cases_policy.

Definition set_attr (c : Config) (a : SvrAttrl) : Config :=
  match find_case (Name a) set_cases with
  | Some (SetField f) => assign f (Value a) c
  | Some (SetACL get set) => set (mergeACLValue (get c) (Value a) (Op a)) c
  | Some (SetResc r) => if HasResc a then rset r (<[Resc a := Value a]> (rget r c)) c else c
  | None => c
  end.

Definition set_server (attrs : list SvrAttrl) (c : Config) : Config := foldl set_attr c attrs.

(** ** qmgr: unset server *)

(** A case of [mgrUnsetServer]: the field takes its default, its zero value, or a resource
    map loses an entry. *)
Inductive UnsetCase :=
  | ToDefault (f : Field)
  | ToZero (f : Field)
  | DropResc (r : RescField).

Abbreviation DROP f := (DropResc (MAP f)).

Definition unset_cases : list (string * UnsetCase) :=
  [("scheduling", ToDefault (BOOL Scheduling));
   ("default_queue", ToDefault (STR cfg_DefaultQueue));
   ("scheduler_iteration", ToDefault (INT SchedulerIteration));
   ("node_check_rate", ToDefault (INT NodeCheckRate));
   ("tcp_timeout", ToDefault (INT TCPTimeout));
   ("keep_completed", ToDefault (INT KeepCompleted)); ("log_events", ToDefault (INT LogLevel));
   ("job_stat_rate", ToZero (INT JobStatRate)); ("poll_jobs", ToZero (BOOL PollJobs));
   ("ping_rate", ToDefault (INT PingRate));
   ("job_start_timeout", ToDefault (INT JobStartTimeout));
   ("job_force_cancel_time", ToZero (INT JobForceCancelTime));
   ("job_sync_timeout", ToDefault (INT JobSyncTimeout));
   ("log_file_max_size", ToZero (INT LogFileMaxSize));
   ("log_file_roll_depth", ToDefault (INT LogFileRollDepth));
   ("log_keep_days", ToZero (INT LogKeepDays)); ("record_job_info", ToZero (BOOL RecordJobInfo));
   ("record_job_script", ToZero (BOOL RecordJobScript)); ("managers", ToZero (STR Managers));
   ("operators", ToZero (STR Operators)); ("acl_host_enable", ToZero (BOOL ACLHostEnable));
   ("acl_hosts", ToZero (STR cfg_ACLHosts)); ("acl_user_enable", ToZero (BOOL ACLUserEnable));
   ("acl_users", ToZero (STR cfg_ACLUsers)); ("max_running", ToZero (INT MaxRunning));
   ("max_user_run", ToZero (INT cfg_MaxUserRun)); ("max_group_run", ToZero (INT MaxGroupRun));
   ("max_user_queuable", ToZero (INT MaxUserQueuable));
   ("resources_available", DROP ResourcesAvail); ("resources_default", DROP ResourcesDefault);
   ("resources_max", DROP ResourcesMax); ("mail_domain", ToZero (STR MailDomain));
   ("mail_from", ToZero (STR MailFrom)); ("default_node", ToZero (STR DefaultNode));
   ("node_pack", ToZero (BOOL NodePack)); ("query_other_jobs", ToDefault (BOOL QueryOtherJobs));
   ("mom_job_sync", ToDefault (BOOL MOMJobSync)); ("kill_delay", ToDefault (INT KillDelay));
   ("max_job_array_size", ToDefault (INT MaxJobArraySize));
   ("comment", ToZero (STR cfg_Comment));
   ("display_job_server_suffix", ToDefault (BOOL DisplayJobServerSuffix))].

Definition copy_field (f : Field) (from c : Config) : Config :=
  match f with
  | FStr get set => set (get from) c
  | FInt get set => set (get from) c
  | FBool get set => set (get from) c
  end.

Definition zero_field (f : Field) (c : Config) : Config :=
  match f with
  | FStr _ set => set "" c
  | FInt _ set => set 0 c
  | FBool _ set => set false c
  end.

Definition unset_attr (defaults c : Config) (a : SvrAttrl) : Config :=
  match find_case (Name a) unset_cases with
  | Some (ToDefault f) => copy_field f defaults c
  | Some (ToZero f) => zero_field f c
  | Some (DropResc r) => if HasResc a then rset r (delete (Resc a) (rget r c)) c else c
  | None => c
  end.

Definition unset_server (attrs : list SvrAttrl) (c : Config) : Config :=
  foldl (unset_attr (NewConfig (PBSHome c))) c attrs.
