(* ===== verification/Store.v ===== *)
(** * The file store: internal/server/store.go

    The store keeps the server's documents as files: the server database and the node
    list, one file per queue in a directory of their own, and two files per job (its
    attributes and its script) in another.  A directory is a map from file names to
    contents; the names of queues and jobs have no separator in them, so a document's file
    is in its directory.  A save writes a temporary file and renames it; what the operating
    system may do to a save (it fails to open the file, writes a part of it, fails to
    rename it, or the machine stops between the two) is an argument of the operation, and so
    is what it may do to a deletion, which removes two files and ignores the errors. *)

From S2P Require Import Prelude GoStd.

Local Open Scope string_scope.
Local Open Scope list_scope.
Local Open Scope Z_scope.

(** ** Files *)

Abbreviation Dir := (gmap string string).

Inductive fault :=
  | NoFault
  | OpenFault
  | WriteFault (written : string)    (* what the file holds afterwards *)
  | RenameFault
  | RemoveFault (attrs script : bool).    (* the files that cannot be removed *)
#[export] Instance fault_eq_dec : EqDecision fault.
Proof. solve_decision. Defined.

(** [os.WriteFile] truncates the file or creates it, and writes the data. *)
Definition WriteFile (f : fault) (name data : string) (d : Dir) : bool * Dir :=
  match f with
  | OpenFault => (false, d)
  | WriteFault w => (false, <[name := w]> d)
  | NoFault | RenameFault | RemoveFault _ _ => (true, <[name := data]> d)
  end.
(** [os.Remove], whose error nobody looks at. *)
Definition Remove (fails : bool) (name : string) (d : Dir) : Dir := if fails then d else delete name d.
(** [os.Rename] replaces the file of the new name. *)
Definition Rename (f : fault) (old new : string) (d : Dir) : bool * Dir :=
  match f, d !! old with
  | NoFault, Some data => (true, <[new := data]> (delete old d))
  | _, _ => (false, d)
  end.

(** The body the four saves share. *)
Definition save_file (f : fault) (path data : string) (d : Dir) : bool * Dir :=
  let tmp := path +:+ ".new" in
  match WriteFile f tmp data d with
  | (false, d) => (false, d)
  | (true, d) => Rename f tmp path d
  end.

(** ** The store *)

Record FileStore := mkFileStore { privDir : Dir; queuesDir : Dir; jobsDir : Dir }.
#[export] Instance eta_FileStore : Eta FileStore := λ s,
  mkFileStore (privDir s) (queuesDir s) (jobsDir s).

Definition on_priv (f : Dir → bool * Dir) (s : FileStore) : bool * FileStore :=
  let '(ok, d) := f (privDir s) in (ok, s <| privDir := d |>).
Definition on_queues (f : Dir → bool * Dir) (s : FileStore) : bool * FileStore :=
  let '(ok, d) := f (queuesDir s) in (ok, s <| queuesDir := d |>).
Definition on_jobs (f : Dir → bool * Dir) (s : FileStore) : bool * FileStore :=
  let '(ok, d) := f (jobsDir s) in (ok, s <| jobsDir := d |>).

Definition LoadServerDB (s : FileStore) : option string := privDir s !! "serverdb".
Definition SaveServerDB (f : fault) (data : string) : FileStore → bool * FileStore :=
  on_priv (save_file f "serverdb" data).

Definition LoadQueues (s : FileStore) : gmap string string := queuesDir s.
Definition SaveQueue (f : fault) (name data : string) : FileStore → bool * FileStore :=
  on_queues (save_file f name data).

Definition LoadNodes (s : FileStore) : option string := privDir s !! "nodes".
Definition SaveNodes (f : fault) (data : string) : FileStore → bool * FileStore :=
  on_priv (save_file f "nodes" data).

(** The loop over the entries of the directory, whose names are distinct. *)
Definition job_entry (e : string * string) : option (string * string) :=
  (λ id, (id, e.2)) <$> strip_suffix ".JB" e.1.
Definition LoadJobs (s : FileStore) : gmap string string :=
  list_to_map (omap job_entry (map_to_list (jobsDir s))).
Definition SaveJob (f : fault) (id attrs : string) : FileStore → bool * FileStore :=
  on_jobs (save_file f (id +:+ ".JB") attrs).
Definition LoadJobScript (id : string) (s : FileStore) : option string :=
  jobsDir s !! (id +:+ ".SC").
Definition SaveJobScript (f : fault) (id data : string) : FileStore → bool * FileStore :=
  on_jobs (WriteFile f (id +:+ ".SC") data).
(** The removals of a deletion that fail: of the attributes, of the script. *)
Definition unremoved (f : fault) : bool * bool :=
  match f with RemoveFault attrs script => (attrs, script) | _ => (false, false) end.
Definition DeleteJob (f : fault) (id : string) (s : FileStore) : bool * FileStore :=
  (true, s <| jobsDir := Remove (unremoved f).2 (id +:+ ".SC") (Remove (unremoved f).1 (id +:+ ".JB") (jobsDir s)) |>).

(** ** Lemmas *)

Lemma LoadJobs_lookup s id : LoadJobs s !! id = jobsDir s !! (id +:+ ".JB").
Proof.
  unfold LoadJobs. apply option_eq. intros data.
  rewrite <- elem_of_list_to_map.
  - rewrite list_elem_of_omap. split.
    + intros ([n b] & Hin%elem_of_map_to_list & He). unfold job_entry in He.
      apply fmap_Some in He as (id' & Hs%strip_suffix_some & Heq). simpl in *. by simplify_eq.
    + intros Hl. exists (id +:+ ".JB", data). rewrite elem_of_map_to_list. split; [done|].
      unfold job_entry. cbn [fst]. by rewrite strip_suffix_app.
  - pose proof (NoDup_fst_map_to_list (jobsDir s)) as Hn. revert Hn.
    generalize (map_to_list (jobsDir s)). intros l. induction l as [|[n b] l IH]; intros Hn; [constructor|].
    cbn [fmap list_fmap fst] in Hn. apply NoDup_cons in Hn as [Hni Hn]. cbn [omap list_omap].
    destruct (job_entry (n, b)) as [[id' b']|] eqn:E; [|by apply IH].
    cbn [fmap list_fmap fst]. apply NoDup_cons. split; [|by apply IH]. intros Hin. apply Hni.
    apply list_elem_of_fmap in Hin as ([id2 b2] & -> & Hin).
    apply list_elem_of_omap in Hin as ([n2 b3] & Hin & E2).
    unfold job_entry in *. apply fmap_Some in E as (i & Hi%strip_suffix_some & ?).
    apply fmap_Some in E2 as (i2 & Hi2%strip_suffix_some & ?). simpl in *. simplify_eq.
    by apply (list_elem_of_fmap_2 fst) in Hin.
Qed.

(** A save in full: the file of the name holds the data, the temporary one is gone, and
    no other file is touched. *)
Lemma save_file_ok path data d : save_file NoFault path data d = (true, <[path := data]> (delete (path +:+ ".new") d)).
Proof.
  unfold save_file, WriteFile, Rename. rewrite lookup_insert_eq. by rewrite delete_insert_eq.
Qed.

(** A save that does not complete reports it and changes no file but the temporary one. *)
Lemma save_file_torn f path data d :
  f ≠ NoFault →
  ∃ d', save_file f path data d = (false, d') ∧ ∀ n, n ≠ path +:+ ".new" → d' !! n = d !! n.
Proof.
  intros Hf. unfold save_file, WriteFile, Rename. destruct f; [done| | | |]; eexists; (split; [done|]).
  - done.
  - intros n Hn. by apply lookup_insert_ne.
  - intros n Hn. by apply lookup_insert_ne.
  - intros n Hn. by apply lookup_insert_ne.
Qed.

(** What a save does to the files other than its temporary one. *)
Lemma save_file_lookup f path data d n :
  n ≠ path +:+ ".new" →
  (save_file f path data d).2 !! n
  = if decide (f = NoFault) then <[path := data]> d !! n else d !! n.
Proof.
  intros Hn. case_decide as Hf.
  - subst f. rewrite save_file_ok. simpl. destruct (decide (n = path)) as [->|Hp].
    + by rewrite !lookup_insert_eq.
    + rewrite !lookup_insert_ne by done. by apply lookup_delete_ne.
  - destruct (save_file_torn f path data d Hf) as (d' & -> & Hd). by apply Hd.
Qed.

Lemma save_file_result f path data d : (save_file f path data d).1 = bool_decide (f = NoFault).
Proof.
  destruct (decide (f = NoFault)) as [->|Hf]; [by rewrite save_file_ok|].
  destruct (save_file_torn f path data d Hf) as (d' & -> & _). by rewrite bool_decide_false.
Qed.

(** ** The store as a set of documents *)

Record Documents := mkDocuments {
  doc_serverDB : option string;
  doc_queues : gmap string string;
  doc_nodes : option string;
  doc_jobs : gmap string string;
  doc_scripts : gmap string string;
}.
#[export] Instance eta_Documents : Eta Documents := λ c,
  mkDocuments (doc_serverDB c) (doc_queues c) (doc_nodes c) (doc_jobs c) (doc_scripts c).

Inductive store_op :=
  | OpServerDB (data : string)
  | OpQueue (name data : string)
  | OpNodes (data : string)
  | OpJob (id data : string)
  | OpScript (id data : string)
  | OpDelete (id : string).

(** The files. *)
Definition run_op (s : FileStore) (fo : fault * store_op) : FileStore :=
  let '(f, o) := fo in
  match o with
  | OpServerDB data => (SaveServerDB f data s).2
  | OpQueue name data => (SaveQueue f name data s).2
  | OpNodes data => (SaveNodes f data s).2
  | OpJob id data => (SaveJob f id data s).2
  | OpScript id data => (SaveJobScript f id data s).2
  | OpDelete id => (DeleteJob f id s).2
  end.

(** The documents: a save takes effect or has none; a script may be left half written; a
    document that cannot be removed stays. *)
Definition spec_op (c : Documents) (fo : fault * store_op) : Documents :=
  let '(f, o) := fo in
  let ok := bool_decide (f = NoFault) in
  match o with
  | OpServerDB data => if ok then c <| doc_serverDB := Some data |> else c
  | OpQueue name data => if ok then c <| doc_queues := <[name := data]> (doc_queues c) |> else c
  | OpNodes data => if ok then c <| doc_nodes := Some data |> else c
  | OpJob id data => if ok then c <| doc_jobs := <[id := data]> (doc_jobs c) |> else c
  | OpScript id data =>
      match f with
      | OpenFault => c
      | WriteFault w => c <| doc_scripts := <[id := w]> (doc_scripts c) |>
      | NoFault | RenameFault | RemoveFault _ _ => c <| doc_scripts := <[id := data]> (doc_scripts c) |>
      end
  | OpDelete id =>
      let keep := unremoved f in
      c <| doc_jobs := if keep.1 then doc_jobs c else delete id (doc_jobs c) |>
        <| doc_scripts := if keep.2 then doc_scripts c else delete id (doc_scripts c) |>
  end.

(** A name that is not that of a temporary file. *)
Definition plain (name : string) : bool := bool_decide (strip_suffix ".new" name = None).

Definition op_plain (fo : fault * store_op) : Prop :=
  match fo.2 with OpQueue name _ => plain name = true | _ => True end.

Record holds (s : FileStore) (c : Documents) : Prop := {
  h_serverDB : LoadServerDB s = doc_serverDB c;
  h_queues : ∀ name, plain name = true → LoadQueues s !! name = doc_queues c !! name;
  h_nodes : LoadNodes s = doc_nodes c;
  h_jobs : ∀ id, LoadJobs s !! id = doc_jobs c !! id;
  h_scripts : ∀ id, LoadJobScript id s = doc_scripts c !! id;
}.

Lemma plain_ne name path : plain name = true → name ≠ path +:+ ".new".
Proof.
  unfold plain. intros H%bool_decide_eq_true ->. by rewrite strip_suffix_app in H.
Qed.

Lemma on_priv_2 f s : (on_priv f s).2 = s <| privDir := (f (privDir s)).2 |>.
Proof. unfold on_priv. by destruct (f (privDir s)). Qed.
Lemma on_queues_2 f s : (on_queues f s).2 = s <| queuesDir := (f (queuesDir s)).2 |>.
Proof. unfold on_queues. by destruct (f (queuesDir s)). Qed.
Lemma on_jobs_2 f s : (on_jobs f s).2 = s <| jobsDir := (f (jobsDir s)).2 |>.
Proof. unfold on_jobs. by destruct (f (jobsDir s)). Qed.

(** Saving one of the two documents beside the directories. *)
Lemma priv_holds f n n' data s :
  n ≠ n' → n' ≠ n +:+ ".new" → n ≠ n +:+ ".new" →
  (on_priv (save_file f n data) s).2 = s <| privDir := (save_file f n data (privDir s)).2 |> ∧
  (save_file f n data (privDir s)).2 !! n
    = (if bool_decide (f = NoFault) then Some data else privDir s !! n) ∧
  (save_file f n data (privDir s)).2 !! n' = privDir s !! n'.
Proof.
  intros Hn Hn1 Hn2. rewrite on_priv_2. split; [done|]. rewrite !save_file_lookup by done.
  case_decide; [rewrite bool_decide_true by done|rewrite bool_decide_false by done]; split; try done.
  - by rewrite lookup_insert_eq.
  - by rewrite lookup_insert_ne.
Qed.

(** Saving a job's attributes. *)
Lemma job_holds f id data s c :
  holds s c → holds (SaveJob f id data s).2 (spec_op c (f, OpJob id data)).
Proof.
  intros [H1 H2 H3 H4 H5]. unfold SaveJob. rewrite on_jobs_2. unfold spec_op.
  split; try by destruct (bool_decide _).
  - intros i. rewrite LoadJobs_lookup. unfold set_field. cbn [jobsDir].
    rewrite save_file_lookup by (rewrite app_str_assoc; by apply app_str_ne_last).
    specialize (H4 i). rewrite LoadJobs_lookup in H4.
    case_decide; [rewrite bool_decide_true by done|by rewrite bool_decide_false by done].
    cbn [doc_jobs]. destruct (decide (i = id)) as [->|]; [by rewrite !lookup_insert_eq|].
    rewrite !lookup_insert_ne; [done..|]. by intros ?%app_str_inj_r.
  - intros i. unfold LoadJobScript, set_field in *. cbn [jobsDir].
    rewrite save_file_lookup by (rewrite app_str_assoc; by apply app_str_ne_last).
    case_decide; [rewrite bool_decide_true by done|by rewrite bool_decide_false by done].
    rewrite lookup_insert_ne by (by apply app_str_ne_last). apply H5.
Qed.

(** Writing a job's script. *)
Lemma script_holds id x s c :
  holds s c →
  holds (s <| jobsDir := <[id +:+ ".SC" := x]> (jobsDir s) |>)
        (c <| doc_scripts := <[id := x]> (doc_scripts c) |>).
Proof.
  intros [H1 H2 H3 H4 H5]. split; try done.
  - intros i. rewrite LoadJobs_lookup. unfold set_field. cbn [jobsDir].
    rewrite lookup_insert_ne by (by apply app_str_ne_last). rewrite <- LoadJobs_lookup. apply H4.
  - intros i. unfold LoadJobScript, set_field in *. cbn [jobsDir doc_scripts].
    destruct (decide (i = id)) as [->|]; [by rewrite !lookup_insert_eq|].
    rewrite !lookup_insert_ne; [done..|]. by intros ?%app_str_inj_r.
Qed.

Lemma run_op_holds s c fo : holds s c → op_plain fo → holds (run_op s fo) (spec_op c fo).
Proof.
  destruct fo as [f o]. intros H Hp. pose proof H as [H1 H2 H3 H4 H5].
  destruct o as [data|name data|data|id data|id data|id]; unfold run_op, spec_op.
  - destruct (priv_holds f "serverdb" "nodes" data s) as (E & E1 & E2); [by_decide..|].
    unfold SaveServerDB. rewrite E. split; try by destruct (bool_decide _).
    + unfold LoadServerDB, set_field in *. cbn [privDir]. rewrite E1. by destruct (bool_decide _).
    + unfold LoadNodes, set_field in *. cbn [privDir]. rewrite E2. by destruct (bool_decide _).
  - unfold SaveQueue. rewrite on_queues_2. split; try by destruct (bool_decide _).
    intros n Hn. unfold LoadQueues, set_field in *. cbn [queuesDir].
    rewrite save_file_lookup by (by apply plain_ne).
    case_decide; [rewrite bool_decide_true by done|rewrite bool_decide_false by done; by apply H2].
    cbn [doc_queues]. destruct (decide (n = name)) as [->|]; [by rewrite !lookup_insert_eq|].
    rewrite !lookup_insert_ne by done. by apply H2.
  - destruct (priv_holds f "nodes" "serverdb" data s) as (E & E1 & E2); [by_decide..|].
    unfold SaveNodes. rewrite E. split; try by destruct (bool_decide _).
    + unfold LoadServerDB, set_field in *. cbn [privDir]. rewrite E2. by destruct (bool_decide _).
    + unfold LoadNodes, set_field in *. cbn [privDir]. rewrite E1. by destruct (bool_decide _).
  - by apply job_holds.
  - unfold SaveJobScript. rewrite on_jobs_2. unfold WriteFile.
    destruct f; cbn [snd]; [by apply script_holds|by destruct s|by apply script_holds..].
  - unfold DeleteJob, Remove. destruct (unremoved f) as [ka ks]. cbn [fst snd]. split; try done.
    + intros i. specialize (H4 i). rewrite LoadJobs_lookup in *. unfold set_field. cbn [jobsDir doc_jobs].
      transitivity ((if ka then jobsDir s else delete (id +:+ ".JB") (jobsDir s)) !! (i +:+ ".JB")).
      { destruct ks; [done|]. apply lookup_delete_ne. by apply app_str_ne_last. }
      destruct ka; [done|]. destruct (decide (i = id)) as [->|]; [by rewrite !lookup_delete_eq|].
      rewrite !lookup_delete_ne; [done..|]. by intros ?%app_str_inj_r.
    + intros i. unfold LoadJobScript, set_field in *. cbn [jobsDir doc_scripts].
      transitivity ((if ks then jobsDir s else delete (id +:+ ".SC") (jobsDir s)) !! (i +:+ ".SC")).
      { destruct ka; [done|]. destruct ks; [apply lookup_delete_ne; by apply app_str_ne_last|].
        destruct (decide (i = id)) as [->|]; [by rewrite !lookup_delete_eq|].
        rewrite !(lookup_delete_ne _ (id +:+ ".SC")) by (by intros ?%app_str_inj_r).
        apply lookup_delete_ne. by apply app_str_ne_last. }
      destruct ks; [apply H5|]. destruct (decide (i = id)) as [->|]; [by rewrite !lookup_delete_eq|].
      rewrite !lookup_delete_ne; [apply H5|done|by intros ?%app_str_inj_r].
Qed.

(** ** Theorems *)

(** C24: the file store refines a set of documents, one per queue and job: whatever the
    sequence of saves and deletions and whatever fails in them, loading gives for every
    document the data of the last save of it that succeeded, and nothing after a deletion
    whose removals succeed.  A save that fails or is cut short leaves the previous version in
    place; only a script can be left half written.  A deletion ignores the errors of its two
    removals, and the file that could not be removed is loaded as before.  Queues are meant
    here under names that do not end in .new. *)
Theorem file_store_refines ops s c :
  holds s c → Forall op_plain ops → holds (foldl run_op s ops) (foldl spec_op c ops).
Proof.
  revert s c. induction ops as [|fo ops IH]; intros s c H Hp; [done|].
  apply Forall_cons in Hp as [Hp Hps]. simpl. apply IH; [|done]. by apply run_op_holds.
Qed.

Lemma file_store_refines_witness :
  let ops := [(NoFault, OpJob "1.host" "state=1"); (NoFault, OpScript "1.host" "sleep 1");
              (NoFault, OpQueue "batch" "enabled=True"); (WriteFault "stat", OpJob "1.host" "state=4");
              (NoFault, OpDelete "2.host"); (RemoveFault true false, OpDelete "1.host"); (RenameFault, OpQueue "batch" "enabled=False")] in
  holds (foldl run_op (mkFileStore ∅ ∅ ∅) ops) (foldl spec_op (mkDocuments None ∅ None ∅ ∅) ops) ∧
  doc_jobs (foldl spec_op (mkDocuments None ∅ None ∅ ∅) ops) !! "1.host" = Some "state=1".
Proof.
  split; [|by vm_compute]. apply file_store_refines.
  - by split.
  - repeat constructor.
Defined.

(** A job whose file cannot be removed is reported deleted and is there when the jobs are
    loaded again. *)
Theorem unremoved_job_stays script id s :
  (DeleteJob (RemoveFault true script) id s).1 = true ∧
  LoadJobs (DeleteJob (RemoveFault true script) id s).2 !! id = LoadJobs s !! id.
Proof.
  split; [done|]. rewrite !LoadJobs_lookup. unfold DeleteJob. cbn. destruct script; [done|].
  apply lookup_delete_ne. by apply app_str_ne_last.
Qed.

(** The temporary file of a queue that a failed save leaves behind is loaded as a queue of
    its own, with whatever part of the text was written. *)
Theorem torn_queue_is_loaded w name data s :
  LoadQueues (SaveQueue (WriteFault w) name data s).2 = <[name +:+ ".new" := w]> (LoadQueues s).
Proof. done. Qed.

(** Saving a queue deletes the document of the queue whose name is the first one's
    followed by .new. *)
Theorem save_deletes_new name data s :
  LoadQueues (SaveQueue NoFault name data s).2
  = <[name := data]> (delete (name +:+ ".new") (LoadQueues s)).
Proof. unfold SaveQueue. rewrite on_queues_2, save_file_ok. done. Qed.
