(* ===== verification/Persist.v ===== *)
(** * Saved state: the text formats of internal/server/server.go

    Queues and jobs are saved as lines key=value, nodes as one line each with fields
    key=value, and read back when the server starts.  A file is a list of pairs here, in
    the order the source writes them, and its text is their concatenation. *)

From S2P Require Import Prelude GoStd Job JobManager Node Queue Route Store.

Local Open Scope string_scope.
Local Open Scope list_scope.
Local Open Scope Z_scope.

(** ** Files of key=value lines *)

Definition kv_line (kv : string * string) : string :=
  kv.1 +:+ "=" +:+ kv.2 +:+ String newline "".
Definition kv_file (l : list (string * string)) : string :=
  foldr (λ kv s, kv_line kv +:+ s) "" l.

(** One line of the reader: [strings.Index(line, "=") > 0]. *)
Definition read_line {A} (f : string → string → A → A) (x : A) (line : string) : A :=
  let line := TrimSpace line in
  match cut "=" line with
  | Some (key, val) => if decide (key = "") then x else f key val x
  | None => x
  end.
Definition read_kv {A} (f : string → string → A → A) (content : string) (x : A) : A :=
  foldl (read_line f) x (Split newline content).

(** Keys and values that survive: no line breaks, no blanks at the end of a value, no
    blanks or equality signs in a key. *)
Definition clean_text (v : string) : Prop := has_byte newline v = false ∧ trim_right v = v.
Definition clean_key (k : string) : Prop := no_space k = true ∧ has_byte "=" k = false.
Definition clean_kv (kv : string * string) : Prop :=
  kv.1 ≠ "" ∧ clean_key kv.1 ∧ clean_text kv.2.

#[export] Instance clean_text_dec v : Decision (clean_text v).
Proof. unfold clean_text. apply _. Defined.
#[export] Instance clean_key_dec v : Decision (clean_key v).
Proof. unfold clean_key. apply _. Defined.
#[export] Instance clean_kv_dec v : Decision (clean_kv v).
Proof. unfold clean_kv. apply _. Defined.

Lemma trim_right_app a b : b ≠ "" → trim_right b = b → trim_right (a +:+ b) = a +:+ b.
Proof.
  intros Hb Ht. induction a as [|c a IH]; [done|].
  change (String c a +:+ b) with (String c (a +:+ b)). cbn [trim_right]. rewrite IH.
  rewrite bool_decide_false, andb_false_r; [done|]. destruct a; [done|]. intros E. discriminate E.
Qed.

Lemma trim_right_eq_text v : trim_right v = v → trim_right ("=" +:+ v) = "=" +:+ v.
Proof. intros H. destruct v; [done|]. by apply trim_right_app. Qed.

Lemma TrimSpace_kv k v :
  k ≠ "" → no_space k = true → trim_right v = v → TrimSpace (k +:+ "=" +:+ v) = k +:+ "=" +:+ v.
Proof.
  intros Hk Hn Hv. unfold TrimSpace.
  assert (trim_left (k +:+ "=" +:+ v) = k +:+ "=" +:+ v) as ->.
  { destruct k as [|c k]; [done|]. unfold no_space in Hn. simpl in Hn. simpl.
    apply andb_true_iff in Hn as [Hc _]. by destruct (is_space c). }
  apply trim_right_app; [done|by apply trim_right_eq_text].
Qed.

Lemma read_line_clean {A} (f : string → string → A → A) x k v :
  clean_kv (k, v) → read_line f x (k +:+ "=" +:+ v) = f k v x.
Proof.
  intros (Hk & [Hn He] & [_ Ht]). unfold read_line. cbv zeta. cbn [fst snd] in *.
  rewrite TrimSpace_kv by done. change ("=" +:+ v) with (String "=" v).
  rewrite cut_app by done. by rewrite decide_False.
Qed.

(** A file reads as the pairs it was written from. *)
Lemma read_kv_file {A} (f : string → string → A → A) l x :
  Forall clean_kv l → read_kv f (kv_file l) x = foldl (λ x kv, f kv.1 kv.2 x) x l.
Proof.
  unfold read_kv. revert x. induction l as [|[k v] l IH]; intros x Hl; [done|].
  apply Forall_cons in Hl as [Hkv Hl]. cbn [kv_file foldr]. fold (kv_file l).
  assert (kv_line (k, v) +:+ kv_file l = (k +:+ "=" +:+ v) +:+ String newline (kv_file l)) as ->.
  { unfold kv_line. cbn [fst snd]. rewrite !app_str_assoc. done. }
  rewrite Split_cons.
  - cbn [foldl fst snd]. rewrite read_line_clean by done. by apply IH.
  - destruct Hkv as (_ & [Hn _] & [Hnl _]). cbn [fst snd] in *.
    rewrite has_byte_app. apply orb_false_iff. split; [by eapply all_bytes_has|].
    change ("=" +:+ v) with (String "=" v). done.
Qed.

(** ** Jobs *)

Definition time_attr (key : string) (t : Time) : list (string * string) :=
  if IsZero t then [] else [(key, Itoa (Unix t))].
Definition text_attr (key v : string) : list (string * string) :=
  if decide (v = "") then [] else [(key, v)].
Definition req_attrs (m : gmap string string) : list (string * string) :=
  (λ k, ("req." +:+ k, lookup_or "" k m)) <$> sort_Strings (keys m).

Definition fixed_attrs (j : Job) : list (string * string) :=
  [("state", Itoa (Job.State j)); ("substate", Itoa (Substate j)); ("queue", Job.Queue j);
   ("owner", Owner j); ("name", Job.Name j); ("euser", EUser j); ("egroup", EGroup j);
   ("exec_host", ExecHost j); ("stdout", StdoutPath j); ("stderr", StderrPath j);
   ("exec_port", Itoa (ExecPort j)); ("session", Itoa (SessionID j));
   ("exit_status", Itoa (ExitStatus j)); ("priority", Itoa (Job.Priority j));
   ("node_count", Itoa (Job.NodeCount j)); ("task_count", Itoa (TaskCount j))].
Definition job_attrs (j : Job) : list (string * string) :=
  fixed_attrs j ++ time_attr "comp_time" (CompTime j) ++ time_attr "start_time" (StartTime j)
  ++ time_attr "qtime" (QueueTime j) ++ time_attr "create_time" (CreateTime j)
  ++ req_attrs (ResourceReq j) ++ text_attr "provision_vm" (ProvisionVM j)
  ++ text_attr "provision_node" (ProvisionNode j).

Definition serializeJob (j : Job) : string := kv_file (job_attrs j).

(** The closure [setTime]. *)
Definition setTime (val : string) (dst : Time) : Time :=
  match ParseInt val with (ts, None) => time_Unix ts | _ => dst end.

Definition read_job_attr (key val : string) (j : Job) : Job :=
  switch key
    [(["state"], j <| Job.State := Sscanf_d val (Job.State j) |>);
     (["substate"], j <| Substate := Sscanf_d val (Substate j) |>);
     (["queue"], j <| Job.Queue := val |>);
     (["owner"], j <| Owner := val |>);
     (["name"], j <| Job.Name := val |>);
     (["euser"], j <| EUser := val |>);
     (["egroup"], j <| EGroup := val |>);
     (["exec_host"], j <| ExecHost := val |>);
     (["exec_port"], j <| ExecPort := Sscanf_d val (ExecPort j) |>);
     (["session"], j <| SessionID := Sscanf_d val (SessionID j) |>);
     (["exit_status"], j <| ExitStatus := Sscanf_d val (ExitStatus j) |>);
     (["priority"], j <| Job.Priority := Sscanf_d val (Job.Priority j) |>);
     (["node_count"], j <| Job.NodeCount := Sscanf_d val (Job.NodeCount j) |>);
     (["task_count"], j <| TaskCount := Sscanf_d val (TaskCount j) |>);
     (["comp_time"], j <| CompTime := setTime val (CompTime j) |>);
     (["start_time"], j <| StartTime := setTime val (StartTime j) |>);
     (["qtime"], j <| QueueTime := setTime val (QueueTime j) |>);
     (["create_time"], j <| CreateTime := setTime val (CreateTime j) |>);
     (["provision_vm"], j <| ProvisionVM := val |>);
     (["provision_node"], j <| ProvisionNode := val |>)]
    (match strip_prefix "req." key with
     | Some k => j <| ResourceReq := <[k := val]> (ResourceReq j) |>
     | None => j
     end).

Definition deserializeJob (now : Time) (data jobID serverName : string) : Job :=
  read_kv read_job_attr data (NewJob now jobID "" serverName).

(** *** What a saved job comes back as *)

(** The saved part of a time: whole seconds. *)
Definition saved_time (d t : Time) : Time := if IsZero t then d else time_Unix (Unix t).

Definition saved_job (now : Time) (server : string) (j : Job) : Job :=
  (NewJob now (Job.ID j) (Job.Queue j) server)
    <| Job.State := Job.State j |> <| Substate := Substate j |> <| Owner := Owner j |>
    <| Job.Name := Job.Name j |> <| EUser := EUser j |> <| EGroup := EGroup j |>
    <| ExecHost := ExecHost j |> <| ExecPort := ExecPort j |> <| SessionID := SessionID j |>
    <| ExitStatus := ExitStatus j |> <| Job.Priority := Job.Priority j |>
    <| Job.NodeCount := Job.NodeCount j |> <| TaskCount := TaskCount j |>
    <| CompTime := saved_time zero_time (CompTime j) |>
    <| StartTime := saved_time zero_time (StartTime j) |>
    <| QueueTime := saved_time zero_time (QueueTime j) |>
    <| CreateTime := saved_time now (CreateTime j) |>
    <| ResourceReq := ResourceReq j |>
    <| ProvisionVM := ProvisionVM j |> <| ProvisionNode := ProvisionNode j |>.

(** The attributes of the job are ones the text format can hold. *)
Record savable (j : Job) : Prop := {
  sv_ints : Forall is_int64 [Job.State j; Substate j; ExecPort j; SessionID j; ExitStatus j;
                             Job.Priority j; Job.NodeCount j; TaskCount j];
  sv_texts : Forall clean_text [Job.Queue j; Owner j; Job.Name j; EUser j; EGroup j; ExecHost j;
                                StdoutPath j; StderrPath j; ProvisionVM j; ProvisionNode j];
  sv_times : Forall (λ t, is_int64 (Unix t)) [CompTime j; StartTime j; QueueTime j; CreateTime j];
  sv_req : map_Forall (λ k v, clean_key k ∧ clean_text v) (ResourceReq j);
}.

Lemma no_space_clean v : no_space v = true → clean_text v.
Proof. intros H. split; [by eapply all_bytes_has|by apply trim_right_no_space]. Qed.

Lemma Itoa_clean n : clean_text (Itoa n).
Proof. apply no_space_clean, FormatInt_no_space. Qed.

Lemma time_attr_clean key t : clean_key key → key ≠ "" → Forall clean_kv (time_attr key t).
Proof.
  intros Hk Hn. unfold time_attr. destruct (IsZero t); repeat constructor; try apply Hk; [done|apply Itoa_clean..].
Qed.

Lemma text_attr_clean key v :
  clean_key key → key ≠ "" → clean_text v → Forall clean_kv (text_attr key v).
Proof. intros Hk Hn Hv. unfold text_attr. case_decide; by repeat constructor; try apply Hk; try apply Hv. Qed.

Lemma req_attrs_clean m :
  map_Forall (λ k v, clean_key k ∧ clean_text v) m → Forall clean_kv (req_attrs m).
Proof.
  intros H. apply Forall_fmap. apply Forall_forall. intros k Hk.
  rewrite sort_Strings_perm in Hk. apply (map_order_elem _ _ _ (map_order_keys m)) in Hk as [v Hv].
  destruct (H k v Hv) as [[Hn He] Hc]. unfold compose, lookup_or. rewrite Hv. split_and!; [done| |done].
  split; cbn [fst].
  - unfold no_space in *. rewrite all_bytes_app. by rewrite Hn.
  - rewrite has_byte_app. by rewrite He.
Qed.

Ltac clean_key := split; reflexivity.

Lemma job_attrs_clean j : savable j → Forall clean_kv (job_attrs j).
Proof.
  intros [Hi Ht _ Hr]. unfold job_attrs.
  repeat (apply Forall_cons in Ht as [? Ht]).
  repeat apply Forall_app_2; try (apply time_attr_clean; [clean_key|done]);
    try (apply text_attr_clean; [clean_key|done|done]); [|by apply req_attrs_clean].
  unfold fixed_attrs. repeat (apply Forall_cons_2; [split_and!; [done|clean_key|try done; apply Itoa_clean]|]).
  constructor.
Qed.

Definition apply_kv {A} (f : string → string → A → A) (x : A) (kv : string * string) : A :=
  f kv.1 kv.2 x.

Lemma read_fixed_attrs now id server j :
  foldl (apply_kv read_job_attr) (NewJob now id "" server) (fixed_attrs j)
  = (NewJob now id (Job.Queue j) server)
      <| Job.State := Sscanf_d (Itoa (Job.State j)) 0 |>
      <| Substate := Sscanf_d (Itoa (Substate j)) 0 |> <| Owner := Owner j |>
      <| Job.Name := Job.Name j |> <| EUser := EUser j |> <| EGroup := EGroup j |>
      <| ExecHost := ExecHost j |> <| ExecPort := Sscanf_d (Itoa (ExecPort j)) 0 |>
      <| SessionID := Sscanf_d (Itoa (SessionID j)) 0 |>
      <| ExitStatus := Sscanf_d (Itoa (ExitStatus j)) 0 |>
      <| Job.Priority := Sscanf_d (Itoa (Job.Priority j)) 0 |>
      <| Job.NodeCount := Sscanf_d (Itoa (Job.NodeCount j)) 0 |>
      <| TaskCount := Sscanf_d (Itoa (TaskCount j)) 0 |>.
Proof. reflexivity. Qed.

(** Writing a map entry by entry into an empty map. *)
Lemma foldl_insert_lookup {A} (d : A) (m0 m : gmap string A) ks k :
  foldl (λ m k, <[k := lookup_or d k m0]> m) m ks !! k
  = if decide (k ∈ ks) then Some (lookup_or d k m0) else m !! k.
Proof.
  revert m. induction ks as [|k' ks IH]; intros m; simpl; [done|].
  rewrite IH. destruct (decide (k ∈ ks)) as [Hin|Hni].
  - rewrite decide_True; [done|by right].
  - destruct (decide (k = k')) as [->|Hne].
    + rewrite lookup_insert_eq, decide_True; [done|by left].
    + rewrite lookup_insert_ne by done. rewrite decide_False; [done|].
      intros [?|?]%elem_of_cons; by subst.
Qed.

Lemma foldl_insert_keys {A} (d : A) (m0 : gmap string A) ks :
  ks ≡ₚ keys m0 → foldl (λ m k, <[k := lookup_or d k m0]> m) ∅ ks = m0.
Proof.
  intros Hp. apply map_eq. intros k. rewrite foldl_insert_lookup, lookup_empty.
  pose proof (map_order_elem m0 (keys m0) k (map_order_keys m0)) as He. rewrite <- Hp in He.
  case_decide as Hin; [apply He in Hin as [v Hv]; unfold lookup_or; by rewrite Hv|].
  symmetry. apply eq_None_not_Some. by rewrite <- He.
Qed.

Lemma read_time_attr key (proj : Job → Time) `{Setter Job Time proj} j t :
  (∀ v j, read_job_attr key v j = j <| proj := setTime v (proj j) |>) →
  (j <| proj := proj j |> = j) → is_int64 (Unix t) →
  foldl (apply_kv read_job_attr) j (time_attr key t)
  = j <| proj := saved_time (proj j) t |>.
Proof.
  intros Hread Heta Hi. unfold time_attr, saved_time. destruct (IsZero t); simpl; [done|].
  unfold apply_kv. cbn [fst snd]. rewrite Hread. unfold setTime, Itoa. by rewrite ParseInt_FormatInt.
Qed.

Lemma read_text_attr {A} (f : string → string → A → A) key (proj : A → string) `{Setter A string proj} x v :
  (∀ v x, f key v x = x <| proj := v |>) → x <| proj := "" |> = x →
  foldl (apply_kv f) x (text_attr key v) = x <| proj := v |>.
Proof.
  intros Hread Hz. unfold text_attr. case_decide as Hv; simpl; [subst; done|].
  unfold apply_kv. cbn [fst snd]. apply Hread.
Qed.

(** The saved times and machines, one by one. *)
Lemma read_comp_time j t :
  is_int64 (Unix t) →
  foldl (apply_kv read_job_attr) j (time_attr "comp_time" t) = j <| CompTime := saved_time (CompTime j) t |>.
Proof. intros Hi. apply read_time_attr; [reflexivity|by destruct j|exact Hi]. Qed.
Lemma read_start_time j t :
  is_int64 (Unix t) →
  foldl (apply_kv read_job_attr) j (time_attr "start_time" t) = j <| StartTime := saved_time (StartTime j) t |>.
Proof. intros Hi. apply read_time_attr; [reflexivity|by destruct j|exact Hi]. Qed.
Lemma read_qtime j t :
  is_int64 (Unix t) →
  foldl (apply_kv read_job_attr) j (time_attr "qtime" t) = j <| QueueTime := saved_time (QueueTime j) t |>.
Proof. intros Hi. apply read_time_attr; [reflexivity|by destruct j|exact Hi]. Qed.
Lemma read_create_time j t :
  is_int64 (Unix t) →
  foldl (apply_kv read_job_attr) j (time_attr "create_time" t) = j <| CreateTime := saved_time (CreateTime j) t |>.
Proof. intros Hi. apply read_time_attr; [reflexivity|by destruct j|exact Hi]. Qed.
Lemma read_provision_vm j v :
  ProvisionVM j = "" → foldl (apply_kv read_job_attr) j (text_attr "provision_vm" v) = j <| ProvisionVM := v |>.
Proof. intros Hz. apply read_text_attr; [reflexivity|rewrite <- Hz; by destruct j]. Qed.
Lemma read_provision_node j v :
  ProvisionNode j = "" → foldl (apply_kv read_job_attr) j (text_attr "provision_node" v) = j <| ProvisionNode := v |>.
Proof. intros Hz. apply read_text_attr; [reflexivity|rewrite <- Hz; by destruct j]. Qed.

Lemma read_req_attr k v j :
  read_job_attr ("req." +:+ k) v j = j <| ResourceReq := <[k := v]> (ResourceReq j) |>.
Proof. reflexivity. Qed.

Lemma read_req_attrs j m :
  ResourceReq j = ∅ →
  foldl (apply_kv read_job_attr) j (req_attrs m) = j <| ResourceReq := m |>.
Proof.
  intros He. unfold req_attrs.
  transitivity (j <| ResourceReq := foldl (λ r k, <[k := lookup_or "" k m]> r) (ResourceReq j)
                                      (sort_Strings (keys m)) |>).
  - clear He. revert j. generalize (sort_Strings (keys m)). intros ks. induction ks as [|k ks IH]; intros j.
    + by destruct j.
    + cbn [fmap list_fmap foldl]. unfold apply_kv at 2. cbn [fst snd]. rewrite read_req_attr, IH. done.
  - rewrite He, foldl_insert_keys; [done|apply sort_Strings_perm].
Qed.

Lemma read_kv_job now server j :
  savable j → deserializeJob now (serializeJob j) (Job.ID j) server = saved_job now server j.
Proof.
  intros Hs. unfold deserializeJob, serializeJob. rewrite read_kv_file by by apply job_attrs_clean.
  change (λ x kv, read_job_attr kv.1 kv.2 x) with (apply_kv read_job_attr).
  unfold job_attrs. rewrite !foldl_app, read_fixed_attrs.
  destruct Hs as [Hi _ Ht _].
  repeat (apply Forall_cons in Hi as [Hz Hi]; apply (Sscanf_d_Itoa _ 0) in Hz; rewrite Hz; clear Hz).
  repeat (apply Forall_cons in Ht as [? Ht]).
  rewrite read_comp_time by assumption. rewrite read_start_time by assumption.
  rewrite read_qtime by assumption. rewrite read_create_time by assumption.
  rewrite read_req_attrs by reflexivity. rewrite read_provision_vm by reflexivity.
  rewrite read_provision_node by reflexivity. reflexivity.
Qed.

(** ** Theorems on jobs *)

(** A job read back from its saved text is the job that was saved, for the attributes
    the text holds: the state, queue, owner, names, the nodes it ran on, the numbers, the
    times to the second and every resource request; a job the text can hold has no line
    breaks in its attributes and no blanks at their ends.  All other attributes are those
    of a new job. *)
Theorem deserializeJob_serializeJob now server j :
  savable j → deserializeJob now (serializeJob j) (Job.ID j) server = saved_job now server j.
Proof. apply read_kv_job. Qed.

Definition sample_job : Job :=
  (NewJob (time_Unix 1700000000) "7.host" "batch" "host") <| Owner := "ann@host" |> <| Job.Name := "sim" |>
    <| Job.State := StateRunning |> <| ExecHost := "n1/0" |> <| StdoutPath := "host:/home/ann/sim.o7" |>
    <| StartTime := time_Unix 1700000100 |> <| ResourceReq := {["walltime" := "01:00:00"]} |>.

Lemma sample_job_savable : savable sample_job.
Proof.
  split; [by_decide|by_decide|by_decide|]. intros k v.
  change (ResourceReq sample_job) with ({["walltime" := "01:00:00"]} : gmap string string).
  intros [<- <-]%lookup_singleton_Some. by_decide.
Qed.

Lemma deserializeJob_serializeJob_witness :
  deserializeJob 5 (serializeJob sample_job) "7.host" "host" = saved_job 5 "host" sample_job ∧
  CreateTime (saved_job 5 "host" sample_job) = time_Unix 1700000000 ∧
  lookup_or "" "walltime" (ResourceReq (saved_job 5 "host" sample_job)) = "01:00:00".
Proof.
  split; [|by vm_compute]. apply (deserializeJob_serializeJob 5 "host" sample_job), sample_job_savable.
Defined.

(** The paths of the output are written and never read back, and the dependencies, the
    holds and the variables are not written: after a restart the job has none. *)
Theorem restart_loses now server j :
  savable j →
  let j' := deserializeJob now (serializeJob j) (Job.ID j) server in
  StdoutPath j' = "" ∧ StderrPath j' = "" ∧ DependList j' = "" ∧ HoldTypes j' = "" ∧
  VariableList j' = ∅ ∧ ExecutionTime j' = zero_time.
Proof.
  intros Hs j'. unfold j'. rewrite read_kv_job by done. done.
Qed.
