(* ===== verification/PersistConf.v ===== *)
(** * Saved configuration: queues and nodes in internal/server/server.go

    [saveQueue], [recoverQueues], [saveNodes] and [recoverNodes]: the text of a queue is a
    file of key=value lines, the text of the nodes has a line per node.  The queue file of
    the C server, in XML, is recognised when it is read. *)

From S2P Require Import Prelude GoStd Job Node Queue Route Store Persist.

Local Open Scope string_scope.
Local Open Scope list_scope.
Local Open Scope Z_scope.

(** ** Writing a queue *)

Definition int_attr (key : string) (n : Z) : list (string * string) :=
  if 0 <? n then [(key, Itoa n)] else [].
Definition flag_attr (key : string) (b : bool) : list (string * string) :=
  if b then [(key, "True")] else [].
Definition list_attr (key : string) (l : list string) : list (string * string) :=
  if decide (l = []) then [] else [(key, Join "," l)].
Definition bool_text (b : bool) : string := if b then "True" else "False".

Section queues.
Context `{MapRange}.

Definition map_attrs (prefix : string) (m : gmap string string) : list (string * string) :=
  (λ k, (prefix +:+ k, lookup_or "" k m)) <$> range m.

Definition head_attrs (q : Queue) : list (string * string) :=
  [("queue_type", if Type_ q =? TypeExecution then "Execution" else "Route");
   ("enabled", bool_text (Enabled q)); ("started", bool_text (Started q))].
Definition cloud_attrs (q : Queue) : list (string * string) :=
  text_attr "cloud_provider" (CloudProvider q) ++ text_attr "cloud_vm_sku" (CloudVMSKU q)
  ++ int_attr "cloud_min_nodes" (CloudMinNodes q) ++ int_attr "cloud_max_nodes" (CloudMaxNodes q)
  ++ int_attr "cloud_idle_time" (CloudIdleTime q)
  ++ int_attr "cloud_provision_timeout" (CloudProvisionTimeout q)
  ++ text_attr "cloud_reclaim" (CloudReclaim q) ++ text_attr "cloud_subnet_id" (CloudSubnetID q)
  ++ text_attr "cloud_image_id" (CloudImageID q) ++ int_attr "cloud_disk_size" (CloudDiskSize q)
  ++ text_attr "cloud_disk_type" (CloudDiskType q) ++ text_attr "cloud_ssh_key" (CloudSSHKey q)
  ++ text_attr "cloud_location" (CloudLocation q) ++ text_attr "cloud_rg_name" (CloudRgName q)
  ++ int_attr "cloud_cooldown" (CloudCooldown q)
  ++ int_attr "cloud_scale_headroom" (CloudScaleHeadroom q)
  ++ int_attr "cloud_drain_timeout" (CloudDrainTimeout q).
Definition access_attrs (q : Queue) : list (string * string) :=
  int_attr "max_user_queuable" (MaxUserJobs q) ++ int_attr "max_user_run" (Queue.MaxUserRun q)
  ++ flag_attr "acl_user_enable" (ACLUserEnabled q) ++ list_attr "acl_users" (ACLUsers q)
  ++ flag_attr "acl_group_enable" (ACLGroupEnabled q) ++ list_attr "acl_groups" (ACLGroups q)
  ++ flag_attr "acl_host_enable" (ACLHostEnabled q)
  ++ (if decide (ACLHosts q = []) then []
      else [("acl_hosts", Join "," (ACLHosts q))] ++ text_attr "naccesspolicy" (NaccessPolicy q)
           ++ list_attr "hostlist" (HostList q))
  ++ list_attr "route_destinations" (RouteDestin q)
  ++ flag_attr "from_route_only" (qAttrTrue (lookup_or "" "from_route_only" (Queue.Attrs q))).
Definition limit_attrs (q : Queue) : list (string * string) :=
  int_attr "max_queuable" (MaxJobs q) ++ int_attr "max_running" (MaxRun q)
  ++ (if Queue.Priority q =? 0 then [] else [("Priority", Itoa (Queue.Priority q))])
  ++ list_attr "disallowed_types" (DisallowedTypes q)
  ++ map_attrs "resources_min." (ResourceMin q) ++ map_attrs "resources_max." (ResourceMax q)
  ++ map_attrs "resources_default." (ResourceDflt q).

Definition queue_attrs (q : Queue) : list (string * string) :=
  head_attrs q ++ cloud_attrs q ++ access_attrs q ++ limit_attrs q.
Definition queue_text (q : Queue) : string := kv_file (queue_attrs q).

End queues.

(** ** Reading a queue *)

Definition extractXMLTag (content tag : string) : string :=
  match cut_str ("<" +:+ tag +:+ ">") content with
  | Some (_, rest) =>
    match cut_str ("</" +:+ tag +:+ ">") rest with
    | Some (v, _) => TrimSpace v
    | None => ""
    end
  | None => ""
  end.

Definition read_queue_key (key val : string) (q : Queue) : Queue :=
  switch key
    [(["queue_type"], if decide (val = "Route") then q <| Type_ := TypeRoute |> else q);
     (["enabled"], q <| Enabled := bool_decide (val = "True") |>);
     (["started"], q <| Started := bool_decide (val = "True") |>);
     (["cloud_provider"], q <| CloudProvider := ToLower val |>);
     (["cloud_vm_sku"], q <| CloudVMSKU := val |>);
     (["cloud_min_nodes"], q <| CloudMinNodes := Sscanf_d val (CloudMinNodes q) |>);
     (["cloud_max_nodes"], q <| CloudMaxNodes := Sscanf_d val (CloudMaxNodes q) |>);
     (["cloud_idle_time"], q <| CloudIdleTime := Sscanf_d val (CloudIdleTime q) |>);
     (["cloud_provision_timeout"],
        q <| CloudProvisionTimeout := Sscanf_d val (CloudProvisionTimeout q) |>);
     (["cloud_reclaim"], q <| CloudReclaim := ToLower val |>);
     (["cloud_subnet_id"], q <| CloudSubnetID := val |>);
     (["cloud_image_id"], q <| CloudImageID := val |>);
     (["cloud_disk_size"], q <| CloudDiskSize := Sscanf_d val (CloudDiskSize q) |>);
     (["cloud_disk_type"], q <| CloudDiskType := val |>);
     (["cloud_ssh_key"], q <| CloudSSHKey := val |>);
     (["cloud_location"], q <| CloudLocation := val |>);
     (["cloud_rg_name"], q <| CloudRgName := val |>);
     (["cloud_cooldown"], q <| CloudCooldown := Sscanf_d val (CloudCooldown q) |>);
     (["cloud_scale_headroom"], q <| CloudScaleHeadroom := Sscanf_d val (CloudScaleHeadroom q) |>);
     (["cloud_drain_timeout"], q <| CloudDrainTimeout := Sscanf_d val (CloudDrainTimeout q) |>);
     (["max_queuable"], q <| MaxJobs := Sscanf_d val (MaxJobs q) |>);
     (["max_running"], q <| MaxRun := Sscanf_d val (MaxRun q) |>);
     (["Priority"], q <| Queue.Priority := Sscanf_d val (Queue.Priority q) |>);
     (["disallowed_types"], q <| DisallowedTypes := ParseList val |>);
     (["max_user_queuable"], q <| MaxUserJobs := Sscanf_d val (MaxUserJobs q) |>);
     (["max_user_run"], q <| Queue.MaxUserRun := Sscanf_d val (Queue.MaxUserRun q) |>);
     (["acl_user_enable"], q <| ACLUserEnabled := bool_decide (val = "True") |>);
     (["acl_users"], q <| ACLUsers := ParseList val |>);
     (["acl_group_enable"], q <| ACLGroupEnabled := bool_decide (val = "True") |>);
     (["acl_groups"], q <| ACLGroups := ParseList val |>);
     (["acl_host_enable"], q <| ACLHostEnabled := bool_decide (val = "True") |>);
     (["acl_hosts"], q <| ACLHosts := ParseList val |>);
     (["naccesspolicy"], q <| NaccessPolicy := val |>);
     (["hostlist"], q <| HostList := ParseList val |>);
     (["route_destinations"], q <| RouteDestin := ParseList val |>);
     (["from_route_only"],
        q <| Queue.Attrs := <["from_route_only" := val]> (Queue.Attrs q) |>)]
    q.

Definition read_queue_attr (key val : string) (q : Queue) : Queue :=
  match strip_prefix "resources_min." key with
  | Some r => q <| ResourceMin := <[r := val]> (ResourceMin q) |>
  | None =>
  match strip_prefix "resources_max." key with
  | Some r => q <| ResourceMax := <[r := val]> (ResourceMax q) |>
  | None =>
  match strip_prefix "resources_default." key with
  | Some r => q <| ResourceDflt := <[r := val]> (ResourceDflt q) |>
  | None => read_queue_key key val q
  end end end.

Definition xml_true (v : string) : bool := bool_decide (v = "1") || bool_decide (v = "true").
Definition read_queue_xml (content : string) (q : Queue) : Queue :=
  let q := q <| Type_ := if decide (extractXMLTag content "queue_type" = "Execution")
                         then TypeExecution else TypeRoute |> in
  let q := if xml_true (extractXMLTag content "enabled") then q <| Enabled := true |> else q in
  if xml_true (extractXMLTag content "started") then q <| Started := true |> else q.

(** The body of the loop of [recoverQueues]. *)
Definition recover_queue (qname content : string) : Queue :=
  let q := NewQueue qname TypeExecution in
  if Contains content "<queue>" then read_queue_xml content q
  else read_kv read_queue_attr content q.

Definition recoverQueues `{MapRange} (files : gmap string string) (m : Queue.Manager) : Queue.Manager :=
  foldl (λ m qname, AddQueue (recover_queue qname (lookup_or "" qname files)) m) m (range files).

(** ** What a saved queue comes back as *)

Definition saved_head (q : Queue) : Queue :=
  (NewQueue (Queue.Name q) (if Type_ q =? TypeExecution then TypeExecution else TypeRoute))
    <| Enabled := Enabled q |> <| Started := Started q |>.
Definition saved_cloud (q s : Queue) : Queue :=
  s <| CloudProvider := ToLower (CloudProvider q) |> <| CloudVMSKU := CloudVMSKU q |>
    <| CloudMinNodes := Z.max 0 (CloudMinNodes q) |> <| CloudMaxNodes := Z.max 0 (CloudMaxNodes q) |>
    <| CloudIdleTime := Z.max 0 (CloudIdleTime q) |>
    <| CloudProvisionTimeout := Z.max 0 (CloudProvisionTimeout q) |>
    <| CloudReclaim := ToLower (CloudReclaim q) |> <| CloudSubnetID := CloudSubnetID q |>
    <| CloudImageID := CloudImageID q |> <| CloudDiskSize := Z.max 0 (CloudDiskSize q) |>
    <| CloudDiskType := CloudDiskType q |> <| CloudSSHKey := CloudSSHKey q |>
    <| CloudLocation := CloudLocation q |> <| CloudRgName := CloudRgName q |>
    <| CloudCooldown := Z.max 0 (CloudCooldown q) |>
    <| CloudScaleHeadroom := Z.max 0 (CloudScaleHeadroom q) |>
    <| CloudDrainTimeout := Z.max 0 (CloudDrainTimeout q) |>.
(** The node access policy and the host list are saved with the host list of the access
    control only. *)
Definition saved_access (q s : Queue) : Queue :=
  let hosts := bool_decide (ACLHosts q ≠ []) in
  s <| MaxUserJobs := Z.max 0 (MaxUserJobs q) |> <| Queue.MaxUserRun := Z.max 0 (Queue.MaxUserRun q) |>
    <| ACLUserEnabled := ACLUserEnabled q |> <| ACLUsers := ACLUsers q |>
    <| ACLGroupEnabled := ACLGroupEnabled q |> <| ACLGroups := ACLGroups q |>
    <| ACLHostEnabled := ACLHostEnabled q |> <| ACLHosts := ACLHosts q |>
    <| NaccessPolicy := if hosts then NaccessPolicy q else "" |>
    <| HostList := if hosts then HostList q else [] |>
    <| RouteDestin := RouteDestin q |>
    <| Queue.Attrs := if qAttrTrue (lookup_or "" "from_route_only" (Queue.Attrs q))
                      then {["from_route_only" := "True"]} else ∅ |>.
Definition saved_limits (q s : Queue) : Queue :=
  s <| MaxJobs := Z.max 0 (MaxJobs q) |> <| MaxRun := Z.max 0 (MaxRun q) |>
    <| Queue.Priority := Queue.Priority q |> <| DisallowedTypes := DisallowedTypes q |>
    <| ResourceMin := ResourceMin q |> <| ResourceMax := ResourceMax q |>
    <| ResourceDflt := ResourceDflt q |>.
Definition saved_queue (q : Queue) : Queue :=
  saved_limits q (saved_access q (saved_cloud q (saved_head q))).

(** ** Lemmas *)

Abbreviation read_attrs := (foldl (apply_kv read_queue_attr)).

Section read.
Context (key : string) (q : Queue).

Lemma read_q_text (proj : Queue → string) `{Setter Queue string proj} (g : string → string) v :
  (∀ v q, read_queue_attr key v q = q <| proj := g v |>) → g "" = "" →
  (∀ q, q <| proj := proj q |> = q) → proj q = "" →
  read_attrs q (text_attr key v) = q <| proj := g v |>.
Proof.
  intros Hr Hg He Hz. unfold text_attr. case_decide as Hv; simpl.
  - subst v. rewrite Hg, <- Hz. by rewrite He.
  - unfold apply_kv. cbn [fst snd]. apply Hr.
Qed.

Lemma read_q_int (proj : Queue → Z) `{Setter Queue Z proj} n :
  (∀ v q, read_queue_attr key v q = q <| proj := Sscanf_d v (proj q) |>) →
  (∀ q, q <| proj := proj q |> = q) → proj q = 0 → is_int64 n →
  read_attrs q (int_attr key n) = q <| proj := Z.max 0 n |>.
Proof.
  intros Hr He Hz Hi. unfold int_attr. destruct (0 <? n) eqn:E; bool_to_prop; simpl.
  - unfold apply_kv. cbn [fst snd]. rewrite Hr, Sscanf_d_Itoa by done. by rewrite Z.max_r by lia.
  - rewrite Z.max_l by lia. rewrite <- Hz. by rewrite He.
Qed.

Lemma read_q_flag (proj : Queue → bool) `{Setter Queue bool proj} b :
  (∀ v q, read_queue_attr key v q = q <| proj := bool_decide (v = "True") |>) →
  (∀ q, q <| proj := proj q |> = q) → proj q = false →
  read_attrs q (flag_attr key b) = q <| proj := b |>.
Proof.
  intros Hr He Hz. unfold flag_attr. destruct b; simpl.
  - unfold apply_kv. cbn [fst snd]. by rewrite Hr.
  - rewrite <- Hz. by rewrite He.
Qed.

Lemma read_q_list (proj : Queue → list string) `{Setter Queue (list string) proj} l :
  (∀ v q, read_queue_attr key v q = q <| proj := ParseList v |>) →
  (∀ q, q <| proj := proj q |> = q) → proj q = [] → NoDup l → Forall clean_item l →
  read_attrs q (list_attr key l) = q <| proj := l |>.
Proof.
  intros Hr He Hz Hn Hc. unfold list_attr. case_decide as Hl; simpl.
  - subst l. rewrite <- Hz. by rewrite He.
  - unfold apply_kv. cbn [fst snd]. by rewrite Hr, ParseList_Join.
Qed.

Lemma read_q_map `{MapRange} (proj : Queue → gmap string string) `{Setter Queue (gmap string string) proj} m :
  (∀ r v q, read_queue_attr (key +:+ r) v q = q <| proj := <[r := v]> (proj q) |>) →
  (∀ q, q <| proj := proj q |> = q) → (∀ q x y, q <| proj := x |> <| proj := y |> = q <| proj := y |>) →
  (∀ q x, proj (q <| proj := x |>) = x) → proj q = ∅ →
  read_attrs q (map_attrs key m) = q <| proj := m |>.
Proof.
  intros Hr He Hss Hsp Hz. unfold map_attrs.
  transitivity (q <| proj := foldl (λ r k, <[k := lookup_or "" k m]> r) (proj q) (range m) |>).
  - clear Hz. generalize (range m). intros ks. generalize q. induction ks as [|k ks IH]; intros q'; [cbn [foldl fmap list_fmap]; by rewrite He|].
    cbn [fmap list_fmap foldl]. unfold apply_kv at 2. cbn [fst snd]. by rewrite Hr, IH, Hss, Hsp.
  - rewrite Hz, foldl_insert_keys; [done|]. pose proof (range_order m) as Ho. unfold map_order in Ho. done.
Qed.

End read.

(** The queues the text can hold. *)
Record savable_queue (q : Queue) : Prop := {
  sq_ints : Forall is_int64 [CloudMinNodes q; CloudMaxNodes q; CloudIdleTime q; CloudProvisionTimeout q;
    CloudDiskSize q; CloudCooldown q; CloudScaleHeadroom q; CloudDrainTimeout q; MaxUserJobs q;
    Queue.MaxUserRun q; MaxJobs q; MaxRun q; Queue.Priority q];
  sq_texts : Forall clean_text [CloudProvider q; CloudVMSKU q; CloudReclaim q; CloudSubnetID q;
    CloudImageID q; CloudDiskType q; CloudSSHKey q; CloudLocation q; CloudRgName q; NaccessPolicy q];
  sq_lists : Forall (λ l, NoDup l ∧ Forall clean_item l) [ACLUsers q; ACLGroups q; ACLHosts q; HostList q;
    RouteDestin q; DisallowedTypes q];
  sq_maps : Forall (map_Forall (λ k v, clean_key k ∧ clean_text v))
    [ResourceMin q; ResourceMax q; ResourceDflt q];
}.

Ltac split_Forall H :=
  repeat (let Hh := fresh "Hh" in apply Forall_cons in H as [Hh H]).
Ltac read_text k p := rewrite (read_q_text k _ p id) by first [reflexivity | assumption | intros []; reflexivity].
Ltac read_lower k p := rewrite (read_q_text k _ p ToLower) by first [reflexivity | assumption | intros []; reflexivity].
Ltac read_int k p := rewrite (read_q_int k _ p) by first [reflexivity | assumption | intros []; reflexivity].
Ltac read_flag k p := rewrite (read_q_flag k _ p) by first [reflexivity | assumption | intros []; reflexivity].
Ltac read_list k p := rewrite (read_q_list k _ p) by first [reflexivity | assumption | intros []; reflexivity].
Ltac read_map k p := rewrite (read_q_map k _ p) by first [reflexivity | assumption | intros []; reflexivity].

Lemma read_head q :
  read_attrs (NewQueue (Queue.Name q) TypeExecution) (head_attrs q) = saved_head q.
Proof.
  unfold head_attrs, saved_head. destruct (Type_ q =? TypeExecution), (Enabled q), (Started q); reflexivity.
Qed.

Lemma read_cloud q :
  savable_queue q → read_attrs (saved_head q) (cloud_attrs q) = saved_cloud q (saved_head q).
Proof.
  intros [Hi _ _ _]. split_Forall Hi. unfold cloud_attrs. rewrite !foldl_app.
  read_lower "cloud_provider" CloudProvider. read_text "cloud_vm_sku" CloudVMSKU.
  read_int "cloud_min_nodes" CloudMinNodes. read_int "cloud_max_nodes" CloudMaxNodes.
  read_int "cloud_idle_time" CloudIdleTime. read_int "cloud_provision_timeout" CloudProvisionTimeout.
  read_lower "cloud_reclaim" CloudReclaim. read_text "cloud_subnet_id" CloudSubnetID.
  read_text "cloud_image_id" CloudImageID. read_int "cloud_disk_size" CloudDiskSize.
  read_text "cloud_disk_type" CloudDiskType. read_text "cloud_ssh_key" CloudSSHKey.
  read_text "cloud_location" CloudLocation. read_text "cloud_rg_name" CloudRgName.
  read_int "cloud_cooldown" CloudCooldown. read_int "cloud_scale_headroom" CloudScaleHeadroom.
  read_int "cloud_drain_timeout" CloudDrainTimeout. reflexivity.
Qed.

(** The block that is written under the host list. *)
Definition host_attrs (q : Queue) : list (string * string) :=
  if decide (ACLHosts q = []) then []
  else [("acl_hosts", Join "," (ACLHosts q))] ++ text_attr "naccesspolicy" (NaccessPolicy q)
       ++ list_attr "hostlist" (HostList q).
Definition saved_hosts (q s : Queue) : Queue :=
  s <| ACLHosts := ACLHosts q |>
    <| NaccessPolicy := if bool_decide (ACLHosts q ≠ []) then NaccessPolicy q else "" |>
    <| HostList := if bool_decide (ACLHosts q ≠ []) then HostList q else [] |>.

Lemma read_hosts q s :
  savable_queue q → ACLHosts s = [] → NaccessPolicy s = "" → HostList s = [] →
  read_attrs s (host_attrs q) = saved_hosts q s.
Proof.
  intros [_ _ Hl _] H1 H2 H3. split_Forall Hl. unfold host_attrs, saved_hosts.
  destruct (decide (ACLHosts q = [])) as [E|E].
  - rewrite bool_decide_false by (intros Hn; by apply Hn). rewrite E. destruct s; simpl in *; by subst.
  - rewrite bool_decide_true by done. rewrite !foldl_app.
    change (read_attrs s [("acl_hosts", Join "," (ACLHosts q))])
      with (s <| ACLHosts := ParseList (Join "," (ACLHosts q)) |>).
    rewrite ParseList_Join by intuition. destruct_and!.
    read_text "naccesspolicy" NaccessPolicy. read_list "hostlist" HostList. reflexivity.
Qed.

Lemma read_from_route s b :
  Queue.Attrs s = ∅ →
  read_attrs s (flag_attr "from_route_only" b)
  = s <| Queue.Attrs := if b then {["from_route_only" := "True"]} else ∅ |>.
Proof.
  intros Hz. destruct b; [|destruct s; simpl in *; by subst].
  transitivity (s <| Queue.Attrs := <["from_route_only" := "True"]> (Queue.Attrs s) |>); [reflexivity|].
  by rewrite Hz.
Qed.

Lemma read_access q :
  savable_queue q →
  read_attrs (saved_cloud q (saved_head q)) (access_attrs q)
  = saved_access q (saved_cloud q (saved_head q)).
Proof.
  intros Hq. pose proof Hq as [Hi _ Hl _]. split_Forall Hi. split_Forall Hl. destruct_and!.
  unfold access_attrs. fold (host_attrs q). rewrite !foldl_app.
  read_int "max_user_queuable" MaxUserJobs. read_int "max_user_run" Queue.MaxUserRun.
  read_flag "acl_user_enable" ACLUserEnabled. read_list "acl_users" ACLUsers.
  read_flag "acl_group_enable" ACLGroupEnabled. read_list "acl_groups" ACLGroups.
  read_flag "acl_host_enable" ACLHostEnabled.
  rewrite read_hosts by first [assumption | reflexivity].
  read_list "route_destinations" RouteDestin. rewrite read_from_route by reflexivity. reflexivity.
Qed.

Lemma read_priority s n :
  is_int64 n → Queue.Priority s = 0 →
  read_attrs s (if n =? 0 then [] else [("Priority", Itoa n)]) = s <| Queue.Priority := n |>.
Proof.
  intros Hi Hz. destruct (n =? 0) eqn:E; bool_to_prop; [subst; destruct s; simpl in *; by subst|].
  transitivity (s <| Queue.Priority := Sscanf_d (Itoa n) (Queue.Priority s) |>); [reflexivity|].
  by rewrite Sscanf_d_Itoa.
Qed.

Lemma read_limits `{MapRange} q :
  savable_queue q →
  read_attrs (saved_access q (saved_cloud q (saved_head q))) (limit_attrs q) = saved_queue q.
Proof.
  intros Hq. pose proof Hq as [Hi _ Hl _]. split_Forall Hi. split_Forall Hl. destruct_and!.
  unfold limit_attrs. rewrite !foldl_app.
  read_int "max_queuable" MaxJobs. read_int "max_running" MaxRun.
  rewrite read_priority by first [assumption | reflexivity].
  read_list "disallowed_types" DisallowedTypes. read_map "resources_min." ResourceMin.
  read_map "resources_max." ResourceMax. read_map "resources_default." ResourceDflt. reflexivity.
Qed.

(** The attributes written are ones the reader reads back. *)
Lemma int_attr_clean key n : clean_key key → key ≠ "" → Forall clean_kv (int_attr key n).
Proof.
  intros Hk Hn. unfold int_attr. destruct (0 <? n); [|done].
  apply Forall_singleton. split_and!; [done|done|apply Itoa_clean].
Qed.

Lemma flag_attr_clean key b : clean_key key → key ≠ "" → Forall clean_kv (flag_attr key b).
Proof. intros Hk Hn. destruct b; [|done]. apply Forall_singleton. split_and!; [done|done|clean_key]. Qed.

Lemma no_space_Join l : Forall clean_item l → no_space (Join "," l) = true.
Proof.
  induction 1 as [|x l (_ & Hx & _) _ IH]; [done|]. destruct l as [|y l]; [done|].
  change (Join "," (x :: y :: l)) with (x +:+ "," +:+ Join "," (y :: l)).
  unfold no_space in *. rewrite !all_bytes_app. by rewrite Hx, IH.
Qed.

Lemma list_attr_clean key l :
  clean_key key → key ≠ "" → Forall clean_item l → Forall clean_kv (list_attr key l).
Proof.
  intros Hk Hn Hl. unfold list_attr. case_decide; [done|].
  apply Forall_singleton. split_and!; [done|done|]. by apply no_space_clean, no_space_Join.
Qed.

Lemma map_attrs_clean `{MapRange} prefix m :
  clean_key prefix → prefix ≠ "" →
  map_Forall (λ k v, clean_key k ∧ clean_text v) m → Forall clean_kv (map_attrs prefix m).
Proof.
  intros [Hp1 Hp2] Hn Hm. apply Forall_fmap, Forall_forall. intros k Hk.
  apply (map_order_elem _ _ _ (range_order m)) in Hk as [v Hv]. destruct (Hm k v Hv) as [[H1 H2] Hc].
  unfold compose, lookup_or. rewrite Hv. split_and!; cbn [fst snd]; [by destruct prefix| |done]. split.
  - unfold no_space in *. by rewrite all_bytes_app, Hp1, H1.
  - by rewrite has_byte_app, Hp2, H2.
Qed.

Create HintDb persist.
#[export] Hint Resolve int_attr_clean flag_attr_clean text_attr_clean list_attr_clean map_attrs_clean : persist.
#[export] Hint Extern 0 (clean_key _) => clean_key : persist.
#[export] Hint Extern 0 (_ ≠ "") => discriminate : persist.

Ltac attrs_clean := repeat apply Forall_app_2; eauto with persist.

Lemma host_attrs_clean q : savable_queue q → Forall clean_kv (host_attrs q).
Proof.
  intros [_ Ht Hl _]. split_Forall Ht. split_Forall Hl. destruct_and!. unfold host_attrs.
  case_decide; [done|]. attrs_clean.
  apply Forall_singleton. split_and!; [done|clean_key|]. by apply no_space_clean, no_space_Join.
Qed.

Lemma queue_attrs_clean `{MapRange} q : savable_queue q → Forall clean_kv (queue_attrs q).
Proof.
  intros Hq. pose proof (host_attrs_clean q Hq) as Hh. destruct Hq as [Hi Ht Hl Hm].
  split_Forall Ht. split_Forall Hl. split_Forall Hm. destruct_and!.
  unfold queue_attrs. apply Forall_app_2; [|apply Forall_app_2; [|apply Forall_app_2]].
  - unfold head_attrs. repeat (apply Forall_cons_2; [split_and!; [discriminate|clean_key|]|]); [..|constructor].
    + by destruct (Type_ q =? TypeExecution).
    + by destruct (Enabled q).
    + by destruct (Started q).
  - unfold cloud_attrs. attrs_clean.
  - unfold access_attrs. fold (host_attrs q). attrs_clean.
  - unfold limit_attrs. attrs_clean. destruct (Queue.Priority q =? 0); [constructor|].
    apply Forall_singleton. split_and!; [discriminate|clean_key|apply Itoa_clean].
Qed.

Lemma recover_queue_text `{MapRange} q :
  savable_queue q → Contains (queue_text q) "<queue>" = false →
  recover_queue (Queue.Name q) (queue_text q) = saved_queue q.
Proof.
  intros Hq Hx. unfold recover_queue. rewrite Hx. unfold queue_text.
  rewrite read_kv_file by by apply queue_attrs_clean.
  change (λ x kv, read_queue_attr kv.1 kv.2 x) with (apply_kv read_queue_attr).
  unfold queue_attrs. rewrite !foldl_app, read_head, read_cloud, read_access, read_limits by exact Hq.
  reflexivity.
Qed.

(** ** Theorems on queues *)

(** Saving the queues and restarting gives back the queues: the server's table after
    [recoverQueues] holds, for every queue that was saved, the saved part of that queue,
    and nothing else.  The saved part has the type, the flags, the limits, the access
    lists, the destinations, the resource limits and the cloud attributes; texts have no
    line breaks, lists are as [ParseList] leaves them. *)
Theorem recoverQueues_saved `{MapRange} (m : gmap string Queue) :
  map_Forall (λ n q, Queue.Name q = n ∧ savable_queue q ∧
                     Contains (queue_text q) "<queue>" = false) m →
  recoverQueues (queue_text <$> m) Queue.NewManager = saved_queue <$> m.
Proof.
  intros Hm. unfold recoverQueues.
  assert (∀ ks (acc : gmap string Queue) n, (∀ k, k ∈ ks → is_Some (m !! k)) →
    foldl (λ m' qname, AddQueue (recover_queue qname (lookup_or "" qname (queue_text <$> m))) m') acc ks !! n
    = if decide (n ∈ ks) then saved_queue <$> m !! n else acc !! n) as Hf.
  { induction ks as [|k ks IH]; intros acc n Hks; simpl; [done|].
    rewrite IH by (intros k' ?; apply Hks; by right).
    destruct (Hks k) as [q Hq]; [by left|]. destruct (Hm k q Hq) as (Hn & Hs & Hx).
    assert (lookup_or "" k (queue_text <$> m) = queue_text q) as ->.
    { unfold lookup_or. assert ((queue_text <$> m) !! k = Some (queue_text q)) as E
        by (apply lookup_fmap_Some; eauto). by rewrite E. }
    pose proof (recover_queue_text q Hs Hx) as Hr. rewrite Hn in Hr. rewrite Hr. unfold AddQueue, Queue.Manager in *.
    change (Queue.Name (saved_queue q)) with (Queue.Name q). rewrite Hn.
    destruct (decide (n ∈ ks)) as [Hin|Hni]; [rewrite decide_True; [done|by right]|].
    destruct (decide (n = k)) as [->|Hne].
    - rewrite lookup_insert_eq, decide_True by by left. by rewrite Hq.
    - rewrite lookup_insert_ne by done. rewrite decide_False; [done|].
      intros [?|?]%elem_of_cons; by subst. }
  apply map_eq. intros n.
  pose proof (map_order_elem _ _ n (range_order (queue_text <$> m))) as He.
  rewrite lookup_fmap, fmap_is_Some in He.
  rewrite Hf.
  - rewrite lookup_fmap. case_decide as Hin; [done|].
    destruct (m !! n) as [q|] eqn:E; [|done]. destruct Hin. apply He. by eexists.
  - intros k Hk. apply (map_order_elem _ _ k (range_order (queue_text <$> m))) in Hk.
    by rewrite lookup_fmap, fmap_is_Some in Hk.
Qed.

Definition sample_queue : Queue :=
  (NewQueue "cloud" TypeRoute) <| Started := false |> <| ACLUsers := ["ann"; "bob"] |>
    <| ACLUserEnabled := true |> <| MaxRun := 4 |> <| Queue.Priority := -3 |> <| CloudProvider := "azure" |>
    <| CloudMaxNodes := 10 |> <| RouteDestin := ["batch"] |> <| HostList := ["n1"] |>
    <| ResourceMax := {["walltime" := "24:00:00"]} |>.

Lemma sample_queue_savable : savable_queue sample_queue.
Proof.
  split; [by_decide|by_decide|by_decide|].
  change (ResourceMin sample_queue) with (∅ : gmap string string).
  change (ResourceDflt sample_queue) with (∅ : gmap string string).
  change (ResourceMax sample_queue) with ({["walltime" := "24:00:00"]} : gmap string string).
  repeat apply Forall_cons_2; [apply map_Forall_empty| |apply map_Forall_empty|constructor].
  intros k v [<- <-]%lookup_singleton_Some. by_decide.
Qed.

Lemma recoverQueues_saved_witness :
  recoverQueues (queue_text <$> ({["cloud" := sample_queue]} : gmap string Queue)) Queue.NewManager
  = saved_queue <$> ({["cloud" := sample_queue]} : gmap string Queue).
Proof.
  apply recoverQueues_saved. intros n q [<- <-]%lookup_singleton_Some.
  split; [reflexivity|]. split; [apply sample_queue_savable|by vm_compute].
Defined.

(** The node access policy and the host list of a queue without an access list of hosts
    are not saved: a restart removes the restriction. *)
Theorem host_list_lost `{MapRange} q :
  savable_queue q → Contains (queue_text q) "<queue>" = false → ACLHosts q = [] →
  let q' := recover_queue (Queue.Name q) (queue_text q) in
  HostList q' = [] ∧ NaccessPolicy q' = "".
Proof.
  intros Hs Hx Ha q'. unfold q'. rewrite recover_queue_text by done.
  change (HostList (saved_queue q)) with (if bool_decide (ACLHosts q ≠ []) then HostList q else []).
  change (NaccessPolicy (saved_queue q)) with (if bool_decide (ACLHosts q ≠ []) then NaccessPolicy q else "").
  rewrite bool_decide_false by (intros Hn; by apply Hn). done.
Qed.

Lemma host_list_lost_witness :
  let q' := recover_queue "cloud" (queue_text sample_queue) in HostList q' = [] ∧ NaccessPolicy q' = "".
Proof. apply (host_list_lost sample_queue); [apply sample_queue_savable|by vm_compute|reflexivity]. Defined.

(** A queue of the C server that is neither enabled nor started is both after it has been
    read: the reader only sets the flags that [NewQueue] has set already. *)
Example xml_queue_enabled :
  let q := recover_queue "old" "<queue><queue_type>Execution</queue_type><enabled>0</enabled><started>0</started></queue>" in
  Enabled q = true ∧ Started q = true.
Proof. by vm_compute. Qed.
