(* ===== verification/ServerState.v ===== *)
(** * The server's state and the helpers of its handlers: internal/server/server.go

    The server owns the three managers and the store.  A handler is a function from the
    server's state and the decoded request to the new state and its reply; what it reads
    from outside (the clock, the order a map is ranged in, the host name) is in [Env].
    What it sends elsewhere (accounting records, wake-ups of the scheduler, requests to a
    compute node) is appended to the trace [events].

    A [*Job] a handler holds is the entry of the job table under the job's id: a job is
    only ever stored under its id and its id never changes, so [upd_job] is an assignment
    through the pointer.  The same holds for nodes and queues and their names. *)

From S2P Require Import Prelude GoStd PersistConf Dis DisMessage Job JobManager Node Queue Route.
From S2P Require Import ServerConfig.
Export ServerConfig.
Import Proto.

Local Open Scope string_scope.
Local Open Scope list_scope.
Local Open Scope Z_scope.

(** ** State *)

Inductive event :=
  | RecordQueued (jobID : string)
  | RecordStarted (jobID : string)
  | RecordEnded (jobID : string)
  | RecordAborted (jobID : string)
  | RecordDeleted (jobID : string)
  | SchedNotified
  | DeleteToMOM (jobID nodeName : string) (port : Z)
  | DispatchToMOM (jobID nodeName : string)
  | RemoveQueueFile (name : string).   (* os.Remove in QueuesDir *)

#[export] Instance event_eq_dec : EqDecision event.
Proof. solve_decision. Defined.

(** The [st_] fields are what was last handed to the store under each name: the text of a
    queue, the job or node list whose text the call of the store got ([serializeJob] and
    [nodes_text] of the Persist files), the script, and the settings with the next job number
    ([db_text]).  The texts need not hold all of the objects; what the store makes of a call,
    which may fail without the server's noticing, is the matter of [Store] and [PgStore]. *)
Record Server := mkServer {
  cfg : Config;
  jobMgr : JobManager.Manager;
  nodeMgr : Node.Manager;
  queueMgr : Queue.Manager;
  authMap : gmap string string;
  authKey : option string;
  haEnabled : bool;
  haActive : bool;
  acctLog : bool;              (* acctLog != nil *)
  st_jobs : gmap string Job;
  st_scripts : gmap string string;
  st_queues : gmap string string;
  st_nodes : gmap string Node;
  st_server : option (Config * Z);
  events : list event;
}.
#[export] Instance eta_Server : Eta Server := λ s,
  mkServer (cfg s) (jobMgr s) (nodeMgr s) (queueMgr s) (authMap s) (authKey s) (haEnabled s)
    (haActive s) (acctLog s) (st_jobs s) (st_scripts s) (st_queues s) (st_nodes s) (st_server s) (events s).

Record Env := mkEnv {
  now : Time;
  job_order : list string;     (* the order the job table is ranged in *)
  node_order : list string;    (* the order the node table is ranged in *)
  queue_order : list string;   (* the order the queue table is ranged in *)
  hostname : string;
}.

(** A handler's result: the state, the reply and whether to keep the connection. *)
Definition Handled : Type := Server * Reply * bool.

Definition the_jobs (s : Server) : gmap string Job := jobs (jobMgr s).
Definition the_nodes (s : Server) : gmap string Node := nodes (nodeMgr s).

Definition get_job (env : Env) (id : string) (s : Server) : option Job :=
  GetJob (job_order env) id (jobMgr s).
Definition get_node (name : string) (s : Server) : option Node := GetNode name (nodeMgr s).

Definition upd_mgr (f : JobManager.Manager → JobManager.Manager) (s : Server) : Server :=
  s <| jobMgr := f (jobMgr s) |>.
Definition upd_job (j : Job) (s : Server) : Server :=
  upd_mgr (λ m, m <| jobs := <[Job.ID j := j]> (jobs m) |>) s.
Definition upd_node (name : string) (f : Node → Node) (s : Server) : Server :=
  s <| nodeMgr := (nodeMgr s) <| nodes := alter f name (nodes (nodeMgr s)) |> |>.
(** [if q := s.queueMgr.GetQueue(name); q != nil { ... }] *)
Definition upd_queue (name : string) (f : Queue → Queue) (s : Server) : Server :=
  s <| queueMgr := alter f name (queueMgr s) |>.
Definition emit (e : event) (s : Server) : Server := s <| events := events s ++ [e] |>.

Definition saveJob (j : Job) (s : Server) : Server :=
  s <| st_jobs := <[Job.ID j := j]> (st_jobs s) |>.
Definition saveQueue (q : Queue) (s : Server) : Server :=
  s <| st_queues := <[Queue.Name q := queue_text q]> (st_queues s) |>.
Definition saveNodes (s : Server) : Server := s <| st_nodes := the_nodes s |>.
Definition SaveJobScript (id script : string) (s : Server) : Server :=
  s <| st_scripts := <[id := script]> (st_scripts s) |>.
(** [os.Remove] of the script file *)
Definition remove_script (id : string) (s : Server) : Server :=
  s <| st_scripts := delete id (st_scripts s) |>.
Definition removeJobFiles (id : string) (s : Server) : Server :=
  s <| st_jobs := delete id (st_jobs s) |> <| st_scripts := delete id (st_scripts s) |>.

Definition record (e : event) (s : Server) : Server := if acctLog s then emit e s else s.

Definition triggerSched (s : Server) : Server :=
  if haEnabled s && negb (haActive s) then s
  else if EventDriven (cfg s) && (0 <? SchedTriggerPort (cfg s)) then emit SchedNotified s
  else s.

(** ** Resource requests *)

(** [parseNodeSelectSpec]: nodes and processors per node. *)
Definition select_ppn (ppn : Z) (kv : string) : Z :=
  match strip_prefix "ppn=" (TrimSpace kv) with
  | Some v => match atoi_ok (TrimSpace v) with
              | Some m => if 0 <? m then m else ppn
              | None => ppn
              end
  | None => ppn
  end.
Definition parseNodeSelectSpec (spec : string) : Z * Z :=
  let spec := TrimSpace spec in
  if decide (spec = "") then (1, 1)
  else
    let first := split_hd "+" spec in
    let parts := Split ":" first in
    let nodes := match atoi_ok (TrimSpace (hd "" parts)) with
                 | Some n => if 0 <? n then n else 1
                 | None => 1
                 end in
    (nodes, foldl select_ppn 1 (tl parts)).

Definition jobRequestedCPUs (j : Job) : Z :=
  let spec := lookup_or "" "nodes" (Job.ResourceReq j) in
  let ppn := (parseNodeSelectSpec spec).2 in
  if negb (bool_decide (spec = "")) && (0 <? ppn) then ppn
  else match Job.ResourceReq j !! "ncpus" with
       | Some v => match atoi_ok v with
                   | Some n => if 0 <? n then n else 1
                   | None => 1
                   end
       | None => 1
       end.

Definition jobNodeRequest (j : Job) : Z * Z :=
  let spec := lookup_or "" "nodes" (Job.ResourceReq j) in
  let spec := if decide (spec = "") then lookup_or "" "select" (Job.ResourceReq j) else spec in
  if decide (spec = "") then (1, jobRequestedCPUs j) else parseNodeSelectSpec spec.

(** ** Limits *)

Inductive submit_error := NotInACL | ExceedsMaxQueuable.

Definition enforceSubmitLimits (user : string) (s : Server) : option submit_error :=
  first_error
    [when (ACLUserEnable (cfg s) && negb (bool_decide (cfg_ACLUsers (cfg s) = "")) &&
           negb (aclContains (cfg_ACLUsers (cfg s)) (extractUser user))) NotInACL;
     when ((0 <? MaxUserQueuable (cfg s)) &&
           (MaxUserQueuable (cfg s) <=? CountJobsByOwner user (jobMgr s))) ExceedsMaxQueuable].

Definition enforceRunLimits (j : Job) (s : Server) : bool :=
  if (0 <? MaxRunning (cfg s)) && (MaxRunning (cfg s) <=? CountByState StateRunning (jobMgr s))
  then false
  else if (0 <? cfg_MaxUserRun (cfg s))
          && (cfg_MaxUserRun (cfg s) <=? CountRunningByOwner (Job.Owner j) (jobMgr s))
  then false
  else if (0 <? MaxGroupRun (cfg s)) && negb (bool_decide (Job.EGroup j = ""))
          && (MaxGroupRun (cfg s) <=? CountRunningByGroup (Job.EGroup j) (jobMgr s))
  then false
  else true.

(** ** Attributes *)

Definition parse_bool_attr (v : string) : bool := bool_decide (v ∈ ["True"; "true"; "1"]).

Definition add_variable (vars : gmap string string) (pair : string) : gmap string string :=
  match cut "=" pair with
  | Some (k, v) => if decide (k = "") then vars else <[k := v]> vars
  | None => vars
  end.

Definition applyJobAttr (t : Time) (j : Job) (a : SvrAttrl) : Job :=
  let v := Value a in
  switch (DisMessage.Name a)
    [(["Job_Name"], j <| Job.Name := v |>);
     (["Job_Owner"], j <| Job.Owner := v |>);
     (["queue"], j <| Job.Queue := v |>);
     (["Output_Path"], j <| Job.StdoutPath := v |>);
     (["Error_Path"], j <| Job.StderrPath := v |>);
     (["Join_Path"], j <| Job.JoinPath := v |>);
     (["Keep_Files"], j <| Job.KeepFiles := v |>);
     (["Checkpoint"], j <| Job.Checkpoint := v |>);
     (["Shell_Path_List"], j <| Job.Shell := v |>);
     (["Account_Name"], j <| Job.Account := v |>);
     (["Mail_Points"], j <| Job.MailPoints := v |>);
     (["Mail_Users"], j <| Job.MailUsers := v |>);
     (["Priority"], j <| Job.Priority := Sscanf_d v (Job.Priority j) |>);
     (["Rerunable"], j <| Job.Rerunnable := v |>);
     (["Hold_Types"],
       let j := j <| Job.HoldTypes := v |> in
       if decide (v = "" ∨ v = "n") then j else Job.SetState t StateHeld SubstateHeld j);
     (["Execution_Time"],
       match ParseInt v with
       | (ts, None) =>
         let j := j <| Job.ExecutionTime := time_Unix ts |> in
         if After (Job.ExecutionTime j) t then Job.SetState t StateWaiting SubstateWaiting j else j
       | (_, Some _) => j
       end);
     (["User_List"], j <| Job.UserList := v |>);
     (["depend"], j <| Job.DependList := v |>);
     (["stagein"], j <| Job.StageinList := v |>);
     (["stageout"], j <| Job.StageoutList := v |>);
     (["group_list"], j <| Job.GroupList := v |>);
     (["job_array_request"], j <| Job.JobArrayReq := v |>);
     (["init_work_dir"], j <| Job.InitWorkDir := v |>);
     (["init_root_dir"], j <| Job.RootDir := v |>);
     (["comment"], j <| Job.Comment := v |>);
     (["euser"], j <| Job.EUser := v |>);
     (["egroup"], j <| Job.EGroup := v |>);
     (["exec_host"], j <| Job.ExecHost := v |>);
     (["exec_port"], j <| Job.ExecPort := Sscanf_d v (Job.ExecPort j) |>);
     (["hashname"], j <| Job.HashName := v |>);
     (["fault_tolerant"], j <| Job.FaultTolerant := v |>);
     (["job_radix"], j <| Job.JobRadix := v |>);
     (["request_version"], j <| Job.ReqVersion := v |>);
     (["start_time"],
       match ParseInt v with
       | (ts, None) => j <| Job.StartTime := time_Unix ts |>
       | (_, Some _) => j
       end);
     (["Resource_List"],
       if HasResc a then j <| Job.ResourceReq := <[Resc a := v]> (Job.ResourceReq j) |> else j);
     (["resources_used"],
       if HasResc a then j <| Job.ResourceUsed := <[Resc a := v]> (Job.ResourceUsed j) |> else j);
     (["Variable_List"],
       j <| Job.VariableList := foldl add_variable (Job.VariableList j) (Split "," v) |>);
     (["server"], j <| Job.Server := v |>)]
    (j <| Job.Attrs := <[DisMessage.Name a := v]> (Job.Attrs j) |>).

Definition applyJobAttrs (t : Time) (attrs : list SvrAttrl) (j : Job) : Job :=
  let j := foldl (applyJobAttr t) j attrs in
  let j :=
    if decide (Job.EUser j = "") then
      match cut "@" (Job.Owner j) with
      | Some (u, _) => if decide (u = "") then j else j <| Job.EUser := u |>
      | None => j
      end
    else j in
  if decide (Job.HashName j = "") then j <| Job.HashName := Job.ID j |> else j.

(** The lists of a queue that [qmgr] sends one value at a time. *)
Record queue_lists := mkLists {
  l_aclUsers : option (list string);
  l_aclGroups : option (list string);
  l_aclHosts : option (list string);
  l_routeDest : option (list string);
  l_disallowed : option (list string);
  l_hostList : option (list string);
}.
#[export] Instance eta_queue_lists : Eta queue_lists := λ l,
  mkLists (l_aclUsers l) (l_aclGroups l) (l_aclHosts l) (l_routeDest l) (l_disallowed l)
    (l_hostList l).

(** [if !has { list = nil; has = true }; list = append(list, ParseList(v)...)] *)
Definition accumulate (o : option (list string)) (v : string) : option (list string) :=
  Some (default [] o ++ ParseList v).

Definition applyQueueAttr (ql : Queue * queue_lists) (a : SvrAttrl) : Queue * queue_lists :=
  let '(q, l) := ql in
  let v := Value a in
  switch (DisMessage.Name a)
    [(["queue_type"],
       (q <| Queue.Type_ := if EqualFold v "Execution" || EqualFold v "execution"
                               || bool_decide (v = "e")
                            then TypeExecution else TypeRoute |>, l));
     (["enabled"], (q <| Queue.Enabled := parse_bool_attr v |>, l));
     (["started"], (q <| Queue.Started := parse_bool_attr v |>, l));
     (["Priority"], (q <| Queue.Priority := Sscanf_d v (Queue.Priority q) |>, l));
     (["disallowed_types"], (q, l <| l_disallowed := accumulate (l_disallowed l) v |>));
     (["max_queuable"], (q <| Queue.MaxJobs := Sscanf_d v (Queue.MaxJobs q) |>, l));
     (["max_running"], (q <| Queue.MaxRun := Sscanf_d v (Queue.MaxRun q) |>, l));
     (["resources_max"],
       (if HasResc a then q <| Queue.ResourceMax := <[Resc a := v]> (Queue.ResourceMax q) |> else q, l));
     (["resources_min"],
       (if HasResc a then q <| Queue.ResourceMin := <[Resc a := v]> (Queue.ResourceMin q) |> else q, l));
     (["resources_default"],
       (if HasResc a then q <| Queue.ResourceDflt := <[Resc a := v]> (Queue.ResourceDflt q) |> else q, l));
     (["cloud_provider"], (q <| Queue.CloudProvider := ToLower v |>, l));
     (["cloud_vm_sku"], (q <| Queue.CloudVMSKU := v |>, l));
     (["cloud_min_nodes"], (q <| Queue.CloudMinNodes := Sscanf_d v (Queue.CloudMinNodes q) |>, l));
     (["cloud_max_nodes"], (q <| Queue.CloudMaxNodes := Sscanf_d v (Queue.CloudMaxNodes q) |>, l));
     (["cloud_idle_time"], (q <| Queue.CloudIdleTime := Sscanf_d v (Queue.CloudIdleTime q) |>, l));
     (["cloud_provision_timeout"],
       (q <| Queue.CloudProvisionTimeout := Sscanf_d v (Queue.CloudProvisionTimeout q) |>, l));
     (["cloud_reclaim"], (q <| Queue.CloudReclaim := ToLower v |>, l));
     (["cloud_subnet_id"], (q <| Queue.CloudSubnetID := v |>, l));
     (["cloud_image_id"], (q <| Queue.CloudImageID := v |>, l));
     (["cloud_disk_size"], (q <| Queue.CloudDiskSize := Sscanf_d v (Queue.CloudDiskSize q) |>, l));
     (["cloud_disk_type"], (q <| Queue.CloudDiskType := v |>, l));
     (["cloud_ssh_key"], (q <| Queue.CloudSSHKey := v |>, l));
     (["cloud_location"], (q <| Queue.CloudLocation := v |>, l));
     (["cloud_rg_name"], (q <| Queue.CloudRgName := v |>, l));
     (["cloud_cooldown"], (q <| Queue.CloudCooldown := Sscanf_d v (Queue.CloudCooldown q) |>, l));
     (["cloud_scale_headroom"],
       (q <| Queue.CloudScaleHeadroom := Sscanf_d v (Queue.CloudScaleHeadroom q) |>, l));
     (["cloud_drain_timeout"],
       (q <| Queue.CloudDrainTimeout := Sscanf_d v (Queue.CloudDrainTimeout q) |>, l));
     (["max_user_queuable"], (q <| Queue.MaxUserJobs := Sscanf_d v (Queue.MaxUserJobs q) |>, l));
     (["max_user_run"], (q <| Queue.MaxUserRun := Sscanf_d v (Queue.MaxUserRun q) |>, l));
     (["acl_user_enable"; "acl_user_enabled"],
       (q <| Queue.ACLUserEnabled := parse_bool_attr v |>, l));
     (["acl_users"], (q, l <| l_aclUsers := accumulate (l_aclUsers l) v |>));
     (["acl_group_enable"; "acl_group_enabled"],
       (q <| Queue.ACLGroupEnabled := parse_bool_attr v |>, l));
     (["acl_groups"], (q, l <| l_aclGroups := accumulate (l_aclGroups l) v |>));
     (["acl_host_enable"; "acl_host_enabled"],
       (q <| Queue.ACLHostEnabled := parse_bool_attr v |>, l));
     (["acl_hosts"], (q, l <| l_aclHosts := accumulate (l_aclHosts l) v |>));
     (["naccesspolicy"], (q <| Queue.NaccessPolicy := ToLower (TrimSpace v) |>, l));
     (["hostlist"], (q, l <| l_hostList := accumulate (l_hostList l) v |>));
     (["route_destinations"; "route_destin"],
       (q, l <| l_routeDest := accumulate (l_routeDest l) v |>));
     (["from_route_only"], (q <| Queue.Attrs := <["from_route_only" := v]> (Queue.Attrs q) |>, l))]
    (q <| Queue.Attrs := <[DisMessage.Name a := v]> (Queue.Attrs q) |>, l).

Definition applyQueueAttrs (attrs : list SvrAttrl) (q : Queue) : Queue :=
  let '(q, l) := foldl applyQueueAttr (q, mkLists None None None None None None) attrs in
  q <| Queue.ACLUsers := default (Queue.ACLUsers q) (l_aclUsers l) |>
    <| Queue.ACLGroups := default (Queue.ACLGroups q) (l_aclGroups l) |>
    <| Queue.ACLHosts := default (Queue.ACLHosts q) (l_aclHosts l) |>
    <| Queue.HostList := default (Queue.HostList q) (l_hostList l) |>
    <| Queue.RouteDestin := default (Queue.RouteDestin q) (l_routeDest l) |>
    <| Queue.DisallowedTypes := default (Queue.DisallowedTypes q) (l_disallowed l) |>.

Definition applyNodeAttr (n : Node) (a : SvrAttrl) : Node :=
  let v := Value a in
  switch (DisMessage.Name a)
    [(["state"],
       switch (ToLower v)
         [(["offline"], n <| Node.State := Z.lor (Node.State n) StateOffline |>);
          (["drain"], n <| Node.State := Z.lor (Node.State n) StateDrain |>);
          (["excl"; "e"; "exclusive"], n <| Node.State := Z.lor (Node.State n) StateExcl |>);
          (["free"; "resume"; "clear"],
            n <| Node.State := clear_flag (Node.State n)
                   (Z.lor (Z.lor StateOffline StateDrain) StateExcl) |>)] n);
     (["np"],
       let n := n <| Node.NumProcs := Sscanf_d v (Node.NumProcs n) |> in
       n <| Node.SlotsTotal := Node.NumProcs n |>);
     (["properties"], n <| Node.Properties := Split "," v |>);
     (["hostgroups"; "groups"], n <| Node.Groups := ParseList v |>);
     (["note"], n <| Node.Note := v |>);
     (["queue"], n <| Node.Queue := v |>);
     (["resources_available"],
       if decide (Resc a = "") then n
       else match ParseInt v with
            | (k, None) => if 0 <=? k then n <| Node.GRes := <[Resc a := k]> (Node.GRes n) |> else n
            | (_, Some _) => n
            end)]
    (n <| Node.Attrs := <[DisMessage.Name a := v]> (Node.Attrs n) |>).
Definition applyNodeAttrs (attrs : list SvrAttrl) (n : Node) : Node := foldl applyNodeAttr n attrs.

(** ** Node slots *)

(** The node names of an exec_host, "node/slot+node/slot". *)
Definition exec_nodes (execHost : string) : list string := split_hd "/" <$> Split "+" execHost.

Definition release_on (jobID : string) (slots : Z) (s : Server) (name : string) : Server :=
  upd_node name (Node.ReleaseJob jobID slots) s.

Definition releaseNodeResources (env : Env) (execHost jobID : string) (s : Server) : Server :=
  let slots := match get_job env jobID s with Some j => jobRequestedCPUs j | None => 1 end in
  foldl (release_on jobID slots) s (exec_nodes execHost).

(** [sendDeleteToMOM]: the request sent, when the job has a node. *)
Definition sendDeleteToMOM (j : Job) (s : Server) : Server :=
  if decide (Job.ExecHost j = "") then s
  else emit (DeleteToMOM (Job.ID j) (split_hd "/" (Job.ExecHost j))
               (if Job.ExecPort j =? 0 then 15002 else Job.ExecPort j)) s.

(** ** What the helpers leave alone *)

Lemma jobs_emit e s : the_jobs (emit e s) = the_jobs s.
Proof. done. Qed.
Lemma jobs_record e s : the_jobs (record e s) = the_jobs s.
Proof. unfold record. by destruct (acctLog s). Qed.
Lemma jobs_trigger s : the_jobs (triggerSched s) = the_jobs s.
Proof. unfold triggerSched. by repeat destruct (_ && _). Qed.
Lemma jobs_saveJob j s : the_jobs (saveJob j s) = the_jobs s.
Proof. done. Qed.
Lemma jobs_script id d s : the_jobs (SaveJobScript id d s) = the_jobs s.
Proof. done. Qed.
Lemma jobs_remove_script id s : the_jobs (remove_script id s) = the_jobs s.
Proof. done. Qed.
Lemma jobs_remove_files id s : the_jobs (removeJobFiles id s) = the_jobs s.
Proof. done. Qed.
Lemma jobs_upd_queue n f s : the_jobs (upd_queue n f s) = the_jobs s.
Proof. done. Qed.
Lemma jobs_upd_node n f s : the_jobs (upd_node n f s) = the_jobs s.
Proof. done. Qed.
Lemma jobs_upd_job j s : the_jobs (upd_job j s) = <[Job.ID j := j]> (the_jobs s).
Proof. done. Qed.
Lemma jobs_upd_mgr f s : the_jobs (upd_mgr f s) = jobs (f (jobMgr s)).
Proof. done. Qed.
Lemma jobs_the s : jobs (jobMgr s) = the_jobs s.
Proof. done. Qed.
Lemma jobs_sendDelete j s : the_jobs (sendDeleteToMOM j s) = the_jobs s.
Proof. unfold sendDeleteToMOM. by case_decide. Qed.
Lemma fold_release_jobs id k ns s : the_jobs (foldl (release_on id k) s ns) = the_jobs s.
Proof. revert s. induction ns as [|n ns IH]; intros s; [done|]. simpl. by rewrite IH. Qed.
Lemma fold_release_queues id k ns s : queueMgr (foldl (release_on id k) s ns) = queueMgr s.
Proof. revert s. induction ns as [|n ns IH]; intros s; [done|]. simpl. by rewrite IH. Qed.
Lemma jobs_release env h id s : the_jobs (releaseNodeResources env h id s) = the_jobs s.
Proof. apply fold_release_jobs. Qed.
Create Rewrite HintDb server.
#[export] Hint Rewrite jobs_emit jobs_record jobs_trigger jobs_saveJob jobs_script jobs_remove_script
  jobs_remove_files jobs_upd_queue jobs_upd_node jobs_upd_job jobs_upd_mgr jobs_sendDelete
  jobs_release AddJob_jobs RemoveJob_jobs UpdateJobState_jobs jobs_the : server.

Lemma lookup_upd_queue n f s : queueMgr (upd_queue n f s) !! n = f <$> queueMgr s !! n.
Proof. exact (lookup_alter_eq (M := gmap string) f (queueMgr s) n). Qed.
Lemma lookup_upd_queue_ne n k f s : n ≠ k → queueMgr (upd_queue n f s) !! k = queueMgr s !! k.
Proof. exact (lookup_alter_ne (M := gmap string) f (queueMgr s) n k). Qed.
Lemma queues_record e s : queueMgr (record e s) = queueMgr s.
Proof. unfold record. by destruct (acctLog s). Qed.
Lemma queues_trigger s : queueMgr (triggerSched s) = queueMgr s.
Proof. unfold triggerSched. by repeat destruct (_ && _). Qed.
Lemma queues_sendDelete j s : queueMgr (sendDeleteToMOM j s) = queueMgr s.
Proof. unfold sendDeleteToMOM. by case_decide. Qed.
Lemma queues_release env h id s : queueMgr (releaseNodeResources env h id s) = queueMgr s.
Proof. apply fold_release_queues. Qed.
Lemma nodes_record e s : the_nodes (record e s) = the_nodes s.
Proof. unfold record. by destruct (acctLog s). Qed.
Lemma nodes_trigger s : the_nodes (triggerSched s) = the_nodes s.
Proof. unfold triggerSched. by repeat destruct (_ && _). Qed.
Lemma nodes_sendDelete j s : the_nodes (sendDeleteToMOM j s) = the_nodes s.
Proof. unfold sendDeleteToMOM. by case_decide. Qed.
Lemma nodes_upd_node n f s : the_nodes (upd_node n f s) = alter f n (the_nodes s).
Proof. done. Qed.
Lemma nodes_upd_job j s : the_nodes (upd_job j s) = the_nodes s.
Proof. done. Qed.
Lemma nodes_upd_mgr f s : the_nodes (upd_mgr f s) = the_nodes s.
Proof. done. Qed.
Lemma nodes_upd_queue n f s : the_nodes (upd_queue n f s) = the_nodes s.
Proof. done. Qed.
Lemma nodes_saveJob j s : the_nodes (saveJob j s) = the_nodes s.
Proof. done. Qed.
Lemma nodes_remove_files id s : the_nodes (removeJobFiles id s) = the_nodes s.
Proof. done. Qed.
#[export] Hint Rewrite queues_record queues_trigger queues_sendDelete queues_release nodes_record
  nodes_trigger nodes_sendDelete nodes_upd_node nodes_upd_job nodes_upd_mgr nodes_upd_queue
  nodes_saveJob nodes_remove_files : server.

(** *** Finding a job *)

(** The server's invariant that handlers rely on. *)
Definition server_ok (s : Server) : Prop := mgr_ok (jobMgr s).

(** Jobs are in the table under their ids. *)
Definition ids_ok (s : Server) : Prop := ∀ k j, the_jobs s !! k = Some j → Job.ID j = k.
Lemma server_ids s : server_ok s → ids_ok s.
Proof. intros Hs k j. apply (ok_ids _ Hs). Qed.

Lemma get_job_stored env id s j :
  ids_ok s → get_job env id s = Some j → the_jobs s !! Job.ID j = Some j.
Proof.
  intros Hs. unfold get_job, GetJob. cbv zeta.
  assert (∀ k, the_jobs s !! k = Some j → the_jobs s !! Job.ID j = Some j) as H.
  { intros k Hk. by rewrite (Hs k j Hk). }
  unfold the_jobs in *. destruct (jobs (jobMgr s) !! TrimSpace id) eqn:E1; [intros [= ->]; eauto|].
  destruct (has_byte "." (TrimSpace id)); [done|].
  destruct (jobs (jobMgr s) !! (_ +:+ _)) eqn:E2; [intros [= ->]; eauto|].
  destruct (list_find _ (job_order env)) as [[i k]|]; simpl; [eauto|done].
Qed.

Lemma get_job_full env id s j :
  the_jobs s !! id = Some j → trimmed id → get_job env id s = Some j.
Proof. intros Hj Ht. unfold get_job, GetJob. rewrite Ht. unfold the_jobs in Hj. by rewrite Hj. Qed.

(** ** Releasing the nodes of a job *)

Lemma fold_release_nodes id k ns s name :
  NoDup ns →
  the_nodes (foldl (release_on id k) s ns) !! name
  = if decide (name ∈ ns) then Node.ReleaseJob id k <$> the_nodes s !! name
    else the_nodes s !! name.
Proof.
  intros Hn. revert s. induction Hn as [|n ns Hn Hnd IH]; intros s; [done|]. cbn [foldl]. rewrite IH.
  unfold release_on. rewrite nodes_upd_node. destruct (decide (name = n)) as [->|Hne].
  - rewrite (decide_True (P := n ∈ n :: ns)) by left. rewrite decide_False by done.
    by rewrite lookup_alter_eq.
  - rewrite lookup_alter_ne by done. do 2 case_decide; set_solver.
Qed.

(** [releaseNodeResources] with the id of a job in the table releases, on each node of the
    exec_host, the processors the job requested. *)
Lemma releaseNodeResources_nodes env h id s j name :
  get_job env id s = Some j → NoDup (exec_nodes h) →
  the_nodes (releaseNodeResources env h id s) !! name
  = if decide (name ∈ exec_nodes h)
    then Node.ReleaseJob id (jobRequestedCPUs j) <$> the_nodes s !! name
    else the_nodes s !! name.
Proof. intros Hj Hn. unfold releaseNodeResources. rewrite Hj. by apply fold_release_nodes. Qed.
