(* ===== verification/Submit.v ===== *)
(** * Job submission and job control: the handlers of internal/server/server.go

    Submission (QueueJob, JobScript, Commit), job arrays, deletion, holds, modification
    and moves.  [None] from a handler is a request that never gets a reply. *)

From S2P Require Import Prelude GoStd Dis DisMessage Job JobManager Node Queue Route ServerState.
Import Proto.

Local Open Scope string_scope.
Local Open Scope list_scope.
Local Open Scope Z_scope.

Definition ok_reply (s : Server) : Handled := (s, SendOkReply, true).
Definition err_reply (code : Z) (keep : bool) (s : Server) : Handled :=
  (s, SendErrorReply code 0, keep).

(** ** QueueJob *)

Definition handleQueueJob (env : Env) (user dest : string) (attrs : list SvrAttrl) (s : Server) :
    Handled :=
  let queueName :=
    if decide (dest = "") then Queue.Name <$> DefaultQueue (queue_order env) (queue_order env) (queueMgr s)
    else Some dest in
  match queueName with
  | None => err_reply PbseQueNoDeflt false s
  | Some queueName =>
    match GetQueue queueName (queueMgr s) with
    | None => err_reply PbseUnkQue false s
    | Some _ =>
      let '(jobID, m) := NextJobID (jobMgr s) in
      let s := s <| jobMgr := m |> in
      let j := (NewJob (now env) jobID queueName (ServerName (cfg s))) <| Job.Owner := user |> in
      let j := applyJobAttrs (now env) attrs j in
      let j := if decide (Job.Owner j = "") then j <| Job.Owner := user |> else j in
      match enforceSubmitLimits user s with
      | Some _ => err_reply PbsePerm false s
      | None =>
        if queueAllowsSubmitHost (GetQueue queueName (queueMgr s)) j
        then (upd_mgr (AddJob j) s, SendJobIDReply ReplyChoiceQueue jobID, true)
        else err_reply PbsePerm false s
      end
    end
  end.

(** ** Commit *)

Definition seq_of (id : string) : string :=
  match cut "." id with
  | Some (n, _) => if decide (n = "") then id else n
  | None => id
  end.

Definition output_path (env : Env) (j : Job) (ext : string) : string :=
  let vars := Job.VariableList j in
  let dir := lookup_or "" "PBS_O_HOME" vars in
  let dir := if decide (dir = "") then lookup_or "" "PBS_O_WORKDIR" vars else dir in
  let dir := if decide (dir = "") then "/tmp" else dir in
  hostname env +:+ ":" +:+ path_Join [dir; Job.Name j +:+ ext +:+ seq_of (Job.ID j)].

Definition setDefaultOutputPaths (env : Env) (j : Job) : Job :=
  let out := output_path env j ".o" in
  let err := output_path env j ".e" in
  let j := if decide (Job.StdoutPath j = "") then j <| Job.StdoutPath := out |> else j in
  if decide (Job.StderrPath j = "") then j <| Job.StderrPath := err |> else j.

#[global] Strategy 100 [setDefaultOutputPaths].

(** The job a pointer refers to, after updates through the table. *)
Definition reload (j : Job) (s : Server) : Job := default j (the_jobs s !! Job.ID j).

(** The end of [commitJobInstance], once the job is admitted. *)
Definition commit_admitted (env : Env) (j : Job) (s : Server) : Server :=
  let holdTypes := Job.HoldTypes j in
  let execTime := Job.ExecutionTime j in
  let s :=
    if decide (holdTypes ≠ "" ∧ holdTypes ≠ "n")
    then upd_mgr (UpdateJobState (now env) (Job.ID j) StateHeld SubstateHeld) s
    else if negb (IsZero execTime) && After execTime (now env)
    then upd_mgr (UpdateJobState (now env) (Job.ID j) StateWaiting SubstateWaiting) s
    else s in
  let s := upd_queue (Job.Queue j) (IncrJobCount StateQueued) s in
  let s := saveJob (reload j s) s in
  let s := record (RecordQueued (Job.ID j)) s in
  triggerSched s.

Definition commitJobInstance (env : Env) (j : Job) (owner : string) (s : Server) :
    Server * option admit_error :=
  let s := upd_job (setDefaultOutputPaths env j) s in
  let s := upd_mgr (UpdateJobState (now env) (Job.ID j) StateQueued SubstateQueued) s in
  let '(j, err) := finalizeRoute (queueMgr s) (jobMgr s) (reload j s) owner in
  let s := upd_job j s in
  match err with
  | Some e => (s, Some e)
  | None => (commit_admitted env j s, None)
  end.

(** ** Job arrays *)

(** [addRange].  A range whose end is within a step of the largest [int] makes the loop
    variable wrap around; the model does not follow it further ([None]). *)
Definition range_values (lo hi step : Z) : option (list Z) :=
  let step := if step <=? 0 then 1 else step in
  let '(lo, hi) := if hi <? lo then (hi, lo) else (lo, hi) in
  if MaxInt64 <? hi + step then None
  else Some ((λ k, lo + Z.of_nat k * step) <$> seq 0 (S (Z.to_nat ((hi - lo) / step)))).

Definition add_index (out : list Z) (v : Z) : list Z := if decide (v ∈ out) then out else out ++ [v].

(** [Sscanf] with the three formats, tried in order; trailing input is ignored. *)
Definition scan_lit (c : ascii) (s : string) : option string :=
  match s with String d s => if decide (d = c) then Some s else None | "" => None end.
Definition scan_part (part : string) : option (Z * Z * Z) :=
  '(lo, r1) ← scan_d part;
  match (r2 ← scan_lit "-" r1; scan_d r2) with
  | Some (hi, r3) =>
    match (r4 ← scan_lit ":" r3; scan_d r4) with
    | Some (step, _) => Some (lo, hi, step)
    | None => Some (lo, hi, 1)
    end
  | None => Some (lo, lo, 1)
  end.

Inductive commit_error := Rejected (e : admit_error) | BadArraySpec (part : string).

Definition parse_part (out : result commit_error (list Z)) (part : string) :
    result commit_error (list Z) :=
  match out with
  | Ok out =>
    let part := TrimSpace part in
    if decide (part = "") then Ok out
    else match scan_part part with
         | Some (lo, hi, step) =>
           match range_values lo hi step with
           | Some vs => Ok (foldl add_index out vs)
           | None => Panic
           end
         | None => Err (BadArraySpec part)
         end
  | r => r
  end.

Definition parseArraySpec (spec : string) : result commit_error (list Z) :=
  match foldl parse_part (Ok []) (Split "," spec) with
  | Ok out => Ok (merge_sort Z.le out)
  | r => r
  end.

Definition task_id (base : string) (i : Z) (server : string) : string :=
  base +:+ "[" +:+ Itoa i +:+ "]." +:+ server.

Definition make_task (env : Env) (j : Job) (server : string) (i : Z) : Job :=
  (CloneForArray (now env) i server j) <| Job.ID := task_id (seq_of (Job.ID j)) i server |>.

(** Register the tasks, each with its copy of the script. *)
Definition add_task (script : string) (s : Server) (t : Job) : Server :=
  SaveJobScript (Job.ID t) script (upd_mgr (AddJob t) s).

(** Commit the tasks in order, up to the first that is rejected. *)
Fixpoint commit_tasks (env : Env) (owner : string) (ts : list Job) (s : Server) :
    Server * option admit_error :=
  match ts with
  | [] => (s, None)
  | t :: ts =>
    match commitJobInstance env t owner s with
    | (s, Some e) => (s, Some e)
    | (s, None) => commit_tasks env owner ts s
    end
  end.

Definition drop_job (id : string) (s : Server) : Server :=
  remove_script id (upd_mgr (RemoveJob id) s).

Definition processJobArray (env : Env) (j : Job) (owner : string) (s : Server) :
    Server * result commit_error bool :=
  if decide (TrimSpace (Job.JobArrayReq j) = "") then (s, Ok false)
  else match parseArraySpec (Job.JobArrayReq j) with
       | Panic => (s, Panic)
       | Err e => (s, Err e)
       | Ok [] => (s, Ok false)
       | Ok indices =>
         let created := make_task env j (ServerName (cfg s)) <$> indices in
         let s := foldl (add_task (Job.Script j)) s created in
         match commit_tasks env owner created s with
         | (s, Some e) => (foldl (λ s t, drop_job (Job.ID t) s) s created, Err (Rejected e))
         | (s, None) => (drop_job (Job.ID j) s, Ok true)
         end
       end.

(** The common end of JobScript2 and Commit: expand the array or commit the job; on
    rejection the job is removed under the id of the request. *)
Definition commit_request (env : Env) (jobID : string) (j : Job) (done : Reply) (s : Server) :
    option Handled :=
  match processJobArray env j (Job.Owner j) s with
  | (_, Panic) => None
  | (s, Err _) => Some (err_reply PbsePerm false (drop_job jobID s))
  | (s, Ok true) => Some (s, done, true)
  | (s, Ok false) =>
    match commitJobInstance env (reload j s) (Job.Owner j) s with
    | (s, Some _) => Some (err_reply PbsePerm false (drop_job jobID s))
    | (s, None) => Some (s, done, true)
    end
  end.

Definition handleJobScript (env : Env) (jobID data : string) (autoCommit : bool) (s : Server) :
    option Handled :=
  match get_job env jobID s with
  | None => Some (err_reply PbseUnkjobid false s)
  | Some j =>
    let j := j <| Job.Script := data |> in
    let s := SaveJobScript jobID data (upd_job j s) in
    if autoCommit then commit_request env jobID j SendOkReply s else Some (ok_reply s)
  end.

Definition handleCommit (env : Env) (jobID : string) (s : Server) : option Handled :=
  match get_job env jobID s with
  | None => Some (err_reply PbseUnkjobid false s)
  | Some j => commit_request env jobID j (SendJobIDReply ReplyChoiceCommit jobID) s
  end.

Definition handleRdytoCommit (jobID : string) (s : Server) : Handled :=
  (s, SendJobIDReply ReplyChoiceRdytoCom jobID, true).

(** ** Deletion *)

Definition handleDeleteJob (env : Env) (jobID : string) (s : Server) : Handled :=
  match get_job env jobID s with
  | None => err_reply PbseUnkjobid true s
  | Some j =>
    let state := Job.State j in
    let s := record (RecordDeleted jobID) s in
    let s :=
      if state =? StateRunning
      then releaseNodeResources env (Job.ExecHost j) jobID (sendDeleteToMOM j s)
      else s in
    let s := upd_queue (Job.Queue j) (DecrJobCount state) s in
    let s := upd_mgr (UpdateJobState (now env) jobID StateComplete SubstateComplete) s in
    let s := removeJobFiles jobID s in
    ok_reply (upd_mgr (RemoveJob jobID) s)
  end.

(** ** Holds *)

Definition handleHoldJob (env : Env) (jobID : string) (s : Server) : Handled :=
  match get_job env jobID s with
  | None => err_reply PbseUnkjobid true s
  | Some j =>
    let oldState := Job.State j in
    let s :=
      if (oldState =? StateQueued) || (oldState =? StateWaiting)
      then upd_job (Job.SetState (now env) StateHeld SubstateHeld j) s else s in
    ok_reply
      (if oldState =? StateQueued
       then upd_queue (Job.Queue j) (TransferJobState StateQueued StateHeld) s else s)
  end.

Definition handleReleaseJob (env : Env) (jobID : string) (s : Server) : Handled :=
  match get_job env jobID s with
  | None => err_reply PbseUnkjobid true s
  | Some j =>
    let j := j <| Job.HoldTypes := "" |> in
    let s :=
      if Job.State j =? StateHeld
      then upd_queue (Job.Queue j) (TransferJobState StateHeld StateQueued)
             (upd_job (Job.SetState (now env) StateQueued SubstateQueued j) s)
      else upd_job j s in
    ok_reply (triggerSched s)
  end.

(** ** Modification, moves and order *)

Definition handleModifyJob (env : Env) (jobID : string) (attrs : list SvrAttrl) (s : Server) :
    Handled :=
  match get_job env jobID s with
  | None => err_reply PbseUnkjobid true s
  | Some j =>
    let j := (applyJobAttrs (now env) attrs j) <| Job.Modified := true |> in
    ok_reply (saveJob j (upd_job j s))
  end.

Definition handleMoveJob (env : Env) (jobID dest : string) (s : Server) : Handled :=
  match get_job env jobID s with
  | None => err_reply PbseUnkjobid true s
  | Some j =>
    let queueName := split_hd "@" dest in
    match GetQueue queueName (queueMgr s) with
    | None => err_reply PbseUnkQue true s
    | Some _ =>
      let oldQueue := Job.Queue j in
      let oldState := Job.State j in
      if bool_decide (oldState ∈ [StateRunning; StateExiting; StateComplete; StateProvisioning])
      then err_reply PbseBadReq true s
      else if decide (oldQueue = queueName) then ok_reply s
      else
        let j := j <| Job.Queue := queueName |> in
        let s := upd_job j s in
        let s := upd_queue oldQueue (DecrJobCount oldState) s in
        let s := upd_queue queueName (IncrJobCount oldState) s in
        ok_reply (saveJob j (triggerSched s))
    end
  end.

(** The handler takes the lock of the first job and then of the second: when both ids name
    the same job it waits for itself and never replies. *)
Definition handleOrderJob (env : Env) (jobID1 jobID2 : string) (s : Server) : option Handled :=
  match get_job env jobID1 s, get_job env jobID2 s with
  | Some j1, Some j2 =>
    if decide (Job.ID j1 = Job.ID j2) then None
    else
      let j1' := j1 <| Job.CreateTime := Job.CreateTime j2 |> in
      let j2' := j2 <| Job.CreateTime := Job.CreateTime j1 |> in
      Some (ok_reply (saveJob j2' (saveJob j1' (upd_job j2' (upd_job j1' s)))))
  | _, _ => Some (err_reply PbseUnkjobid true s)
  end.

(** ** Requests that leave the state alone *)

Definition handleSignalJob (env : Env) (jobID : string) (s : Server) : Handled :=
  match get_job env jobID s with
  | None => err_reply PbseUnkjobid true s
  | Some _ => ok_reply s
  end.

Definition handleLocateJob (env : Env) (jobID : string) (s : Server) : Handled :=
  match get_job env jobID s with
  | None => err_reply PbseUnkjobid true s
  | Some _ => (s, SendTextReply (ServerName (cfg s)), true)
  end.

Definition handleSelectJobs (env : Env) (s : Server) : Handled :=
  (s, SendTextReply (Join (String newline "") (Job.ID <$> AllJobs (job_order env) (jobMgr s))), true).

Definition handleCheckpointJob (env : Env) (jobID : string) (s : Server) : Handled :=
  match get_job env jobID s with
  | None => err_reply PbseUnkjobid true s
  | Some j => if Job.State j =? StateRunning then ok_reply s else err_reply PbseBadReq true s
  end.

(** ** Lemmas: what the helpers do to a job *)

Lemma applyJobAttr_ID t j a : Job.ID (applyJobAttr t j a) = Job.ID j.
Proof.
  unfold applyJobAttr. cbv zeta. apply (switch_ind (λ j', Job.ID j' = Job.ID j)); [|done].
  repeat (apply Forall_cons; split); try apply Forall_nil_2; try reflexivity; cbn [snd];
    repeat case_match; rewrite ?SetState_ID; reflexivity.
Qed.

Lemma applyJobAttrs_ID t attrs j : Job.ID (applyJobAttrs t attrs j) = Job.ID j.
Proof.
  assert (Job.ID (foldl (applyJobAttr t) j attrs) = Job.ID j) as H.
  { revert j. induction attrs as [|a attrs IH]; intros j; [done|]. simpl.
    by rewrite IH, applyJobAttr_ID. }
  unfold applyJobAttrs. cbv zeta. revert H. generalize (foldl (applyJobAttr t) j attrs). intros j' H.
  repeat case_match; done.
Qed.

(** The output paths are the only thing [setDefaultOutputPaths] changes. *)
Lemma setDefault_frame env j {A} (f : Job → A) :
  (∀ j v, f (j <| Job.StdoutPath := v |>) = f j) → (∀ j v, f (j <| Job.StderrPath := v |>) = f j) →
  f (setDefaultOutputPaths env j) = f j.
Proof.
  intros H1 H2. unfold setDefaultOutputPaths. cbv zeta.
  set (j1 := if decide (Job.StdoutPath j = "") then _ else j).
  assert (f j1 = f j) as H by (unfold j1; case_decide; [apply H1|done]).
  destruct (decide (Job.StderrPath j1 = "")); [|done]. etransitivity; [apply H2|done].
Qed.

Lemma finalizeRoute_frame qm jm j owner {A} (f : Job → A) :
  (∀ j v, f (j <| Job.Queue := v |>) = f j) → f (finalizeRoute qm jm j owner).1 = f j.
Proof.
  intros H. unfold finalizeRoute. destruct (routeJob qm jm j owner) as [e|[d []]]; [done|..].
  - apply H.
  - cbv zeta. destruct (Queue.GetQueue d qm); apply H.
Qed.

(** ** Lemmas: committing a job *)

(** The job as it is when it reaches the admission gate. *)
Definition queued (env : Env) (j : Job) : Job :=
  Job.SetState (now env) StateQueued SubstateQueued (setDefaultOutputPaths env j).

Definition at_gate (env : Env) (j : Job) (s : Server) : Server :=
  upd_mgr (UpdateJobState (now env) (Job.ID j) StateQueued SubstateQueued)
    (upd_job (setDefaultOutputPaths env j) s).

Lemma setDefault_ID env j : Job.ID (setDefaultOutputPaths env j) = Job.ID j.
Proof. by apply (setDefault_frame env j Job.ID). Qed.

Lemma at_gate_jobs env j s : the_jobs (at_gate env j s) = <[Job.ID j := queued env j]> (the_jobs s).
Proof.
  unfold at_gate. autorewrite with server. rewrite setDefault_ID.
  apply map_eq. intros k. destruct (decide (k = Job.ID j)) as [->|].
  - rewrite lookup_alter_eq, !lookup_insert_eq. unfold queued. reflexivity.
  - by rewrite lookup_alter_ne, !lookup_insert_ne by done.
Qed.

Lemma queued_ID env j : Job.ID (queued env j) = Job.ID j.
Proof. unfold queued. by rewrite SetState_ID, setDefault_ID. Qed.

Lemma commit_eq env j owner s :
  commitJobInstance env j owner s =
  let s := at_gate env j s in
  let '(j, err) := finalizeRoute (queueMgr s) (jobMgr s) (queued env j) owner in
  match err with
  | Some e => (upd_job j s, Some e)
  | None => (commit_admitted env j (upd_job j s), None)
  end.
Proof.
  unfold commitJobInstance. cbv zeta. fold (at_gate env j s).
  assert (reload j (at_gate env j s) = queued env j) as ->.
  { unfold reload. rewrite at_gate_jobs. by rewrite lookup_insert_eq. }
  by destruct (finalizeRoute _ _ _ _) as [j' [e|]].
Qed.

Lemma commit_admitted_other env j s k :
  k ≠ Job.ID j → the_jobs (commit_admitted env j s) !! k = the_jobs s !! k.
Proof.
  intros Hk. unfold commit_admitted. cbv zeta. autorewrite with server.
  repeat case_match; autorewrite with server; by rewrite ?lookup_alter_ne by done.
Qed.

(** Committing a job changes no other entry of the table. *)
Lemma commit_other env j owner s k :
  k ≠ Job.ID j → the_jobs (commitJobInstance env j owner s).1 !! k = the_jobs s !! k.
Proof.
  intros Hk. rewrite commit_eq. cbv zeta. set (s1 := at_gate env j s).
  pose proof (finalizeRoute_frame (queueMgr s1) (jobMgr s1) (queued env j) owner Job.ID) as Hid.
  rewrite queued_ID in Hid. destruct (finalizeRoute _ _ _ _) as [j' err]. simpl in Hid.
  specialize (Hid (λ _ _, eq_refl)).
  assert (the_jobs (upd_job j' s1) !! k = the_jobs s !! k) as H.
  { rewrite jobs_upd_job, Hid, lookup_insert_ne by done. unfold s1.
    by rewrite at_gate_jobs, lookup_insert_ne by done. }
  destruct err; simpl; [done|]. by rewrite commit_admitted_other by congruence.
Qed.

(** The states of a committed job. *)
Definition committed (j j' : Job) : Prop :=
  Job.State j' ∈ [StateQueued; StateHeld; StateWaiting] ∧ Job.Script j' = Job.Script j ∧
  Job.Owner j' = Job.Owner j.

Lemma SetState_committed now st sub j j' :
  st ∈ [StateQueued; StateHeld; StateWaiting] → committed j j' → committed j (Job.SetState now st sub j').
Proof.
  intros Hst (_ & Hs & Ho). split_and!.
  - by rewrite SetState_State.
  - by rewrite SetState_Script.
  - by rewrite SetState_Owner.
Qed.

Lemma queued_committed env j : committed j (queued env j).
Proof.
  unfold queued. split_and!.
  - rewrite SetState_State. left.
  - rewrite SetState_Script. by apply (setDefault_frame env j Job.Script).
  - rewrite SetState_Owner. by apply (setDefault_frame env j Job.Owner).
Qed.

Lemma commit_admitted_self env j0 j j1 s :
  the_jobs s !! Job.ID j = Some j1 → committed j0 j1 →
  ∃ j', the_jobs (commit_admitted env j s) !! Job.ID j = Some j' ∧ committed j0 j'.
Proof.
  intros Hj Hc. unfold commit_admitted. cbv zeta. autorewrite with server.
  case_decide; [|destruct (_ && _)]; autorewrite with server; rewrite ?lookup_alter_eq, Hj; [| |by eauto];
    (eexists; split; [reflexivity|]); apply SetState_committed; try done; set_solver.
Qed.

Lemma commit_self env j owner s s' :
  commitJobInstance env j owner s = (s', None) →
  ∃ j', the_jobs s' !! Job.ID j = Some j' ∧ committed j j'.
Proof.
  rewrite commit_eq. cbv zeta. set (s1 := at_gate env j s).
  pose proof (finalizeRoute_frame (queueMgr s1) (jobMgr s1) (queued env j) owner Job.ID (λ _ _, eq_refl)) as Hid.
  pose proof (finalizeRoute_frame (queueMgr s1) (jobMgr s1) (queued env j) owner
    (committed j) (λ _ _, eq_refl)) as Hf.
  rewrite queued_ID in Hid. destruct (finalizeRoute _ _ _ _) as [j' [e|]]; [done|].
  cbn [fst] in Hid, Hf. intros [= <-]. rewrite <- Hid.
  apply (commit_admitted_self _ _ _ j').
  - rewrite jobs_upd_job. apply lookup_insert_eq.
  - rewrite Hf. apply queued_committed.
Qed.

(** ** Lemmas: job arrays *)

Lemma add_task_jobs script s t : the_jobs (add_task script s t) = <[Job.ID t := t]> (the_jobs s).
Proof. unfold add_task. by autorewrite with server. Qed.

Lemma add_tasks_other script ts s k :
  k ∉ Job.ID <$> ts → the_jobs (foldl (add_task script) s ts) !! k = the_jobs s !! k.
Proof.
  revert s. induction ts as [|t ts IH]; intros s; [done|]. cbn [fmap list_fmap foldl].
  intros [Hk Hn]%not_elem_of_cons. rewrite IH by done.
  by rewrite add_task_jobs, lookup_insert_ne by done.
Qed.

Lemma commit_tasks_other env owner ts s k :
  k ∉ Job.ID <$> ts → the_jobs (commit_tasks env owner ts s).1 !! k = the_jobs s !! k.
Proof.
  revert s. induction ts as [|t ts IH]; intros s; [done|]. cbn [fmap list_fmap commit_tasks].
  intros [Hk Hn]%not_elem_of_cons. pose proof (commit_other env t owner s k Hk) as Hc.
  destruct (commitJobInstance env t owner s) as [s' [e|]]; simpl in *; [done|]. by rewrite IH.
Qed.

Lemma drop_tasks ts s k :
  the_jobs (foldl (λ s t, drop_job (Job.ID t) s) s ts) !! k
  = if decide (k ∈ Job.ID <$> ts) then None else the_jobs s !! k.
Proof.
  revert s. induction ts as [|t ts IH]; intros s; [done|]. cbn [fmap list_fmap foldl]. rewrite IH.
  unfold drop_job. autorewrite with server.
  destruct (decide (k = Job.ID t)) as [->|Hk].
  - rewrite (decide_True (P := _ ∈ _ :: _)) by by left. rewrite lookup_delete_eq. by case_decide.
  - rewrite lookup_delete_ne by done. do 2 case_decide; set_solver.
Qed.

(** After a run without rejection, every task is committed. *)
Lemma commit_tasks_all env owner ts s s' :
  commit_tasks env owner ts s = (s', None) →
  ∀ id, id ∈ Job.ID <$> ts → ∃ t j', t ∈ ts ∧ Job.ID t = id ∧
    the_jobs s' !! id = Some j' ∧ committed t j'.
Proof.
  revert s. induction ts as [|t ts IH]; intros s; cbn [commit_tasks]; [by intros _ id ?%elem_of_nil|].
  destruct (commitJobInstance env t owner s) as [s1 [e|]] eqn:Hc; [done|]. intros Hts id Hin.
  destruct (decide (id ∈ Job.ID <$> ts)) as [Hin'|Hn].
  - destruct (IH s1 Hts id Hin') as (t' & j' & ? & ? & ? & ?). exists t', j'.
    split_and!; [by right|done..].
  - cbn [fmap list_fmap] in Hin. apply elem_of_cons in Hin as [->|?]; [|done].
    apply commit_self in Hc as (j' & Hj & Hcm). exists t, j'. split_and!; [by left|done| |done].
    pose proof (commit_tasks_other env owner ts s1 (Job.ID t) Hn) as Ho. rewrite Hts in Ho.
    simpl in Ho. congruence.
Qed.

Lemma make_task_Script env j sv i : Job.Script (make_task env j sv i) = Job.Script j.
Proof. done. Qed.

(** ** Lemmas: array ranges *)

Lemma add_index_NoDup out v : NoDup out → NoDup (add_index out v).
Proof.
  intros H. unfold add_index. case_decide; [done|]. apply NoDup_app.
  split_and!; [done| |apply NoDup_singleton]. by intros x Hx ->%list_elem_of_singleton.
Qed.

Lemma add_indices_NoDup vs out : NoDup out → NoDup (foldl add_index out vs).
Proof. revert out. induction vs; simpl; auto using add_index_NoDup. Qed.

Lemma add_indices_fresh vs out : NoDup (out ++ vs) → foldl add_index out vs = out ++ vs.
Proof.
  revert out. induction vs as [|v vs IH]; intros out Hn; simpl; [by rewrite app_nil_r|].
  unfold add_index at 2. rewrite decide_False.
  2:{ apply NoDup_app in Hn as (_ & Hd & _). intros Hin. apply (Hd v Hin). left. }
  rewrite IH; by rewrite <- app_assoc.
Qed.

Lemma parse_parts_failed parts out l :
  (∀ l, out ≠ Ok l) → foldl parse_part out parts ≠ Ok l.
Proof.
  revert out. induction parts as [|p parts IH]; intros out Ho; simpl; [apply Ho|].
  apply IH. destruct out as [l0|e|]; [by destruct (Ho l0)|done..].
Qed.

Lemma parse_part_NoDup l0 p l1 : NoDup l0 → parse_part (Ok l0) p = Ok l1 → NoDup l1.
Proof.
  intros Hn. simpl. case_decide; [by intros [= <-]|].
  destruct (scan_part _) as [[[lo hi] step]|]; [|done].
  destruct (range_values lo hi step); [|done]. intros [= <-]. by apply add_indices_NoDup.
Qed.

Lemma parse_parts_NoDup parts l0 l : NoDup l0 → foldl parse_part (Ok l0) parts = Ok l → NoDup l.
Proof.
  revert l0. induction parts as [|p parts IH]; intros l0 Hn; [by intros [= <-]|].
  cbn [foldl]. destruct (parse_part (Ok l0) p) as [l1|e|] eqn:E.
  - apply IH. by apply (parse_part_NoDup l0 p).
  - intros H. by apply parse_parts_failed in H.
  - intros H. by apply parse_parts_failed in H.
Qed.

Definition int_range (lo hi : Z) : list Z := (λ k, lo + Z.of_nat k) <$> seq 0 (Z.to_nat (hi - lo + 1)).

Lemma int_range_values lo hi :
  lo ≤ hi → hi + 1 ≤ MaxInt64 → range_values lo hi 1 = Some (int_range lo hi).
Proof.
  intros Hl Hm. unfold range_values, int_range. cbv zeta. cbn [Z.leb Z.compare].
  replace (hi <? lo) with false by lia. replace (MaxInt64 <? hi + 1) with false by lia.
  rewrite Z.div_1_r. replace (S (Z.to_nat (hi - lo))) with (Z.to_nat (hi - lo + 1)) by lia.
  f_equal. apply list_fmap_ext. intros i k Hk. by rewrite Z.mul_1_r.
Qed.

Lemma int_range_sorted lo hi : Sorted Z.le (int_range lo hi) ∧ NoDup (int_range lo hi).
Proof.
  unfold int_range. generalize 0%nat. induction (Z.to_nat (hi - lo + 1)) as [|n IH]; intros a;
    simpl; [split; constructor|]. destruct (IH (S a)) as [Hs Hn]. split.
  - constructor; [done|]. destruct n; constructor. lia.
  - constructor; [|done]. intros (k & Hk & Hin)%list_elem_of_fmap. apply elem_of_seq in Hin. lia.
Qed.

Lemma Itoa_no_comma n : has_byte "," (Itoa n) = false.
Proof.
  unfold Itoa, FormatInt. assert (∀ k, 0 ≤ k → has_byte "," (FormatUint k) = false) as H.
  { intros k Hk. eapply all_bytes_has; [by apply FormatUint_digits|done]. }
  destruct (n <? 0) eqn:E; bool_to_prop; [simpl; apply H; lia|apply H; lia].
Qed.

(** ** Theorems: submission *)

(** QueueJob adds exactly one job, under a new id that the reply carries, and changes
    no other; a refused submission changes no job. *)
Theorem handleQueueJob_adds env user dest attrs s :
  let '(s', r, _) := handleQueueJob env user dest attrs s in
  if rp_code r =? 0
  then ∃ j, rp_data r = Itoa (nextJobID (jobMgr s)) +:+ "." +:+ serverName (jobMgr s) ∧
            Job.ID j = rp_data r ∧ the_jobs s' = <[rp_data r := j]> (the_jobs s)
  else the_jobs s' = the_jobs s.
Proof.
  unfold handleQueueJob. cbv zeta.
  destruct (if decide (dest = "") then _ else _) as [qn|]; [|done].
  destruct (GetQueue qn (queueMgr s)) as [q|]; [|done]. cbn [NextJobID].
  set (id := _ +:+ _). set (s1 := s <| jobMgr := _ |>).
  set (j0 := applyJobAttrs _ attrs _). set (j := if decide _ then _ else j0).
  assert (Job.ID j = id) as Hid.
  { transitivity (Job.ID j0); [unfold j; by case_decide|apply applyJobAttrs_ID]. }
  destruct (enforceSubmitLimits user s1); [done|].
  destruct (queueAllowsSubmitHost _ j); [|done]. simpl. exists j. split_and!; [done..|].
  rewrite jobs_upd_mgr, AddJob_jobs, Hid. done.
Qed.

(** A queue manager with one execution queue. *)
Definition one_queue (q : Queue) : Queue.Manager := {[Queue.Name q := q]}.
Definition test_cfg : Config :=
  (NewConfig "/var/spool/torque") <| ServerName := "srv" |> <| SchedTriggerPort := 15004 |> <| NPDefault := 1 |>.
Definition test_server (q : Queue) : Server :=
  mkServer test_cfg (JobManager.NewManager "srv" 1) Node.NewManager (one_queue q) ∅ None false false true
    ∅ ∅ ∅ ∅ None [].
Definition test_env : Env := mkEnv (time_Unix 1000) [] [] ["batch"] "head".

Lemma upd_job_size j s :
  is_Some (the_jobs s !! Job.ID j) → size (the_jobs (upd_job j s)) = size (the_jobs s).
Proof. intros [x Hx]. rewrite jobs_upd_job. by rewrite map_size_insert_Some. Qed.

(** A queue whose limit is one job takes no direct submission at all, even when it is
    empty: the job is put in the queued state before the limit is checked, so it counts
    itself.  A limit of n admits only n - 1 jobs. *)
Theorem commit_counts_itself env j owner s q :
  Z.of_nat (size (the_jobs s)) < 2 ^ 60 → the_jobs s !! Job.ID j = Some j →
  GetQueue (Job.Queue j) (queueMgr s) = Some q → Queue.Name q = Job.Queue j →
  Queue.Type_ q = TypeExecution → Queue.MaxJobs q = 1 →
  ∃ e, (commitJobInstance env j owner s).2 = Some e.
Proof.
  intros Hsz Hj Hq Hn Ht Hmax. rewrite commit_eq. cbv zeta.
  assert (Job.Queue (queued env j) = Job.Queue j) as Hqu.
  { unfold queued. rewrite SetState_Queue. by apply (setDefault_frame env j Job.Queue). }
  assert (finalizeRoute (queueMgr (at_gate env j s)) (jobMgr (at_gate env j s)) (queued env j) owner
    = ((queued env j) <| Job.Queue := Job.Queue j |>,
       admitToQueue (jobMgr (at_gate env j s)) q ((queued env j) <| Job.Queue := Job.Queue j |>) owner false))
    as ->.
  { unfold finalizeRoute, routeJob. change (queueMgr (at_gate env j s)) with (queueMgr s).
    rewrite Hqu, Hq, Ht. cbn [negb Z.eqb]. change (negb (TypeExecution =? TypeRoute)) with true.
    cbv iota zeta. by rewrite Hq. }
  destruct (admitToQueue _ q _ owner false) as [e|] eqn:Ha; [by exists e|]. exfalso.
  apply admitToQueue_admissible in Ha.
  - pose proof (adm_jobs _ _ _ _ _ Ha) as H. rewrite Hmax in H. specialize (H ltac:(lia)).
    assert (0 < CountByStateInQueue (Queue.Name q) [StateQueued; StateProvisioning] (jobMgr (at_gate env j s))).
    { unfold CountByStateInQueue. apply (count_if_pos _ _ (Job.ID j) (queued env j)).
      - change (jobs (jobMgr (at_gate env j s))) with (the_jobs (at_gate env j s)).
        rewrite at_gate_jobs. apply lookup_insert_eq.
      - rewrite Hqu, Hn, bool_decide_eq_true_2 by done. unfold queued. by rewrite SetState_State. }
    pose proof (count_if_nonneg (λ x, bool_decide (Job.Queue x = Queue.Name q) && bool_decide (Job.State x ∈ [StateHeld]))
      (jobs (jobMgr (at_gate env j s)))).
    pose proof (count_if_nonneg (λ x, bool_decide (Job.Queue x = Queue.Name q) && bool_decide (Job.State x ∈ [StateWaiting]))
      (jobs (jobMgr (at_gate env j s)))).
    unfold CountByStateInQueue in *. lia.
  - unfold small. change (jobs (jobMgr (at_gate env j s))) with (the_jobs (at_gate env j s)).
    rewrite at_gate_jobs, map_size_insert_Some by (by rewrite Hj). done.
Qed.

Definition tiny_queue : Queue := (NewQueue "batch" TypeExecution) <| Queue.MaxJobs := 1 |>.
Definition one_job : Job := (NewJob (time_Unix 900) "1.srv" "batch" "srv") <| Job.Owner := "alice" |>.

Lemma commit_counts_itself_witness :
  let s := upd_mgr (AddJob one_job) (test_server tiny_queue) in
  ∃ e, (commitJobInstance test_env one_job "alice" s).2 = Some e.
Proof.
  apply (commit_counts_itself test_env one_job "alice" (upd_mgr (AddJob one_job) (test_server tiny_queue))
    tiny_queue); by vm_compute.
Defined.

(** C13: expanding a job array is all or nothing for the job table: when every task is
    admitted the master is gone and each task is in the table in a state that will run,
    with the master's script; when one is refused the table is what it was before. *)
Theorem processJobArray_atomic env j owner s :
  (∀ l i, parseArraySpec (Job.JobArrayReq j) = Ok l → i ∈ l →
     the_jobs s !! task_id (seq_of (Job.ID j)) i (ServerName (cfg s)) = None) →
  is_Some (the_jobs s !! Job.ID j) →
  match processJobArray env j owner s with
  | (s', Ok true) =>
      ∃ l, parseArraySpec (Job.JobArrayReq j) = Ok l ∧ the_jobs s' !! Job.ID j = None ∧
      (∀ i, i ∈ l → ∃ t, the_jobs s' !! task_id (seq_of (Job.ID j)) i (ServerName (cfg s)) = Some t ∧
                    Job.State t ∈ [StateQueued; StateHeld; StateWaiting] ∧ Job.Script t = Job.Script j)
  | (s', Ok false) => s' = s
  | (s', Err _) => the_jobs s' = the_jobs s
  | (_, Panic) => True
  end.
Proof.
  intros Hfresh Hj. unfold processJobArray. case_decide; [done|].
  destruct (parseArraySpec (Job.JobArrayReq j)) as [[|i0 l0]|e|] eqn:Hp; [done| |done|done].
  set (l := i0 :: l0) in *. set (sv := ServerName (cfg s)) in *.
  set (created := make_task env j sv <$> l). cbv zeta.
  assert (∀ k, k ∈ Job.ID <$> created → ∃ i, i ∈ l ∧ k = task_id (seq_of (Job.ID j)) i sv) as Hids.
  { intros k Hk. unfold created in Hk. rewrite <- list_fmap_compose in Hk.
    apply list_elem_of_fmap in Hk as (i & -> & Hi). by exists i. }
  assert (Job.ID j ∉ Job.ID <$> created) as Hnot.
  { intros (i & Hi & He)%Hids. pose proof (Hfresh l i eq_refl Hi) as Hn. rewrite <- He in Hn.
    by destruct Hj as [? ?]; congruence. }
  destruct (commit_tasks env owner created _) as [s1 [e|]] eqn:Hc.
  - apply map_eq. intros k. rewrite drop_tasks. case_decide as Hk.
    + destruct (Hids k Hk) as (i & Hi & ->). symmetry. by apply (Hfresh l).
    + pose proof (commit_tasks_other env owner created (foldl (add_task (Job.Script j)) s created) k Hk) as Ho.
      rewrite Hc in Ho. cbn [fst] in Ho. rewrite Ho. by apply add_tasks_other.
  - exists l. split; [done|]. unfold drop_job. autorewrite with server. split; [apply lookup_delete_eq|].
    intros i Hi. set (id := task_id _ i sv).
    assert (id ∈ Job.ID <$> created) as Hin.
    { unfold created. rewrite <- list_fmap_compose. apply list_elem_of_fmap. by exists i. }
    destruct (commit_tasks_all _ _ _ _ _ Hc id Hin) as (t & j' & Ht & Hid & Hl & Hst & Hs & _).
    exists j'. rewrite lookup_delete_ne by (intros E; apply Hnot; by rewrite E). split_and!; [done..|].
    rewrite Hs. unfold created in Ht. by apply list_elem_of_fmap in Ht as (? & -> & _).
Qed.

Definition array_job : Job := one_job <| Job.JobArrayReq := "1-3" |> <| Job.Script := "echo" |>.

Lemma processJobArray_atomic_witness :
  let s := upd_mgr (AddJob array_job) (test_server (NewQueue "batch" TypeExecution)) in
  match processJobArray test_env array_job "alice" s with
  | (s', Ok true) =>
      ∃ l, parseArraySpec "1-3" = Ok l ∧ the_jobs s' !! "1.srv" = None ∧
      (∀ i, i ∈ l → ∃ t, the_jobs s' !! task_id "1" i "srv" = Some t ∧
                    Job.State t ∈ [StateQueued; StateHeld; StateWaiting] ∧ Job.Script t = "echo")
  | (s', Ok false) => s' = s
  | (s', Err _) => the_jobs s' = the_jobs s
  | (_, Panic) => True
  end.
Proof.
  apply (processJobArray_atomic test_env array_job "alice"
    (upd_mgr (AddJob array_job) (test_server (NewQueue "batch" TypeExecution)))).
  - assert (parseArraySpec (Job.JobArrayReq array_job) = Ok [1; 2; 3]) as -> by by vm_compute.
    intros l i [= <-] Hi. repeat (apply elem_of_cons in Hi as [->|Hi]; [by vm_compute|]).
    by apply elem_of_nil in Hi.
  - by_decide.
Defined.

(** The rollback of a refused array is not complete outside the table: the tasks that
    were committed before the refusal stay saved on disk, and come back as jobs when the
    server restarts; the queue still counts them. *)
Theorem array_rollback_leaks :
  let q := (NewQueue "batch" TypeExecution) <| Queue.MaxJobs := 3 |> in
  let s := upd_mgr (AddJob array_job) (test_server q) in
  let '(s', r) := processJobArray test_env array_job "alice" s in
  r = Err (Rejected AtMaxQueuable) ∧ the_jobs s' = the_jobs s ∧
  is_Some (st_jobs s' !! "1[1].srv") ∧
  Queue.TotalJobs <$> (queueMgr s' !! "batch") = Some 2.
Proof. vm_compute. split_and!; eauto. Qed.

(** An array specification gives each index once, in increasing order, and "lo-hi" is
    every integer from lo to hi. *)
Theorem parseArraySpec_correct spec lo hi :
  (∀ l, parseArraySpec spec = Ok l → NoDup l ∧ Sorted Z.le l) ∧
  (0 ≤ lo ≤ hi → hi + 1 ≤ MaxInt64 →
   parseArraySpec (Itoa lo +:+ "-" +:+ Itoa hi) = Ok (int_range lo hi)).
Proof.
  split.
  - intros l. unfold parseArraySpec. destruct (foldl parse_part (Ok []) _) as [out|e|] eqn:E; [|done..].
    intros [= <-]. apply parse_parts_NoDup in E; [|constructor]. split.
    + by rewrite (merge_sort_Permutation Z.le out).
    + apply (Sorted_merge_sort Z.le).
  - intros Hl Hm. unfold parseArraySpec.
    assert (is_int64 lo ∧ is_int64 hi) as [Hlo Hhi] by (unfold_int; lia).
    assert (has_byte "," (Itoa lo +:+ "-" +:+ Itoa hi) = false) as Hc.
    { rewrite !has_byte_app. by rewrite !Itoa_no_comma. }
    rewrite Split_no_sep by done. cbn [foldl parse_part].
    rewrite TrimSpace_no_space.
    2:{ unfold no_space. rewrite !all_bytes_app. pose proof (FormatInt_no_space lo).
        pose proof (FormatInt_no_space hi). unfold no_space, Itoa in *. by rewrite H, H0. }
    rewrite decide_False.
    2:{ intros E. apply (f_equal len) in E. rewrite !len_app in E.
        pose proof (len_nonneg (Itoa lo)). pose proof (len_nonneg (Itoa hi)). simpl in E.
        change (len "-") with 1 in E. change (len "") with 0 in E. lia. }
    unfold scan_part. unfold Itoa at 1. rewrite scan_d_FormatInt by done.
    cbn [mbind option_bind]. change ("-" +:+ Itoa hi) with (String "-" (Itoa hi)).
    cbn [scan_lit]. rewrite decide_True by done. cbn [mbind option_bind].
    rewrite <- (app_str_nil_r (Itoa hi)). unfold Itoa. rewrite scan_d_FormatInt by done.
    cbn [scan_lit mbind option_bind]. rewrite int_range_values by lia.
    destruct (int_range_sorted lo hi) as [Hs Hn].
    rewrite (add_indices_fresh _ []) by done. f_equal. cbn [app].
    apply (Sorted_unique Z.le); [apply Sorted_merge_sort, _|done|apply merge_sort_Permutation].
Qed.

Lemma parseArraySpec_correct_witness : parseArraySpec "5-8" = Ok [5; 6; 7; 8].
Proof.
  destruct (parseArraySpec_correct "" 5 8) as [_ H]. etransitivity; [apply H; by vm_compute|].
  by vm_compute.
Defined.
