(* ===== verification/JobControl.v ===== *)
(** * Job control: theorems about the handlers of [Submit]

    Deletion, holds, moves and reordering, and the requests that break the bookkeeping. *)

From S2P Require Import Prelude GoStd Dis DisMessage Job JobManager Node Queue Route ServerState Submit.
Import Proto.

Local Open Scope string_scope.
Local Open Scope list_scope.
Local Open Scope Z_scope.

(** ** Deletion *)

(** The state [handleDeleteJob] leaves. *)
Lemma delete_jobs env jobID s j :
  get_job env jobID s = Some j →
  the_jobs (handleDeleteJob env jobID s).1.1 = delete jobID (the_jobs s).
Proof.
  intros Hj. unfold handleDeleteJob. rewrite Hj. cbn [ok_reply fst]. autorewrite with server.
  rewrite delete_alter_eq. by destruct (Job.State j =? StateRunning); autorewrite with server.
Qed.

(** Deleting a job by its full id removes it, and only it, from the table and from the
    store, and takes it off every node it runs on with the processors it requested. *)
Theorem handleDeleteJob_removes env jobID s j name :
  server_ok s → the_jobs s !! jobID = Some j → trimmed jobID → NoDup (exec_nodes (Job.ExecHost j)) →
  let s' := (handleDeleteJob env jobID s).1.1 in
  the_jobs s' = delete jobID (the_jobs s) ∧ st_jobs s' !! jobID = None ∧
  the_nodes s' !! name
  = (if bool_decide (Job.State j = StateRunning ∧ name ∈ exec_nodes (Job.ExecHost j))
     then Node.ReleaseJob jobID (jobRequestedCPUs j) <$> the_nodes s !! name
     else the_nodes s !! name).
Proof.
  intros Hok Hj Ht Hn. pose proof (get_job_full env jobID s j Hj Ht) as Hg. cbv zeta.
  split; [by apply (delete_jobs env jobID s j)|]. unfold handleDeleteJob. rewrite Hg. cbn [ok_reply fst].
  split; [apply lookup_delete_eq|]. autorewrite with server.
  destruct (Job.State j =? StateRunning) eqn:Hst; bool_to_prop.
  - rewrite (releaseNodeResources_nodes env _ _ _ j); [|unfold get_job in *|done].
    + autorewrite with server. destruct (decide (name ∈ _)).
      * rewrite bool_decide_eq_true_2 by done. done.
      * rewrite bool_decide_eq_false_2 by naive_solver. done.
    + unfold sendDeleteToMOM, record. by case_decide; destruct (acctLog s).
  - rewrite bool_decide_eq_false_2 by naive_solver. by autorewrite with server.
Qed.

(** A running job on a node, for the evaluations below. *)
Definition running_job : Job :=
  Job.SetState (time_Unix 950) StateRunning SubstateRunning one_job
    <| Job.ExecHost := "n1/0" |> <| Job.ExecPort := 15002 |>.
Definition busy_node : Node :=
  AssignJob "1.srv" 1 ((NewNode "n1" 0) <| Node.SlotsTotal := 4 |> <| Node.State := StateFree |>).
Definition running_server : Server :=
  (upd_mgr (AddJob running_job) (test_server (IncrJobCount StateRunning (NewQueue "batch" TypeExecution))))
    <| nodeMgr := Node.mkManager {["n1" := busy_node]} [0] 1 |>.

Lemma handleDeleteJob_removes_witness :
  let s' := (handleDeleteJob test_env "1.srv" running_server).1.1 in
  the_jobs s' = delete "1.srv" (the_jobs running_server) ∧ st_jobs s' !! "1.srv" = None ∧
  the_nodes s' !! "n1" = Node.ReleaseJob "1.srv" 1 <$> the_nodes running_server !! "n1".
Proof.
  apply (handleDeleteJob_removes test_env "1.srv" running_server running_job "n1").
  - apply AddJob_ok; [apply NewManager_ok|by vm_compute..].
  - by vm_compute.
  - by vm_compute.
  - by_decide.
Defined.

(** Deleting a job by its bare number is answered with success but does not delete it:
    the number finds the job, then the removal looks for a job with that number as its
    id.  A running job goes on, its slots are freed while the node still lists it, and
    the queue counts one job less. *)
Theorem delete_short_id_leaks :
  let '(s', r, _) := handleDeleteJob test_env "1" running_server in
  r = SendOkReply ∧ the_jobs s' !! "1.srv" = Some running_job ∧
  option_map Node.SlotsUsed (the_nodes s' !! "n1") = Some 0 ∧
  option_map AssignedJobs (the_nodes s' !! "n1") = Some ["1.srv"] ∧
  option_map Queue.TotalJobs (queueMgr s' !! "batch") = Some 0.
Proof. by vm_compute. Qed.

(** A second Commit of a job that is running is accepted and puts it back in the queue,
    with its node still assigned: the scheduler will start it a second time. *)
Theorem commit_running_requeues :
  match handleCommit test_env "1.srv" running_server with
  | Some (s', r, _) =>
      rp_code r = 0 ∧ option_map Job.State (the_jobs s' !! "1.srv") = Some StateQueued ∧
      option_map AssignedJobs (the_nodes s' !! "n1") = Some ["1.srv"]
  | None => False
  end.
Proof. by vm_compute. Qed.

(** Qalter with a hold on a running job marks it held although it runs on: its state no
    longer says so, while its node stays assigned. *)
Theorem modify_hold_running :
  let '(s', r, _) :=
    handleModifyJob test_env "1.srv" [mkAttr "Hold_Types" false "" "u" 1] running_server in
  r = SendOkReply ∧ option_map Job.State (the_jobs s' !! "1.srv") = Some StateHeld ∧
  option_map AssignedJobs (the_nodes s' !! "n1") = Some ["1.srv"].
Proof. by vm_compute. Qed.

(** ** Holds *)

(** A hold takes effect on queued and waiting jobs only; a queued job that is held and
    then released is queued again, without hold types, and the counters of its queue are
    back to what they were. *)
Theorem hold_release env env' jobID s j q l :
  server_ok s → the_jobs s !! jobID = Some j → trimmed jobID →
  (Job.State j ∉ [StateQueued; StateWaiting] → handleHoldJob env jobID s = ok_reply s) ∧
  (Job.State j = StateQueued → queueMgr s !! Job.Queue j = Some q → counts q l → StateQueued ∈ l →
   let s' := (handleReleaseJob env' jobID (handleHoldJob env jobID s).1.1).1.1 in
   (∃ j', the_jobs s' !! jobID = Some j' ∧ Job.State j' = StateQueued ∧ Job.HoldTypes j' = "") ∧
   (∃ q' l', queueMgr s' !! Job.Queue j = Some q' ∧ counts q' l' ∧ l' ≡ₚ l)).
Proof.
  intros Hok Hj Ht. pose proof (get_job_full env jobID s j Hj Ht) as Hg.
  assert (Job.ID j = jobID) as Hid by by apply (ok_ids _ Hok).
  split.
  - intros Hst. unfold handleHoldJob. rewrite Hg. cbv zeta.
    replace (Job.State j =? StateQueued) with false by (symmetry; apply Z.eqb_neq; set_solver).
    by replace (Job.State j =? StateWaiting) with false by (symmetry; apply Z.eqb_neq; set_solver).
  - intros Hst Hq Hc Hin. unfold handleHoldJob. rewrite Hg. cbv zeta. rewrite Hst.
    change (StateQueued =? StateQueued) with true. cbn [orb].
    set (h := Job.SetState _ StateHeld _ j).
    set (s1 := (ok_reply _).1.1).
    assert (the_jobs s1 !! jobID = Some h) as H1.
    { unfold s1. cbn [ok_reply fst]. autorewrite with server. unfold h. rewrite SetState_ID, Hid.
      apply lookup_insert_eq. }
    assert (Job.State h = StateHeld ∧ Job.Queue h = Job.Queue j ∧ Job.ID h = jobID) as (Hh1 & Hh2 & Hh3).
    { unfold h. by rewrite SetState_State, SetState_Queue, SetState_ID. }
    assert (queueMgr s1 !! Job.Queue j = Some (TransferJobState StateQueued StateHeld q)) as Hq1.
    { unfold s1. cbn [ok_reply fst]. rewrite lookup_upd_queue.
      change (queueMgr (upd_job h s)) with (queueMgr s). by rewrite Hq. }
    unfold handleReleaseJob. rewrite (get_job_full env' jobID s1 h H1 Ht). cbv zeta.
    change (Job.State (h <| Job.HoldTypes := "" |>)) with (Job.State h). rewrite Hh1.
    change (StateHeld =? StateHeld) with true. cbv iota.
    change (Job.Queue (h <| Job.HoldTypes := "" |>)) with (Job.Queue h). rewrite Hh2.
    cbn [ok_reply fst]. split.
    + eexists. split_and!.
      * autorewrite with server. rewrite SetState_ID. change (Job.ID (h <| Job.HoldTypes := "" |>)) with (Job.ID h).
        rewrite Hh3. apply lookup_insert_eq.
      * by rewrite SetState_State.
      * by rewrite SetState_HoldTypes.
    + rewrite queues_trigger.
      exists (TransferJobState StateHeld StateQueued (TransferJobState StateQueued StateHeld q)),
        (StateQueued :: remove1 StateHeld (StateHeld :: remove1 StateQueued l)).
      split_and!.
      * rewrite lookup_upd_queue. change (queueMgr (upd_job ?a s1)) with (queueMgr s1). by rewrite Hq1.
      * apply TransferJobState_counts; [by apply TransferJobState_counts|left].
      * cbn [remove1]. rewrite decide_True by done. symmetry. by apply remove1_perm.
Qed.

Definition queued_job : Job := Job.SetState (time_Unix 950) StateQueued SubstateQueued one_job.
Definition queued_server : Server :=
  upd_mgr (AddJob queued_job) (test_server (IncrJobCount StateQueued (NewQueue "batch" TypeExecution))).

Lemma queued_server_ok : server_ok queued_server.
Proof. apply AddJob_ok; [apply NewManager_ok|by vm_compute..]. Qed.

Lemma hold_release_witness :
  let s' := (handleReleaseJob test_env "1.srv" (handleHoldJob test_env "1.srv" queued_server).1.1).1.1 in
  ∃ j', the_jobs s' !! "1.srv" = Some j' ∧ Job.State j' = StateQueued ∧ Job.HoldTypes j' = "".
Proof.
  destruct (hold_release test_env test_env "1.srv" queued_server queued_job
    (IncrJobCount StateQueued (NewQueue "batch" TypeExecution)) [StateQueued]) as [_ H].
  - apply queued_server_ok.
  - by vm_compute.
  - by vm_compute.
  - apply H; [by vm_compute|by vm_compute| |by_decide].
    apply IncrJobCount_counts; [apply NewQueue_counts|by vm_compute].
Defined.

(** ** Moves *)

(** A job that runs, exits, is complete or waits for a machine cannot be moved; any
    other job moves with its state, leaves the source queue and enters the destination:
    both queues' counters stay exact. *)
Theorem handleMoveJob_correct env jobID dest s j q1 q2 l1 l2 :
  server_ok s → the_jobs s !! jobID = Some j → trimmed jobID → has_byte "@" dest = false →
  queueMgr s !! Job.Queue j = Some q1 → queueMgr s !! dest = Some q2 → Job.Queue j ≠ dest →
  counts q1 l1 → counts q2 l2 → Job.State j ∈ l1 → Z.of_nat (length l2) + 1 < 2 ^ 60 →
  let '(s', r, _) := handleMoveJob env jobID dest s in
  if bool_decide (Job.State j ∈ [StateRunning; StateExiting; StateComplete; StateProvisioning])
  then s' = s ∧ rp_code r = PbseBadReq
  else the_jobs s' = <[jobID := j <| Job.Queue := dest |>]> (the_jobs s) ∧ rp_code r = 0 ∧
       (∃ q, queueMgr s' !! Job.Queue j = Some q ∧ counts q (remove1 (Job.State j) l1)) ∧
       (∃ q, queueMgr s' !! dest = Some q ∧ counts q (Job.State j :: l2)).
Proof.
  intros Hok Hj Ht Hd Hq1 Hq2 Hne Hc1 Hc2 Hin Hl2.
  assert (Job.ID j = jobID) as Hid by by apply (ok_ids _ Hok).
  unfold handleMoveJob. rewrite (get_job_full env jobID s j Hj Ht). cbv zeta.
  unfold split_hd. rewrite Split_no_sep by done. cbn [hd]. unfold GetQueue. rewrite Hq2.
  destruct (bool_decide _); [done|]. rewrite decide_False by done. cbn [ok_reply fst snd].
  split_and!.
  - autorewrite with server. change (Job.ID (j <| Job.Queue := dest |>)) with (Job.ID j). by rewrite Hid.
  - done.
  - exists (DecrJobCount (Job.State j) q1). split; [|by apply DecrJobCount_counts].
    change (queueMgr (saveJob ?a ?b)) with (queueMgr b). rewrite queues_trigger.
    rewrite lookup_upd_queue_ne by done. rewrite lookup_upd_queue. change (queueMgr (upd_job ?a s)) with (queueMgr s). by rewrite Hq1.
  - exists (IncrJobCount (Job.State j) q2). split; [|apply IncrJobCount_counts; [done|lia]].
    change (queueMgr (saveJob ?a ?b)) with (queueMgr b). rewrite queues_trigger.
    rewrite lookup_upd_queue, lookup_upd_queue_ne by done.
    change (queueMgr (upd_job ?a s)) with (queueMgr s). by rewrite Hq2.
Qed.

Definition two_queue_server : Server :=
  queued_server <| queueMgr := <["long" := NewQueue "long" TypeExecution]> (queueMgr queued_server) |>.

Lemma handleMoveJob_correct_witness :
  let '(s', r, _) := handleMoveJob test_env "1.srv" "long" two_queue_server in
  the_jobs s' = <["1.srv" := queued_job <| Job.Queue := "long" |>]> (the_jobs two_queue_server) ∧
  rp_code r = 0 ∧
  (∃ q, queueMgr s' !! "batch" = Some q ∧ counts q (remove1 StateQueued [StateQueued])) ∧
  (∃ q, queueMgr s' !! "long" = Some q ∧ counts q [StateQueued]).
Proof.
  apply (handleMoveJob_correct test_env "1.srv" "long" two_queue_server queued_job
    (IncrJobCount StateQueued (NewQueue "batch" TypeExecution)) (NewQueue "long" TypeExecution)
    [StateQueued] []).
  - apply queued_server_ok.
  - by vm_compute.
  - by vm_compute.
  - by vm_compute.
  - by vm_compute.
  - by vm_compute.
  - by vm_compute.
  - apply IncrJobCount_counts; [apply NewQueue_counts|by vm_compute].
  - apply NewQueue_counts.
  - by_decide.
  - by vm_compute.
Defined.

(** ** Order *)

(** Ordering two different jobs swaps their creation times and nothing else; ordering a
    job with itself, under whatever two names, never gets a reply. *)
Theorem handleOrderJob_swaps env id1 id2 s j1 j2 :
  server_ok s → get_job env id1 s = Some j1 → get_job env id2 s = Some j2 →
  match handleOrderJob env id1 id2 s with
  | None => Job.ID j1 = Job.ID j2
  | Some (s', r, _) =>
      Job.ID j1 ≠ Job.ID j2 ∧ rp_code r = 0 ∧
      the_jobs s' !! Job.ID j1 = Some (j1 <| Job.CreateTime := Job.CreateTime j2 |>) ∧
      the_jobs s' !! Job.ID j2 = Some (j2 <| Job.CreateTime := Job.CreateTime j1 |>) ∧
      ∀ k, k ≠ Job.ID j1 → k ≠ Job.ID j2 → the_jobs s' !! k = the_jobs s !! k
  end.
Proof.
  intros Hok H1 H2. unfold handleOrderJob. rewrite H1, H2. case_decide as Hne; [done|].
  cbv zeta. cbn [ok_reply]. autorewrite with server.
  change (Job.ID (j1 <| Job.CreateTime := Job.CreateTime j2 |>)) with (Job.ID j1).
  change (Job.ID (j2 <| Job.CreateTime := Job.CreateTime j1 |>)) with (Job.ID j2).
  split_and!; [done..| | |].
  - rewrite lookup_insert_ne by done. apply lookup_insert_eq.
  - apply lookup_insert_eq.
  - intros k Hk1 Hk2. by rewrite !lookup_insert_ne by done.
Qed.

Lemma handleOrderJob_swaps_witness :
  match handleOrderJob test_env "1.srv" "1" queued_server with
  | None => True
  | Some _ => False
  end.
Proof.
  pose proof (handleOrderJob_swaps test_env "1.srv" "1" queued_server queued_job queued_job
    queued_server_ok ltac:(by vm_compute) ltac:(by vm_compute)) as H.
  destruct (handleOrderJob test_env "1.srv" "1" queued_server) as [[[s' r] k]|]; [|done].
  by destruct H as [H _].
Defined.
