(* ===== verification/Exec.v ===== *)
(** * Running jobs: the handlers and background tasks of internal/server/server.go

    Starting a job on its nodes, its end, requeueing, dependencies, node health, recovery
    after a restart and the purge of completed jobs. *)

From S2P Require Import Prelude GoStd Dis DisMessage Job JobManager Node Queue Route ServerState.
From S2P Require Import Submit.
Import Proto.

Local Open Scope string_scope.
Local Open Scope list_scope.
Local Open Scope Z_scope.

(** ** Dependencies *)

Inductive dep_verdict := DepOk | DepWait | DepFailed (comment : string).

Definition check_dep (env : Env) (s : Server) (depType depID : string) : dep_verdict :=
  let depID := TrimSpace depID in
  if decide (depID = "") then DepOk
  else
    let depJob := get_job env depID s in
    if decide (depType = "afterok") then
      match depJob with
      | None => DepOk
      | Some d =>
        if negb (Job.State d =? StateComplete) then DepWait
        else if negb (Job.ExitStatus d =? 0)
        then DepFailed ("dependency " +:+ depID +:+ " failed (exit=" +:+ Itoa (Job.ExitStatus d) +:+ ")")
        else DepOk
      end
    else if decide (depType = "afternotok") then
      match depJob with
      | None => DepWait
      | Some d =>
        if negb (Job.State d =? StateComplete) then DepWait
        else if Job.ExitStatus d =? 0 then DepWait else DepOk
      end
    else if decide (depType = "afterany") then
      match depJob with
      | None => DepOk
      | Some d => if negb (Job.State d =? StateComplete) then DepWait else DepOk
      end
    else DepOk.

(** The dependencies of a list, "type:jobid[:jobid][,type:jobid...]", in order. *)
Definition clause_deps (clause : string) : list (string * string) :=
  match cut ":" clause with
  | None => []
  | Some (depType, ids) => (λ id, (depType, id)) <$> Split ":" ids
  end.
Definition parse_deps (depStr : string) : list (string * string) :=
  Split "," depStr ≫= clause_deps.

Fixpoint check_deps (env : Env) (s : Server) (deps : list (string * string)) : dep_verdict :=
  match deps with
  | [] => DepOk
  | (ty, id) :: deps =>
    match check_dep env s ty id with
    | DepOk => check_deps env s deps
    | v => v
    end
  end.

Definition checkDependencies (env : Env) (j : Job) (s : Server) : Server * bool :=
  if decide (Job.DependList j = "") then (s, true)
  else match check_deps env s (parse_deps (Job.DependList j)) with
       | DepOk => (s, true)
       | DepWait => (s, false)
       | DepFailed c => (upd_job (j <| Job.Comment := c |>) s, false)
       end.

(** ** Starting a job *)

(** The end of a dispatch: the job is running on [execHost]. *)
Definition start_job (env : Env) (j : Job) (s : Server) : Server :=
  let oldState := Job.State j in
  let j := Job.SetState (now env) StateRunning SubstateRunning j in
  let s := upd_job j s in
  let s := upd_queue (Job.Queue j) (TransferJobState oldState StateRunning) s in
  record (RecordStarted (Job.ID j)) (saveJob j s).

(** The loop of [runJobMulti] over the node table, in its order. *)
Fixpoint fill_nodes (nodeCount ppn : Z) (selected ks : list string) (s : Server) : list string :=
  match ks with
  | [] => selected
  | k :: ks =>
    if nodeCount <=? Z.of_nat (length selected) then selected
    else
      let selected :=
        if decide (k ∈ selected) then selected
        else match get_node k s with
             | Some n => if IsFree n && (ppn <=? AvailableSlots n) then selected ++ [k] else selected
             | None => selected
             end in
      fill_nodes nodeCount ppn selected ks s
  end.

Definition assign_on (jobID : string) (slots : Z) (s : Server) (name : string) : Server :=
  upd_node name (Node.AssignJob jobID slots) s.

Definition exec_host (names : list string) : string := Join "+" ((λ n, n +:+ "/0") <$> names).

Definition runJobMulti (env : Env) (j : Job) (firstNode : string) (momPort nodeCount ppn : Z)
    (s : Server) : Server * bool :=
  let selected := fill_nodes nodeCount ppn [firstNode] (node_order env) s in
  if Z.of_nat (length selected) <? nodeCount then (s, false)
  else
    let s := foldl (assign_on (Job.ID j) ppn) s selected in
    let j := j <| Job.ExecHost := exec_host selected |> <| Job.ExecPort := momPort |>
               <| Job.NodeCount := nodeCount |> <| Job.TaskCount := int64 (nodeCount * ppn) |> in
    let s := start_job env j s in
    (foldl (λ s n, emit (DispatchToMOM (Job.ID j) n) s) s selected, true).

(** RunJob is in two parts, between which the source holds no lock: the checks, which answer
    the request or give the node and the job to start, and the start. *)
Inductive run_checked :=
  | RunAnswered (h : Handled)
  | RunChecked (nodeName : string) (n : Node) (j : Job).

Definition run_check (env : Env) (jobID dest : string) (s : Server) : run_checked :=
  if haEnabled s && negb (haActive s) then RunAnswered (err_reply PbseBadReq true s)
  else match get_job env jobID s with
  | None => RunAnswered (err_reply PbseUnkjobid true s)
  | Some j =>
    if negb (Job.State j =? StateQueued) && negb (Job.State j =? StateProvisioning)
    then RunAnswered (err_reply PbseBadReq true s)
    else if negb (enforceRunLimits j s) then RunAnswered (err_reply PbsePerm true s)
    else
      let '(s, deps_ok) := checkDependencies env j s in
      if negb deps_ok then RunAnswered (err_reply PbseBadReq true s)
      else if decide (dest = "") then RunAnswered (ok_reply (triggerSched s))
      else
        let nodeName := split_hd "/" dest in
        match get_node nodeName s with
        | None => RunAnswered (err_reply PbseUnkNode true s)
        | Some n => RunChecked nodeName n j
        end
  end.

Definition run_start (env : Env) (nodeName : string) (n : Node) (j : Job) (s : Server) : Handled :=
  let '(nodeCount, ppn) := jobNodeRequest j in
  if 1 <? nodeCount
  then ok_reply (runJobMulti env j nodeName (Node.MomPort n) nodeCount ppn s).1
  else
    let s := assign_on (Job.ID j) (jobRequestedCPUs j) s nodeName in
    let j := j <| Job.ExecHost := Node.Name n +:+ "/0" |> <| Job.ExecPort := Node.MomPort n |> in
    let s := start_job env j s in
    ok_reply (emit (DispatchToMOM (Job.ID j) nodeName) s).

(** The request without another one in between. *)
Definition handleRunJob (env : Env) (jobID dest : string) (s : Server) : Handled :=
  match run_check env jobID dest s with
  | RunAnswered h => h
  | RunChecked nodeName n j => run_start env nodeName n j s
  end.

(** The start after others have used the server: the handler holds pointers to the node and the
    job, so it sees their present records. *)
Definition run_resume (env : Env) (nodeName : string) (n : Node) (j : Job) (s : Server) : Handled :=
  run_start env nodeName (default n (the_nodes s !! nodeName)) (default j (the_jobs s !! Job.ID j)) s.

(** ** The end of a job *)

Definition apply_used (used : gmap string string) (a : SvrAttrl) : gmap string string :=
  if bool_decide (DisMessage.Name a = "resources_used") && HasResc a
  then <[Resc a := Value a]> used else used.

(** The job as its obituary leaves it: complete, with its exit status and the resources used. *)
Definition obit_job (env : Env) (exitStatus : Z) (attrs : list SvrAttrl) (j : Job) : Job :=
  let j := Job.SetState (now env) StateComplete SubstateComplete (j <| Job.ExitStatus := exitStatus |>) in
  j <| Job.ResourceUsed := foldl apply_used (Job.ResourceUsed j) attrs |>.

Definition handleJobObit (env : Env) (remote : string) (privileged : bool) (jobID : string)
    (exitStatus : Z) (attrs : list SvrAttrl) (s : Server) : Handled :=
  if negb privileged && negb (bool_decide (is_Some (authMap s !! remote)))
  then err_reply PbseBadCred false s
  else match get_job env jobID s with
  | None => ok_reply s
  | Some j =>
    let oldState := Job.State j in
    let j := obit_job env exitStatus attrs j in
    let s := upd_job j s in
    let execHost := Job.ExecHost j in
    let s := if decide (execHost = "") then s else releaseNodeResources env execHost jobID s in
    let s := upd_queue (Job.Queue j) (TransferJobState oldState StateComplete) s in
    let s := saveJob j s in
    let s := record (if (exitStatus <? 0) || (128 <? exitStatus) then RecordAborted jobID
                     else RecordEnded jobID) s in
    ok_reply (triggerSched s)
  end.

(** ** Requeueing *)

(** The job back in the queue, without its nodes. *)
Definition requeued (env : Env) (j : Job) : Job :=
  Job.SetState (now env) StateQueued SubstateQueued
    (j <| Job.ExecHost := "" |> <| Job.ExecPort := 0 |>).

Definition handleRerunJob (env : Env) (jobID : string) (s : Server) : Handled :=
  match get_job env jobID s with
  | None => err_reply PbseUnkjobid true s
  | Some j =>
    let reqCPUs := jobRequestedCPUs j in
    let oldState := Job.State j in
    if negb (oldState =? StateRunning) && negb (oldState =? StateQueued)
    then err_reply PbseBadReq true s
    else
      let s :=
        if (oldState =? StateRunning) && negb (bool_decide (Job.ExecHost j = ""))
        then release_on (Job.ID j) reqCPUs s (split_hd "/" (Job.ExecHost j)) else s in
      let j := requeued env j in
      let s := upd_job j s in
      let s := upd_queue (Job.Queue j) (TransferJobState oldState StateQueued) s in
      ok_reply (triggerSched (saveJob j s))
  end.

(** A dispatch to a node that failed; [j] is the job the dispatcher holds. *)
Definition undoJobDispatch (env : Env) (j : Job) (node : string) (s : Server) : Server :=
  let j := (Job.SetState (now env) StateQueued SubstateQueued j)
             <| Job.ExecHost := "" |> <| Job.ExecPort := 0 |> in
  let s := upd_job j s in
  let s := release_on (Job.ID j) (jobRequestedCPUs j) s node in
  upd_queue (Job.Queue j) (TransferJobState StateRunning StateQueued) s.

(** One job of a node that went down. *)
Definition requeue_from (env : Env) (nodeName : string) (s : Server) (jid : string) : Server :=
  match get_job env jid s with
  | None => s
  | Some j =>
    if negb (Job.State j =? StateRunning) then s
    else
      let oldState := Job.State j in
      let s := release_on (Job.ID j) (jobRequestedCPUs j) s nodeName in
      let j := requeued env j in
      let s := upd_job j s in
      saveJob j (upd_queue (Job.Queue j) (TransferJobState oldState StateQueued) s)
  end.

Definition requeueNodeJobs (env : Env) (nodeName : string) (s : Server) : Server :=
  if DisableAutoRequeue (cfg s) then s
  else match get_node nodeName s with
       | None => s
       | Some n => triggerSched (foldl (requeue_from env nodeName) s (AssignedJobs n))
       end.

Definition check_node (env : Env) (s : Server) (n : Node) : Server :=
  let last := Node.LastUpdate n in
  if negb (IsDown n) && (5 * Minute <? Sub (now env) last) && negb (IsZero last)
  then requeueNodeJobs env (Node.Name n) (s <| nodeMgr := MarkNodeDown (Node.Name n) (nodeMgr s) |>)
  else s.

(** The loop works on the snapshot of [AllNodes]; the nodes are pointers, so each turn sees
    the current one. *)
Definition checkNodes (env : Env) (s : Server) : Server :=
  foldl (λ s k, match get_node k s with Some n => check_node env s n | None => s end)
    s (node_order env).

(** ** Waiting jobs *)

Definition promote (env : Env) (s : Server) (id : string) : Server :=
  match the_jobs s !! id with
  | None => s
  | Some j =>
    if (Job.State j =? StateWaiting) && negb (IsZero (Job.ExecutionTime j))
       && After (now env) (Job.ExecutionTime j)
    then upd_mgr (UpdateJobState (now env) (Job.ID j) StateQueued SubstateQueued) s
    else s
  end.
Definition promoteWaitingJobs (env : Env) (s : Server) : Server :=
  foldl (promote env) s (job_order env).

(** ** Recovery *)

Definition restore_on (j : Job) (ppn : Z) (s : Server) (name : string) : Server :=
  match get_node name s with
  | None => s
  | Some n => if decide (Job.ID j ∈ AssignedJobs n) then s else assign_on (Job.ID j) ppn s name
  end.
Definition restore_job (s : Server) (id : string) : Server :=
  match the_jobs s !! id with
  | None => s
  | Some j =>
    if negb (Job.State j =? StateRunning) || bool_decide (Job.ExecHost j = "") then s
    else
      let ppn := (jobNodeRequest j).2 in
      foldl (restore_on j (if ppn <? 1 then 1 else ppn)) s (exec_nodes (Job.ExecHost j))
  end.
Definition restoreRecoveredRunningJobs (env : Env) (s : Server) : Server :=
  foldl restore_job s (job_order env).

Definition requeueRecoveredJob (env : Env) (j : Job) (s : Server) : Server :=
  let ppn := (jobNodeRequest j).2 in
  let ppn := if ppn <? 1 then 1 else ppn in
  let s := foldl (release_on (Job.ID j) ppn) s (exec_nodes (Job.ExecHost j)) in
  let oldState := Job.State j in
  let j := requeued env j in
  let s := upd_job j s in
  let s := upd_queue (Job.Queue j) (TransferJobState oldState StateQueued) s in
  triggerSched (saveJob j s).

(** The address of a node's daemon; [net.JoinHostPort] brackets a host with a colon. *)
Definition momAddr (n : Node) : string :=
  let host := if decide (Node.IP n = "") then Node.Name n else Node.IP n in
  let port := if Node.MomPort n =? 0 then 15002 else Node.MomPort n in
  (if has_byte ":" host then "[" +:+ host +:+ "]" else host) +:+ ":" +:+ Itoa port.

(** [momRunningJobs]: the jobs the daemon at an address says it runs, [None] when it cannot
    be reached. *)
Section reconcile.
Context (momRunningJobs : string → option (list string)).

Definition reconcile_job (env : Env) (sp : Server * Z) (id : string) : Server * Z :=
  let '(s, pending) := sp in
  match the_jobs s !! id with
  | None => (s, pending)
  | Some j =>
    if negb (Job.State j =? StateRunning) || bool_decide (Job.ExecHost j = "") then (s, pending)
    else match get_node (split_hd "/" (split_hd "+" (Job.ExecHost j))) s with
         | None => (s, pending)
         | Some n =>
           match momRunningJobs (momAddr n) with
           | None => (s, int64 (pending + 1))
           | Some set =>
             if decide (Job.ID j ∈ set) then (s, pending)
             else (requeueRecoveredJob env j s, pending)
           end
         end
  end.
Definition reconcileRunningJobsWithMOMs (env : Env) (s : Server) : Server * Z :=
  foldl (reconcile_job env) (s, 0) (job_order env).
End reconcile.

(** ** The purge of completed jobs *)

Definition purge_job (env : Env) (keepDuration : Z) (s : Server) (id : string) : Server :=
  match the_jobs s !! id with
  | None => s
  | Some j =>
    if (Job.State j =? StateComplete) && negb (IsZero (Job.CompTime j))
       && (keepDuration <? Sub (now env) (Job.CompTime j))
    then upd_mgr (RemoveJob (Job.ID j))
           (removeJobFiles (Job.ID j) (upd_queue (Job.Queue j) (DecrJobCount StateComplete) s))
    else s
  end.
(** One tick of [completedJobCleanup]. *)
Definition completedJobCleanup (env : Env) (s : Server) : Server :=
  foldl (purge_job env (int64 (KeepCompleted (cfg s) * Second))) s (job_order env).

(** ** Lemmas: requests *)

Lemma select_ppn_pos ppn kv : 1 ≤ ppn → 1 ≤ select_ppn ppn kv.
Proof.
  intros Hp. unfold select_ppn. destruct (strip_prefix _ _); [|done].
  destruct (atoi_ok _); [|done]. destruct (0 <? z) eqn:E; bool_to_prop; lia.
Qed.

Lemma fold_ppn_pos l ppn : 1 ≤ ppn → 1 ≤ foldl select_ppn ppn l.
Proof. revert ppn. induction l; simpl; auto using select_ppn_pos. Qed.

Lemma parse_spec_pos spec : 1 ≤ (parseNodeSelectSpec spec).2.
Proof. unfold parseNodeSelectSpec. cbv zeta. case_decide; [done|]. by apply fold_ppn_pos. Qed.

(** The slots a multi-node start takes on a node are the slots a release gives back, unless
    the request came through "select" alone. *)
Lemma cpus_agree j :
  lookup_or "" "nodes" (Job.ResourceReq j) ≠ "" ∨ lookup_or "" "select" (Job.ResourceReq j) = "" →
  (jobNodeRequest j).2 = jobRequestedCPUs j.
Proof.
  intros H. unfold jobNodeRequest. cbv zeta.
  destruct (decide (lookup_or "" "nodes" (Job.ResourceReq j) = "")) as [E|E].
  - destruct H as [H|H]; [done|]. by rewrite H.
  - rewrite decide_False by done. unfold jobRequestedCPUs. cbv zeta.
    rewrite bool_decide_eq_false_2 by done.
    pose proof (parse_spec_pos (lookup_or "" "nodes" (Job.ResourceReq j))).
    by replace (0 <? _) with true by lia.
Qed.

Lemma requestedCPUs_req j j' : Job.ResourceReq j' = Job.ResourceReq j → jobRequestedCPUs j' = jobRequestedCPUs j.
Proof. intros H. unfold jobRequestedCPUs. by rewrite H. Qed.

(** ** Lemmas: exec_host *)

Definition clean_name (n : string) : Prop := has_byte "+" n = false ∧ has_byte "/" n = false.

Lemma exec_nodes_host names : names ≠ [] → Forall clean_name names → exec_nodes (exec_host names) = names.
Proof.
  intros Hne Hc. unfold exec_nodes, exec_host. rewrite Split_Join.
  - clear Hne. induction Hc as [|n l [_ Hn] Hl IH]; [done|]. cbn [fmap list_fmap]. f_equal; [|done].
    unfold split_hd. change (n +:+ "/0") with (n +:+ String "/" "0"). by rewrite Split_cons.
  - by destruct names.
  - apply Forall_fmap. eapply Forall_impl; [exact Hc|]. intros n [Hn _]. simpl.
    by rewrite has_byte_app, Hn.
Qed.

Lemma fold_assign_nodes id k ns s name :
  NoDup ns →
  the_nodes (foldl (assign_on id k) s ns) !! name
  = if decide (name ∈ ns) then Node.AssignJob id k <$> the_nodes s !! name
    else the_nodes s !! name.
Proof.
  intros Hn. revert s. induction Hn as [|n ns Hn Hnd IH]; intros s; [done|]. cbn [foldl]. rewrite IH.
  unfold assign_on. rewrite nodes_upd_node. destruct (decide (name = n)) as [->|Hne].
  - rewrite (decide_True (P := n ∈ n :: ns)) by left. rewrite decide_False by done.
    by rewrite lookup_alter_eq.
  - rewrite lookup_alter_ne by done. do 2 case_decide; set_solver.
Qed.

Lemma fold_assign_jobs id k ns s : the_jobs (foldl (assign_on id k) s ns) = the_jobs s.
Proof. revert s. induction ns as [|n ns IH]; intros s; [done|]. simpl. by rewrite IH. Qed.

Lemma fold_dispatch_frame id ns s :
  the_jobs (foldl (λ s n, emit (DispatchToMOM id n) s) s ns) = the_jobs s ∧
  the_nodes (foldl (λ s n, emit (DispatchToMOM id n) s) s ns) = the_nodes s.
Proof. revert s. induction ns as [|n ns IH]; intros s; [done|]. simpl. apply (IH (emit _ s)). Qed.

Lemma fill_nodes_ok nodeCount ppn sel ks s :
  NoDup sel → (∀ n, n ∈ sel → is_Some (the_nodes s !! n)) →
  let sel' := fill_nodes nodeCount ppn sel ks s in
  NoDup sel' ∧ (∀ n, n ∈ sel' → is_Some (the_nodes s !! n)) ∧ sel `prefix_of` sel'.
Proof.
  revert sel. induction ks as [|k ks IH]; intros sel Hn Hs; cbn [fill_nodes]; [done|].
  destruct (_ <=? _); [done|]. cbv zeta. case_decide as Hk; [by apply IH|].
  destruct (get_node k s) as [n|] eqn:Hg; [|by apply IH].
  destruct (_ && _); [|by apply IH].
  destruct (IH (sel ++ [k])) as (H1 & H2 & H3).
  - apply NoDup_app. split_and!; [done| |apply NoDup_singleton].
    by intros x Hx ->%list_elem_of_singleton.
  - intros x [Hx| ->%list_elem_of_singleton]%elem_of_app; [auto|]. by exists n.
  - split_and!; [done..|]. etransitivity; [|exact H3]. by eexists.
Qed.

Lemma start_job_jobs env j s :
  the_jobs (start_job env j s)
  = <[Job.ID j := Job.SetState (now env) StateRunning SubstateRunning j]> (the_jobs s).
Proof. unfold start_job. cbv zeta. autorewrite with server. by rewrite SetState_ID. Qed.

Lemma start_job_nodes env j s : the_nodes (start_job env j s) = the_nodes s.
Proof. unfold start_job. cbv zeta. by autorewrite with server. Qed.

(** ** What RunJob does *)

(** Job [j1] is [j] running on [names] with [slots] slots on each. *)
Record started (env : Env) (s s1 : Server) (j j1 : Job) (names : list string) (slots : Z) : Prop := {
  st_active : haEnabled s = true → haActive s = true;
  st_state : Job.State j = StateQueued ∨ Job.State j = StateProvisioning;
  st_limits : enforceRunLimits j s = true;
  st_deps : checkDependencies env j s = (s, true);
  st_table : the_jobs s1 = <[Job.ID j := j1]> (the_jobs s);
  st_run : Job.State j1 = StateRunning;
  st_host : Job.ExecHost j1 = exec_host names;
  st_same : Job.ID j1 = Job.ID j ∧ Job.ResourceReq j1 = Job.ResourceReq j ∧ Job.Owner j1 = Job.Owner j;
  st_names : names ≠ [] ∧ NoDup names ∧ ∀ n, n ∈ names → is_Some (the_nodes s !! n);
  st_slots : slots = (if 1 <? (jobNodeRequest j).1 then (jobNodeRequest j).2 else jobRequestedCPUs j);
  st_placed : ∀ n, the_nodes s1 !! n =
    if decide (n ∈ names) then Node.AssignJob (Job.ID j) slots <$> the_nodes s !! n
    else the_nodes s !! n;
}.

(** The request changes nothing but perhaps the comment of a job. *)
Definition not_started (s s1 : Server) : Prop :=
  the_nodes s1 = the_nodes s ∧
  (the_jobs s1 = the_jobs s ∨
   ∃ j c, the_jobs s !! Job.ID j = Some j ∧ the_jobs s1 = <[Job.ID j := j <| Job.Comment := c |>]> (the_jobs s)).

Definition named (s : Server) : Prop := ∀ k n, the_nodes s !! k = Some n → Node.Name n = k.

Lemma runJobMulti_started env j first port cnt ppn s s1 ok :
  runJobMulti env j first port cnt ppn s = (s1, ok) → is_Some (the_nodes s !! first) →
  (s1 = s) ∨
  ∃ j1 names, names ≠ [] ∧ NoDup names ∧ (∀ n, n ∈ names → is_Some (the_nodes s !! n)) ∧
    the_jobs s1 = <[Job.ID j := j1]> (the_jobs s) ∧ Job.State j1 = StateRunning ∧
    Job.ExecHost j1 = exec_host names ∧ Job.ID j1 = Job.ID j ∧
    Job.ResourceReq j1 = Job.ResourceReq j ∧ Job.Owner j1 = Job.Owner j ∧
    ∀ n, the_nodes s1 !! n =
      if decide (n ∈ names) then Node.AssignJob (Job.ID j) ppn <$> the_nodes s !! n
      else the_nodes s !! n.
Proof.
  unfold runJobMulti. cbv zeta. set (names := fill_nodes cnt ppn [first] (node_order env) s).
  destruct (_ <? cnt); intros [= <- <-] Hf; [by left|]. right.
  destruct (fill_nodes_ok cnt ppn [first] (node_order env) s) as (Hnd & Hin & Hp);
    [apply NoDup_singleton|by intros n ->%list_elem_of_singleton|]. fold names in Hnd, Hin, Hp.
  set (j' := j <| Job.ExecHost := _ |> <| Job.ExecPort := _ |> <| Job.NodeCount := _ |> <| Job.TaskCount := _ |>).
  exists (Job.SetState (now env) StateRunning SubstateRunning j'), names.
  destruct (fold_dispatch_frame (Job.ID j) names (start_job env j' (foldl (assign_on (Job.ID j) ppn) s names)))
    as [Hj Hn]. change (Job.ID j') with (Job.ID j).
  split_and!; [|done|done| | | | | | |].
  - intros E. rewrite E in Hp. by apply prefix_nil_inv in Hp.
  - rewrite Hj, start_job_jobs, fold_assign_jobs. done.
  - by rewrite SetState_State.
  - by rewrite SetState_ExecHost.
  - by rewrite SetState_ID.
  - by rewrite SetState_ResourceReq.
  - by rewrite SetState_Owner.
  - intros n. rewrite Hn, start_job_nodes. by apply fold_assign_nodes.
Qed.

Lemma run_cases env jobID dest s s1 r b :
  ids_ok s → named s → handleRunJob env jobID dest s = (s1, r, b) →
  not_started s s1 ∨
  ∃ j j1 names slots, get_job env jobID s = Some j ∧ started env s s1 j j1 names slots.
Proof.
  intros Hok Hnm. unfold handleRunJob, run_check, run_start.
  destruct (haEnabled s && negb (haActive s)) eqn:Hha; [intros [= <- <- <-]; left; split; auto|].
  destruct (get_job env jobID s) as [j|] eqn:Hj; [|intros [= <- <- <-]; left; split; auto].
  pose proof (get_job_stored env jobID s j Hok Hj) as Hst.
  destruct (negb _ && negb _) eqn:Hstate; [intros [= <- <- <-]; left; split; auto|].
  destruct (enforceRunLimits j s) eqn:Hlim; [|intros [= <- <- <-]; left; split; auto]. cbn [negb].
  destruct (checkDependencies env j s) as [s0 dok] eqn:Hdep.
  assert (not_started s s0 ∧ (dok = true → s0 = s)) as [Hns Hs0].
  { unfold checkDependencies in Hdep. case_decide; [injection Hdep as <- <-; by repeat split; auto|].
    destruct (check_deps _ _ _); injection Hdep as <- <-; repeat split; auto; try done.
    right. by exists j, comment. }
  destruct dok; cbn [negb]; [|intros [= <- <- <-]; by left]. specialize (Hs0 eq_refl) as ->.
  case_decide; [intros [= <- <- <-]; left; split; [by rewrite nodes_trigger|left; by autorewrite with server]|].
  destruct (get_node (split_hd "/" dest) s) as [n|] eqn:Hn; [|intros [= <- <- <-]; left; split; auto].
  set (nodeName := split_hd "/" dest) in *.
  assert (Job.State j = StateQueued ∨ Job.State j = StateProvisioning) as Hs.
  { apply andb_false_iff in Hstate as [E|E]; bool_to_prop; auto. }
  assert (haEnabled s = true → haActive s = true) as Hact.
  { intros E. rewrite E in Hha. by destruct (haActive s). }
  destruct (jobNodeRequest j) as [cnt ppn] eqn:Hreq. destruct (1 <? cnt) eqn:Hcnt.
  - destruct (runJobMulti env j nodeName (Node.MomPort n) cnt ppn s) as [s2 ok] eqn:Hm.
    intros [= <- <- <-]. apply runJobMulti_started in Hm as [->|(j1 & names & ? & ? & ? & ? & ? & ? & ? & ? & ? & ?)];
      [left; split; auto| |by eexists].
    right. exists j, j1, names, ppn. split; [done|]. split; auto. by rewrite Hreq; cbn [fst snd]; rewrite Hcnt.
  - intros [= <- <- <-]. right.
    set (j' := j <| Job.ExecHost := _ |> <| Job.ExecPort := _ |>).
    exists j, (Job.SetState (now env) StateRunning SubstateRunning j'), [nodeName], (jobRequestedCPUs j).
    split; [done|]. split; [done|done|done|done|..].
    + rewrite jobs_emit, start_job_jobs. done.
    + by rewrite SetState_State.
    + rewrite SetState_ExecHost. unfold exec_host. simpl. by rewrite (Hnm nodeName n Hn).
    + by rewrite SetState_ID, SetState_ResourceReq, SetState_Owner.
    + split_and!; [done|apply NoDup_singleton|]. intros x ->%list_elem_of_singleton. by exists n.
    + by rewrite Hreq; cbn [fst snd]; rewrite Hcnt.
    + intros x. change (the_nodes (emit ?a ?b)) with (the_nodes b). rewrite start_job_nodes.
      apply (fold_assign_nodes _ _ [nodeName]). apply NoDup_singleton.
Qed.

(** ** Lemmas: dependencies *)

Lemma check_deps_ok env s deps :
  check_deps env s deps = DepOk → ∀ ty id, (ty, id) ∈ deps → check_dep env s ty id = DepOk.
Proof.
  induction deps as [|[ty id] deps IH]; simpl; [by intros _ ?? ?%elem_of_nil|].
  destruct (check_dep env s ty id) eqn:E; [|done..]. intros H ty' id' [[= -> ->]|Hin]%elem_of_cons; auto.
Qed.

(** What a satisfied dependency says of the job it names. *)
Definition dep_holds (ty : string) (d : Job) : Prop :=
  (ty = "afterok" → Job.State d = StateComplete ∧ Job.ExitStatus d = 0) ∧
  (ty = "afternotok" → Job.State d = StateComplete ∧ Job.ExitStatus d ≠ 0) ∧
  (ty = "afterany" → Job.State d = StateComplete).

Lemma check_dep_holds env s ty id d :
  check_dep env s ty id = DepOk → TrimSpace id ≠ "" → get_job env (TrimSpace id) s = Some d → dep_holds ty d.
Proof.
  unfold check_dep. cbv zeta. intros H Hne Hd. rewrite decide_False, Hd in H by done.
  unfold dep_holds. repeat case_decide; subst; split_and!; intros; try done; simplify_eq;
    repeat (case_match; try done); bool_to_prop; done.
Qed.

(** ** Lemmas: the end of a job *)

Lemma set_used_frame u (j : Job) :
  let j1 := j <| Job.ResourceUsed := u |> in
  Job.ExecHost j1 = Job.ExecHost j ∧ Job.ID j1 = Job.ID j ∧ Job.ResourceReq j1 = Job.ResourceReq j ∧
  Job.Queue j1 = Job.Queue j ∧ Job.State j1 = Job.State j ∧ Job.ExitStatus j1 = Job.ExitStatus j.
Proof. by destruct j. Qed.

Lemma set_exit_frame e (j : Job) :
  let j1 := j <| Job.ExitStatus := e |> in
  Job.ExecHost j1 = Job.ExecHost j ∧ Job.ID j1 = Job.ID j ∧ Job.ResourceReq j1 = Job.ResourceReq j ∧
  Job.Queue j1 = Job.Queue j ∧ Job.ExitStatus j1 = e.
Proof. by destruct j. Qed.

Lemma obit_job_frame env exit attrs j :
  let j1 := obit_job env exit attrs j in
  Job.ExecHost j1 = Job.ExecHost j ∧ Job.ID j1 = Job.ID j ∧ Job.ResourceReq j1 = Job.ResourceReq j ∧
  Job.Queue j1 = Job.Queue j ∧ Job.State j1 = StateComplete ∧ Job.ExitStatus j1 = exit.
Proof.
  cbv zeta. unfold obit_job. cbv zeta.
  match goal with |- context [set_field ?u (Job.SetState ?a ?b ?c ?d)] =>
    destruct (set_used_frame u (Job.SetState a b c d)) as (-> & -> & -> & -> & -> & ->) end.
  autorewrite with job. rewrite SetState_ExitStatus.
  destruct (set_exit_frame exit j) as (-> & -> & -> & -> & ->). by split_and!.
Qed.
Strategy 100 [obit_job].

Lemma exec_host_nonempty names : names ≠ [] → Forall clean_name names → exec_host names ≠ "".
Proof.
  intros Hne Hcl E. pose proof (exec_nodes_host names Hne Hcl) as H. rewrite E in H.
  destruct names as [|a names]; [done|]. cbn in H. injection H as <- <-. by vm_compute in E.
Qed.

(** The nodes after the obituary of a known job with an execution host. *)
Lemma obit_nodes env remote jobID exit attrs s j name :
  get_job env jobID s = Some j → Job.ID j = jobID → trimmed jobID →
  Job.ExecHost j ≠ "" → NoDup (exec_nodes (Job.ExecHost j)) →
  the_nodes (handleJobObit env remote true jobID exit attrs s).1.1 !! name =
  if decide (name ∈ exec_nodes (Job.ExecHost j))
  then Node.ReleaseJob jobID (jobRequestedCPUs j) <$> the_nodes s !! name
  else the_nodes s !! name.
Proof.
  intros Hj Hid Htr Hne Hnd. unfold handleJobObit. cbn [negb andb]. rewrite Hj. cbv zeta.
  destruct (obit_job_frame env exit attrs j) as (Hh & Hi & Hr & _).
  set (j1 := obit_job env exit attrs j) in *. clearbody j1. rewrite Hh, decide_False by done.
  cbn [ok_reply fst]. autorewrite with server.
  rewrite (releaseNodeResources_nodes env _ _ _ j1); [|apply get_job_full; [|done]|done].
  - rewrite nodes_upd_job, (requestedCPUs_req j j1) by done. done.
  - rewrite jobs_upd_job, Hi, Hid. apply lookup_insert_eq.
Qed.

