(* ===== verification/ExecSpec.v ===== *)
(** * What running, ending and requeueing jobs guarantees

    Theorems about the handlers and background tasks of Exec: the guards of a start, the
    conservation of slots between a start and an end, requeueing, recovery, promotion of
    waiting jobs and the purge of completed ones. *)

From S2P Require Import Prelude GoStd Dis DisMessage Job JobManager Node Queue Route ServerState.
From S2P Require Import Submit JobControl Exec.
Import Proto.

Local Open Scope string_scope.
Local Open Scope list_scope.
Local Open Scope Z_scope.

(** ** Fixtures *)

Definition free_node (name : string) (id : Z) : Node :=
  (NewNode name id) <| Node.SlotsTotal := 4 |> <| Node.State := StateFree |>.
Definition pair_server (req : gmap string string) : Server :=
  (upd_mgr (AddJob (queued_job <| Job.ResourceReq := req |>))
     (test_server (IncrJobCount StateQueued (NewQueue "batch" TypeExecution))))
    <| nodeMgr := Node.mkManager {["n1" := free_node "n1" 0; "n2" := free_node "n2" 1]} [0; 1] 2 |>.
Definition pair_env : Env := mkEnv (time_Unix 1000) ["1.srv"] ["n1"; "n2"] ["batch"] "head".

Lemma pair_server_ok req : server_ok (pair_server req).
Proof.
  apply AddJob_ok; [apply NewManager_ok|by vm_compute..].
Qed.

Lemma pair_named req : named (pair_server req).
Proof.
  assert (map_Forall (λ k n, Node.Name n = k)
    ({["n1" := free_node "n1" 0; "n2" := free_node "n2" 1]} : gmap string Node)) as H by by_decide.
  exact H.
Qed.

(** ** Starting a job *)

(** The limits on running jobs that the server sets: of all jobs, of those of the job's owner, and
    of those of its group when it has one; a limit that is not positive is none. *)
Record within_run_limits (j : Job) (s : Server) : Prop := {
  lim_all : 0 < MaxRunning (cfg s) → count_if (λ k, Job.State k =? StateRunning) (the_jobs s) < MaxRunning (cfg s);
  lim_user : 0 < cfg_MaxUserRun (cfg s) →
    count_if (λ k, (Job.State k =? StateRunning) && bool_decide (Job.Owner k = Job.Owner j)) (the_jobs s) < cfg_MaxUserRun (cfg s);
  lim_group : 0 < MaxGroupRun (cfg s) → Job.EGroup j ≠ "" →
    count_if (λ k, (Job.State k =? StateRunning) && bool_decide (Job.EGroup k = Job.EGroup j)) (the_jobs s) < MaxGroupRun (cfg s);
}.

Lemma enforceRunLimits_within j s : enforceRunLimits j s = true ↔ within_run_limits j s.
Proof.
  assert (∀ max cur, (0 <? max) && (max <=? cur) = false ↔ (0 < max → cur < max)) as Hlim.
  { intros max cur. rewrite andb_false_iff, Z.ltb_ge, Z.leb_gt. lia. }
  assert (∀ a b : bool, (if a then false else b) = true ↔ a = false ∧ b = true) as Hif by (intros [] []; naive_solver).
  unfold enforceRunLimits. rewrite !Hif, !Hlim. rewrite (andb_comm (0 <? MaxGroupRun _)), <- andb_assoc, andb_false_iff, Hlim.
  rewrite negb_false_iff, bool_decide_eq_true. split; [intros (?&?&H&_); split; [done..|]; intros ??; by destruct H; auto|].
  intros [??Hg]. split_and!; [done..| |done]. destruct (decide (Job.EGroup j = "")); [by left|right; auto].
Qed.

Lemma run_checked_spec env jobID dest s nodeName n j :
  run_check env jobID dest s = RunChecked nodeName n j →
  get_job env jobID s = Some j ∧ get_node nodeName s = Some n ∧ (haEnabled s = true → haActive s = true) ∧
  (Job.State j = StateQueued ∨ Job.State j = StateProvisioning) ∧ enforceRunLimits j s = true ∧
  checkDependencies env j s = (s, true).
Proof.
  unfold run_check. destruct (haEnabled s && negb (haActive s)) eqn:Hha; [done|].
  destruct (get_job env jobID s) as [j'|]; [|done]. destruct (negb _ && negb _) eqn:Hstate; [done|].
  destruct (enforceRunLimits j' s) eqn:Hlim; [|done]. cbn [negb].
  destruct (checkDependencies env j' s) as [s0 dok] eqn:Hdep. destruct dok; [|done]. cbn [negb].
  assert (s0 = s) as -> by (unfold checkDependencies in Hdep; repeat case_match; by simplify_eq).
  case_decide; [done|]. cbv zeta. destruct (get_node (split_hd "/" dest) s) as [n'|] eqn:Hn; [|done]. intros [= <- <- <-].
  split_and!; [done|done| | |done|done].
  - intros E. rewrite E in Hha. by destruct (haActive s).
  - apply andb_false_iff in Hstate as [E|E]; bool_to_prop; auto.
Qed.

Lemma run_answered_spec env jobID dest s s1 r b :
  ids_ok s → run_check env jobID dest s = RunAnswered (s1, r, b) → not_started s s1.
Proof.
  intros Hids. unfold run_check. destruct (_ && _); [intros [= <- <- <-]; split; auto|].
  destruct (get_job env jobID s) as [j|] eqn:Hj; [|intros [= <- <- <-]; split; auto].
  pose proof (get_job_stored env jobID s j Hids Hj) as Hst.
  destruct (_ && _); [intros [= <- <- <-]; split; auto|]. destruct (negb _); [intros [= <- <- <-]; split; auto|].
  assert (not_started s (checkDependencies env j s).1) as Hns.
  { unfold checkDependencies. case_decide; [split; auto|]. destruct (check_deps _ _ _); split; auto. right. by exists j, comment. }
  destruct (checkDependencies env j s) as [s0 dok]. cbn [fst] in Hns.
  destruct (negb dok); [by intros [= <- <- <-]|]. case_decide.
  - intros [= <- <- <-]. unfold not_started. autorewrite with server. exact Hns.
  - cbv zeta. destruct (get_node _ s0); [done|]. by intros [= <- <- <-].
Qed.

(** The start of a job changes the state of no other job. *)
Lemma run_start_only env nodeName n j s k j0 j1 :
  the_jobs s !! k = Some j0 → the_jobs (run_start env nodeName n j s).1.1 !! k = Some j1 → k ≠ Job.ID j → j1 = j0.
Proof.
  intros Hk Hk1 Hne. unfold run_start in Hk1. destruct (jobNodeRequest j) as [cnt ppn]. destruct (1 <? cnt).
  - cbn [ok_reply fst snd] in Hk1. unfold runJobMulti in Hk1. cbv zeta in Hk1. destruct (_ <? cnt); cbn [fst] in Hk1; [congruence|].
    rewrite (proj1 (fold_dispatch_frame _ _ _)), start_job_jobs, fold_assign_jobs in Hk1. rewrite lookup_insert_ne in Hk1 by done. congruence.
  - cbn [ok_reply fst snd] in Hk1. rewrite jobs_emit, start_job_jobs in Hk1. rewrite lookup_insert_ne in Hk1 by done.
    change (the_jobs (assign_on _ _ s nodeName)) with (the_jobs s) in Hk1. congruence.
Qed.

(** C2: a job is started only when its guards held at the request's check: the server was
    active (or not one of several), the job queued or provisioning, the jobs running in all, of
    its owner and of its group fewer than the server's limits, and every job that it names in
    an afterok, afternotok or afterany dependency and that is still known was complete with the
    exit status asked for.  The job is in the table under its id.  A request that fails a check starts no job.  The check and the start are two
    steps: whatever other requests have made of the server in between, the start changes the
    state of no job but the one that was checked (which they may have changed or started
    themselves, see [checked_twice]). *)
Theorem handleRunJob_guarded env jobID dest s :
  ids_ok s →
  match run_check env jobID dest s with
  | RunAnswered (s1, _, _) =>
      ∀ k j0 j1, the_jobs s !! k = Some j0 → the_jobs s1 !! k = Some j1 → Job.State j1 = Job.State j0
  | RunChecked nodeName n j =>
      the_jobs s !! Job.ID j = Some j ∧ (haEnabled s = true → haActive s = true) ∧
      (Job.State j = StateQueued ∨ Job.State j = StateProvisioning) ∧ within_run_limits j s ∧
      (∀ ty id d, (ty, id) ∈ parse_deps (Job.DependList j) → TrimSpace id ≠ "" →
         get_job env (TrimSpace id) s = Some d → dep_holds ty d) ∧
      ∀ env' s' k j0 j1, ids_ok s' →
        the_jobs s' !! k = Some j0 → the_jobs (run_resume env' nodeName n j s').1.1 !! k = Some j1 →
        Job.State j1 ≠ Job.State j0 → k = Job.ID j
  end.
Proof.
  intros Hids. destruct (run_check env jobID dest s) as [[[s1 r] b]|nodeName n j] eqn:E.
  - apply run_answered_spec in E as [_ [->|(j & c & Hj & ->)]]; [congruence| |done].
    intros k j0 j1 Hk [[<- <-]|[_ Hk1]]%lookup_insert_Some; [|congruence]. by simplify_eq.
  - apply run_checked_spec in E as (Hj & Hn & Hact & Hst & Hlim & Hdep). split_and!; [by eapply get_job_stored|done|done|by apply enforceRunLimits_within| |].
    + intros ty id d Hin Hne Hd. unfold checkDependencies in Hdep. case_decide as Hl.
      { rewrite Hl in Hin. by vm_compute in Hin; apply elem_of_nil in Hin. }
      destruct (check_deps env s (parse_deps (Job.DependList j))) eqn:Hc; [|done..].
      eapply check_dep_holds; [by eapply check_deps_ok|done|done].
    + intros env' s' k j0 j1 Hids' Hk Hk1 Hne. destruct (decide (k = Job.ID j)) as [|Hkj]; [done|]. exfalso. apply Hne.
      unfold run_resume in Hk1. apply (run_start_only _ _ _ _ _ k j0) in Hk1 as ->; [done|done|].
      destruct (the_jobs s' !! Job.ID j) as [jc|] eqn:Hc; [|done]. cbn. by rewrite (Hids' _ _ Hc).
Qed.

Definition two_nodes : gmap string string := {["nodes" := "2:ppn=2"]}.

Lemma handleRunJob_guarded_witness :
  ∃ nodeName n j, run_check pair_env "1.srv" "n1/0" (pair_server two_nodes) = RunChecked nodeName n j ∧
    (Job.State j = StateQueued ∨ Job.State j = StateProvisioning) ∧ within_run_limits j (pair_server two_nodes).
Proof.
  pose proof (handleRunJob_guarded pair_env "1.srv" "n1/0" (pair_server two_nodes) (server_ids _ (pair_server_ok two_nodes))) as H.
  destruct (run_check pair_env "1.srv" "n1/0" (pair_server two_nodes)) as [h|nodeName n j] eqn:E; [by vm_compute in E|].
  destruct H as (_ & _ & H1 & H2 & _). by exists nodeName, n, j.
Defined.

(** Two requests to run the same job whose checks both come before the starts place it on both
    nodes: each takes slots and each sends the job out. *)
Example checked_twice :
  let s := pair_server ∅ in
  match run_check pair_env "1.srv" "n1/0" s, run_check pair_env "1.srv" "n2/0" s with
  | RunChecked a na ja, RunChecked b nb jb =>
    let s' := (run_resume pair_env b nb jb (run_resume pair_env a na ja s).1.1).1.1 in
    (AssignedJobs <$> the_nodes s' !! "n1", AssignedJobs <$> the_nodes s' !! "n2", Job.ExecHost <$> the_jobs s' !! "1.srv",
     filter (λ e, e = DispatchToMOM "1.srv" "n1" ∨ e = DispatchToMOM "1.srv" "n2") (events s'))
    = (Some ["1.srv"], Some ["1.srv"], Some "n2/0", [DispatchToMOM "1.srv" "n1"; DispatchToMOM "1.srv" "n2"])
  | _, _ => False
  end.
Proof. by vm_compute. Qed.

(** The counters that the server reports are not touched by a start: it sets the job's state
    without the job manager. *)
Example start_not_counted :
  let s := (handleRunJob pair_env "1.srv" "n1/0" (pair_server ∅)).1.1 in
  (StateCount StateRunning (jobMgr s), CountByState StateRunning (jobMgr s)) = (0, 1).
Proof. by vm_compute. Qed.

(** ** Slots are conserved *)

Lemma requestedCPUs_pos j : 1 ≤ jobRequestedCPUs j.
Proof. unfold jobRequestedCPUs. cbv zeta. repeat case_match; bool_to_prop; lia. Qed.

(** What a job asks for is read the same way by the start and by the end. *)
Definition plain_request (j : Job) : Prop :=
  lookup_or "" "nodes" (Job.ResourceReq j) ≠ "" ∨ lookup_or "" "select" (Job.ResourceReq j) = "".
#[export] Instance plain_request_dec j : Decision (plain_request j).
Proof. unfold plain_request. apply _. Defined.

Lemma started_slots env s s1 j j1 names slots :
  started env s s1 j j1 names slots → plain_request j → slots = jobRequestedCPUs j.
Proof.
  intros Hst Hp. rewrite (st_slots _ _ _ _ _ _ _ Hst). rewrite (cpus_agree j Hp).
  by destruct (1 <? _).
Qed.

Lemma assign_release_ledger n l id k :
  ledger n l → 0 ≤ k → ledger_slots l + k ≤ MaxInt64 →
  ledger (Node.ReleaseJob id k (Node.AssignJob id k n)) l.
Proof.
  intros Hl Hk Hb. apply (ReleaseJob_ledger _ ((id, k) :: l)); [by apply AssignJob_ledger|done|].
  unfold ledger_slots in *. simpl. lia.
Qed.

(** C1: a start and the end of the job balance: when a RunJob request has put a job on one node
    or on several and its obituary arrives, every node of the cluster carries the same ledger
    of placements and slots as before the start.  The two are served one after the other; the
    job is one whose request the two read alike, that is, it does not ask through "select"
    alone (see [select_request_leaks]); jobs and nodes are in their tables under their names,
    the names of nodes have no separators, the job's id no blanks around it, and the slots in
    use stay in the range of an int.  The job may be on the nodes already. *)
Theorem run_then_obit env jobID dest s s1 r b k j j1 remote exit attrs (L : string → list (string * Z)) :
  ids_ok s → named s → map_Forall (λ name _, clean_name name) (the_nodes s) →
  handleRunJob env jobID dest s = (s1, r, b) →
  the_jobs s !! k = Some j → the_jobs s1 !! k = Some j1 → trimmed k → plain_request j →
  Job.State j ≠ StateRunning → Job.State j1 = StateRunning →
  map_Forall (λ name n, ledger n (L name) ∧ ledger_slots (L name) + jobRequestedCPUs j ≤ MaxInt64) (the_nodes s) →
  map_Forall (λ name n, ledger n (L name)) (the_nodes (handleJobObit env remote true k exit attrs s1).1.1).
Proof.
  intros Hok Hnm Hcl Hrun Hj Hj1 Htr Hpl Hs Hs1 HL.
  apply run_cases in Hrun as [[_ [Ht|(j' & c & Hj' & Ht)]]|(j' & j1' & names & slots & Hg & Hst)]; [..|done|done].
  { rewrite Ht in Hj1. congruence. }
  { rewrite Ht in Hj1. apply lookup_insert_Some in Hj1 as [[<- <-]|[_ Hj1]]; [|congruence].
    rewrite Hj' in Hj. injection Hj as ->. done. }
  rewrite (st_table _ _ _ _ _ _ _ Hst) in Hj1.
  apply lookup_insert_Some in Hj1 as [[<- <-]|[_ Hj1]]; [|congruence].
  pose proof (get_job_stored env jobID s j' Hok Hg) as Hst'. rewrite Hst' in Hj. injection Hj as ->.
  destruct (st_same _ _ _ _ _ _ _ Hst) as (Hid & Hreq & _).
  destruct (st_names _ _ _ _ _ _ _ Hst) as (Hne & Hnd & Hin).
  pose proof (started_slots _ _ _ _ _ _ _ Hst Hpl) as Hsl.
  pose proof (st_host _ _ _ _ _ _ _ Hst) as Hh.
  assert (Forall clean_name names) as Hcn.
  { apply Forall_forall. intros n [x Hx]%Hin. exact (Hcl n x Hx). }
  assert (exec_nodes (Job.ExecHost j1') = names) as Hen by (rewrite Hh; by apply exec_nodes_host).
  intros name n'. rewrite (obit_nodes env remote (Job.ID j) exit attrs s1 j1').
  - rewrite Hen, (st_placed _ _ _ _ _ _ _ Hst), (requestedCPUs_req j j1' Hreq), Hsl.
    case_decide; [|intros Hn; apply (HL name n' Hn)].
    intros (m & (n & Hn & ->)%fmap_Some & ->)%fmap_Some.
    destruct (HL name n Hn) as (Hl & Hb). pose proof (requestedCPUs_pos j).
    apply assign_release_ledger; [done|lia|done].
  - apply get_job_full; [|done]. rewrite (st_table _ _ _ _ _ _ _ Hst). apply lookup_insert_eq.
  - done.
  - done.
  - rewrite Hh. by apply exec_host_nonempty.
  - by rewrite Hen.
Qed.

Lemma free_node_ledger name id : ledger (free_node name id) [].
Proof. by destruct (NewNode_ledger name id). Qed.

Lemma run_then_obit_witness :
  let s1 := (handleRunJob pair_env "1.srv" "n1" (pair_server two_nodes)).1.1 in
  map_Forall (λ name n, ledger n []) (the_nodes (handleJobObit pair_env "" true "1.srv" 0 [] s1).1.1).
Proof.
  cbv zeta. destruct (handleRunJob pair_env "1.srv" "n1" (pair_server two_nodes)) as [[s1 r] b] eqn:E.
  cbn [fst]. assert (is_Some (the_jobs s1 !! "1.srv") ∧ option_map Job.State (the_jobs s1 !! "1.srv") = Some StateRunning)
    as [[j1 Hj1] Hst].
  { change s1 with ((s1, r, b).1.1). rewrite <- E. split; [eexists; by vm_compute|by vm_compute]. }
  rewrite Hj1 in Hst. injection Hst as Hst.
  apply (run_then_obit pair_env "1.srv" "n1" (pair_server two_nodes) s1 r b "1.srv"
    (queued_job <| Job.ResourceReq := two_nodes |>) j1 "" 0 [] (λ _, []));
    [apply server_ids, pair_server_ok|apply pair_named|by_decide|exact E|by vm_compute|exact Hj1|by vm_compute| |
     by vm_compute|exact Hst|].
  - by_decide.
  - intros name n Hn.
    change (({["n1" := free_node "n1" 0; "n2" := free_node "n2" 1]} : gmap string Node) !! name = Some n) in Hn.
    revert Hn. intros [(<- & <-)|[? [<- <-]%lookup_singleton_Some]]%lookup_insert_Some; (split; [apply free_node_ledger|by_decide]).
Defined.

(** Restarting a job that runs on two nodes frees the first node only: the job goes
    back to the queue while the second node keeps listing it and keeps its slots taken. *)
Theorem rerun_multi_node_leaks :
  let s1 := (handleRunJob pair_env "1.srv" "n1" (pair_server two_nodes)).1.1 in
  let s2 := (handleRerunJob pair_env "1.srv" s1).1.1 in
  option_map Job.State (the_jobs s2 !! "1.srv") = Some StateQueued ∧
  option_map Node.SlotsUsed (the_nodes s2 !! "n1") = Some 0 ∧
  option_map Node.SlotsUsed (the_nodes s2 !! "n2") = Some 2 ∧
  option_map AssignedJobs (the_nodes s2 !! "n2") = Some ["1.srv"].
Proof. by vm_compute. Qed.

(** A job that asks for its nodes through "select" takes the processors it asks for
    but gives back one per node: the slots of a finished job stay taken. *)
Theorem select_request_leaks :
  let s0 := pair_server {["select" := "2:ppn=2"]} in
  let s1 := (handleRunJob pair_env "1.srv" "n1" s0).1.1 in
  let s2 := (handleJobObit pair_env "" true "1.srv" 0 [] s1).1.1 in
  option_map Job.State (the_jobs s2 !! "1.srv") = Some StateComplete ∧
  option_map Node.SlotsUsed (the_nodes s2 !! "n1") = Some 1 ∧
  option_map AssignedJobs (the_nodes s2 !! "n1") = Some [].
Proof. by vm_compute. Qed.

(** ** Passes over the job table

    The background tasks take a snapshot of the table and treat each job in turn.  When the
    treatment of a job touches that job only, the pass treats every job of the snapshot. *)

Lemma fold_jobs (step : Server → string → Server) (f : Job → option Job) (I : Server → Prop) ks s :
  (∀ s k, k ∈ ks → I s →
    I (step s k) ∧ the_jobs (step s k) = partial_alter (λ o, o ≫= f) k (the_jobs s)) →
  NoDup ks → I s →
  I (foldl step s ks) ∧
  ∀ k, the_jobs (foldl step s ks) !! k = if decide (k ∈ ks) then the_jobs s !! k ≫= f else the_jobs s !! k.
Proof.
  intros Hstep Hnd. revert s. induction Hnd as [|x ks Hx Hnd IH]; intros s HI; [done|]. cbn [foldl].
  destruct (Hstep s x) as [HI' Ht]; [left|done|].
  destruct (IH (λ s k Hk, Hstep s k (list_elem_of_further _ _ _ Hk)) _ HI') as [HI2 IH2]. split; [done|].
  intros k. rewrite IH2, Ht. destruct (decide (k = x)) as [->|Hne].
  - rewrite decide_False by done. rewrite decide_True by left. apply lookup_partial_alter_eq.
  - rewrite lookup_partial_alter_ne by done. do 2 case_decide; set_solver.
Qed.

Lemma ids_alter s1 s k f :
  (∀ j j', f j = Some j' → Job.ID j' = Job.ID j) → ids_ok s →
  the_jobs s1 = partial_alter (λ o, o ≫= f) k (the_jobs s) → ids_ok s1.
Proof.
  intros Hf Hs Ht k' j'. rewrite Ht. destruct (decide (k' = k)) as [->|Hne].
  - rewrite lookup_partial_alter_eq. intros (j & Hj & Hfj)%bind_Some.
    rewrite (Hf _ _ Hfj). by apply Hs.
  - rewrite lookup_partial_alter_ne by done. apply Hs.
Qed.

(** The three shapes of a step on the entry of [k]. *)
Lemma partial_keep (f : Job → option Job) k (m : gmap string Job) :
  (∀ j, m !! k = Some j → f j = Some j) → partial_alter (λ o, o ≫= f) k m = m.
Proof.
  intros H. apply map_eq. intros i. destruct (decide (i = k)) as [->|].
  - rewrite lookup_partial_alter_eq. destruct (m !! k); simpl; auto.
  - by rewrite lookup_partial_alter_ne.
Qed.

Lemma partial_set (f : Job → option Job) k (m : gmap string Job) j j' :
  m !! k = Some j → f j = Some j' → partial_alter (λ o, o ≫= f) k m = <[k := j']> m.
Proof.
  intros Hk Hf. apply map_eq. intros i. destruct (decide (i = k)) as [->|].
  - by rewrite lookup_partial_alter_eq, Hk, lookup_insert_eq.
  - by rewrite lookup_partial_alter_ne, lookup_insert_ne.
Qed.

Lemma partial_drop (f : Job → option Job) k (m : gmap string Job) j :
  m !! k = Some j → f j = None → partial_alter (λ o, o ≫= f) k m = delete k m.
Proof.
  intros Hk Hf. apply map_eq. intros i. destruct (decide (i = k)) as [->|].
  - by rewrite lookup_partial_alter_eq, Hk, lookup_delete_eq.
  - by rewrite lookup_partial_alter_ne, lookup_delete_ne.
Qed.

(** *** Waiting jobs *)

(** What promotion makes of a job. *)
Definition due (env : Env) (j : Job) : bool :=
  (Job.State j =? StateWaiting) && negb (IsZero (Job.ExecutionTime j)) && After (now env) (Job.ExecutionTime j).
Definition promoted (env : Env) (j : Job) : Job :=
  if due env j then Job.SetState (now env) StateQueued SubstateQueued j else j.

Lemma promote_step env s k :
  server_ok s → server_ok (promote env s k) ∧
  the_jobs (promote env s k) = partial_alter (λ o, o ≫= Some ∘ promoted env) k (the_jobs s).
Proof.
  intros Hok. unfold promote. destruct (the_jobs s !! k) as [j|] eqn:Hk.
  2: { split; [done|]. symmetry. apply partial_keep. intros j Hj. congruence. }
  fold (due env j). destruct (due env j) eqn:Hd.
  - pose proof (ok_ids _ Hok k j Hk) as Hid. split; [by apply UpdateJobState_ok|].
    rewrite Hid. autorewrite with server. symmetry.
    rewrite (partial_set _ k _ j (Job.SetState (now env) StateQueued SubstateQueued j) Hk)
      by (simpl; unfold promoted; by rewrite Hd).
    apply map_eq. intros i. destruct (decide (i = k)) as [->|].
    + rewrite lookup_insert_eq, lookup_alter_eq. by rewrite Hk.
    + by rewrite lookup_insert_ne, lookup_alter_ne.
  - split; [done|]. symmetry. apply partial_keep. intros j' Hj'. simplify_eq.
    simpl. unfold promoted. by rewrite Hd.
Qed.

(** One pass of the start-time check queues every waiting job whose start time has
    come, leaves every other job as it is, and keeps the state counters exact. *)
Theorem promoteWaitingJobs_exact env s :
  server_ok s → NoDup (job_order env) → (∀ k, is_Some (the_jobs s !! k) → k ∈ job_order env) →
  server_ok (promoteWaitingJobs env s) ∧
  the_jobs (promoteWaitingJobs env s) = promoted env <$> the_jobs s.
Proof.
  intros Hok Hnd Hall.
  destruct (fold_jobs (promote env) (Some ∘ promoted env) server_ok (job_order env) s
    (λ s k _, promote_step env s k) Hnd Hok)
    as [H1 H2].
  split; [done|]. apply map_eq. intros k. unfold promoteWaitingJobs. rewrite H2, lookup_fmap.
  destruct (the_jobs s !! k) as [j|] eqn:Hk.
  - rewrite decide_True by (apply Hall; by eexists). done.
  - by destruct (decide _).
Qed.

Definition waiting_job : Job :=
  (Job.SetState (time_Unix 950) StateWaiting SubstateWaiting one_job) <| Job.ExecutionTime := time_Unix 990 |>.
Definition one_job_server (j : Job) : Server :=
  upd_mgr (AddJob j) (test_server (IncrJobCount (Job.State j) (NewQueue "batch" TypeExecution))).

Lemma one_job_server_ok j : Job.ID j = "1.srv" → server_ok (one_job_server j).
Proof. intros Hj. apply AddJob_ok; [apply NewManager_ok|by rewrite Hj; vm_compute|by vm_compute]. Qed.

Lemma one_job_order j k :
  Job.ID j = "1.srv" → is_Some (the_jobs (one_job_server j) !! k) → k ∈ job_order pair_env.
Proof.
  intros Hj [x Hx]. unfold one_job_server in Hx. autorewrite with server in Hx. rewrite Hj in Hx.
  apply lookup_insert_Some in Hx as [[<- _]|[_ Hx]]; [by_decide|done].
Qed.

Lemma promoteWaitingJobs_exact_witness :
  let s := one_job_server waiting_job in
  server_ok (promoteWaitingJobs pair_env s) ∧
  the_jobs (promoteWaitingJobs pair_env s) = promoted pair_env <$> the_jobs s.
Proof.
  apply promoteWaitingJobs_exact; [by apply one_job_server_ok|by_decide|].
  intros k. by apply one_job_order.
Defined.

(** *** Completed jobs *)

Definition expired (env : Env) (keep : Z) (j : Job) : bool :=
  (Job.State j =? StateComplete) && negb (IsZero (Job.CompTime j)) && (keep <? Sub (now env) (Job.CompTime j)).
Definition kept (env : Env) (keep : Z) (j : Job) : option Job :=
  if expired env keep j then None else Some j.

Lemma purge_step env keep s k :
  server_ok s → server_ok (purge_job env keep s k) ∧
  the_jobs (purge_job env keep s k) = partial_alter (λ o, o ≫= kept env keep) k (the_jobs s).
Proof.
  intros Hok. unfold purge_job. destruct (the_jobs s !! k) as [j|] eqn:Hk.
  2: { split; [done|]. symmetry. apply partial_keep. intros j Hj. congruence. }
  fold (expired env keep j). destruct (expired env keep j) eqn:Hd.
  - pose proof (ok_ids _ Hok k j Hk) as Hid. split; [by apply RemoveJob_ok|].
    rewrite Hid. autorewrite with server. symmetry. apply (partial_drop _ k _ j Hk).
    unfold kept. by rewrite Hd.
  - split; [done|]. symmetry. apply partial_keep. intros j' Hj'. simplify_eq.
    unfold kept. by rewrite Hd.
Qed.

(** One pass of the cleanup removes exactly the complete jobs whose time of completion
    is older than the configured keep time, and keeps the state counters exact. *)
Theorem completedJobCleanup_exact env s k :
  server_ok s → NoDup (job_order env) → (∀ k, is_Some (the_jobs s !! k) → k ∈ job_order env) →
  server_ok (completedJobCleanup env s) ∧
  the_jobs (completedJobCleanup env s) !! k
  = the_jobs s !! k ≫= kept env (int64 (KeepCompleted (cfg s) * Second)).
Proof.
  intros Hok Hnd Hall. set (keep := int64 (KeepCompleted (cfg s) * Second)).
  destruct (fold_jobs (purge_job env keep) (kept env keep) server_ok (job_order env) s
    (λ s k _, purge_step env keep s k) Hnd Hok) as [H1 H2].
  split; [done|]. unfold completedJobCleanup. fold keep. rewrite H2.
  destruct (the_jobs s !! k) as [j|] eqn:Hk.
  - by rewrite decide_True by (apply Hall; by eexists).
  - by destruct (decide _).
Qed.

Definition completed_job : Job :=
  (Job.SetState (time_Unix 10) StateComplete SubstateComplete one_job) <| Job.CompTime := time_Unix 10 |>.

Lemma completedJobCleanup_exact_witness :
  the_jobs (completedJobCleanup pair_env (one_job_server completed_job)) !! "1.srv" = None.
Proof.
  destruct (completedJobCleanup_exact pair_env (one_job_server completed_job) "1.srv") as [_ ->];
    [by apply one_job_server_ok|by_decide|intros k; by apply one_job_order|by vm_compute].
Defined.

(** *** Jobs recovered after a restart *)

Section recovered.
Context (momRunningJobs : string → option (list string)) (env : Env).

(** Where a recovered job's daemon is, by the nodes of [s0]. *)
Definition first_mom (s0 : Server) (j : Job) : option string :=
  momAddr <$> get_node (split_hd "/" (split_hd "+" (Job.ExecHost j))) s0.

(** Its daemon answered and does not run it. *)
Definition lost (s0 : Server) (j : Job) : bool :=
  (Job.State j =? StateRunning) && negb (bool_decide (Job.ExecHost j = "")) &&
  match first_mom s0 j with
  | Some a => match momRunningJobs a with
              | Some set => negb (bool_decide (Job.ID j ∈ set))
              | None => false
              end
  | None => false
  end.
Definition recovered (s0 : Server) (j : Job) : option Job :=
  Some (if lost s0 j then requeued env j else j).

Definition same_addrs (s0 s : Server) : Prop :=
  ∀ name, momAddr <$> get_node name s = momAddr <$> get_node name s0.

Lemma ReleaseJob_addr id k n : momAddr (Node.ReleaseJob id k n) = momAddr n.
Proof. unfold Node.ReleaseJob. cbv zeta. by repeat case_match. Qed.

Lemma release_addrs s0 id k ns s : same_addrs s0 s → same_addrs s0 (foldl (release_on id k) s ns).
Proof.
  revert s. induction ns as [|n ns IH]; intros s Hs; [done|]. cbn [foldl]. apply IH. intros name.
  rewrite <- Hs. unfold get_node, GetNode. change (nodes (nodeMgr ?x)) with (the_nodes x).
  unfold release_on. rewrite nodes_upd_node. destruct (decide (name = n)) as [->|].
  - rewrite lookup_alter_eq. destruct (the_nodes s !! n); [|done]. simpl. by rewrite ReleaseJob_addr.
  - by rewrite lookup_alter_ne.
Qed.

Lemma requeue_addrs s0 j s : same_addrs s0 s → same_addrs s0 (requeueRecoveredJob env j s).
Proof.
  intros Hs name. unfold requeueRecoveredJob. cbv zeta. unfold get_node, GetNode.
  change (nodes (nodeMgr ?x)) with (the_nodes x). autorewrite with server.
  exact (release_addrs s0 (Job.ID j) _ (exec_nodes (Job.ExecHost j)) s Hs name).
Qed.

Lemma requeueRecoveredJob_jobs j s :
  the_jobs (requeueRecoveredJob env j s) = <[Job.ID j := requeued env j]> (the_jobs s).
Proof.
  unfold requeueRecoveredJob. cbv zeta. autorewrite with server.
  assert (Job.ID (requeued env j) = Job.ID j) as -> by (unfold requeued; by rewrite SetState_ID).
  f_equal. generalize (exec_nodes (Job.ExecHost j)) as l. intros l. revert s.
  induction l as [|n l IH]; intros s; [done|]. cbn [foldl]. by rewrite IH.
Qed.

Lemma reconcile_step s0 s p k :
  ids_ok s ∧ same_addrs s0 s →
  let s' := (reconcile_job momRunningJobs env (s, p) k).1 in
  (ids_ok s' ∧ same_addrs s0 s') ∧
  the_jobs s' = partial_alter (λ o, o ≫= recovered s0) k (the_jobs s).
Proof.
  intros [Hids Hadr] s'. enough (the_jobs s' = partial_alter (λ o, o ≫= recovered s0) k (the_jobs s) ∧ same_addrs s0 s')
    as [Ht Ha].
  { split_and!; [|done|done]. eapply (ids_alter s' s k); [|done|exact Ht].
    intros j j' [= <-]. destruct (lost s0 j); [|done]. unfold requeued. by rewrite SetState_ID. }
  unfold s'. clear s'. unfold reconcile_job. destruct (the_jobs s !! k) as [j|] eqn:Hk.
  2: { cbn [fst]. split; [|done]. symmetry. apply partial_keep. intros j Hj. congruence. }
  pose proof (Hids k j Hk) as Hid.
  assert (lost s0 j = false → the_jobs s = partial_alter (λ o, o ≫= recovered s0) k (the_jobs s)) as Hkeep.
  { intros Hl. symmetry. apply partial_keep. intros j' Hj'. simplify_eq. unfold recovered. by rewrite Hl. }
  unfold lost, first_mom in Hkeep. rewrite <- Hadr in Hkeep.
  destruct (negb (Job.State j =? StateRunning) || bool_decide (Job.ExecHost j = "")) eqn:Hg.
  { split; [|done]. apply Hkeep. by destruct (Job.State j =? _), (bool_decide _). }
  destruct (get_node _ s) as [n|] eqn:Hn; [|split; [|done]; apply Hkeep; apply andb_false_r].
  cbn [fmap option_fmap option_map] in Hkeep.
  destruct (momRunningJobs (momAddr n)) as [set|] eqn:Hm; [|split; [|done]; apply Hkeep; apply andb_false_r].
  destruct (decide (Job.ID j ∈ set)) as [Hin|Hin]; cbn [fst].
  { split; [|done]. apply Hkeep. rewrite (bool_decide_eq_true_2 (Job.ID j ∈ set)) by done. apply andb_false_r. }
  split; [|by apply requeue_addrs]. rewrite requeueRecoveredJob_jobs, Hid. symmetry.
  apply (partial_set _ _ _ j); [done|]. unfold recovered. f_equal.
  assert (lost s0 j = true) as ->; [|done]. unfold lost, first_mom. rewrite <- Hadr, Hn.
  cbn [fmap option_fmap option_map]. rewrite Hm, (bool_decide_eq_false_2 (Job.ID j ∈ set)) by done.
  by destruct (Job.State j =? _), (bool_decide _).
Qed.

Lemma reconcile_fst s p ks :
  (foldl (reconcile_job momRunningJobs env) (s, p) ks).1
  = foldl (λ s k, (reconcile_job momRunningJobs env (s, 0) k).1) s ks.
Proof.
  revert s p. induction ks as [|k ks IH]; intros s p; [done|]. cbn [foldl].
  destruct (reconcile_job momRunningJobs env (s, p) k) as [s1 p1] eqn:E. rewrite IH. f_equal.
  change s1 with ((s1, p1).1). rewrite <- E. unfold reconcile_job. by repeat case_match.
Qed.

(** C38: after a restart the server requeues exactly the recovered jobs whose first node's
    daemon answers and does not list them.  A job its daemon confirms keeps running, and
    so does a job whose daemon cannot be reached: no job is run twice because a daemon
    was slow to answer. *)
Theorem reconcile_exact s :
  ids_ok s → NoDup (job_order env) → (∀ k, is_Some (the_jobs s !! k) → k ∈ job_order env) →
  the_jobs (reconcileRunningJobsWithMOMs momRunningJobs env s).1
  = (λ j, if lost s j then requeued env j else j) <$> the_jobs s.
Proof.
  intros Hids Hnd Hall. unfold reconcileRunningJobsWithMOMs. rewrite reconcile_fst.
  destruct (fold_jobs (λ s k, (reconcile_job momRunningJobs env (s, 0) k).1) (recovered s)
    (λ s1, ids_ok s1 ∧ same_addrs s s1) (job_order env) s (λ s1 k _, reconcile_step s s1 0 k) Hnd)
    as [_ H2]; [done|].
  apply map_eq. intros k. rewrite H2, lookup_fmap. destruct (the_jobs s !! k) as [j|] eqn:Hk.
  - by rewrite decide_True by (apply Hall; by eexists).
  - by destruct (decide _).
Qed.
End recovered.

(** A daemon that answers with no jobs. *)
Lemma reconcile_exact_witness :
  let s := (one_job_server running_job) <| nodeMgr := Node.mkManager {["n1" := busy_node]} [0] 1 |> in
  the_jobs (reconcileRunningJobsWithMOMs (λ _, Some []) pair_env s).1
  = (λ j, if lost (λ _, Some []) s j then requeued pair_env j else j) <$> the_jobs s.
Proof.
  apply reconcile_exact.
  - intros k j Hk. apply (ok_ids _ (one_job_server_ok running_job eq_refl) k j Hk).
  - by_decide.
  - intros k. by apply one_job_order.
Defined.

(** *** Jobs of a node that went down *)

Definition requeue_running (env : Env) (j : Job) : Job :=
  if Job.State j =? StateRunning then requeued env j else j.

Definition known (s : Server) (ids : list string) : Prop :=
  ∀ id, id ∈ ids → trimmed id ∧ is_Some (the_jobs s !! id).

Lemma requeue_step env node ids s k :
  k ∈ ids → ids_ok s ∧ known s ids →
  (ids_ok (requeue_from env node s k) ∧ known (requeue_from env node s k) ids) ∧
  the_jobs (requeue_from env node s k) = partial_alter (λ o, o ≫= Some ∘ requeue_running env) k (the_jobs s).
Proof.
  intros Hk [Hids Hkn]. destruct (Hkn k Hk) as [Htr [j Hj]].
  enough (the_jobs (requeue_from env node s k) = partial_alter (λ o, o ≫= Some ∘ requeue_running env) k (the_jobs s))
    as Ht.
  { split_and!; [|intros id Hid; split; [by apply Hkn|]|done].
    - eapply (ids_alter _ s k); [|done|exact Ht]. intros j0 j' [= <-]. unfold requeue_running.
      destruct (_ =? _); [|done]. unfold requeued. by rewrite SetState_ID.
    - rewrite Ht. destruct (Hkn id Hid) as [_ [j0 Hj0]]. destruct (decide (id = k)) as [->|].
      + rewrite lookup_partial_alter_eq, Hj0. by eexists.
      + rewrite lookup_partial_alter_ne by done. by eexists. }
  pose proof (Hids k j Hj) as Hid. unfold requeue_from. rewrite (get_job_full env k s j Hj Htr).
  destruct (Job.State j =? StateRunning) eqn:Hst; cbn [negb].
  - cbv zeta. assert (Job.ID (requeued env j) = k) as Hr by (unfold requeued; by rewrite SetState_ID).
    autorewrite with server. rewrite Hr. symmetry. apply (partial_set _ _ _ j); [done|].
    simpl. unfold requeue_running. by rewrite Hst.
  - symmetry. apply partial_keep. intros j' Hj'. simplify_eq. simpl. unfold requeue_running. by rewrite Hst.
Qed.

Lemma requeue_from_node env node s k j n :
  the_jobs s !! k = Some j → trimmed k → Job.ID j = k → Job.State j = StateRunning →
  the_nodes s !! node = Some n →
  the_nodes (requeue_from env node s k) !! node = Some (Node.ReleaseJob k (jobRequestedCPUs j) n).
Proof.
  intros Hj Htr Hid Hst Hn. unfold requeue_from. rewrite (get_job_full env k s j Hj Htr).
  rewrite Hst. change (negb (StateRunning =? StateRunning)) with false. cbv iota zeta.
  autorewrite with server. unfold release_on. autorewrite with server.
  rewrite Hid, lookup_alter_eq, Hn. done.
Qed.

(** The entries of the ledger are running jobs with the slots they asked for. *)
Definition all_running (s : Server) (l : list (string * Z)) : Prop :=
  ∀ id k, (id, k) ∈ l → ∃ j, the_jobs s !! id = Some j ∧ Job.State j = StateRunning ∧ jobRequestedCPUs j = k.

Lemma requeue_drains env node ids s l n :
  ids_ok s → known s ids → the_nodes s !! node = Some n → ledger n l → NoDup l.*1 → ids ≡ₚ l.*1 → all_running s l →
  ledger_slots l ≤ MaxInt64 →
  ∃ n', the_nodes (foldl (requeue_from env node) s ids) !! node = Some n' ∧ ledger n' [].
Proof.
  revert s l n. induction ids as [|id ids IH]; intros s l n Hids Hkn Hn Hl Hnd Hp Hr Hb; cbn [foldl].
  { exists n. split; [done|]. symmetry in Hp. apply Permutation_nil_r, fmap_nil_inv in Hp. by subst. }
  assert (id ∈ l.*1) as [[id' k] [Heq Hin]]%list_elem_of_fmap by (rewrite <- Hp; left).
  simpl in Heq. subst id'. destruct (Hr id k Hin) as (j & Hj & Hst & Hk).
  destruct (Hkn id) as [Htr _]; [left|].
  destruct (requeue_step env node (id :: ids) s id) as [[Hids' Hkn'] Ht]; [left|done|].
  apply elem_of_Permutation in Hin as Hd. destruct Hd as [l' Hd].
  assert (NoDup ((id, k) :: l').*1) as [Hid Hnd']%NoDup_cons by (by rewrite <- Hd).
  assert (ids ≡ₚ l'.*1) as Hp'.
  { apply (Permutation_cons_inv (a := id)). rewrite Hp. by rewrite Hd at 1. }
  apply (IH _ l' (Node.ReleaseJob id k n)); [done| | | |done|done| |].
  - intros x Hx. apply Hkn'. by right.
  - rewrite (requeue_from_node env node s id j n Hj Htr (Hids id j Hj) Hst Hn). by rewrite Hk.
  - by eapply ReleaseJob_ledger.
  - intros x kx Hx. assert (x ≠ id) as Hne.
    { intros ->. apply Hid. apply list_elem_of_fmap. by exists (id, kx). }
    rewrite Ht, lookup_partial_alter_ne by done. apply Hr. rewrite Hd. by right.
  - assert (ledger_slots l = k + ledger_slots l') as He.
    { unfold ledger_slots. by rewrite Hd at 1. }
    assert (0 ≤ k). { pose proof (led_pos _ _ Hl) as Hq. rewrite Forall_forall in Hq. apply (Hq _ Hin). }
    lia.
Qed.

(** When a node that lists each of its jobs once goes down its running jobs go back to the queue without an execution
    host, no other job is touched, and the node is left with no job and no slot taken. *)
Theorem requeueNodeJobs_correct env node s n l :
  ids_ok s → DisableAutoRequeue (cfg s) = false → get_node node s = Some n → ledger n l → NoDup l.*1 →
  known s (AssignedJobs n) → all_running s l → ledger_slots l ≤ MaxInt64 →
  let s' := requeueNodeJobs env node s in
  (∀ k, the_jobs s' !! k = if decide (k ∈ AssignedJobs n) then requeued env <$> the_jobs s !! k
                           else the_jobs s !! k) ∧
  ∃ n', the_nodes s' !! node = Some n' ∧ AssignedJobs n' = [] ∧ Node.SlotsUsed n' = 0.
Proof.
  intros Hids Hcfg Hn Hl Honce Hkn Hr Hb s'. unfold s', requeueNodeJobs. rewrite Hcfg, Hn. autorewrite with server.
  pose proof (led_jobs _ _ Hl) as Hp.
  assert (NoDup (AssignedJobs n)) as Hnd by (by rewrite Hp).
  split.
  - intros k. destruct (fold_jobs (requeue_from env node) (Some ∘ requeue_running env)
      (λ s1, ids_ok s1 ∧ known s1 (AssignedJobs n)) (AssignedJobs n) s
      (λ s1 k Hk, requeue_step env node (AssignedJobs n) s1 k Hk) Hnd) as [_ H2]; [done|].
    rewrite H2. destruct (decide (k ∈ AssignedJobs n)) as [Hk|]; [|done].
    rewrite Hp in Hk. apply list_elem_of_fmap in Hk as ([k' c] & -> & Hin).
    destruct (Hr k' c Hin) as (j & Hj & Hst & _). simpl. rewrite Hj. simpl.
    unfold requeue_running. by rewrite Hst.
  - destruct (requeue_drains env node (AssignedJobs n) s l n) as (n' & Hn' & Hl'); [done..|].
    exists n'. split; [done|]. split; [|apply Hl'].
    apply Permutation_nil_r. exact (led_jobs _ _ Hl').
Qed.

Definition down_server : Server :=
  (one_job_server running_job) <| nodeMgr := Node.mkManager {["n1" := busy_node]} [0] 1 |>.

Lemma requeueNodeJobs_correct_witness :
  let s' := requeueNodeJobs pair_env "n1" down_server in
  option_map Job.State (the_jobs s' !! "1.srv") = Some StateQueued ∧
  ∃ n', the_nodes s' !! "n1" = Some n' ∧ AssignedJobs n' = [] ∧ Node.SlotsUsed n' = 0.
Proof.
  destruct (requeueNodeJobs_correct pair_env "n1" down_server busy_node [("1.srv", 1)]) as [H1 H2].
  - intros k j Hk. apply (ok_ids _ (one_job_server_ok running_job eq_refl) k j Hk).
  - by vm_compute.
  - by vm_compute.
  - apply AssignJob_ledger; [apply free_node_ledger|by vm_compute..].
  - by_decide.
  - intros id ->%list_elem_of_singleton. split; [by vm_compute|]. exists running_job. by vm_compute.
  - intros id k [= -> ->]%list_elem_of_singleton. exists running_job. by vm_compute.
  - by vm_compute.
  - split; [by rewrite H1; vm_compute|exact H2].
Defined.

(** ** The end of a job *)

(** Only a compute node the server knows, or a privileged connection, can report the
    end of a job.  A report that is accepted makes the job complete with the reported
    exit status, saves it, and moves it to the complete jobs of its queue, whose
    counters stay exact; a report that is refused changes nothing. *)
Theorem handleJobObit_correct env remote priv jobID exit attrs s j q l :
  the_jobs s !! jobID = Some j → Job.ID j = jobID → trimmed jobID →
  queueMgr s !! Job.Queue j = Some q → counts q l → Job.State j ∈ l →
  let '(s', r, _) := handleJobObit env remote priv jobID exit attrs s in
  if priv || bool_decide (is_Some (authMap s !! remote)) then
    (∃ j', the_jobs s' = <[jobID := j']> (the_jobs s) ∧ st_jobs s' !! jobID = Some j' ∧
       Job.State j' = StateComplete ∧ Job.ExitStatus j' = exit ∧ Job.Queue j' = Job.Queue j) ∧
    (∃ q', queueMgr s' !! Job.Queue j = Some q' ∧ counts q' (StateComplete :: remove1 (Job.State j) l))
  else s' = s ∧ rp_code r = PbseBadCred.
Proof.
  intros Hj Hid Htr Hq Hc Hin. unfold handleJobObit.
  destruct (priv || bool_decide (is_Some (authMap s !! remote))) eqn:Hp;
    [|by destruct priv, (bool_decide _)].
  replace (negb priv && negb (bool_decide (is_Some (authMap s !! remote)))) with false
    by (by destruct priv, (bool_decide _)).
  rewrite (get_job_full env jobID s j Hj Htr). cbv zeta.
  destruct (obit_job_frame env exit attrs j) as (_ & Hi & _ & Hqn & Hs & He).
  set (j1 := obit_job env exit attrs j) in *. clearbody j1. cbn [ok_reply fst snd].
  set (s1 := if decide (Job.ExecHost j1 = "") then _ else _).
  assert (the_jobs s1 = <[jobID := j1]> (the_jobs s) ∧ queueMgr s1 = queueMgr s) as [Hs1 Hq1].
  { unfold s1. case_decide; autorewrite with server; by rewrite Hi, Hid. }
  clearbody s1. split.
  - exists j1. split_and!; [by autorewrite with server| |done..].
    unfold triggerSched, record, saveJob. rewrite Hi, Hid.
    repeat (case_match; simpl); apply lookup_insert_eq.
  - exists (TransferJobState (Job.State j) StateComplete q). split; [|by apply TransferJobState_counts].
    autorewrite with server. change (queueMgr (saveJob ?a ?b)) with (queueMgr b).
    by rewrite Hqn, lookup_upd_queue, Hq1, Hq.
Qed.

Lemma handleJobObit_correct_witness :
  let '(s', r, _) := handleJobObit pair_env "10.0.0.9" false "1.srv" 0 [] down_server in
  s' = down_server ∧ rp_code r = PbseBadCred.
Proof.
  apply (handleJobObit_correct pair_env "10.0.0.9" false "1.srv" 0 [] down_server running_job
    (IncrJobCount StateRunning (NewQueue "batch" TypeExecution)) [StateRunning]);
    [by vm_compute..| |by_decide].
  apply IncrJobCount_counts; [apply NewQueue_counts|by vm_compute].
Defined.
