(* ===== verification/Sched.v ===== *)
(** * The external scheduler: internal/sched/scheduler/scheduler.go

    The scheduler reads a snapshot of the server (queues, nodes, queued jobs), orders the
    jobs of each queue, and walks over them: each job is matched with a node and started
    with a RunJob request, or counted as demand of its cloud queue.

    Pointers: a [*NodeInfo] is an index of the snapshot's node list, a [*JobInfo] the index
    of its queue and its index there, so an assignment through the pointer is an update of
    the snapshot.  Floating-point numbers are those of SpecFloat at the precision of
    [float64].  What the cycle gets from outside is an argument: the clock, the server
    that answers RunJob, the order of [sort.Slice] among equal elements, the order a map
    is ranged in, the decay factor computed by [math.Pow] and [strconv.ParseFloat]. *)

From Stdlib Require Import SpecFloat.
From S2P Require Import Prelude GoStd DisMessage ServerState.

Local Open Scope string_scope.
Local Open Scope list_scope.
Local Open Scope Z_scope.

(** ** Data *)

Record JobInfo := mkJobInfo {
  j_ID : string;
  j_Name : string;
  j_Owner : string;
  j_State : string;
  j_Queue : string;
  j_Priority : Z;
  j_QueueTime : Time;
  j_Walltime : Duration;
  j_MemReq : Z;
  j_CPUReq : Z;
  j_Host : string;
  j_HostGroup : string;
  j_Features : list string;
  j_Nodes : Z;
  j_PPN : Z;
  j_GRes : gmap string Z;
  j_CanNotRun : bool;
  j_CanNeverRun : bool;
  j_StarvingSince : Time;
}.
#[export] Instance eta_JobInfo : Eta JobInfo := λ j,
  mkJobInfo (j_ID j) (j_Name j) (j_Owner j) (j_State j) (j_Queue j) (j_Priority j) (j_QueueTime j)
    (j_Walltime j) (j_MemReq j) (j_CPUReq j) (j_Host j) (j_HostGroup j) (j_Features j) (j_Nodes j)
    (j_PPN j) (j_GRes j) (j_CanNotRun j) (j_CanNeverRun j) (j_StarvingSince j).

Record NodeInfo := mkNodeInfo {
  n_Name : string;
  n_State : string;
  n_NumProcs : Z;
  n_FreeCPUs : Z;
  n_TotalMem : Z;
  n_AvailMem : Z;
  n_LoadAvg : spec_float;
  n_Jobs : list string;
  n_UsedCPUs : Z;
  n_Properties : list string;
  n_Groups : list string;
  n_Dynamic : bool;
  n_GResTotal : gmap string Z;
  n_GResUsed : gmap string Z;
}.
#[export] Instance eta_NodeInfo : Eta NodeInfo := λ n,
  mkNodeInfo (n_Name n) (n_State n) (n_NumProcs n) (n_FreeCPUs n) (n_TotalMem n) (n_AvailMem n)
    (n_LoadAvg n) (n_Jobs n) (n_UsedCPUs n) (n_Properties n) (n_Groups n) (n_Dynamic n)
    (n_GResTotal n) (n_GResUsed n).

Record QueueInfo := mkQueueInfo {
  q_Name : string;
  q_Type : string;
  q_Enabled : bool;
  q_Started : bool;
  q_Priority : Z;
  q_MaxRunning : Z;
  q_Running : Z;
  q_Queued : Z;
  q_Jobs : list JobInfo;
  q_NaccessPolicy : string;
  q_HostList : list string;
  q_CloudBacked : bool;
  q_CloudProvider : string;
  q_CloudSKU : string;
  q_CloudMinNodes : Z;
  q_CloudMaxNodes : Z;
  q_CloudIdleTime : Z;
  q_CloudProvisionTimeout : Z;
  q_CloudReclaim : string;
  q_CloudSubnetID : string;
  q_CloudImageID : string;
  q_CloudDiskSize : Z;
  q_CloudDiskType : string;
  q_CloudSSHKey : string;
  q_CloudLocation : string;
  q_CloudRGName : string;
  q_CloudCooldown : Z;
  q_CloudScaleHeadroom : Z;
  q_CloudDrainTimeout : Z;
}.
#[export] Instance eta_QueueInfo : Eta QueueInfo := λ q,
  mkQueueInfo (q_Name q) (q_Type q) (q_Enabled q) (q_Started q) (q_Priority q) (q_MaxRunning q)
    (q_Running q) (q_Queued q) (q_Jobs q) (q_NaccessPolicy q) (q_HostList q) (q_CloudBacked q)
    (q_CloudProvider q) (q_CloudSKU q) (q_CloudMinNodes q) (q_CloudMaxNodes q) (q_CloudIdleTime q)
    (q_CloudProvisionTimeout q) (q_CloudReclaim q) (q_CloudSubnetID q) (q_CloudImageID q)
    (q_CloudDiskSize q) (q_CloudDiskType q) (q_CloudSSHKey q) (q_CloudLocation q) (q_CloudRGName q)
    (q_CloudCooldown q) (q_CloudScaleHeadroom q) (q_CloudDrainTimeout q).

Record CapacityEvent := mkCapacityEvent {
  e_Queue : string;
  e_Provider : string;
  e_SKU : string;
  e_Jobs : list string;
  e_Cores : Z;
  e_Nodes : Z;
  e_Blocked : Z;
  e_MinNodes : Z;
  e_MaxNodes : Z;
  e_IdleTime : Z;
  e_ProvisionTimeout : Z;
  e_Reclaim : string;
  e_SubnetID : string;
  e_ImageID : string;
  e_DiskSize : Z;
  e_DiskType : string;
  e_SSHKey : string;
  e_Location : string;
  e_RGName : string;
  e_Cooldown : Z;
  e_ScaleHeadroom : Z;
  e_DrainTimeout : Z;
}.
#[export] Instance eta_CapacityEvent : Eta CapacityEvent := λ e,
  mkCapacityEvent (e_Queue e) (e_Provider e) (e_SKU e) (e_Jobs e) (e_Cores e) (e_Nodes e)
    (e_Blocked e) (e_MinNodes e) (e_MaxNodes e) (e_IdleTime e) (e_ProvisionTimeout e) (e_Reclaim e)
    (e_SubnetID e) (e_ImageID e) (e_DiskSize e) (e_DiskType e) (e_SSHKey e) (e_Location e)
    (e_RGName e) (e_Cooldown e) (e_ScaleHeadroom e) (e_DrainTimeout e).

Record CycleResult := mkCycleResult {
  Dispatched : Z;
  CapacityEvents : list CapacityEvent;
  FreeNodes : list string;
  IdleNodes : list string;
  QueuedByQueue : gmap string (list string);
  AliveJobs : gset string;     (* a slice in no particular order, without duplicates *)
}.

(** The fields of the scheduler's configuration that a cycle reads. *)
Record SchedConfig := mkSchedConfig {
  StrictFIFO : bool;
  Backfill : bool;
  RoundRobin : bool;
  ByQueue : bool;
  FairShare : bool;
  HelpStarvingJobs : bool;
  SortQueues : bool;
  LoadBalancing : bool;
  SortBy : string;
  MaxStarve : Duration;
  HalfLife : Duration;
  DefaultQueueDepth : Z;
  SchedMaxJobStart : Z;
  MaxSchedTime : Z;
}.

(** ** Parsing of the status replies *)

Definition parseWalltime (s : string) : Duration :=
  match Split ":" s with
  | [h; m; sec] =>
    int64 (int64 ((Atoi h).1 * Hour) + int64 ((Atoi m).1 * Minute) + int64 ((Atoi sec).1 * Second))
  | _ => 0
  end.

Definition parseMemory (s : string) : Z :=
  let s := ToLower (TrimSpace s) in
  let '(s, multiplier) :=
    match strip_suffix "kb" s, strip_suffix "mb" s, strip_suffix "gb" s, strip_suffix "tb" s with
    | Some s, _, _, _ => (s, 1)
    | _, Some s, _, _ => (s, 1024)
    | _, _, Some s, _ => (s, 1024 * 1024)
    | _, _, _, Some s => (s, 1024 * 1024 * 1024)
    | _, _, _, _ => (s, 1)
    end in
  int64 ((ParseInt s).1 * multiplier).

(** The words of a comma-separated list, without blanks and empty ones. *)
Definition words (v : string) : list string :=
  filter (λ f, f ≠ "") (TrimSpace <$> Split "," v).

Definition parse_job_attr (j : JobInfo) (a : SvrAttrl) : JobInfo :=
  let v := Value a in
  let key := if HasResc a && negb (bool_decide (Resc a = ""))
             then DisMessage.Name a +:+ "." +:+ Resc a else DisMessage.Name a in
  switch key
    [(["Job_Name"], j <| j_Name := v |>);
     (["Job_Owner"],
       j <| j_Owner := match cut "@" v with
                       | Some (u, _) => if decide (u = "") then v else u
                       | None => v
                       end |>);
     (["job_state"], j <| j_State := v |>);
     (["queue"], j <| j_Queue := v |>);
     (["Priority"], j <| j_Priority := (Atoi v).1 |>);
     (["qtime"], match ParseInt v with
                 | (ts, None) => j <| j_QueueTime := time_Unix ts |>
                 | (_, Some _) => j
                 end);
     (["Resource_List.walltime"], j <| j_Walltime := parseWalltime v |>);
     (["Resource_List.mem"], j <| j_MemReq := parseMemory v |>);
     (["Resource_List.ncpus"], j <| j_CPUReq := (Atoi v).1 |>);
     (["Resource_List.nodes"],
       let '(n, pp) := parseNodeSelectSpec v in j <| j_Nodes := n |> <| j_PPN := pp |>);
     (["Resource_List.select"],
       let '(n, pp) := parseNodeSelectSpec v in j <| j_Nodes := n |> <| j_PPN := pp |>);
     (["Resource_List.ppn"],
       match atoi_ok v with
       | Some p => if 0 <? p then j <| j_PPN := p |> else j
       | None => j
       end);
     (["Resource_List.host"],
       match strip_prefix "@" (TrimSpace v) with
       | Some g => j <| j_HostGroup := g |>
       | None => j <| j_Host := v |>
       end);
     (["Resource_List.feature"; "Resource_List.features"; "Resource_List.properties"],
       j <| j_Features := j_Features j ++ words v |>)]
    (match strip_prefix "Resource_List." key, atoi_ok v with
     | Some name, Some n => if 0 <? n then j <| j_GRes := <[name := n]> (j_GRes j) |> else j
     | _, _ => j
     end).

Definition parseJobInfo (obj : StatusObject) : JobInfo :=
  foldl parse_job_attr
    (mkJobInfo (obj_Name obj) "" "" "" "" 0 zero_time 0 0 1 "" "" [] 0 0 ∅ false false zero_time)
    (obj_Attrs obj).

(** The non-negative number in an attribute, if it is one. *)
Definition nonneg (o : option Z) : option Z :=
  match o with Some v => if 0 <=? v then Some v else None | None => None end.

Section parse_node.
Context (ParseFloat : string → spec_float).

Definition parse_node_attr (nu : NodeInfo * bool) (a : SvrAttrl) : NodeInfo * bool :=
  let '(n, usedReported) := nu in
  let v := Value a in
  switch (DisMessage.Name a)
    [(["state"], (n <| n_State := v |>, usedReported));
     (["np"], (n <| n_NumProcs := (Atoi v).1 |> <| n_FreeCPUs := (Atoi v).1 |>, usedReported));
     (["ncpus"],
       (if n_NumProcs n =? 0 then n <| n_NumProcs := (Atoi v).1 |> <| n_FreeCPUs := (Atoi v).1 |>
        else n, usedReported));
     (["used_cpus"],
       match nonneg (atoi_ok v) with
       | Some u => (n <| n_UsedCPUs := u |>, true)
       | None => (n, usedReported)
       end);
     (["totmem"], (n <| n_TotalMem := parseMemory v |>, usedReported));
     (["availmem"], (n <| n_AvailMem := parseMemory v |>, usedReported));
     (["loadave"], (n <| n_LoadAvg := ParseFloat v |>, usedReported));
     (["jobs"],
       if decide (v = "") then (n, usedReported)
       else
         let n := n <| n_Jobs := Split "," v |> in
         let free := int64 (n_NumProcs n - Z.of_nat (length (n_Jobs n))) in
         (if usedReported then n else n <| n_FreeCPUs := if free <? 0 then 0 else free |>,
          usedReported));
     (["properties"; "features"], (n <| n_Properties := n_Properties n ++ words v |>, usedReported));
     (["hostgroups"; "groups"], (n <| n_Groups := n_Groups n ++ words v |>, usedReported));
     (["is_dynamic"], (n <| n_Dynamic := bool_decide (v = "true") |>, usedReported))]
    (match strip_prefix "resources_available." (DisMessage.Name a),
           strip_prefix "gres_used." (DisMessage.Name a), nonneg (atoi_ok v) with
     | Some name, _, Some c => (n <| n_GResTotal := <[name := c]> (n_GResTotal n) |>, usedReported)
     | None, Some name, Some c => (n <| n_GResUsed := <[name := c]> (n_GResUsed n) |>, usedReported)
     | _, _, _ => (n, usedReported)
     end).

Definition parseNodeInfo (obj : StatusObject) : NodeInfo :=
  let '(n, usedReported) :=
    foldl parse_node_attr
      (mkNodeInfo (obj_Name obj) "" 0 0 0 0 (S754_zero false) [] 0 [] [] false ∅ ∅, false)
      (obj_Attrs obj) in
  if usedReported then
    let free := int64 (n_NumProcs n - n_UsedCPUs n) in
    n <| n_FreeCPUs := if free <? 0 then 0 else free |>
  else n.
End parse_node.

Definition parse_queue_attr (q : QueueInfo) (a : SvrAttrl) : QueueInfo :=
  let v := Value a in
  switch (DisMessage.Name a)
    [(["queue_type"], q <| q_Type := v |>);
     (["enabled"], q <| q_Enabled := bool_decide (v ∈ ["True"; "true"]) |>);
     (["started"], q <| q_Started := bool_decide (v ∈ ["True"; "true"]) |>);
     (["Priority"], q <| q_Priority := (Atoi v).1 |>);
     (["max_running"], q <| q_MaxRunning := (Atoi v).1 |>);
     (["state_count_running"], q <| q_Running := (Atoi v).1 |>);
     (["state_count_queued"], q <| q_Queued := (Atoi v).1 |>);
     (["naccesspolicy"], q <| q_NaccessPolicy := ToLower (TrimSpace v) |>);
     (["hostlist"], q <| q_HostList := q_HostList q ++ Split "," v |>);
     (["cloud_provider"],
       let q := q <| q_CloudProvider := v |> in
       if decide (v = "") then q else q <| q_CloudBacked := true |>);
     (["cloud_vm_sku"], q <| q_CloudSKU := v |>);
     (["cloud_min_nodes"], q <| q_CloudMinNodes := (Atoi v).1 |>);
     (["cloud_max_nodes"], q <| q_CloudMaxNodes := (Atoi v).1 |>);
     (["cloud_idle_time"], q <| q_CloudIdleTime := (Atoi v).1 |>);
     (["cloud_provision_timeout"], q <| q_CloudProvisionTimeout := (Atoi v).1 |>);
     (["cloud_reclaim"], q <| q_CloudReclaim := v |>);
     (["cloud_subnet_id"], q <| q_CloudSubnetID := v |>);
     (["cloud_image_id"], q <| q_CloudImageID := v |>);
     (["cloud_disk_size"], q <| q_CloudDiskSize := (Atoi v).1 |>);
     (["cloud_disk_type"], q <| q_CloudDiskType := v |>);
     (["cloud_ssh_key"], q <| q_CloudSSHKey := v |>);
     (["cloud_location"], q <| q_CloudLocation := v |>);
     (["cloud_rg_name"], q <| q_CloudRGName := v |>);
     (["cloud_cooldown"], q <| q_CloudCooldown := (Atoi v).1 |>);
     (["cloud_scale_headroom"], q <| q_CloudScaleHeadroom := (Atoi v).1 |>);
     (["cloud_drain_timeout"], q <| q_CloudDrainTimeout := (Atoi v).1 |>)]
    q.

Definition parseQueueInfo (obj : StatusObject) : QueueInfo :=
  foldl parse_queue_attr
    (mkQueueInfo (obj_Name obj) "" true true 0 0 0 0 [] "" [] false "" "" 0 0 0 0 "" "" "" 0 "" ""
       "" "" 0 0 0)
    (obj_Attrs obj).

(** ** The orders of the scheduler *)

Definition fair_usage (usage : gmap string spec_float) (user : string) : spec_float :=
  lookup_or (S754_zero false) user usage.

Definition job_less (usage : gmap string spec_float) (sortBy : string) : JobInfo → JobInfo → bool :=
  switch sortBy
    [(["shortest_job_first"], λ a b, j_Walltime a <? j_Walltime b);
     (["longest_job_first"], λ a b, j_Walltime b <? j_Walltime a);
     (["high_priority_first"], λ a b, j_Priority b <? j_Priority a);
     (["low_priority_first"], λ a b, j_Priority a <? j_Priority b);
     (["smallest_memory_first"], λ a b, j_MemReq a <? j_MemReq b);
     (["largest_memory_first"], λ a b, j_MemReq b <? j_MemReq a);
     (["fair_share"], λ a b, SFltb (fair_usage usage (j_Owner a)) (fair_usage usage (j_Owner b)))]
    (λ a b, Before (j_QueueTime a) (j_QueueTime b)).

Definition starving (cfg : SchedConfig) (t : Time) (j : JobInfo) : bool :=
  negb (IsZero (j_QueueTime j)) && Before (j_QueueTime j) (Add t (int64 (- MaxStarve cfg))).

(** The snapshot of one cycle. *)
Record ServerInfo := mkServerInfo {
  Queues : list QueueInfo;
  Nodes : list NodeInfo;
}.

Section sorts.
Context `{SliceSort}.

Definition sortJobs (cfg : SchedConfig) (usage : gmap string spec_float) (t : Time)
    (jobs : list JobInfo) : list JobInfo :=
  let jobs := sort_Slice (job_less usage (SortBy cfg)) jobs in
  if HelpStarvingJobs cfg && (0 <? MaxStarve cfg) then
    let starvingJobs := filter (λ j, starving cfg t j = true) jobs in
    let normalJobs := filter (λ j, ¬ starving cfg t j = true) jobs in
    if 0 <? Z.of_nat (length starvingJobs) then starvingJobs ++ normalJobs else jobs
  else jobs.

Definition queryServer (ParseFloat : string → spec_float) (cfg : SchedConfig)
    (queueObjs nodeObjs jobObjs : list StatusObject) : ServerInfo :=
  let jobs := filter (λ j, j_State j = "Q") (parseJobInfo <$> jobObjs) in
  let with_jobs obj :=
    let q := parseQueueInfo obj in q <| q_Jobs := filter (λ j, j_Queue j = q_Name q) jobs |> in
  let queues := with_jobs <$> queueObjs in
  mkServerInfo
    (if SortQueues cfg then sort_Slice (λ a b, q_Priority b <? q_Priority a) queues else queues)
    (parseNodeInfo ParseFloat <$> nodeObjs).

(** [decayFactor] is the value [math.Pow] returns. *)
Definition initCycle (cfg : SchedConfig) (decayFactor : spec_float) (t : Time)
    (usage : gmap string spec_float) (queues : list QueueInfo) :
    gmap string spec_float * list QueueInfo :=
  let usage := if FairShare cfg && (0 <? HalfLife cfg)
               then (λ u, SFmul 53 1024 u decayFactor) <$> usage else usage in
  (usage, (λ q, q <| q_Jobs := sortJobs cfg usage t (q_Jobs q) |>) <$> queues).
End sorts.

(** ** Choosing a node *)

Definition nodeHasGroup (n : NodeInfo) (g : string) : bool :=
  existsb (λ grp, EqualFold (TrimSpace grp) g) (n_Groups n).

Definition nodeHasGRes (n : NodeInfo) (want : gmap string Z) : bool :=
  bool_decide (map_Forall (λ name req,
    req ≤ int64 (lookup_or 0 name (n_GResTotal n) - lookup_or 0 name (n_GResUsed n))) want).

Definition nodeHasAllFeatures (n : NodeInfo) (want : list string) : bool :=
  forallb (λ f, existsb (λ p, EqualFold p f) (n_Properties n)) want.

Fixpoint schedulable_tokens (toks : list string) : bool :=
  match toks with
  | [] => false
  | tok :: toks =>
    let t := TrimSpace tok in
    if bool_decide (t ∈ ["drain"; "excl"; "exclusive"; "offline"; "down"; "busy"]) then false
    else if decide (t = "job-exclusive") then true
    else schedulable_tokens toks
  end.
Definition nodeSchedulable (n : NodeInfo) : bool :=
  if decide (n_State n = "free") then true else schedulable_tokens (Split "," (n_State n)).

Definition isRouteQueue (q : QueueInfo) : bool :=
  let t := ToLower (TrimSpace (q_Type q)) in bool_decide (t = "route") || bool_decide (t = "r").

(** One entry of a queue's host list admits the node. *)
Definition host_entry (n : NodeInfo) (h : string) : bool :=
  let h := TrimSpace h in
  if decide (h = "") then false
  else match strip_prefix "@" h with
       | Some g => nodeHasGroup n g
       | None => EqualFold (n_Name n) h
       end.
Definition queueNodeOK (q : option QueueInfo) (n : NodeInfo) : bool :=
  match q with
  | None => true
  | Some q =>
    if (0 <? Z.of_nat (length (q_HostList q))) && negb (existsb (host_entry n) (q_HostList q)) then false
    else if bool_decide (q_NaccessPolicy q ∈ ["exclusive"; "singleuser"; "exclhost"; "exec_host_exclusive"])
            && (0 <? Z.of_nat (length (n_Jobs n)))
    then false
    else true
  end.

Definition queueForJob (queues : list QueueInfo) (name : string) : option QueueInfo :=
  find (λ q, bool_decide (q_Name q = name)) queues.

(** The placement constraints of a job, without the processors. *)
Definition placeable (queues : list QueueInfo) (j : JobInfo) (n : NodeInfo) : bool :=
  nodeSchedulable n
  && (bool_decide (j_Host j = "") || EqualFold (n_Name n) (j_Host j))
  && ((Z.of_nat (length (j_Features j)) =? 0) || nodeHasAllFeatures n (j_Features j))
  && (bool_decide (j_HostGroup j = "") || nodeHasGroup n (j_HostGroup j))
  && queueNodeOK (queueForJob queues (j_Queue j)) n
  && nodeHasGRes n (j_GRes j).

Definition countSchedulableForJob (sinfo : ServerInfo) (j : JobInfo) (reqCPUs : Z) : Z :=
  Z.of_nat (length (filter (λ n, placeable (Queues sinfo) j n && (reqCPUs <=? n_FreeCPUs n) = true)
                      (Nodes sinfo))).

Definition node_less (cfg : SchedConfig) (a b : NodeInfo) : bool :=
  if negb (eqb (n_Dynamic a) (n_Dynamic b)) then negb (n_Dynamic a)
  else if LoadBalancing cfg then SFltb (n_LoadAvg a) (n_LoadAvg b)
  else n_FreeCPUs a <? n_FreeCPUs b.

Definition cpu_req (j : JobInfo) : Z := if j_CPUReq j =? 0 then 1 else j_CPUReq j.

(** The index of the node chosen; [sort.SliceStable] is a stable sort. *)
Definition findNodeForJob (cfg : SchedConfig) (sinfo : ServerInfo) (j : JobInfo) :
    option (nat * NodeInfo) :=
  let perNode := if j_PPN j =? 0 then cpu_req j else j_PPN j in
  if (1 <? j_Nodes j) && (countSchedulableForJob sinfo j perNode <? j_Nodes j) then None
  else
    let candidates :=
      filter (λ c : nat * NodeInfo,
                placeable (Queues sinfo) j c.2 && (cpu_req j <=? n_FreeCPUs c.2) = true)
        (imap (λ i n, (i, n)) (Nodes sinfo)) in
    head (insertion_sort (λ a b : nat * NodeInfo, node_less cfg a.2 b.2) candidates).

Definition strictStop (cfg : SchedConfig) : bool := StrictFIFO cfg && negb (Backfill cfg).

(** ** The job iterator *)

Record jobIterator := mkIter { qIdx : nat; jIdx : list nat }.
#[export] Instance eta_jobIterator : Eta jobIterator := λ it, mkIter (qIdx it) (jIdx it).

Definition newJobIterator (queues : list QueueInfo) : jobIterator := mkIter 0 ((λ _, 0%nat) <$> queues).

Definition skip_queue (q : QueueInfo) : bool := negb (q_Enabled q) || negb (q_Started q) || isRouteQueue q.

Definition bump_job (i : nat) (it : jobIterator) : jobIterator :=
  it <| jIdx := alter S i (jIdx it) |>.

(** [nextByQueue] and [nextFlat], which have the same body.  A job is its queue's index and
    its own.  [None] is a loop that runs out of fuel. *)
Fixpoint scan_fuel (fuel : nat) (queues : list QueueInfo) (it : jobIterator) :
    option (option (nat * nat) * jobIterator) :=
  match fuel with
  | O => None
  | S fuel =>
    match queues !! qIdx it with
    | None => Some (None, it)
    | Some q =>
      if skip_queue q then scan_fuel fuel queues (it <| qIdx := S (qIdx it) |>)
      else
        let k := default 0%nat (jIdx it !! qIdx it) in
        match q_Jobs q !! k with
        | Some j =>
          let it' := bump_job (qIdx it) it in
          if j_CanNotRun j then scan_fuel fuel queues it' else Some (Some (qIdx it, k), it')
        | None => scan_fuel fuel queues (it <| qIdx := S (qIdx it) |>)
        end
    end
  end.
Definition total_jobs (queues : list QueueInfo) : nat := sum_list ((λ q, length (q_Jobs q)) <$> queues).
Definition scan_bound (queues : list QueueInfo) : nat := S (total_jobs queues + length queues).
Definition nextFlat (queues : list QueueInfo) (it : jobIterator) := scan_fuel (scan_bound queues) queues it.
Definition nextByQueue (queues : list QueueInfo) (it : jobIterator) := scan_fuel (scan_bound queues) queues it.

(** One round of [nextRoundRobin] over the queues: a job, or none this round. *)
Fixpoint rr_round (attempts : nat) (queues : list QueueInfo) (it : jobIterator) :
    option (nat * nat) * jobIterator :=
  match attempts with
  | O => (None, it)
  | S attempts =>
    let qi := (qIdx it mod length queues)%nat in
    let it := it <| qIdx := S (qIdx it) |> in
    match queues !! qi with
    | None => (None, it)
    | Some q =>
      if skip_queue q then rr_round attempts queues it
      else
        let k := default 0%nat (jIdx it !! qi) in
        match q_Jobs q !! k with
        | Some j =>
          let it := bump_job qi it in
          if j_CanNotRun j then rr_round attempts queues it else (Some (qi, k), it)
        | None => rr_round attempts queues it
        end
    end
  end.

Definition all_done (queues : list QueueInfo) (it : jobIterator) : bool :=
  forallb (λ c : nat * QueueInfo, negb (default 0%nat (jIdx it !! c.1) <? length (q_Jobs c.2))%nat)
    (imap (λ i q, (i, q)) queues).

Fixpoint rr_fuel (fuel : nat) (queues : list QueueInfo) (it : jobIterator) :
    option (option (nat * nat) * jobIterator) :=
  match fuel with
  | O => None
  | S fuel =>
    if decide (queues = []) then Some (None, it)
    else match rr_round (length queues) queues it with
         | (Some p, it) => Some (Some p, it)
         | (None, it) => if all_done queues it then Some (None, it) else rr_fuel fuel queues it
         end
  end.
Definition nextRoundRobin (queues : list QueueInfo) (it : jobIterator) :=
  rr_fuel (S (total_jobs queues)) queues it.

Definition next (cfg : SchedConfig) (queues : list QueueInfo) (it : jobIterator) :=
  if RoundRobin cfg then nextRoundRobin queues it
  else if ByQueue cfg then nextByQueue queues it
  else nextFlat queues it.

(** ** The cycle *)

(** A job as the index of its queue and its index in the queue. *)
Definition job_at (queues : list QueueInfo) (p : nat * nat) : option JobInfo :=
  queues !! p.1 ≫= λ q, q_Jobs q !! p.2.
Definition upd_job_at (p : nat * nat) (f : JobInfo → JobInfo) (queues : list QueueInfo) : list QueueInfo :=
  alter (λ q, q <| q_Jobs := alter f p.2 (q_Jobs q) |>) p.1 queues.

(** The demand event of a cloud queue, before any job is counted. *)
Definition new_event (q : QueueInfo) : CapacityEvent :=
  mkCapacityEvent (q_Name q) (q_CloudProvider q) (q_CloudSKU q) [] 0 0 0 (q_CloudMinNodes q)
    (q_CloudMaxNodes q) (q_CloudIdleTime q) (q_CloudProvisionTimeout q) (q_CloudReclaim q)
    (q_CloudSubnetID q) (q_CloudImageID q) (q_CloudDiskSize q) (q_CloudDiskType q) (q_CloudSSHKey q)
    (q_CloudLocation q) (q_CloudRGName q) (q_CloudCooldown q) (q_CloudScaleHeadroom q)
    (q_CloudDrainTimeout q).

Definition add_demand (q : QueueInfo) (j : JobInfo) (pending : gmap string CapacityEvent) :
    gmap string CapacityEvent :=
  let ev := default (new_event q) (pending !! q_Name q) in
  <[q_Name q := ev <| e_Cores := int64 (e_Cores ev + cpu_req j) |>
                   <| e_Blocked := int64 (e_Blocked ev + 1) |>
                   <| e_Jobs := e_Jobs ev ++ [j_ID j] |> ]> pending.

(** The node after a job is started on it. *)
Definition charge (j : JobInfo) (n : NodeInfo) : NodeInfo :=
  let free := int64 (n_FreeCPUs n - j_CPUReq j) in
  n <| n_FreeCPUs := if j_CPUReq j =? 0 then int64 (free - 1) else free |>
    <| n_GResUsed := union_with (λ used req, Some (int64 (used + req))) (n_GResUsed n) (j_GRes j) |>
    <| n_Jobs := n_Jobs n ++ [j_ID j] |>.

(** The state of a cycle; [log] are the dispatches, in order. *)
Record Cycle (Srv : Type) := mkCycle {
  c_queues : list QueueInfo;
  c_nodes : list NodeInfo;
  c_it : jobIterator;
  c_pending : gmap string CapacityEvent;
  c_dispatched : Z;
  c_usage : gmap string spec_float;
  c_srv : Srv;
  c_log : list (JobInfo * nat);
}.
Arguments mkCycle {Srv} _ _ _ _ _ _ _ _.
Arguments c_queues {Srv} _.
Arguments c_nodes {Srv} _.
Arguments c_it {Srv} _.
Arguments c_pending {Srv} _.
Arguments c_dispatched {Srv} _.
Arguments c_usage {Srv} _.
Arguments c_srv {Srv} _.
Arguments c_log {Srv} _.
#[export] Instance eta_Cycle {Srv} : Eta (Cycle Srv) := λ c,
  mkCycle (c_queues c) (c_nodes c) (c_it c) (c_pending c) (c_dispatched c) (c_usage c) (c_srv c) (c_log c).

(** One turn of the main loop: go on, leave the loop, or never return. *)
Inductive turn (Srv : Type) := Continue (c : Cycle Srv) | Break (c : Cycle Srv) | Hang.
Arguments Continue {Srv} c.
Arguments Break {Srv} c.
Arguments Hang {Srv}.

Section cycle.
(** The server that answers RunJob, and the time since the start of the cycle at each turn. *)
Context {Srv : Type} (RunJob : string → string → Srv → Srv * bool) (elapsed : nat → Duration)
  (cfg : SchedConfig) (limited : bool).

Definition snapshot (c : Cycle Srv) : ServerInfo := mkServerInfo (c_queues c) (c_nodes c).

Definition blocked (p : nat * nat) (j : JobInfo) (c : Cycle Srv) : turn Srv :=
  let c := c <| c_queues := upd_job_at p (λ j, j <| j_CanNotRun := true |>) (c_queues c) |> in
  match queueForJob (c_queues c) (j_Queue j) with
  | Some q =>
    if q_CloudBacked q then Continue (c <| c_pending := add_demand q j (c_pending c) |>)
    else if strictStop cfg then Break c else Continue c
  | None => if strictStop cfg then Break c else Continue c
  end.

Definition dispatch (j : JobInfo) (i : nat) (n : NodeInfo) (c : Cycle Srv) : turn Srv :=
  let '(srv, ok) := RunJob (j_ID j) (n_Name n +:+ "/0") (c_srv c) in
  let c := c <| c_srv := srv |> in
  if negb ok then Continue c
  else
    let c := c <| c_nodes := alter (charge j) i (c_nodes c) |>
               <| c_dispatched := int64 (c_dispatched c + 1) |>
               <| c_log := c_log c ++ [(j, i)] |> in
    if limited && (0 <? SchedMaxJobStart cfg) && (SchedMaxJobStart cfg <=? c_dispatched c)
    then Break c
    else Continue
      (if FairShare cfg
       then c <| c_usage := <[j_Owner j := SFadd 53 1024 (fair_usage (c_usage c) (j_Owner j))
                                              (S754_finite false 4503599627370496 (-52))]> (c_usage c) |>
       else c).

Definition cycle_turn (attempt : nat) (c : Cycle Srv) : turn Srv :=
  if limited && (0 <? DefaultQueueDepth cfg) && (DefaultQueueDepth cfg <=? Z.of_nat attempt) then Break c
  else if limited && (0 <? MaxSchedTime cfg) && (int64 (MaxSchedTime cfg * Second) <=? elapsed attempt)
  then Break c
  else match next cfg (c_queues c) (c_it c) with
  | None => Hang
  | Some (None, it) => Break (c <| c_it := it |>)
  | Some (Some p, it) =>
    let c := c <| c_it := it |> in
    match job_at (c_queues c) p with
    | None => Break c
    | Some j =>
      match findNodeForJob cfg (snapshot c) j with
      | None => blocked p j c
      | Some (i, n) => dispatch j i n c
      end
    end
  end.

(** The loop; [None] is a cycle that does not return. *)
Fixpoint cycle_loop (fuel attempt : nat) (c : Cycle Srv) : option (Cycle Srv) :=
  match fuel with
  | O => None
  | S fuel =>
    match cycle_turn attempt c with
    | Continue c => cycle_loop fuel (S attempt) c
    | Break c => Some c
    | Hang => None
    end
  end.

(** The shortfall of a cloud queue in machines. *)
Definition event_nodes (ev : CapacityEvent) : CapacityEvent :=
  let coresPerNode := if decide (e_SKU ev = "") then 1 else 2 in
  let ev := if 0 <? e_Cores ev
            then ev <| e_Nodes := Z.quot (int64 (e_Cores ev + coresPerNode - 1)) coresPerNode |> else ev in
  let ev := if (0 <? e_MaxNodes ev) && (e_MaxNodes ev <=? e_Nodes ev)
            then ev <| e_Nodes := e_MaxNodes ev |> else ev in
  if e_Nodes ev <? 1 then ev <| e_Nodes := 1 |> else ev.

Definition queued_jobs (m : gmap string (list string)) (q : QueueInfo) : gmap string (list string) :=
  if negb (q_CloudBacked q) || bool_decide (q_Jobs q = []) then m
  else <[q_Name q := lookup_or [] (q_Name q) m ++ (j_ID <$> q_Jobs q)]> m.

(** What the cycle reports; [order] is the order [pendingCap] is ranged in. *)
Definition cycle_result (order : list string) (c : Cycle Srv) : CycleResult :=
  mkCycleResult (c_dispatched c)
    (event_nodes <$> omap (λ k, c_pending c !! k) order)
    (n_Name <$> filter (λ n, 0 < n_FreeCPUs n) (c_nodes c))
    (n_Name <$> filter (λ n, n_Jobs n = [] ∧ 0 < n_FreeCPUs n) (c_nodes c))
    (foldl queued_jobs ∅ (c_queues c))
    (list_to_set (c_queues c ≫= λ q, j_ID <$> q_Jobs q) ∪ list_to_set (c_nodes c ≫= n_Jobs)).

Definition cycle_start (usage : gmap string spec_float) (sinfo : ServerInfo) (srv : Srv) : Cycle Srv :=
  mkCycle (Queues sinfo) (Nodes sinfo) (newJobIterator (Queues sinfo)) ∅ 0 usage srv [].

(** [runCycle] on the snapshot [queryServer] took. *)
Definition runCycle `{SliceSort} (decayFactor : spec_float) (t : Time) (usage : gmap string spec_float)
    (sinfo : ServerInfo) (srv : Srv) : option (Cycle Srv) :=
  let '(usage, queues) := initCycle cfg decayFactor t usage (Queues sinfo) in
  let c := cycle_start usage (mkServerInfo queues (Nodes sinfo)) srv in
  cycle_loop (S (total_jobs queues)) 0 c.
End cycle.
