(* ===== verification/SchedSpec.v ===== *)
(** * What a scheduling cycle guarantees

    The node chosen for a job, the order of the jobs, the capacity that a cycle hands out,
    the end of the cycle and the demand it reports. *)

From Stdlib Require Import SpecFloat.
From S2P Require Import Prelude GoStd DisMessage ServerState Sched.

Local Open Scope string_scope.
Local Open Scope list_scope.
Local Open Scope Z_scope.

Implicit Types (queues : list QueueInfo) (it : jobIterator) (p : nat * nat) (j : JobInfo).

(** ** Lemmas: the chosen node *)

Definition fits (sinfo : ServerInfo) (j : JobInfo) (n : NodeInfo) : Prop :=
  placeable (Queues sinfo) j n = true ∧ cpu_req j ≤ n_FreeCPUs n.

Definition candidates (sinfo : ServerInfo) (j : JobInfo) : list (nat * NodeInfo) :=
  filter (λ c : nat * NodeInfo,
            placeable (Queues sinfo) j c.2 && (cpu_req j <=? n_FreeCPUs c.2) = true)
    (imap (λ i n, (i, n)) (Nodes sinfo)).

Lemma elem_candidates sinfo j i n :
  (i, n) ∈ candidates sinfo j ↔ Nodes sinfo !! i = Some n ∧ fits sinfo j n.
Proof.
  unfold candidates, fits. rewrite list_elem_of_filter. simpl. rewrite andb_true_iff, Z.leb_le.
  assert ((i, n) ∈ imap (λ i n, (i, n)) (Nodes sinfo) ↔ Nodes sinfo !! i = Some n) as ->; [|tauto].
  rewrite list_elem_of_lookup. split.
  - intros [k Hk]. rewrite list_lookup_imap in Hk. destruct (Nodes sinfo !! k) eqn:E; [|done].
    simpl in Hk. by simplify_eq.
  - intros Hi. exists i. by rewrite list_lookup_imap, Hi.
Qed.

Lemma findNode_candidates cfg sinfo j i n :
  findNodeForJob cfg sinfo j = Some (i, n) →
  head (insertion_sort (λ a b : nat * NodeInfo, node_less cfg a.2 b.2) (candidates sinfo j)) = Some (i, n).
Proof. unfold findNodeForJob. cbv zeta. by destruct (_ && _). Qed.

Lemma findNode_fits cfg sinfo j i n :
  findNodeForJob cfg sinfo j = Some (i, n) → Nodes sinfo !! i = Some n ∧ fits sinfo j n.
Proof.
  intros H%findNode_candidates. apply elem_candidates.
  rewrite <- (insertion_sort_perm (λ a b : nat * NodeInfo, node_less cfg a.2 b.2)).
  destruct (insertion_sort _ _); [done|]. simpl in H. simplify_eq. left.
Qed.

#[export] Instance node_less_weak cfg :
  LoadBalancing cfg = false → strict_weak (λ a b : nat * NodeInfo, node_less cfg a.2 b.2).
Proof.
  intros Hlb. split.
  - intros [? a] [? b]. unfold node_less. simpl. rewrite Hlb.
    destruct (n_Dynamic a), (n_Dynamic b); simpl; try done; intros; bool_to_prop; lia.
  - intros [? a] [? b] [? c]. unfold node_less. simpl. rewrite Hlb.
    destruct (n_Dynamic a), (n_Dynamic b), (n_Dynamic c); simpl; try done; intros; bool_to_prop; lia.
Qed.

(** The head of a sorted list is below every element. *)
Lemma Sorted_head {A} (less : A → A → bool) `{!strict_weak less} x l :
  Sorted (λ x y, less y x = false) (x :: l) → ∀ y, y ∈ x :: l → less y x = false.
Proof.
  intros Hs. assert (∀ a, less a a = false) as Hir.
  { intros a. destruct (less a a) eqn:E; [|done]. by rewrite (sw_asym a a E) in E. }
  assert (Transitive (λ x y, less y x = false)) as Htr by (intros a b c H1 H2; by apply (sw_negtrans c b a)).
  apply Sorted_StronglySorted in Hs; [|exact Htr]. inversion Hs as [|? ? _ Hf]; subst.
  intros y [->|Hy]%elem_of_cons; [done|]. rewrite Forall_forall in Hf. auto.
Qed.

(** *** What a job asks of a node *)

(** A node takes jobs when it is free, or when its state says job-exclusive before any of the
    blocking words. *)
Definition blocking : list string := ["drain"; "excl"; "exclusive"; "offline"; "down"; "busy"].
Definition takes_jobs (state : string) : Prop :=
  state = "free" ∨
  ∃ before w after, Split "," state = before ++ w :: after ∧ TrimSpace w = "job-exclusive" ∧
    Forall (λ v, TrimSpace v ∉ blocking) before.

(** An entry of a queue's host list: a group after an at sign, or a node. *)
Definition names_node (n : NodeInfo) (entry : string) : Prop :=
  TrimSpace entry ≠ "" ∧
  match strip_prefix "@" (TrimSpace entry) with
  | Some g => ∃ grp, grp ∈ n_Groups n ∧ EqualFold (TrimSpace grp) g = true
  | None => EqualFold (n_Name n) (TrimSpace entry) = true
  end.

Record suits (sinfo : ServerInfo) (j : JobInfo) (n : NodeInfo) : Prop := {
  su_state : takes_jobs (n_State n);
  su_host : j_Host j ≠ "" → EqualFold (n_Name n) (j_Host j) = true;
  su_features : ∀ f, f ∈ j_Features j → ∃ pr, pr ∈ n_Properties n ∧ EqualFold pr f = true;
  su_group : j_HostGroup j ≠ "" → ∃ g, g ∈ n_Groups n ∧ EqualFold (TrimSpace g) (j_HostGroup j) = true;
  su_pool : ∀ q, queueForJob (Queues sinfo) (j_Queue j) = Some q → q_HostList q ≠ [] →
    ∃ h, h ∈ q_HostList q ∧ names_node n h;
  su_alone : ∀ q, queueForJob (Queues sinfo) (j_Queue j) = Some q →
    q_NaccessPolicy q ∈ ["exclusive"; "singleuser"; "exclhost"; "exec_host_exclusive"] → n_Jobs n = [];
  su_gres : ∀ name req, j_GRes j !! name = Some req →
    req ≤ int64 (lookup_or 0 name (n_GResTotal n) - lookup_or 0 name (n_GResUsed n));
  su_cpus : (if j_CPUReq j =? 0 then 1 else j_CPUReq j) ≤ n_FreeCPUs n;
}.

Lemma existsb_elem {A} (f : A → bool) l : existsb f l = true ↔ ∃ x, x ∈ l ∧ f x = true.
Proof. rewrite existsb_exists. by setoid_rewrite list_elem_of_In. Qed.

Lemma nodeSchedulable_takes n : nodeSchedulable n = true ↔ takes_jobs (n_State n).
Proof.
  unfold nodeSchedulable, takes_jobs. case_decide as Hf; [tauto|].
  assert (∀ toks, schedulable_tokens toks = true ↔ ∃ before w after, toks = before ++ w :: after ∧
    TrimSpace w = "job-exclusive" ∧ Forall (λ v, TrimSpace v ∉ blocking) before) as ->; [|tauto].
  induction toks as [|tok toks IH]; cbn [schedulable_tokens]; [split; [done|]; by intros ([|??] & ? & ? & ? & _)|].
  cbv zeta. fold blocking. case_bool_decide as Hb; [split; [done|]|].
  { intros ([|v before] & w & after & E & Hw & Hn); simplify_eq/=; [|by apply Forall_cons in Hn as [? _]].
    rewrite Hw in Hb. by apply (bool_decide_eq_true_2 _) in Hb; vm_compute in Hb. }
  case_decide as Hj.
  - split; [|done]. intros _. by exists [], tok, toks.
  - rewrite IH. split.
    + intros (before & w & after & -> & Hw & Hn). exists (tok :: before), w, after. split_and!; [done..|by constructor].
    + intros ([|v before] & w & after & E & Hw & Hn); simplify_eq/=. apply Forall_cons in Hn as [_ Hn]. by exists before, w, after.
Qed.

Lemma queueNodeOK_spec q n :
  queueNodeOK (Some q) n = true ↔
  (q_HostList q ≠ [] → ∃ h, h ∈ q_HostList q ∧ names_node n h) ∧
  (q_NaccessPolicy q ∈ ["exclusive"; "singleuser"; "exclhost"; "exec_host_exclusive"] → n_Jobs n = []).
Proof.
  assert (existsb (host_entry n) (q_HostList q) = true ↔ ∃ h, h ∈ q_HostList q ∧ names_node n h) as Hh.
  { rewrite existsb_elem. apply exist_proper. intros h. apply and_iff_compat_l. unfold host_entry, names_node. cbv zeta.
    case_decide; [naive_solver|]. destruct (strip_prefix _ _); [|naive_solver]. unfold nodeHasGroup. rewrite existsb_elem. naive_solver. }
  rewrite <- Hh. unfold queueNodeOK.
  destruct (q_HostList q) as [|h hl], (existsb _ _), (n_Jobs n); cbn [length]; case_bool_decide; cbn; naive_solver.
Qed.

Lemma fits_suits sinfo j n : fits sinfo j n ↔ suits sinfo j n.
Proof.
  assert (fits sinfo j n ↔ nodeSchedulable n = true ∧
    (bool_decide (j_Host j = "") || EqualFold (n_Name n) (j_Host j)) = true ∧
    ((Z.of_nat (length (j_Features j)) =? 0) || nodeHasAllFeatures n (j_Features j)) = true ∧
    (bool_decide (j_HostGroup j = "") || nodeHasGroup n (j_HostGroup j)) = true ∧
    queueNodeOK (queueForJob (Queues sinfo) (j_Queue j)) n = true ∧ nodeHasGRes n (j_GRes j) = true ∧
    cpu_req j ≤ n_FreeCPUs n) as ->.
  { unfold fits, placeable. rewrite !andb_true_iff. tauto. }
  assert ((bool_decide (j_Host j = "") || EqualFold (n_Name n) (j_Host j)) = true ↔
    (j_Host j ≠ "" → EqualFold (n_Name n) (j_Host j) = true)) as -> by (case_bool_decide; cbn; naive_solver).
  assert (((Z.of_nat (length (j_Features j)) =? 0) || nodeHasAllFeatures n (j_Features j)) = true ↔
    ∀ f, f ∈ j_Features j → ∃ pr, pr ∈ n_Properties n ∧ EqualFold pr f = true) as ->.
  { setoid_rewrite <- existsb_elem. rewrite orb_true_iff. unfold nodeHasAllFeatures. rewrite forallb_forall. setoid_rewrite list_elem_of_In.
    destruct (j_Features j); cbn; naive_solver. }
  assert ((bool_decide (j_HostGroup j = "") || nodeHasGroup n (j_HostGroup j)) = true ↔
    (j_HostGroup j ≠ "" → ∃ g, g ∈ n_Groups n ∧ EqualFold (TrimSpace g) (j_HostGroup j) = true)) as ->.
  { unfold nodeHasGroup. rewrite orb_true_iff, existsb_elem, bool_decide_eq_true. destruct (decide (j_HostGroup j = "")); naive_solver. }
  assert (queueNodeOK (queueForJob (Queues sinfo) (j_Queue j)) n = true ↔
    ∀ q, queueForJob (Queues sinfo) (j_Queue j) = Some q → queueNodeOK (Some q) n = true) as ->.
  { destruct (queueForJob _ _); naive_solver. }
  setoid_rewrite queueNodeOK_spec. rewrite nodeSchedulable_takes. unfold nodeHasGRes. rewrite bool_decide_eq_true.
  change (cpu_req j) with (if j_CPUReq j =? 0 then 1 else j_CPUReq j).
  split; [intros (?&?&?&?&Hq&?&?); split; auto; intros q Hj; by apply Hq|].
  intros []. split_and!; eauto 6.
Qed.

(** ** Theorems: the chosen node *)

(** C34: the node chosen for a job is one that the scheduler's picture shows to suit it: its
    state is free, or names job-exclusive before any blocking word; it is the host, carries
    every property and belongs to the group the job asks for; it is in the node pool of the
    job's queue, and idle when the queue's policy is exclusive; it has the generic resources
    and the processors of the job's ncpus (one when it gives none) free.  Unless jobs are
    placed by load, a cloud node is chosen only when no local node suits, and among the nodes
    of a kind one with the fewest free processors.  A job for one node is blocked only when
    no node suits it. *)
Theorem findNodeForJob_best cfg sinfo j :
  match findNodeForJob cfg sinfo j with
  | Some (i, n) =>
    Nodes sinfo !! i = Some n ∧ suits sinfo j n ∧
    (LoadBalancing cfg = false → ∀ m, m ∈ Nodes sinfo → suits sinfo j m →
      (n_Dynamic n = true → n_Dynamic m = true) ∧
      (n_Dynamic n = n_Dynamic m → n_FreeCPUs n ≤ n_FreeCPUs m))
  | None => j_Nodes j ≤ 1 → ∀ m, m ∈ Nodes sinfo → ¬ suits sinfo j m
  end.
Proof.
  destruct (findNodeForJob cfg sinfo j) as [[i n]|] eqn:E; setoid_rewrite <- fits_suits.
  - destruct (findNode_fits _ _ _ _ _ E) as [Hi Hf]. split; [done|]. split; [done|].
    intros Hlb m [k Hk]%list_elem_of_lookup Hm. apply findNode_candidates in E.
    assert ((k, m) ∈ candidates sinfo j) as Hc by (by apply elem_candidates).
    rewrite <- (insertion_sort_perm (λ a b : nat * NodeInfo, node_less cfg a.2 b.2)) in Hc.
    pose proof (node_less_weak cfg Hlb) as Hw.
    pose proof (insertion_sort_sorted _ (candidates sinfo j) Hw) as Hs.
    destruct (insertion_sort _ _) as [|x l]; [done|]. simpl in E. simplify_eq.
    pose proof (Sorted_head _ _ _ Hs _ Hc) as Hle. unfold node_less in Hle. simpl in Hle. rewrite Hlb in Hle.
    destruct (n_Dynamic m), (n_Dynamic n); simpl in Hle; bool_to_prop; split; intros; try done; lia.
  - intros Hn m [k Hk]%list_elem_of_lookup Hm. unfold findNodeForJob in E. cbv zeta in E.
    replace (1 <? j_Nodes j) with false in E by lia. cbn [andb] in E.
    assert ((k, m) ∈ candidates sinfo j) as Hc by (by apply elem_candidates).
    rewrite <- (insertion_sort_perm (λ a b : nat * NodeInfo, node_less cfg a.2 b.2)) in Hc.
    change (head (insertion_sort (λ a b : nat * NodeInfo, node_less cfg a.2 b.2) (candidates sinfo j)) = None) in E.
    destruct (insertion_sort _ _); [by apply elem_of_nil in Hc|done].
Qed.

Definition local_node : NodeInfo :=
  mkNodeInfo "n1" "free" 4 4 0 0 (S754_zero false) [] 0 [] [] false ∅ ∅.
Definition cloud_node : NodeInfo := local_node <| n_Name := "c1" |> <| n_FreeCPUs := 2 |> <| n_Dynamic := true |>.
Definition plain_job : JobInfo :=
  mkJobInfo "1.srv" "" "alice" "Q" "batch" 0 zero_time 0 0 1 "" "" [] 0 0 ∅ false false zero_time.
Definition plain_queue (jobs : list JobInfo) : QueueInfo :=
  (parseQueueInfo (mkObject 0 "batch" [])) <| q_Jobs := jobs |>.
Definition sched_cfg : SchedConfig :=
  mkSchedConfig false true false true false true true false "fifo" (24 * Hour) (24 * Hour) 100 0 2.

Lemma findNodeForJob_best_witness :
  let sinfo := mkServerInfo [plain_queue [plain_job]] [cloud_node; local_node] in
  findNodeForJob sched_cfg sinfo plain_job = Some (1%nat, local_node) ∧ suits sinfo plain_job local_node.
Proof.
  intros sinfo. pose proof (findNodeForJob_best sched_cfg sinfo plain_job) as H.
  assert (findNodeForJob sched_cfg sinfo plain_job = Some (1%nat, local_node)) as E by by vm_compute.
  rewrite E in H. split; [exact E|apply H].
Defined.

(** ** Lemmas: the iterator *)

(** The jobs the iterator has not passed yet. *)
Definition left_in (jidx : list nat) (i : nat) (q : QueueInfo) : nat :=
  (length (q_Jobs q) - default 0 (jidx !! i))%nat.
Fixpoint left_from (i : nat) (jidx : list nat) (queues : list QueueInfo) : nat :=
  match queues with
  | [] => 0
  | q :: queues => left_in jidx i q + left_from (S i) jidx queues
  end.
Definition remaining (queues : list QueueInfo) (it : jobIterator) : nat := left_from 0 (jIdx it) queues.

Lemma left_from_alter_before i k jidx queues :
  (i < k)%nat → left_from k (alter S i jidx) queues = left_from k jidx queues.
Proof.
  revert k. induction queues as [|q qs IH]; intros k Hk; simpl; [done|].
  unfold left_in. rewrite list_lookup_alter_ne by lia. rewrite IH by lia. done.
Qed.

Lemma left_from_bump k i jidx queues q :
  queues !! i = Some q → (default 0 (jidx !! (k + i)) < length (q_Jobs q))%nat →
  (k + i < length jidx)%nat →
  S (left_from k (alter S (k + i)%nat jidx) queues) = left_from k jidx queues.
Proof.
  revert k i. induction queues as [|q' qs IH]; intros k [|i] Hq Hlt Hlen; simpl in *; try done.
  - simplify_eq. rewrite Nat.add_0_r in *. rewrite left_from_alter_before by lia. unfold left_in.
    rewrite list_lookup_alter_eq. destruct (lookup_lt_is_Some_2 jidx k Hlen) as [x Hx].
    rewrite Hx in *. simpl in *. lia.
  - specialize (IH (S k) i Hq). rewrite Nat.add_succ_comm in *. simpl in IH. specialize (IH Hlt Hlen).
    unfold left_in. rewrite list_lookup_alter_ne by lia. lia.
Qed.

Definition iter_ok (queues : list QueueInfo) (it : jobIterator) : Prop := length (jIdx it) = length queues.

Lemma remaining_bump queues it i q :
  iter_ok queues it → queues !! i = Some q → (default 0 (jIdx it !! i) < length (q_Jobs q))%nat →
  S (remaining queues (bump_job i it)) = remaining queues it.
Proof.
  intros Hok Hq Hlt. unfold remaining, bump_job. simpl. apply (left_from_bump 0 i _ _ q); [done..|].
  simpl. rewrite Hok. by apply lookup_lt_Some in Hq.
Qed.

(** How one call moves the iterator: the indices never go back, and the job it returns is
    one it had not passed and has passed now. *)
Definition moved (it it' : jobIterator) : Prop :=
  ∀ i, (default 0 (jIdx it !! i) ≤ default 0 (jIdx it' !! i))%nat.
Definition fresh (it it' : jobIterator) (p : nat * nat) : Prop :=
  (default 0 (jIdx it !! p.1) ≤ p.2)%nat ∧ (p.2 < default 0 (jIdx it' !! p.1))%nat.

Lemma moved_bump i it : moved it (bump_job i it).
Proof.
  intros k. unfold bump_job. simpl. destruct (decide (k = i)) as [->|].
  - rewrite list_lookup_alter_eq. destruct (jIdx it !! i); simpl; lia.
  - by rewrite list_lookup_alter_ne.
Qed.

Lemma moved_trans it1 it2 it3 : moved it1 it2 → moved it2 it3 → moved it1 it3.
Proof. intros H1 H2 i. etransitivity; [apply H1|apply H2]. Qed.

Lemma fresh_moved it1 it2 it3 p : moved it1 it2 → fresh it2 it3 p → fresh it1 it3 p.
Proof. intros Hm [H1 H2]. split; [|done]. etransitivity; [apply Hm|done]. Qed.

Lemma fresh_bump queues it i q k :
  iter_ok queues it → queues !! i = Some q → k = default 0%nat (jIdx it !! i) →
  fresh it (bump_job i it) (i, k).
Proof.
  intros Hok Hq ->. split; simpl; [done|]. rewrite list_lookup_alter_eq.
  assert (i < length (jIdx it))%nat as [x Hx]%lookup_lt_is_Some_2.
  { rewrite Hok. by apply lookup_lt_Some in Hq. }
  rewrite Hx. simpl. lia.
Qed.

(** The result of a call on queues that do not change. *)
Record next_ok (queues : list QueueInfo) (it : jobIterator) (r : option (nat * nat)) (it' : jobIterator) :
    Prop := {
  nx_ok : iter_ok queues it';
  nx_moved : moved it it';
  nx_left : (remaining queues it' + match r with Some _ => 1 | None => 0 end ≤ remaining queues it)%nat;
  nx_fresh : ∀ p, r = Some p → fresh it it' p;
  nx_job : ∀ p, r = Some p → is_Some (job_at queues p);
}.

Lemma next_ok_after queues it it1 r it' :
  iter_ok queues it1 → moved it it1 → (remaining queues it1 ≤ remaining queues it)%nat →
  next_ok queues it1 r it' → next_ok queues it r it'.
Proof.
  intros Hok Hm Hr [H1 H2 H3 H4 H5]. split; [done| |lia| |done].
  - by eapply moved_trans.
  - intros p Hp. by eapply fresh_moved, H4.
Qed.

Lemma next_ok_yield queues it i q k j :
  iter_ok queues it → queues !! i = Some q → k = default 0%nat (jIdx it !! i) → q_Jobs q !! k = Some j →
  next_ok queues it (Some (i, k)) (bump_job i it).
Proof.
  intros Hok Hq Hk Hj. split.
  - unfold iter_ok, bump_job. simpl. by rewrite length_alter.
  - apply moved_bump.
  - rewrite <- (remaining_bump queues it i q) by (subst; done || by apply lookup_lt_Some in Hj). lia.
  - intros p [= <-]. by eapply fresh_bump.
  - intros p [= <-]. unfold job_at. simpl. rewrite Hq. simpl. by eexists.
Qed.

Lemma bump_ok queues it i : iter_ok queues it → iter_ok queues (bump_job i it).
Proof. unfold iter_ok, bump_job. simpl. by rewrite length_alter. Qed.

Lemma next_ok_none queues it : iter_ok queues it → next_ok queues it None it.
Proof. intros H. split; [done|by intros i|lia|done|done]. Qed.

Lemma scan_total fuel queues it :
  iter_ok queues it → (remaining queues it + (length queues - qIdx it) < fuel)%nat →
  ∃ r it', scan_fuel fuel queues it = Some (r, it') ∧ next_ok queues it r it'.
Proof.
  revert it. induction fuel as [|fuel IH]; intros it Hok Hf; [lia|]. cbn [scan_fuel].
  destruct (queues !! qIdx it) as [q|] eqn:Hq.
  2: { exists None, it. split; [done|]. by apply next_ok_none. }
  pose proof (lookup_lt_Some _ _ _ Hq) as Hlt.
  assert (∀ r it', next_ok queues (it <| qIdx := S (qIdx it) |>) r it' → next_ok queues it r it') as Hstep.
  { intros r it'. apply next_ok_after; [done| |done]. by intros i. }
  destruct (skip_queue q).
  { destruct (IH (it <| qIdx := S (qIdx it) |>)) as (r & it' & -> & H); [done|simpl|by eauto].
    unfold remaining in *. simpl. lia. }
  cbv zeta. set (k := default 0%nat (jIdx it !! qIdx it)).
  destruct (q_Jobs q !! k) as [j|] eqn:Hj.
  - pose proof (next_ok_yield queues it (qIdx it) q k j Hok Hq eq_refl Hj) as Hy.
    destruct (j_CanNotRun j); [|by eauto].
    pose proof (nx_left _ _ _ _ Hy) as Hl. simpl in Hl.
    destruct (IH (bump_job (qIdx it) it)) as (r & it' & -> & H); [by apply bump_ok|simpl; lia|].
    exists r, it'. split; [done|]. eapply next_ok_after; [| | |exact H]; [by apply bump_ok|apply moved_bump|lia].
  - destruct (IH (it <| qIdx := S (qIdx it) |>)) as (r & it' & -> & H); [done|simpl|by eauto].
    unfold remaining in *. simpl. lia.
Qed.

(** *** Round robin *)

Lemma rr_index queues it : queues ≠ [] → is_Some (queues !! (qIdx it mod length queues)%nat).
Proof.
  intros Hne. apply lookup_lt_is_Some. apply Nat.mod_upper_bound. by destruct queues.
Qed.

Lemma rr_round_ok n queues it :
  iter_ok queues it → queues ≠ [] →
  next_ok queues it (rr_round n queues it).1 (rr_round n queues it).2.
Proof.
  intros Hok Hne. revert it Hok. induction n as [|n IH]; intros it Hok; cbn [rr_round].
  { by apply next_ok_none. }
  destruct (rr_index queues it Hne) as [q Hq]. cbv zeta. rewrite Hq.
  set (i := (qIdx it mod length queues)%nat) in *. set (it1 := it <| qIdx := S (qIdx it) |>).
  assert (iter_ok queues it1) as Hok1 by done.
  assert (∀ r it', next_ok queues it1 r it' → next_ok queues it r it') as Hstep.
  { intros r it'. apply next_ok_after; [done| |done]. by intros ?. }
  destruct (skip_queue q); [apply Hstep, IH, Hok1|].
  destruct (q_Jobs q !! _) as [j|] eqn:Hj; [|apply Hstep, IH, Hok1].
  pose proof (next_ok_yield queues it1 i q _ j Hok1 Hq eq_refl Hj) as Hy.
  apply Hstep. destruct (j_CanNotRun j); [|exact Hy].
  pose proof (nx_left _ _ _ _ Hy) as Hl. simpl in Hl.
  apply (next_ok_after _ it1 (bump_job i it1)); [by apply bump_ok|apply moved_bump|lia|]. apply IH. by apply bump_ok.
Qed.

(** Queue [i] has nothing more to offer. *)
Definition exhausted (queues : list QueueInfo) (it : jobIterator) (i : nat) : Prop :=
  ∀ q, queues !! i = Some q → skip_queue q = true ∨ (length (q_Jobs q) ≤ default 0 (jIdx it !! i))%nat.

Lemma rr_round_idle n queues it :
  (∀ t, (t < n)%nat → exhausted queues it ((qIdx it + t) mod length queues)%nat) →
  rr_round n queues it = (None, it <| qIdx := (qIdx it + n)%nat |>) ∨ queues = [].
Proof.
  destruct (decide (queues = [])) as [->|Hne]; [by right|]. left. revert it H.
  induction n as [|n IH]; intros it H; cbn [rr_round].
  { rewrite Nat.add_0_r. by destruct it. }
  destruct (rr_index queues it Hne) as [q Hq]. cbv zeta. rewrite Hq.
  assert (rr_round n queues (it <| qIdx := S (qIdx it) |>) = (None, it <| qIdx := (qIdx it + S n)%nat |>)) as Hn.
  { rewrite IH; [by rewrite <- Nat.add_succ_comm|]. intros t Ht.
    change (qIdx (it <| qIdx := S (qIdx it) |>) + t)%nat with (S (qIdx it) + t)%nat.
    rewrite Nat.add_succ_comm. apply (H (S t)). lia. }
  specialize (H 0%nat ltac:(lia)). rewrite Nat.add_0_r in H. destruct (H q Hq) as [->|Hl]; [done|].
  destruct (skip_queue q); [done|]. simpl. rewrite lookup_ge_None_2 by done. done.
Qed.

Lemma rr_round_stuck n queues it it' :
  iter_ok queues it → queues ≠ [] → rr_round n queues it = (None, it') →
  remaining queues it' = remaining queues it →
  jIdx it' = jIdx it ∧ ∀ t, (t < n)%nat → exhausted queues it ((qIdx it + t) mod length queues)%nat.
Proof.
  intros Hok Hne. revert it Hok. induction n as [|n IH]; intros it Hok; cbn [rr_round].
  { intros [= <-] _. split; [done|]. lia. }
  destruct (rr_index queues it Hne) as [q Hq]. cbv zeta. rewrite Hq.
  set (i := (qIdx it mod length queues)%nat) in *. set (it1 := it <| qIdx := S (qIdx it) |>).
  assert (iter_ok queues it1) as Hok1 by done.
  assert (exhausted queues it i → rr_round n queues it1 = (None, it') →
    remaining queues it' = remaining queues it →
    jIdx it' = jIdx it ∧ ∀ t, (t < S n)%nat → exhausted queues it ((qIdx it + t) mod length queues)%nat) as Hgo.
  { intros Hex Hr Hrem. destruct (IH it1 Hok1 Hr Hrem) as [Hj Ht]. split; [done|].
    intros [|t] Hlt; [by rewrite Nat.add_0_r|]. rewrite <- Nat.add_succ_comm. apply Ht. lia. }
  destruct (skip_queue q) eqn:Hs.
  { apply Hgo. intros q' Hq'. simplify_eq. by left. }
  destruct (q_Jobs q !! _) as [j|] eqn:Hj.
  2: { apply Hgo. intros q' Hq'. simplify_eq. right. by apply lookup_ge_None in Hj. }
  destruct (j_CanNotRun j); [|done]. intros Hr Hrem. exfalso.
  pose proof (next_ok_yield queues it1 i q _ j Hok1 Hq eq_refl Hj) as Hy.
  pose proof (nx_left _ _ _ _ Hy) as Hl. simpl in Hl.
  pose proof (rr_round_ok n queues (bump_job i it1) ltac:(by apply bump_ok) Hne) as Hn.
  apply nx_left in Hn. rewrite Hr in Hn. simpl in Hn. unfold remaining in *. simpl in *. lia.
Qed.

(** A full round visits every queue. *)
Lemma rr_covers len a i : (i < len)%nat → ∃ t, (t < len)%nat ∧ ((a + t) mod len)%nat = i.
Proof.
  intros Hi. exists ((i + (len - a mod len)) mod len)%nat. split; [apply Nat.mod_upper_bound; lia|].
  rewrite Nat.Div0.add_mod_idemp_r. pose proof (Nat.mod_upper_bound a len).
  rewrite (Nat.div_mod_eq a len) at 1.
  replace (len * (a / len) + a mod len + (i + (len - a mod len)))%nat
    with (i + (1 + a / len) * len)%nat by lia.
  rewrite Nat.Div0.mod_add. by apply Nat.mod_small.
Qed.

Lemma all_done_false queues it i q :
  queues !! i = Some q → (default 0 (jIdx it !! i) < length (q_Jobs q))%nat → all_done queues it = false.
Proof.
  intros Hq Hlt. destruct (all_done queues it) eqn:E; [|done]. unfold all_done in E.
  rewrite forallb_forall in E. specialize (E (i, q)). simpl in E.
  assert ((i, q) ∈ imap (λ i q, (i, q)) queues) as Hin.
  { apply list_elem_of_lookup. exists i. by rewrite list_lookup_imap, Hq. }
  apply list_elem_of_In in Hin. specialize (E Hin). apply negb_true_iff, Nat.ltb_ge in E. lia.
Qed.

Lemma all_done_true queues it :
  (∀ i q, queues !! i = Some q → (length (q_Jobs q) ≤ default 0 (jIdx it !! i))%nat) → all_done queues it = true.
Proof.
  intros H. unfold all_done. apply forallb_forall. intros [i q] Hin%list_elem_of_In.
  apply list_elem_of_lookup in Hin as [k Hk]. rewrite list_lookup_imap in Hk.
  destruct (queues !! k) eqn:E; [|done]. simpl in Hk. simplify_eq. simpl.
  apply negb_true_iff, Nat.ltb_ge. by apply H.
Qed.

(** No queue that is passed over holds a job. *)
Definition no_parked_jobs (queues : list QueueInfo) : Prop :=
  ∀ q, q ∈ queues → skip_queue q = true → q_Jobs q = [].

Lemma rr_total fuel queues it :
  iter_ok queues it → no_parked_jobs queues → (remaining queues it < fuel)%nat →
  ∃ r it', rr_fuel fuel queues it = Some (r, it') ∧ next_ok queues it r it'.
Proof.
  intros Hok Hnp. revert it Hok. induction fuel as [|fuel IH]; intros it Hok Hf; [lia|]. cbn [rr_fuel].
  destruct (decide (queues = [])) as [|Hne]; [exists None, it; split; [done|by apply next_ok_none]|].
  pose proof (rr_round_ok (length queues) queues it Hok Hne) as Hr.
  destruct (rr_round (length queues) queues it) as [[p|] it1] eqn:E; simpl in Hr; [by eauto|].
  destruct (all_done queues it1) eqn:Hd; [by eauto|].
  pose proof (nx_left _ _ _ _ Hr) as Hl.
  destruct (decide (remaining queues it1 = remaining queues it)) as [Heq|].
  - exfalso. destruct (rr_round_stuck _ _ _ _ Hok Hne E Heq) as [Hj Hex].
    rewrite all_done_true in Hd; [done|]. intros i q Hq. rewrite Hj.
    destruct (rr_covers (length queues) (qIdx it) i) as (t & Ht & Hi); [by apply lookup_lt_Some in Hq|].
    specialize (Hex t Ht). rewrite Hi in Hex. destruct (Hex q Hq) as [Hs|]; [|done].
    rewrite (Hnp q) by (done || by eapply elem_of_list_lookup_2 || by eapply list_elem_of_lookup_2). simpl. lia.
  - destruct (IH it1) as (r & it' & -> & H); [apply Hr|simpl in Hl; lia|].
    exists r, it'. split; [done|]. apply (next_ok_after _ it it1); [apply Hr|apply Hr|simpl in Hl; lia|exact H].
Qed.

Lemma left_from_le k jidx queues : (left_from k jidx queues ≤ total_jobs queues)%nat.
Proof.
  revert k. induction queues as [|q qs IH]; intros k; [done|]. cbn [left_from].
  change (total_jobs (q :: qs)) with (length (q_Jobs q) + total_jobs qs)%nat.
  unfold left_in. specialize (IH (S k)). lia.
Qed.

Lemma next_total cfg queues it :
  iter_ok queues it → (RoundRobin cfg = true → no_parked_jobs queues) →
  ∃ r it', next cfg queues it = Some (r, it') ∧ next_ok queues it r it'.
Proof.
  intros Hok Hnp. unfold next, nextRoundRobin, nextByQueue, nextFlat.
  pose proof (left_from_le 0 (jIdx it) queues) as Hl. fold (remaining queues it) in Hl.
  destruct (RoundRobin cfg); [apply rr_total; auto; lia|].
  destruct (ByQueue cfg); apply scan_total; auto; unfold scan_bound; lia.
Qed.

(** ** Lemmas: one turn of the cycle *)

(** A cycle changes nothing of the queues but the marks on the jobs that were blocked. *)
Definition unmark (j : JobInfo) : JobInfo := j <| j_CanNotRun := false |>.
Definition unmarked (q : QueueInfo) : QueueInfo := q <| q_Jobs := unmark <$> q_Jobs q |>.

Lemma upd_job_at_unmarked p queues :
  unmarked <$> upd_job_at p (λ j, j <| j_CanNotRun := true |>) queues = unmarked <$> queues.
Proof.
  unfold upd_job_at. apply list_eq. intros i. rewrite !list_lookup_fmap.
  destruct (decide (i = p.1)) as [->|]; [|by rewrite list_lookup_alter_ne].
  rewrite list_lookup_alter_eq. destruct (queues !! p.1) as [q|]; [|done]. simpl. f_equal.
  set (l := alter _ _ (q_Jobs q)).
  change (q <| q_Jobs := unmark <$> l |> = q <| q_Jobs := unmark <$> q_Jobs q |>).
  enough (unmark <$> l = unmark <$> q_Jobs q) as -> by done. unfold l.
  apply list_eq. intros k. rewrite !list_lookup_fmap.
  destruct (decide (k = p.2)) as [->|]; [|by rewrite list_lookup_alter_ne].
  rewrite list_lookup_alter_eq. by destruct (q_Jobs q !! p.2).
Qed.

Lemma left_from_unmarked k jidx queues : left_from k jidx (unmarked <$> queues) = left_from k jidx queues.
Proof.
  revert k. induction queues as [|q qs IH]; intros k; [done|]. simpl. rewrite IH. unfold left_in. simpl.
  by rewrite length_fmap.
Qed.

Lemma remaining_same queues queues' it :
  unmarked <$> queues' = unmarked <$> queues → remaining queues' it = remaining queues it.
Proof. intros H. unfold remaining. by rewrite <- left_from_unmarked, H, left_from_unmarked. Qed.

Lemma iter_ok_same queues queues' it :
  unmarked <$> queues' = unmarked <$> queues → iter_ok queues it → iter_ok queues' it.
Proof.
  intros H Hok. unfold iter_ok in *. rewrite Hok.
  rewrite <- (length_fmap unmarked queues), <- H. by rewrite length_fmap.
Qed.

Lemma parked_same queues queues' :
  unmarked <$> queues' = unmarked <$> queues → no_parked_jobs queues → no_parked_jobs queues'.
Proof.
  intros H Hnp q Hq Hs. assert (unmarked q ∈ unmarked <$> queues) as Hin.
  { rewrite <- H. by apply list_elem_of_fmap_2. }
  apply list_elem_of_fmap in Hin as (q' & Heq & Hin).
  assert (q_Jobs q' = []) as Hj.
  { apply (Hnp q' Hin). change (skip_queue (unmarked q') = true). rewrite <- Heq. done. }
  assert (q_Jobs (unmarked q) = []) as Hu by (rewrite Heq; unfold unmarked; simpl; by rewrite Hj).
  by apply fmap_nil_inv in Hu.
Qed.

Lemma job_at_same queues queues' p j :
  unmarked <$> queues' = unmarked <$> queues → job_at queues' p = Some j →
  ∃ j0, job_at queues p = Some j0 ∧ unmark j0 = unmark j.
Proof.
  unfold job_at. intros H (q & Hq & Hj)%bind_Some.
  assert ((unmarked <$> queues) !! p.1 = Some (unmarked q)) as Hu by (by rewrite <- H, list_lookup_fmap, Hq).
  rewrite list_lookup_fmap in Hu. destruct (queues !! p.1) as [q0|]; [|done]. simpl in *.
  apply (inj Some) in Hu. assert (q_Jobs (unmarked q0) !! p.2 = Some (unmark j)) as Hl.
  { rewrite Hu. unfold unmarked. simpl. by rewrite list_lookup_fmap, Hj. }
  unfold unmarked in Hl. simpl in Hl. rewrite list_lookup_fmap in Hl.
  destruct (q_Jobs q0 !! p.2) as [j0|]; [|done]. simpl in Hl. apply (inj Some) in Hl. by exists j0.
Qed.

Section turns.
Context {Srv : Type} (RunJob : string → string → Srv → Srv * bool) (elapsed : nat → Duration)
  (cfg : SchedConfig) (limited : bool).
Implicit Types (c : Cycle Srv).

(** What a turn does to the nodes: nothing, or it starts one job on the node chosen for it. *)
Definition started_one (c c' : Cycle Srv) : Prop :=
  ∃ p j i n, job_at (c_queues c) p = Some j ∧ fresh (c_it c) (c_it c') p ∧
    findNodeForJob cfg (snapshot c) j = Some (i, n) ∧
    c_nodes c' = alter (charge j) i (c_nodes c) ∧ c_log c' = c_log c ++ [(j, i)] ∧
    c_dispatched c' = int64 (c_dispatched c + 1).
Definition started_none (c c' : Cycle Srv) : Prop :=
  c_nodes c' = c_nodes c ∧ c_log c' = c_log c ∧ c_dispatched c' = c_dispatched c.

Record effect (c c' : Cycle Srv) : Prop := {
  ef_queues : unmarked <$> c_queues c' = unmarked <$> c_queues c;
  ef_iter : iter_ok (c_queues c') (c_it c');
  ef_moved : moved (c_it c) (c_it c');
  ef_start : started_none c c' ∨ started_one c c';
}.

Definition live (c : Cycle Srv) : Prop :=
  iter_ok (c_queues c) (c_it c) ∧ (RoundRobin cfg = true → no_parked_jobs (c_queues c)).

Lemma effect_live c c' : live c → effect c c' → live c'.
Proof.
  intros [H1 H2] He. split; [apply He|]. intros Hr. eapply parked_same; [apply He|auto].
Qed.

Lemma turn_effect attempt c :
  live c →
  match cycle_turn RunJob elapsed cfg limited attempt c with
  | Continue c' => effect c c' ∧ (remaining (c_queues c') (c_it c') < remaining (c_queues c) (c_it c))%nat
  | Break c' => effect c c'
  | Hang => False
  end.
Proof.
  intros [Hok Hnp]. unfold cycle_turn.
  assert (effect c c) as Hid by (split; [done|done|by intros i|by left]).
  destruct (limited && (0 <? DefaultQueueDepth cfg) && _); [done|].
  destruct (limited && (0 <? MaxSchedTime cfg) && _); [done|].
  destruct (next_total cfg (c_queues c) (c_it c) Hok Hnp) as (r & it' & -> & Hn).
  destruct r as [p|]; [|split; [done|apply Hn|apply Hn|by left]]. cbv zeta.
  destruct (nx_job _ _ _ _ Hn p eq_refl) as [j Hj].
  change (job_at (c_queues (c <| c_it := it' |>)) p) with (job_at (c_queues c) p). rewrite Hj.
  assert (remaining (c_queues c) it' < remaining (c_queues c) (c_it c))%nat as Hl
    by (pose proof (nx_left _ _ _ _ Hn) as H; cbv iota in H; lia).
  change (findNodeForJob cfg (snapshot (c <| c_it := it' |>)) j) with (findNodeForJob cfg (snapshot c) j).
  destruct (findNodeForJob cfg (snapshot c) j) as [[i n]|] eqn:Hf.
  - unfold dispatch. destruct (RunJob _ _ _) as [srv [|]]; cbn [negb].
    + assert (∀ u, effect c (mkCycle (c_queues c) (alter (charge j) i (c_nodes c)) it' (c_pending c)
        (int64 (c_dispatched c + 1)) u srv (c_log c ++ [(j, i)]))) as He.
      { intros u. split; [done|apply Hn|apply Hn|]. right. exists p, j, i, n. split_and!; try done.
        by apply (nx_fresh _ _ _ _ Hn). }
      cbv zeta. destruct (limited && _ && _); [apply He|].
      destruct (FairShare cfg); (split; [apply He|exact Hl]).
    + split; [|exact Hl]. split; [done|apply Hn|apply Hn|by left].
  - unfold blocked. cbv zeta. cbn [c_queues set_field].
    set (qs := upd_job_at p _ (c_queues c)).
    assert (unmarked <$> qs = unmarked <$> c_queues c) as Hqs by apply upd_job_at_unmarked.
    assert (∀ pend, effect c (mkCycle qs (c_nodes c) it' pend (c_dispatched c) (c_usage c) (c_srv c) (c_log c)) ∧
      (remaining qs it' < remaining (c_queues c) (c_it c))%nat) as He.
    { intros pend. split; [|rewrite (remaining_same _ _ _ Hqs); lia].
      split; [done|by eapply iter_ok_same, Hn|apply Hn|by left]. }
    destruct (queueForJob _ _) as [q|]; [destruct (q_CloudBacked q)|]; [apply He|..];
      (destruct (strictStop cfg); apply He).
Qed.

(** An invariant of the turns is an invariant of the cycle. *)
Lemma loop_inv (P : Cycle Srv → Prop) fuel attempt c c' :
  (∀ c c', live c → P c → effect c c' → P c') → live c → P c →
  cycle_loop RunJob elapsed cfg limited fuel attempt c = Some c' → P c'.
Proof.
  intros HP. revert attempt c. induction fuel as [|fuel IH]; intros attempt c Hl HPc; [done|]. cbn [cycle_loop].
  pose proof (turn_effect attempt c Hl) as Ht. destruct (cycle_turn _ _ _ _ _ _) as [c1|c1|]; [| |done].
  - destruct Ht as [He _]. apply IH; [by eapply effect_live|by eapply HP].
  - intros [= <-]. by eapply HP.
Qed.

Lemma loop_total fuel attempt c :
  live c → (remaining (c_queues c) (c_it c) < fuel)%nat →
  is_Some (cycle_loop RunJob elapsed cfg limited fuel attempt c).
Proof.
  revert attempt c. induction fuel as [|fuel IH]; intros attempt c Hl Hf; [lia|]. cbn [cycle_loop].
  pose proof (turn_effect attempt c Hl) as Ht. destruct (cycle_turn _ _ _ _ _ _) as [c1|c1|]; [|by eexists|done].
  destruct Ht as [He Hr]. apply IH; [by eapply effect_live|lia].
Qed.
End turns.

(** ** Lemmas: what is handed out *)

(** The processors, and the units of a resource, that the dispatches took on node [i]. *)
Definition cpus_on (i : nat) (log : list (JobInfo * nat)) : Z :=
  sum_Z (λ e, if decide (e.2 = i) then cpu_req e.1 else 0) log.
Definition units_on (i : nat) (r : string) (log : list (JobInfo * nat)) : Z :=
  sum_Z (λ e, if decide (e.2 = i) then lookup_or 0 r (j_GRes e.1) else 0) log.

Lemma cpus_on_snoc i log j k : cpus_on i (log ++ [(j, k)]) = cpus_on i log + if decide (k = i) then cpu_req j else 0.
Proof. unfold cpus_on. rewrite sum_Z_app. simpl. lia. Qed.
Lemma units_on_snoc i r log j k :
  units_on i r (log ++ [(j, k)]) = units_on i r log + if decide (k = i) then lookup_or 0 r (j_GRes j) else 0.
Proof. unfold units_on. rewrite sum_Z_app. simpl. lia. Qed.

(** What the snapshot says is sane: counts are not negative and fit in an [int64]. *)
Definition node_sane (n : NodeInfo) : Prop :=
  0 ≤ n_FreeCPUs n ≤ MaxInt64 ∧ map_Forall (λ _ v, 0 ≤ v ≤ MaxInt64) (n_GResTotal n) ∧
  map_Forall (λ _ v, 0 ≤ v ≤ MaxInt64) (n_GResUsed n).
Definition job_sane (j : JobInfo) : Prop :=
  0 ≤ j_CPUReq j ≤ MaxInt64 ∧ map_Forall (λ _ v, 0 < v ≤ MaxInt64) (j_GRes j).
#[export] Instance node_sane_dec n : Decision (node_sane n).
Proof. unfold node_sane. apply _. Defined.
#[export] Instance job_sane_dec j : Decision (job_sane j).
Proof. unfold job_sane. apply _. Defined.

Lemma lookup_or_range (m : gmap string Z) r b :
  0 ≤ b → map_Forall (λ _ v, 0 ≤ v ≤ b) m → 0 ≤ lookup_or 0 r m ≤ b.
Proof.
  intros Hb H. unfold lookup_or. destruct (m !! r) as [v|] eqn:E; simpl; [exact (H r v E)|lia].
Qed.

(** Node [n] is [n0] after [cpus] processors and, for each resource, [units] units were taken. *)
Record charged (n0 n : NodeInfo) (cpus : Z) (units : string → Z) : Prop := {
  ch_free : n_FreeCPUs n = n_FreeCPUs n0 - cpus;
  ch_nonneg : 0 ≤ n_FreeCPUs n;
  ch_cpus : 0 ≤ cpus;
  ch_total : n_GResTotal n = n_GResTotal n0;
  ch_used : ∀ r, lookup_or 0 r (n_GResUsed n) = lookup_or 0 r (n_GResUsed n0) + units r;
  ch_units : ∀ r, 0 ≤ units r;
  ch_room : ∀ r, units r = 0 ∨ lookup_or 0 r (n_GResUsed n0) + units r ≤ lookup_or 0 r (n_GResTotal n0);
}.

Lemma charge_used j n r :
  lookup_or 0 r (n_GResUsed (charge j n)) =
  match n_GResUsed n !! r, j_GRes j !! r with
  | Some u, Some v => int64 (u + v)
  | Some u, None => u
  | None, Some v => v
  | None, None => 0
  end.
Proof.
  unfold charge, lookup_or. cbv zeta. cbn [n_GResUsed set_field].
  rewrite lookup_union_with. by destruct (n_GResUsed n !! r), (j_GRes j !! r).
Qed.

Lemma charge_charged sinfo j n0 n cpus units :
  node_sane n0 → job_sane j → fits sinfo j n → charged n0 n cpus units →
  charged n0 (charge j n) (cpus + cpu_req j) (λ r, units r + lookup_or 0 r (j_GRes j)).
Proof.
  intros (Hf0 & Ht0 & Hu0) [Hc Hg] [Hp Hfree] [H1 H2 H3 H4 H5 H6 H7].
  assert (∀ r v, j_GRes j !! r = Some v →
    0 < v ≤ MaxInt64 ∧ v ≤ lookup_or 0 r (n_GResTotal n0) - (lookup_or 0 r (n_GResUsed n0) + units r)) as Hroom.
  { intros r v Hv. split; [exact (Hg r v Hv)|].
    unfold placeable in Hp. rewrite !andb_true_iff in Hp. destruct Hp as [_ Hgr].
    unfold nodeHasGRes in Hgr. apply bool_decide_eq_true in Hgr. specialize (Hgr r v Hv). simpl in Hgr.
    rewrite H4, H5 in Hgr. rewrite int64_id in Hgr; [done|].
    pose proof (lookup_or_range _ r MaxInt64 ltac:(done) Ht0).
    pose proof (lookup_or_range _ r MaxInt64 ltac:(done) Hu0).
    pose proof (H6 r). destruct (H7 r) as [E|E]; unfold_int; lia. }
  assert (∀ r, 0 ≤ lookup_or 0 r (j_GRes j)) as Hnn.
  { intros r. unfold lookup_or. destruct (j_GRes j !! r) eqn:E; simpl; [|lia]. apply Hroom in E. lia. }
  assert (1 ≤ cpu_req j) as Hcpu by (unfold cpu_req; destruct (j_CPUReq j =? 0) eqn:E; bool_to_prop; lia).
  assert (n_FreeCPUs (charge j n) = n_FreeCPUs n - cpu_req j) as Hfc.
  { unfold charge, cpu_req in *. cbv zeta. cbn [n_FreeCPUs set_field].
    destruct (j_CPUReq j =? 0) eqn:E; bool_to_prop; rewrite ?E, ?int64_id; unfold_int; try lia.
    rewrite Z.mod_small; lia. }
  split.
  - lia.
  - lia.
  - lia.
  - exact H4.
  - intros r. rewrite charge_used. specialize (H5 r). unfold lookup_or in H5 |- *.
    destruct (n_GResUsed n !! r) as [u|] eqn:Eu, (j_GRes j !! r) as [v|] eqn:Ev; simpl in *; try lia.
    destruct (Hroom r v Ev) as [Hv Hr]. rewrite int64_id; [lia|].
    pose proof (lookup_or_range _ r MaxInt64 ltac:(done) Ht0).
    pose proof (lookup_or_range _ r MaxInt64 ltac:(done) Hu0). pose proof (H6 r).
    unfold lookup_or in *. unfold_int. lia.
  - intros r. specialize (H6 r). specialize (Hnn r). lia.
  - intros r. unfold lookup_or at 1 3. destruct (j_GRes j !! r) as [v|] eqn:E; simpl.
    + right. destruct (Hroom r v E). lia.
    + rewrite !Z.add_0_r. apply H7.
Qed.

(** ** Theorems: the cycle *)

Section cycles.
Context {Srv : Type} (RunJob : string → string → Srv → Srv * bool) (elapsed : nat → Duration)
  (cfg : SchedConfig) (limited : bool) `{SliceSort}.
Implicit Types (c : Cycle Srv) (srv : Srv).

Lemma sortJobs_perm usage t jobs : sortJobs cfg usage t jobs ≡ₚ jobs.
Proof.
  unfold sortJobs. cbv zeta. set (l := sort_Slice _ _).
  assert (l ≡ₚ jobs) as Hl by apply sort_Slice_perm.
  destruct (_ && _); [|done]. destruct (0 <? _); [|done]. rewrite <- Hl. clearbody l. clear.
  induction l as [|x l IH]; [done|]. rewrite !filter_cons.
  destruct (decide (starving cfg t x = true)) as [E|E].
  - rewrite decide_False by tauto. simpl. by rewrite IH.
  - rewrite decide_True by done. rewrite <- Permutation_middle. by rewrite IH.
Qed.

(** A queue after its jobs are sorted. *)
Definition same_queue (q q' : QueueInfo) : Prop := q_Jobs q' ≡ₚ q_Jobs q ∧ skip_queue q' = skip_queue q.

Lemma initCycle_queues decay t usage queues :
  Forall2 same_queue queues (initCycle cfg decay t usage queues).2.
Proof.
  unfold initCycle. cbv zeta. simpl. apply Forall2_fmap_r. apply Forall_Forall2_diag, Forall_true.
  intros q. split; [apply sortJobs_perm|done].
Qed.

Lemma cycle_start_live usage queues nodes srv :
  (RoundRobin cfg = true → no_parked_jobs queues) →
  live cfg (cycle_start usage (mkServerInfo queues nodes) srv).
Proof. intros Hnp. split; [|done]. unfold iter_ok. simpl. by rewrite length_fmap. Qed.

Lemma no_parked_sorted queues queues' :
  Forall2 same_queue queues queues' → no_parked_jobs queues → no_parked_jobs queues'.
Proof.
  intros Hf Hnp q' [i Hi]%list_elem_of_lookup Hs.
  destruct (Forall2_lookup_r _ _ _ _ _ Hf Hi) as (q & Hq & Hp & Hk).
  apply Permutation_nil_r. rewrite Hp.
  by rewrite (Hnp q) by (congruence || by eapply list_elem_of_lookup_2).
Qed.

Lemma runCycle_loop decay t usage sinfo srv :
  ∃ usage' queues', Forall2 same_queue (Queues sinfo) queues' ∧
    runCycle RunJob elapsed cfg limited decay t usage sinfo srv
    = cycle_loop RunJob elapsed cfg limited (S (total_jobs queues')) 0
        (cycle_start usage' (mkServerInfo queues' (Nodes sinfo)) srv).
Proof.
  unfold runCycle. pose proof (initCycle_queues decay t usage (Queues sinfo)) as Hq.
  destruct (initCycle cfg decay t usage (Queues sinfo)) as [u qs]. by exists u, qs.
Qed.

Lemma runCycle_total decay t usage sinfo srv :
  (RoundRobin cfg = true → no_parked_jobs (Queues sinfo)) →
  is_Some (runCycle RunJob elapsed cfg limited decay t usage sinfo srv).
Proof.
  intros Hnp. destruct (runCycle_loop decay t usage sinfo srv) as (u & qs & Hq & ->).
  apply loop_total.
  - apply cycle_start_live. intros Hr. eapply no_parked_sorted; eauto.
  - pose proof (left_from_le 0 ((λ _, 0%nat) <$> qs) qs). unfold remaining. simpl. lia.
Qed.

(** C35: every scheduling cycle returns, whatever the server answers: after at most one turn
    per queued job in the default order, and in round-robin order as long as no queue
    that is disabled, stopped or a route queue holds a queued job. *)
Theorem runCycle_returns decay t usage sinfo srv :
  (RoundRobin cfg = true → no_parked_jobs (Queues sinfo)) →
  is_Some (runCycle RunJob elapsed cfg limited decay t usage sinfo srv).
Proof. apply runCycle_total. Qed.

Lemma same_queue_jobs (P : JobInfo → Prop) queues queues' :
  Forall2 same_queue queues queues' → (∀ q j, q ∈ queues → j ∈ q_Jobs q → P j) →
  ∀ p j, job_at queues' p = Some j → P j.
Proof.
  intros Hf HP p j (q' & Hq' & Hj)%bind_Some.
  destruct (Forall2_lookup_r _ _ _ _ _ Hf Hq') as (q & Hq & Hp & _).
  apply (HP q j); [by eapply list_elem_of_lookup_2|]. rewrite <- Hp. by eapply list_elem_of_lookup_2.
Qed.

(** The cycle keeps an account of every node. *)
Definition accounts (nodes0 : list NodeInfo) (c : Cycle Srv) : Prop :=
  (∀ p j, job_at (c_queues c) p = Some j → job_sane j) ∧
  ∀ i n0, nodes0 !! i = Some n0 →
    ∃ n, c_nodes c !! i = Some n ∧ charged n0 n (cpus_on i (c_log c)) (λ r, units_on i r (c_log c)).

Lemma charged_ext n0 n k1 k2 u1 u2 :
  k1 = k2 → (∀ r, u1 r = u2 r) → charged n0 n k1 u1 → charged n0 n k2 u2.
Proof.
  intros <- Hu [H1 H2 H3 H4 H5 H6 H7]. split; try done; intros r; rewrite <- Hu; auto.
Qed.

Lemma accounts_effect nodes0 c c' :
  Forall node_sane nodes0 → accounts nodes0 c → effect cfg c c' → accounts nodes0 c'.
Proof.
  intros Hs [Hj Hn] He. split.
  { intros p j Hp. destruct (job_at_same _ _ _ _ (ef_queues _ _ _ He) Hp) as (j0 & Hj0 & Heq).
    specialize (Hj p j0 Hj0). change (job_sane (unmark j0)) in Hj. rewrite Heq in Hj. exact Hj. }
  destruct (ef_start _ _ _ He) as [(Hc & Hl & _)|(p & j & i & n & Hp & _ & Hf & Hc & Hl & _)].
  { intros k n0. rewrite Hc, Hl. apply Hn. }
  intros k n0 Hk. destruct (Hn k n0 Hk) as (m & Hm & Hch). rewrite Hc, Hl.
  destruct (findNode_fits _ _ _ _ _ Hf) as [Hi Hfit]. simpl in Hi.
  destruct (decide (i = k)) as [->|Hne].
  - assert (m = n) as -> by congruence. exists (charge j n). rewrite list_lookup_alter_eq, Hm.
    split; [done|]. eapply charged_ext; [| |eapply charge_charged; [|by eapply Hj|done|exact Hch]].
    + rewrite cpus_on_snoc. by rewrite decide_True.
    + intros r. simpl. rewrite units_on_snoc. by rewrite decide_True.
    + rewrite Forall_forall in Hs. apply Hs. by eapply list_elem_of_lookup_2.
  - exists m. rewrite list_lookup_alter_ne by done. split; [done|].
    eapply charged_ext; [| |exact Hch].
    + rewrite cpus_on_snoc. rewrite decide_False by done. lia.
    + intros r. simpl. rewrite units_on_snoc. rewrite decide_False by done. lia.
Qed.

(** C33: a cycle never starts more on a node than the node had free: over all the jobs it
    dispatches there, the processors they ask for stay within the free processors of the
    snapshot, and so does every generic resource.  The requests are those the scheduler
    reads (ncpus and the generic resources), and must not be negative. *)
Theorem runCycle_no_overcommit decay t usage sinfo srv c i n :
  (RoundRobin cfg = true → no_parked_jobs (Queues sinfo)) →
  Forall node_sane (Nodes sinfo) → (∀ q j, q ∈ Queues sinfo → j ∈ q_Jobs q → job_sane j) →
  runCycle RunJob elapsed cfg limited decay t usage sinfo srv = Some c → Nodes sinfo !! i = Some n →
  cpus_on i (c_log c) ≤ n_FreeCPUs n ∧
  ∀ r, units_on i r (c_log c) = 0 ∨
       lookup_or 0 r (n_GResUsed n) + units_on i r (c_log c) ≤ lookup_or 0 r (n_GResTotal n).
Proof.
  intros Hnp Hs Hjs. destruct (runCycle_loop decay t usage sinfo srv) as (u & qs & Hq & ->). intros Hrun Hi.
  assert (accounts (Nodes sinfo) c) as [_ Hn].
  { refine (loop_inv RunJob elapsed cfg limited (accounts (Nodes sinfo)) _ _ _ _ _ _ _ Hrun).
    - intros c1 c2 _ Hc1 He. by eapply accounts_effect.
    - apply cycle_start_live. intros Hr. eapply no_parked_sorted; eauto.
    - split; [by apply (same_queue_jobs _ (Queues sinfo))|]. intros k n0 Hk. exists n0. split; [done|].
      rewrite Forall_forall in Hs. destruct (Hs n0) as (Hf & _); [by eapply list_elem_of_lookup_2|].
      split; intros; unfold cpus_on, units_on; simpl; try lia; auto. }
  destruct (Hn i n Hi) as (m & _ & Hch). split; [|apply Hch].
  pose proof (ch_free _ _ _ _ Hch). pose proof (ch_nonneg _ _ _ _ Hch). lia.
Qed.
End cycles.

(** A server that accepts every start. *)
Definition accept (_ _ : string) (_ : unit) : unit * bool := (tt, true).
Definition no_time (_ : nat) : Duration := 0.
Definition two_jobs : ServerInfo :=
  mkServerInfo [plain_queue [plain_job; plain_job <| j_ID := "2.srv" |> <| j_CPUReq := 4 |>]] [local_node].

Lemma runCycle_returns_witness :
  is_Some (runCycle accept no_time sched_cfg true (S754_zero false) (time_Unix 1000) ∅ two_jobs tt).
Proof. apply runCycle_returns. intros E. by vm_compute in E. Defined.

Lemma runCycle_no_overcommit_witness :
  ∃ c, runCycle accept no_time sched_cfg true (S754_zero false) (time_Unix 1000) ∅ two_jobs tt = Some c ∧
       cpus_on 0 (c_log c) ≤ 4.
Proof.
  destruct (runCycle accept no_time sched_cfg true (S754_zero false) (time_Unix 1000) ∅ two_jobs tt)
    as [c|] eqn:E; [|by vm_compute in E].
  exists c. split; [done|].
  apply (runCycle_no_overcommit accept no_time sched_cfg true (S754_zero false) (time_Unix 1000) ∅ two_jobs tt
    c 0%nat local_node); [by intros E'; vm_compute in E'|by_decide| |exact E|by vm_compute].
  intros q j ->%list_elem_of_singleton. simpl.
  intros [->|[->|Hj%elem_of_nil]%elem_of_cons]%elem_of_cons; [by_decide|by_decide|done].
Defined.

(** In round-robin order the iterator never returns once the only queued jobs left are
    in queues it passes over: a disabled or stopped queue with a queued job sends it into
    a recursion without end, whatever the bound on its depth. *)
Theorem round_robin_hangs queues it fuel q i :
  iter_ok queues it → (∀ k, exhausted queues it k) → queues !! i = Some q → skip_queue q = true →
  (default 0 (jIdx it !! i) < length (q_Jobs q))%nat → rr_fuel fuel queues it = None.
Proof.
  intros Hok Hex Hq Hs Hlt. revert it Hok Hex Hlt. induction fuel as [|fuel IH]; intros it Hok Hex Hlt; [done|].
  cbn [rr_fuel]. rewrite decide_False by (by intros ->).
  destruct (rr_round_idle (length queues) queues it) as [->| ->]; [by intros; apply Hex| |done].
  rewrite (all_done_false _ _ i q) by done. by apply IH.
Qed.

Lemma round_robin_hangs_witness :
  let queues := [(plain_queue [plain_job]) <| q_Started := false |>] in
  rr_fuel 1000 queues (newJobIterator queues) = None.
Proof.
  intros queues. apply (round_robin_hangs queues (newJobIterator queues) 1000
    ((plain_queue [plain_job]) <| q_Started := false |>) 0%nat).
  - by vm_compute.
  - intros [|k] q Hq; [|done]. injection Hq as <-. left. by vm_compute.
  - by vm_compute.
  - by vm_compute.
  - vm_compute. lia.
Defined.

(** ** Theorems: no job is started twice *)

(** Where a job id is in the snapshot. *)
Definition ids (queues : list QueueInfo) : list string := queues ≫= λ q, j_ID <$> q_Jobs q.

Lemma job_at_ids queues p j : job_at queues p = Some j → j_ID j ∈ ids queues.
Proof.
  intros (q & Hq & Hj)%bind_Some. unfold ids. apply list_elem_of_bind. exists q.
  split; [apply list_elem_of_fmap_2; by eapply list_elem_of_lookup_2|by eapply list_elem_of_lookup_2].
Qed.

Lemma ids_position queues p1 p2 j1 j2 :
  NoDup (ids queues) → job_at queues p1 = Some j1 → job_at queues p2 = Some j2 → j_ID j1 = j_ID j2 → p1 = p2.
Proof.
  revert p1 p2. induction queues as [|q qs IH]; intros [a1 b1] [a2 b2] Hnd H1 H2 Heq; [done|].
  unfold ids in Hnd. cbn [mbind list_bind] in Hnd. apply NoDup_app in Hnd as (Hq & Hdis & Hqs).
  unfold job_at in H1, H2. destruct a1 as [|a1], a2 as [|a2]; simpl in H1, H2.
  - f_equal. apply (NoDup_lookup (j_ID <$> q_Jobs q) b1 b2 (j_ID j1)); [done| |].
    + by rewrite list_lookup_fmap, H1.
    + by rewrite list_lookup_fmap, H2, Heq.
  - exfalso. apply (Hdis (j_ID j1)); [apply list_elem_of_fmap_2; by eapply list_elem_of_lookup_2|].
    rewrite Heq. by apply (job_at_ids qs (a2, b2)).
  - exfalso. apply (Hdis (j_ID j2)); [apply list_elem_of_fmap_2; by eapply list_elem_of_lookup_2|].
    rewrite <- Heq. by apply (job_at_ids qs (a1, b1)).
  - specialize (IH (a1, b1) (a2, b2) Hqs H1 H2 Heq). congruence.
Qed.

Lemma ids_same queues queues' : Forall2 same_queue queues queues' → ids queues' ≡ₚ ids queues.
Proof.
  induction 1 as [|q q' qs qs' [Hp _] _ IH]; [done|]. unfold ids in *. cbn [mbind list_bind]. by rewrite Hp, IH.
Qed.

Section once.
Context {Srv : Type} (RunJob : string → string → Srv → Srv * bool) (elapsed : nat → Duration)
  (cfg : SchedConfig) (limited : bool) `{SliceSort}.
Implicit Types (c : Cycle Srv) (srv : Srv).

(** The dispatched jobs are behind the iterator. *)
Definition behind (queues : list QueueInfo) (c : Cycle Srv) : Prop :=
  unmarked <$> c_queues c = unmarked <$> queues ∧ NoDup (j_ID ∘ fst <$> c_log c) ∧
  ∀ e, e ∈ c_log c → ∃ p j, job_at queues p = Some j ∧ j_ID j = j_ID e.1 ∧
    (p.2 < default 0 (jIdx (c_it c) !! p.1))%nat.

Lemma behind_effect queues c c' :
  NoDup (ids queues) → behind queues c → effect cfg c c' → behind queues c'.
Proof.
  intros Hnd (Hq & Hlog & Hb) He.
  assert (∀ e, e ∈ c_log c → ∃ p j, job_at queues p = Some j ∧ j_ID j = j_ID e.1 ∧
    (p.2 < default 0 (jIdx (c_it c') !! p.1))%nat) as Hb'.
  { intros e Hin. destruct (Hb e Hin) as (p & j & Hp & Hid & Hlt). exists p, j. split_and!; [done..|].
    eapply Nat.lt_le_trans; [exact Hlt|apply (ef_moved _ _ _ He)]. }
  split; [by rewrite (ef_queues _ _ _ He)|].
  destruct (ef_start _ _ _ He) as [(_ & -> & _)|(p & j & i & n & Hp & [Hf1 Hf2] & _ & _ & -> & _)]; [done|].
  destruct (job_at_same _ _ _ _ Hq Hp) as (j0 & Hj0 & Heq).
  assert (j_ID j0 = j_ID j) as Hid by (by apply (f_equal j_ID) in Heq).
  split.
  - rewrite fmap_app. apply NoDup_app. split_and!; [done| |apply NoDup_singleton].
    intros id (e & -> & Hin)%list_elem_of_fmap Hl. simpl in Hl. apply list_elem_of_singleton in Hl.
    destruct (Hb e Hin) as (p' & j' & Hp' & Hid' & Hlt). simpl in Hl.
    assert (p' = p) as -> by (eapply (ids_position queues); eauto; congruence). lia.
  - intros e [Hin|He']%elem_of_app; [auto|]. apply list_elem_of_singleton in He' as ->. by exists p, j0.
Qed.

(** A cycle starts no job twice, whatever the order of the queues and the answers of
    the server. *)
Theorem runCycle_once decay t usage sinfo srv c :
  (RoundRobin cfg = true → no_parked_jobs (Queues sinfo)) → NoDup (ids (Queues sinfo)) →
  runCycle RunJob elapsed cfg limited decay t usage sinfo srv = Some c →
  NoDup (j_ID ∘ fst <$> c_log c) ∧ ∀ e, e ∈ c_log c → j_ID e.1 ∈ ids (Queues sinfo).
Proof.
  intros Hnp Hnd. destruct (runCycle_loop RunJob elapsed cfg limited decay t usage sinfo srv) as (u & qs & Hq & ->).
  intros Hrun. assert (behind qs c) as (_ & Hlog & Hb).
  { refine (loop_inv RunJob elapsed cfg limited (behind qs) _ _ _ _ _ _ _ Hrun).
    - intros c1 c2 _ Hc He. eapply behind_effect; [|done|done]. by rewrite (ids_same _ _ Hq).
    - apply cycle_start_live. intros Hr. eapply no_parked_sorted; eauto.
    - split; [done|]. split; [apply NoDup_nil_2|by intros e ?%elem_of_nil]. }
  split; [done|]. intros e He. destruct (Hb e He) as (p & j & Hp & <- & _).
  rewrite <- (ids_same _ _ Hq). by eapply job_at_ids.
Qed.

(** The loop goes on only below the limit. *)
Lemma continue_below attempt c c' :
  limited = true → 0 < SchedMaxJobStart cfg → c_dispatched c < SchedMaxJobStart cfg →
  cycle_turn RunJob elapsed cfg limited attempt c = Continue c' → c_dispatched c' < SchedMaxJobStart cfg.
Proof.
  intros Hlim Hpos Hlt. unfold cycle_turn. do 2 (destruct (limited && _ && _); [done|]).
  destruct (next _ _ _) as [[[p|] it']|]; [|done|done]. cbv zeta. destruct (job_at _ p) as [j|]; [|done].
  destruct (findNodeForJob _ _ _) as [[i n]|].
  - unfold dispatch. destruct (RunJob _ _ _) as [srv [|]]; cbn [negb]; [|by intros [= <-]]. cbv zeta.
    destruct (limited && _ && _) eqn:E; [done|]. rewrite Hlim in E.
    replace (0 <? SchedMaxJobStart cfg) with true in E by lia. cbn [andb] in E. apply Z.leb_gt in E.
    intros [= <-]. by destruct (FairShare cfg).
  - unfold blocked. cbv zeta. destruct (queueForJob _ _) as [q|]; [destruct (q_CloudBacked q)|];
      [by intros [= <-]|..]; (destruct (strictStop cfg); [done|by intros [= <-]]).
Qed.

(** A triggered cycle respects its limit on starts. *)
Theorem limited_starts decay t usage sinfo srv c :
  (RoundRobin cfg = true → no_parked_jobs (Queues sinfo)) → limited = true →
  0 < SchedMaxJobStart cfg < MaxInt64 →
  runCycle RunJob elapsed cfg limited decay t usage sinfo srv = Some c →
  Z.of_nat (length (c_log c)) ≤ SchedMaxJobStart cfg ∧ c_dispatched c = Z.of_nat (length (c_log c)).
Proof.
  intros Hnp Hlim Hmax. destruct (runCycle_loop RunJob elapsed cfg limited decay t usage sinfo srv) as (u & qs & Hq & ->).
  assert (live cfg (cycle_start u (mkServerInfo qs (Nodes sinfo)) srv)) as Hlive.
  { apply cycle_start_live. intros Hr. eapply no_parked_sorted; eauto. }
  set (c0 := cycle_start _ _ _) in *.
  assert (c_dispatched c0 = Z.of_nat (length (c_log c0)) ∧ c_dispatched c0 < SchedMaxJobStart cfg) as [H1 H2]
    by (simpl; lia).
  clearbody c0. generalize (S (total_jobs qs)) as fuel. intros fuel. generalize 0%nat as attempt. intros attempt.
  revert attempt c0 Hlive H1 H2. induction fuel as [|fuel IH]; intros attempt c0 Hlive H1 H2; [done|]. cbn [cycle_loop].
  pose proof (turn_effect RunJob elapsed cfg limited attempt c0 Hlive) as Ht.
  assert (∀ c', effect cfg c0 c' → c_dispatched c' = Z.of_nat (length (c_log c')) ∧
    c_dispatched c' ≤ SchedMaxJobStart cfg) as Hle.
  { intros c' He. destruct (ef_start _ _ _ He) as [(_ & -> & ->)|(p & j & i & n & _ & _ & _ & _ & -> & ->)]; [lia|].
    rewrite length_app. simpl. rewrite int64_id by (unfold_int; lia). lia. }
  destruct (cycle_turn RunJob elapsed cfg limited attempt c0) as [c1|c1|] eqn:E; [| |done].
  - destruct Ht as [He _]. destruct (Hle c1 He) as [Hd _]. apply IH; [by eapply effect_live|done|].
    eapply (continue_below attempt c0 c1); [done|lia|lia|exact E].
  - intros [= <-]. destruct (Hle c1 Ht). lia.
Qed.
End once.

Lemma runCycle_once_witness :
  ∃ c, runCycle accept no_time sched_cfg true (S754_zero false) (time_Unix 1000) ∅ two_jobs tt = Some c ∧
       NoDup (j_ID ∘ fst <$> c_log c).
Proof.
  destruct (runCycle accept no_time sched_cfg true (S754_zero false) (time_Unix 1000) ∅ two_jobs tt)
    as [c|] eqn:E; [|by vm_compute in E].
  exists c. split; [done|].
  apply (runCycle_once accept no_time sched_cfg true (S754_zero false) (time_Unix 1000) ∅ two_jobs tt c);
    [by intros E'; vm_compute in E'|by_decide|exact E].
Defined.

Definition one_start_cfg : SchedConfig :=
  mkSchedConfig false true false true false true true false "fifo" (24 * Hour) (24 * Hour) 100 1 2.

Lemma limited_starts_witness :
  ∃ c, runCycle accept no_time one_start_cfg true (S754_zero false) (time_Unix 1000) ∅ two_jobs tt = Some c ∧
       Z.of_nat (length (c_log c)) ≤ 1.
Proof.
  destruct (runCycle accept no_time one_start_cfg true (S754_zero false) (time_Unix 1000) ∅ two_jobs tt)
    as [c|] eqn:E; [|by vm_compute in E].
  exists c. split; [done|].
  apply (limited_starts accept no_time one_start_cfg true (S754_zero false) (time_Unix 1000) ∅ two_jobs tt c);
    [by intros E'; vm_compute in E'|done|by vm_compute|exact E].
Defined.

(** ** Theorems: the order of the jobs *)

Lemma job_less_weak usage sortBy : sortBy ≠ "fair_share" → strict_weak (job_less usage sortBy).
Proof.
  intros Hne. unfold job_less.
  assert (∀ f : JobInfo → Z, strict_weak (λ a b, f a <? f b) ∧ strict_weak (λ a b, f b <? f a)) as Hz.
  { intros f. split; split; intros; bool_to_prop; lia. }
  cbn [switch]. do 6 (case_match; [apply Hz|]).
  rewrite bool_decide_eq_false_2 by (by intros ->%list_elem_of_singleton).
  exact (proj1 (Hz j_QueueTime)).
Qed.

Lemma StronglySorted_filter {A} (R : A → A → Prop) (P : A → Prop) `{∀ x, Decision (P x)} l :
  StronglySorted R l → StronglySorted R (filter P l).
Proof.
  induction 1 as [|x l Hs IH Hf]; [constructor|]. rewrite filter_cons. destruct (decide (P x)); [|done].
  constructor; [done|]. rewrite Forall_forall in *. intros y [_ Hy]%list_elem_of_filter. auto.
Qed.

(** The jobs of a queue are considered in the configured order; when starving jobs are
    helped, those that have waited longer than the limit come first, in that order, and
    the others follow.  No job is lost or added. *)
Theorem sortJobs_order `{SliceSort} cfg usage t jobs :
  SortBy cfg ≠ "fair_share" →
  let R := λ a b, job_less usage (SortBy cfg) b a = false in
  sortJobs cfg usage t jobs ≡ₚ jobs ∧
  if HelpStarvingJobs cfg && (0 <? MaxStarve cfg) then
    ∃ first rest, sortJobs cfg usage t jobs = first ++ rest ∧
      Forall (λ j, starving cfg t j = true) first ∧ Forall (λ j, starving cfg t j = false) rest ∧
      StronglySorted R first ∧ StronglySorted R rest
  else StronglySorted R (sortJobs cfg usage t jobs).
Proof.
  intros Hne R. split; [apply sortJobs_perm|].
  pose proof (job_less_weak usage _ Hne) as Hw.
  assert (StronglySorted R (sort_Slice (job_less usage (SortBy cfg)) jobs)) as Hs.
  { apply Sorted_StronglySorted; [|by apply sort_Slice_sorted].
    intros a b c H1 H2. by apply (sw_negtrans c b a). }
  unfold sortJobs. cbv zeta. set (l := sort_Slice _ jobs) in *. destruct (_ && _); [|done].
  set (first := filter _ l). set (rest := filter (λ j, ¬ _) l).
  assert (Forall (λ j, starving cfg t j = true) first) as Hf by (apply Forall_forall; by intros j [? _]%list_elem_of_filter).
  assert (Forall (λ j, starving cfg t j = false) rest) as Hr.
  { apply Forall_forall. intros j [Hj _]%list_elem_of_filter. by destruct (starving cfg t j). }
  exists first, rest. split_and!; [|done|done|by apply StronglySorted_filter|by apply StronglySorted_filter].
  destruct first as [|x first'] eqn:E; [|done]. simpl. unfold rest. symmetry. apply filter_all.
  apply Forall_forall. intros j Hj Hst.
  assert (j ∈ first) as Hin by (by apply list_elem_of_filter). rewrite E in Hin. by apply elem_of_nil in Hin.
Qed.

Lemma sortJobs_order_witness :
  sortJobs sched_cfg ∅ (time_Unix 1000) [plain_job; plain_job] ≡ₚ [plain_job; plain_job].
Proof.
  destruct (sortJobs_order sched_cfg ∅ (time_Unix 1000) [plain_job; plain_job]) as [H _]; [by vm_compute|exact H].
Defined.

(** ** Theorems: demand *)

(** The machines a capacity event asks for: at least one, never more than the queue's
    limit, and otherwise just enough for the processors of the blocked jobs. *)
Theorem event_nodes_exact ev :
  0 < e_Cores ev < 2 ^ 62 →
  let n := e_Nodes (event_nodes ev) in
  let per := if decide (e_SKU ev = "") then 1 else 2 in
  1 ≤ n ∧ (0 < e_MaxNodes ev → n ≤ e_MaxNodes ev) ∧
  ((0 < e_MaxNodes ev ∧ n = e_MaxNodes ev) ∨ (n - 1) * per < e_Cores ev ≤ n * per).
Proof.
  intros Hc n per. set (k := Z.quot (e_Cores ev + per - 1) per).
  assert (1 ≤ per ≤ 2) as Hper by (unfold per; case_decide; lia).
  assert (1 ≤ k ∧ (k - 1) * per < e_Cores ev ≤ k * per) as (Hk1 & Hk2).
  { unfold k. rewrite Z.quot_div_nonneg by lia.
    pose proof (Z.div_mod (e_Cores ev + per - 1) per ltac:(lia)).
    pose proof (Z.mod_pos_bound (e_Cores ev + per - 1) per ltac:(lia)). nia. }
  assert (n = if (0 <? e_MaxNodes ev) && (e_MaxNodes ev <=? k) then e_MaxNodes ev else k) as ->.
  { unfold n, event_nodes. cbv zeta. replace (0 <? e_Cores ev) with true by lia. cbn [e_MaxNodes e_Nodes set_field].
    fold per. rewrite int64_id by (unfold_int; lia). fold k.
    destruct ((0 <? e_MaxNodes ev) && (e_MaxNodes ev <=? k)) eqn:E; cbn [e_Nodes set_field].
    - apply andb_true_iff in E as [E _]. replace (e_MaxNodes ev <? 1) with false by lia. done.
    - replace (k <? 1) with false by lia. done. }
  destruct ((0 <? e_MaxNodes ev) && (e_MaxNodes ev <=? k)) eqn:E.
  - apply andb_true_iff in E as [E1 E2]. split_and!; [lia|lia|left; lia].
  - split_and!; [lia| |by right]. intros Hm. apply andb_false_iff in E as [E|E]; lia.
Qed.

Lemma event_nodes_exact_witness :
  let ev := (new_event (plain_queue [])) <| e_Cores := 5 |> <| e_SKU := "D2" |> <| e_MaxNodes := 10 |> in
  e_Nodes (event_nodes ev) = 3 ∧ e_Nodes (event_nodes ev) ≤ 10.
Proof.
  intros ev. destruct (event_nodes_exact ev) as (_ & H & _); [by vm_compute|].
  split; [by vm_compute|by apply H].
Defined.

(** ** Deviations *)

Definition ppn_job : JobInfo :=
  parseJobInfo (mkObject 0 "1.srv"
    [mkAttr "job_state" false "" "Q" 0; mkAttr "queue" false "" "batch" 0;
     mkAttr "Resource_List" true "nodes" "1:ppn=4" 0]).
Definition tight_node : NodeInfo :=
  parseNodeInfo (λ _, S754_zero false) (mkObject 0 "n1"
    [mkAttr "state" false "" "free" 0; mkAttr "np" false "" "4" 0; mkAttr "used_cpus" false "" "3" 0]).

(** The scheduler does not look at the processors per node a job asks for: a job for
    four processors on one node is sent to a node with one left. *)
Theorem ppn_not_considered :
  n_FreeCPUs tight_node = 1 ∧ j_PPN ppn_job = 4 ∧
  findNodeForJob sched_cfg (mkServerInfo [plain_queue [ppn_job]] [tight_node]) ppn_job = Some (0%nat, tight_node).
Proof. by vm_compute. Qed.

(** A negative processor request passes the check and adds to the free processors of
    the node, on which the following jobs of the cycle are then placed. *)
Theorem negative_request_adds :
  let j := plain_job <| j_CPUReq := -100 |> in
  findNodeForJob sched_cfg (mkServerInfo [plain_queue [j]] [tight_node]) j = Some (0%nat, tight_node) ∧
  n_FreeCPUs (charge j tight_node) = 101.
Proof. by vm_compute. Qed.
