(* ===== verification/Cec.v ===== *)
(** * The cloud elastic controller: internal/cec/cec.go, internal/crp/crp.go

    The controller keeps a pool of cloud machines per queue: it grows the pool when the
    scheduler reports blocked jobs, follows the machines from their creation to their
    registration, and gives idle machines back.  The cloud is behind the interface
    [Provider], the batch server behind [NodeController]; both have a state of their own.

    All operations run under the controller's mutex, so any execution is a sequence of
    them. *)

From S2P Require Import Prelude GoStd.

Local Open Scope string_scope.
Local Open Scope list_scope.
Local Open Scope Z_scope.

(** ** The cloud provider *)

Record VM := mkVM {
  vm_ID : string;
  vm_Name : string;
  vm_SKU : string;
  vm_IP : string;
  vm_Hostname : string;
  vm_State : string;
  vm_Location : string;
  vm_ResourceGroup : string;
  vm_CreatedAt : Time;
}.
#[export] Instance eta_VM : Eta VM := λ v,
  mkVM (vm_ID v) (vm_Name v) (vm_SKU v) (vm_IP v) (vm_Hostname v) (vm_State v) (vm_Location v)
    (vm_ResourceGroup v) (vm_CreatedAt v).

Definition VMStateCreating : string := "creating".
Definition VMStateRunning : string := "running".

Record EnsureRequest := mkEnsure {
  r_Provider : string;
  r_SKU : string;
  r_Count : Z;
  r_SubnetID : string;
  r_ImageID : string;
  r_DiskSize : Z;
  r_DiskType : string;
  r_SSHKey : string;
  r_Location : string;
  r_ResourceGroup : string;
  r_MinNodes : Z;
  r_MaxNodes : Z;
  r_ServerAddr : string;
  r_Hibernate : bool;
}.

Record VMRef := mkRef { ref_Provider : string; ref_VMID : string }.

(** The interface of a provider with state [P]: an operation returns the new state and its
    result, or that it failed. *)
Class Provider (P : Type) := {
  Ensure : EnsureRequest → P → P * option (list VM);
  Reclaim : VMRef → string → bool → P → P * bool;
  Resume : VMRef → P → P * bool;
}.

(** What the controller's bookkeeping relies on: the machines [Ensure] returns are new, with
    ids it never returned before ([issued] are those it did).  How many it returns is left
    open: a provider that skips the machines it could not create returns fewer than it is
    asked for.  [valid] are the states in which the provider can still make new ids. *)
Class ProviderLaws (P : Type) `{Provider P} := {
  issued : P → gset string;
  valid : P → Prop;
  issued_named : ∀ p, valid p → "" ∉ issued p;
  issued_small : ∀ p, valid p → Z.of_nat (size (issued p)) < 2 ^ 60;
  Ensure_fresh : ∀ req p p' vms, Ensure req p = (p', Some vms) → valid p → valid p' →
    0 ≤ r_Count req ≤ MaxInt64 →
    NoDup (vm_ID <$> vms) ∧
    issued p ∪ list_to_set (vm_ID <$> vms) ⊆ issued p' ∧ list_to_set (vm_ID <$> vms) ## issued p;
  Ensure_failed : ∀ req p p', Ensure req p = (p', None) → issued p ⊆ issued p';
  Reclaim_issued : ∀ ref pol d p, issued p ⊆ issued (Reclaim ref pol d p).1;
  Resume_issued : ∀ ref p, issued p ⊆ issued (Resume ref p).1;
  Resume_valid : ∀ ref p, valid p → valid (Resume ref p).1;
}.

(** A provider that never returns more machines than it is asked for, as both providers of
    the program do; the comment on the interface asks for at least as many. *)
Definition at_most_asked (P : Type) `{ProviderLaws P} : Prop :=
  ∀ req p p' vms, Ensure req p = (p', Some vms) → valid p → valid p' → 0 ≤ r_Count req ≤ MaxInt64 →
    Z.of_nat (length vms) ≤ r_Count req.

(** [StubProvider], the provider without a cloud.  [itoa] of a positive number is the
    standard conversion. *)
Record StubProvider := mkStub {
  NameValue : string;
  nextID : Z;
  inFlight : gmap string VM;
}.
#[export] Instance eta_StubProvider : Eta StubProvider := λ p, mkStub (NameValue p) (nextID p) (inFlight p).

Definition NewStubProvider (name : string) : StubProvider := mkStub name 1 ∅.

Fixpoint itoa_digits (fuel : nat) (n : Z) (acc : string) : string :=
  match fuel with
  | O => acc
  | S fuel =>
    if 0 <? n then itoa_digits fuel (n / 10) (String (digit_char (n mod 10)) acc) else acc
  end.
(** A number has at most 19 digits, the buffer 20 bytes. *)
Definition itoa (n : Z) : string :=
  if n =? 0 then "0"
  else if n <? 0 then String "-" (itoa_digits 20 (int64 (- n)) "") else itoa_digits 20 n "".

Definition stub_create (now : Time) (req : EnsureRequest) (p : StubProvider) : StubProvider * VM :=
  let p := p <| nextID := int64 (nextID p + 1) |> in
  let vm := mkVM (NameValue p +:+ "-vm-" +:+ itoa (nextID p)) (NameValue p +:+ "-node-" +:+ itoa (nextID p))
              (r_SKU req) "" "" VMStateCreating (r_Location req) (r_ResourceGroup req) now in
  (p <| inFlight := <[vm_ID vm := vm]> (inFlight p) |>, vm).
Fixpoint stub_ensure (now : Time) (req : EnsureRequest) (n : nat) (p : StubProvider) (out : list VM) :
    StubProvider * list VM :=
  match n with
  | O => (p, out)
  | S n => let '(p, vm) := stub_create now req p in stub_ensure now req n p (out ++ [vm])
  end.
Definition stub_Ensure (now : Time) (req : EnsureRequest) (p : StubProvider) : StubProvider * option (list VM) :=
  let '(p, vms) := stub_ensure now req (Z.to_nat (r_Count req)) p [] in (p, Some vms).
Definition stub_Reclaim (ref : VMRef) (policy : string) (destroy : bool) (p : StubProvider) :
    StubProvider * bool :=
  (p <| inFlight := delete (ref_VMID ref) (inFlight p) |>, true).
Definition stub_Resume (ref : VMRef) (p : StubProvider) : StubProvider * bool := (p, true).
Definition stub_Describe (ref : VMRef) (p : StubProvider) : StubProvider * option VM :=
  match inFlight p !! ref_VMID ref with
  | Some vm =>
    let vm := if decide (vm_State vm = VMStateCreating)
              then vm <| vm_State := VMStateRunning |> <| vm_IP := "10.10.0." +:+ itoa (nextID p) |>
                      <| vm_Hostname := vm_Name vm |>
              else vm in
    (p <| inFlight := <[ref_VMID ref := vm]> (inFlight p) |>, Some vm)
  | None => (p, None)
  end.

(** The clock of the stub is fixed: no result depends on it. *)
#[export] Instance stub_provider : Provider StubProvider := {
  Ensure := stub_Ensure zero_time;
  Reclaim := stub_Reclaim;
  Resume := stub_Resume;
}.

(** [AzureCRP], the provider of the Azure cloud: its registry of the machines it created,
    with the random names and the answers of the cloud still to come; an exhausted list of
    names is a generator that fails. *)
Record AzureCRP := mkAzure {
  az_draws : list (option string);
  az_answers : list bool;
  registry : gmap string (string * string);
}.
#[export] Instance eta_AzureCRP : Eta AzureCRP := λ a, mkAzure (az_draws a) (az_answers a) (registry a).

Definition genNodeName (a : AzureCRP) : AzureCRP * option string :=
  match az_draws a with
  | [] => (a, None)
  | r :: draws => (a <| az_draws := draws |>, option_map (λ r, "ot-node-" +:+ r) r)
  end.
(** The outcome of [createNIC], of [createVM] or of another request: whether the cloud did what it
    was asked to. *)
Definition az_call (a : AzureCRP) : AzureCRP * bool :=
  match az_answers a with
  | [] => (a, false)
  | ok :: answers => (a <| az_answers := answers |>, ok)
  end.

(** A machine whose interface or which itself cannot be created is skipped; the interface of a
    machine that was not created is deleted, which does not change what the provider keeps. *)
Fixpoint az_ensure (now : Time) (req : EnsureRequest) (n : nat) (a : AzureCRP) (out : list VM) :
    AzureCRP * option (list VM) :=
  match n with
  | O => (a, Some out)
  | S n =>
    let '(a, name) := genNodeName a in
    match name with
    | None => (a, None)
    | Some vmName =>
      let '(a, nic) := az_call a in
      if nic then
        let '(a, vm) := az_call a in
        if vm then
          az_ensure now req n (a <| registry := <[vmName := (r_ResourceGroup req, r_Location req)]> (registry a) |>)
            (out ++ [mkVM vmName vmName (r_SKU req) "" "" VMStateCreating (r_Location req) (r_ResourceGroup req) now])
        else az_ensure now req n a out
      else az_ensure now req n a out
    end
  end.
Definition az_Ensure (now : Time) (req : EnsureRequest) (a : AzureCRP) : AzureCRP * option (list VM) :=
  az_ensure now req (Z.to_nat (r_Count req)) a [].

(** The clock is fixed: no result depends on it.  A machine that is given back stays in the
    registry. *)
#[export] Instance azure_provider : Provider AzureCRP := {
  Ensure := az_Ensure zero_time;
  Reclaim := λ _ _ _ a, az_call a;
  Resume := λ _ a, az_call a;
}.

(** ** The node controller *)

Class NodeController (N : Type) := {
  DrainNode : string → N → N * bool;
  DeregisterNode : string → N → N * bool;
}.

(** ** Events and pools *)

Definition EventCapacity : string := "capacity".
Definition EventNodeFree : string := "nodefree".
Definition EventNodeIdle : string := "nodeidle".
Definition EventNodeDown : string := "nodedown".

Record JobDemand := mkDemand { d_ID : string; d_CPUs : Z; d_MemKB : Z }.
Record Shortfall := mkShortfall { sf_Cores : Z; sf_Nodes : Z; sf_Blocked : Z }.

Record Event := mkEvent {
  Kind : string;
  ev_Queue : string;
  ev_Provider : string;
  ev_SKU : string;
  ev_Jobs : list JobDemand;
  ev_Shortfall : Shortfall;
  ev_PoolSize : Z;
  ev_MinNodes : Z;
  ev_MaxNodes : Z;
  ev_IdleTime : Duration;
  ev_ProvisionTimeout : Duration;
  ev_Reclaim : string;
  ev_SubnetID : string;
  ev_ImageID : string;
  ev_DiskSize : Z;
  ev_DiskType : string;
  ev_SSHKey : string;
  ev_Location : string;
  ev_RGName : string;
  ev_ServerAddr : string;
  ev_Cooldown : Duration;
  ev_ScaleHeadroom : Z;
  ev_DrainTimeout : Duration;
}.
#[export] Instance eta_Event : Eta Event := λ e,
  mkEvent (Kind e) (ev_Queue e) (ev_Provider e) (ev_SKU e) (ev_Jobs e) (ev_Shortfall e)
    (ev_PoolSize e) (ev_MinNodes e) (ev_MaxNodes e) (ev_IdleTime e) (ev_ProvisionTimeout e)
    (ev_Reclaim e) (ev_SubnetID e) (ev_ImageID e) (ev_DiskSize e) (ev_DiskType e) (ev_SSHKey e)
    (ev_Location e) (ev_RGName e) (ev_ServerAddr e) (ev_Cooldown e) (ev_ScaleHeadroom e)
    (ev_DrainTimeout e).

Record Pool := mkPool {
  p_Queue : string;
  p_Provider : string;
  p_SKU : string;
  MinNodes : Z;
  MaxNodes : Z;
  IdleTime : Duration;
  p_Reclaim : string;
  p_SubnetID : string;
  p_ImageID : string;
  p_DiskSize : Z;
  p_DiskType : string;
  p_SSHKey : string;
  p_Location : string;
  p_RGName : string;
  p_ServerAddr : string;
  Running : Z;
  Inflight : Z;
  Provisioning : gmap string string;
  ProvisionTimeout : Duration;
  ProvisionedAt : gmap string Time;
  Owned : gset string;
  IdleSince : gmap string Time;
  Hibernated : gmap string Time;
  CooldownUntil : Time;
  LastScale : Time;
  p_Cooldown : Duration;
  Headroom : Z;
  DrainTimeout : Duration;
  LastReclaim : gmap string Time;
}.
#[export] Instance eta_Pool : Eta Pool := λ p,
  mkPool (p_Queue p) (p_Provider p) (p_SKU p) (MinNodes p) (MaxNodes p) (IdleTime p) (p_Reclaim p)
    (p_SubnetID p) (p_ImageID p) (p_DiskSize p) (p_DiskType p) (p_SSHKey p) (p_Location p)
    (p_RGName p) (p_ServerAddr p) (Running p) (Inflight p) (Provisioning p) (ProvisionTimeout p)
    (ProvisionedAt p) (Owned p) (IdleSince p) (Hibernated p) (CooldownUntil p) (LastScale p)
    (p_Cooldown p) (Headroom p) (DrainTimeout p) (LastReclaim p).

(** ** The controller *)

Record Controller (P N : Type) := mkController {
  provider : P;
  pools : gmap string Pool;
  Events : list Event;          (* the buffered channel *)
  c_Cooldown : Duration;
  c_nodes : option N;
}.
Arguments mkController {P N} _ _ _ _ _.
Arguments provider {P N} _.
Arguments pools {P N} _.
Arguments Events {P N} _.
Arguments c_Cooldown {P N} _.
Arguments c_nodes {P N} _.

Definition New {P N} (p : P) : Controller P N := mkController p ∅ [] (30 * Second) None.

Definition new_pool (ev : Event) : Pool :=
  mkPool (ev_Queue ev) (ev_Provider ev) (ev_SKU ev) (ev_MinNodes ev) (ev_MaxNodes ev) (ev_IdleTime ev)
    (ev_Reclaim ev) (ev_SubnetID ev) (ev_ImageID ev) (ev_DiskSize ev) (ev_DiskType ev) (ev_SSHKey ev)
    (ev_Location ev) (ev_RGName ev) (ev_ServerAddr ev) 0 0 ∅ 0 ∅ ∅ ∅ ∅ zero_time zero_time 0 0 0 ∅.

Definition ensurePool (ev : Event) (pools : gmap string Pool) : Pool :=
  let p := default (new_pool ev) (pools !! ev_Queue ev) in
  let p := if decide (ev_Provider ev = "") then p
           else p <| p_Provider := ev_Provider ev |> <| p_SKU := ev_SKU ev |> in
  let p := if 0 <? ev_MinNodes ev then p <| MinNodes := ev_MinNodes ev |> else p in
  let p := if 0 <? ev_MaxNodes ev then p <| MaxNodes := ev_MaxNodes ev |> else p in
  let p := if 0 <? ev_IdleTime ev then p <| IdleTime := ev_IdleTime ev |> else p in
  let p := if 0 <? ev_ProvisionTimeout ev then p <| ProvisionTimeout := ev_ProvisionTimeout ev |> else p in
  let p := if decide (ev_Reclaim ev = "") then p else p <| p_Reclaim := ev_Reclaim ev |> in
  let p := if 0 <? ev_Cooldown ev then p <| p_Cooldown := ev_Cooldown ev |> else p in
  let p := if 0 <? ev_ScaleHeadroom ev then p <| Headroom := ev_ScaleHeadroom ev |> else p in
  if 0 <? ev_DrainTimeout ev then p <| DrainTimeout := ev_DrainTimeout ev |> else p.

Definition desiredSize (p : Pool) (ev : Event) : Z :=
  let target := int64 (int64 (Running p + sf_Nodes (ev_Shortfall ev)) + Headroom p) in
  let target := if (0 <? MaxNodes p) && (MaxNodes p <? target) then MaxNodes p else target in
  if target <? MinNodes p then MinNodes p else target.

(** One queued event merged into [ev]. *)
Definition coalesce (queue : string) (ev e2 : Event) : Event :=
  if negb (bool_decide (Kind e2 = EventCapacity)) || negb (bool_decide (ev_Queue e2 = queue)) then ev
  else
    let s1 := ev_Shortfall ev in
    let s2 := ev_Shortfall e2 in
    let pick a b := if a <? b then b else a in
    let add jobs j := if decide (d_ID j ∈ d_ID <$> jobs) then jobs else jobs ++ [j] in
    ev <| ev_Shortfall := mkShortfall (pick (sf_Cores s1) (sf_Cores s2)) (pick (sf_Nodes s1) (sf_Nodes s2))
                            (pick (sf_Blocked s1) (sf_Blocked s2)) |>
       <| ev_Jobs := foldl add (ev_Jobs ev) (ev_Jobs e2) |>.
Definition coalesceCapacityEvents (queue : string) (queued : list Event) (ev : Event) : Event :=
  foldl (coalesce queue) ev queued.

(** A machine given its job and its place in the maps of the pool. *)
Definition bind_vm (now : Time) (id jobID : string) (p : Pool) : Pool :=
  p <| Provisioning := <[id := jobID]> (Provisioning p) |>
    <| ProvisionedAt := <[id := now]> (ProvisionedAt p) |>.

Definition job_for (i : nat) (ev : Event) : string :=
  match ev_Jobs ev !! i with Some d => d_ID d | None => "" end.

(** The machine that has been suspended longest, in the order the map is ranged in. *)
Fixpoint oldest (m : gmap string Time) (ks : list string) (id : string) (suspendAt : Time) : string :=
  match ks with
  | [] => id
  | k :: ks =>
    match m !! k with
    | Some t => if bool_decide (id = "") || Before t suspendAt then oldest m ks k t else oldest m ks id suspendAt
    | None => oldest m ks id suspendAt
    end
  end.

(** [if p.Inflight > 0 { p.Inflight-- }] *)
Definition dec_inflight (p : Pool) : Pool :=
  if 0 <? Inflight p then p <| Inflight := int64 (Inflight p - 1) |> else p.
Definition dec_running (p : Pool) : Pool :=
  if 0 <? Running p then p <| Running := int64 (Running p - 1) |> else p.

Section controller.
Context {P N : Type} `{Provider P} `{NodeController N} `{MapRange}.

(** The loop that resumes hibernated machines; it runs at most once per such machine. *)
Fixpoint resume_loop (fuel : nat) (now : Time) (ev : Event) (need : Z) (resumed : nat) (p : Pool) (prov : P) :
    Pool * P * nat :=
  match fuel with
  | O => (p, prov, resumed)
  | S fuel =>
    if (Z.of_nat resumed <? need) && negb (bool_decide (Hibernated p = ∅)) then
      let id := oldest (Hibernated p) (range (Hibernated p)) "" zero_time in
      let p := p <| Hibernated := delete id (Hibernated p) |> in
      let p := (bind_vm now id (job_for resumed ev) p) <| Inflight := int64 (Inflight p + 1) |> in
      let '(prov, _) := Resume (mkRef (p_Provider p) id) prov in
      resume_loop fuel now ev need (S resumed) p prov
    else (p, prov, resumed)
  end.

Definition ensure_request (p : Pool) (ev : Event) (need : Z) : EnsureRequest :=
  mkEnsure (ev_Provider ev) (ev_SKU ev) need (p_SubnetID p) (p_ImageID p) (p_DiskSize p) (p_DiskType p)
    (p_SSHKey p) (p_Location p) (p_RGName p) (MinNodes p) (MaxNodes p) (p_ServerAddr p)
    (bool_decide (p_Reclaim p = "hibernate")).

(** The new machines bound to the blocked jobs, in order. *)
Definition bind_all (later : Time) (ev : Event) (vms : list VM) (p : Pool) : Pool :=
  foldl (λ p iv, bind_vm later (vm_ID iv.2) (job_for iv.1 ev) p) p (imap (λ i v, (i, v)) vms).

(** [handleCapacity] on its pool; [now] and [later] are the clock before and after the
    call of [Ensure]. *)
Definition scale_out (cooldown : Duration) (now later : Time) (ev : Event) (p : Pool) (prov : P) : Pool * P :=
  if Before now (CooldownUntil p) then (p, prov)
  else
    let target := desiredSize p ev in
    let need := int64 (target - int64 (Running p + Inflight p)) in
    if need <=? 0 then (p, prov)
    else
      let cd := if p_Cooldown p <=? 0 then cooldown else p_Cooldown p in
      let p := p <| LastScale := now |> <| CooldownUntil := Add now cd |> in
      let '(p, prov, resumed) := resume_loop (size (Hibernated p)) now ev need 0 p prov in
      let need := int64 (need - Z.of_nat resumed) in
      if need <=? 0 then (p, prov)
      else
        match Ensure (ensure_request p ev need) prov with
        | (prov, None) => (p, prov)
        | (prov, Some vms) =>
          let p := bind_all later ev vms p in
          (p <| Inflight := int64 (Inflight p + Z.of_nat (length vms)) |>, prov)
        end.

Definition put_pool (q : string) (p : Pool) (prov : P) (nc : option N) (c : Controller P N) : Controller P N :=
  mkController prov (<[q := p]> (pools c)) (Events c) (c_Cooldown c) nc.

Definition handleCapacity (now later : Time) (ev : Event) (c : Controller P N) : Controller P N :=
  let p := ensurePool ev (pools c) in
  let ev := coalesceCapacityEvents (p_Queue p) (Events c) ev in
  let '(p, prov) := scale_out (c_Cooldown c) now later ev p (provider c) in
  mkController prov (<[ev_Queue ev := p]> (pools c)) [] (c_Cooldown c) (c_nodes c).

Definition handleNodeDown (ev : Event) (c : Controller P N) : Controller P N :=
  put_pool (ev_Queue ev) (dec_running (ensurePool ev (pools c))) (provider c) (c_nodes c) c.

(** [handleNodeFree] and [handleNodeIdle] *)
Definition handleNodeFree (ev : Event) (c : Controller P N) : Controller P N :=
  put_pool (ev_Queue ev) (ensurePool ev (pools c)) (provider c) (c_nodes c) c.

Definition handle (now later : Time) (ev : Event) (c : Controller P N) : Controller P N :=
  switch (Kind ev)
    [([EventCapacity], handleCapacity now later ev c);
     ([EventNodeFree], handleNodeFree ev c);
     ([EventNodeIdle], handleNodeFree ev c);
     ([EventNodeDown], handleNodeDown ev c)] c.

(** *** Registration *)

Definition node_up (p : Pool) (n : string) : Pool :=
  match Provisioning p !! n with
  | None => p
  | Some _ =>
    let p := dec_inflight (p <| Provisioning := delete n (Provisioning p) |>) in
    p <| Owned := {[n]} ∪ Owned p |> <| Running := int64 (Running p + 1) |>
  end.
Definition on_pool (queue : string) (f : Pool → Pool) (c : Controller P N) : Controller P N :=
  mkController (provider c) (alter f queue (pools c)) (Events c) (c_Cooldown c) (c_nodes c).
Definition RegisterNodesUp (queue : string) (nodes : list string) (c : Controller P N) : Controller P N :=
  on_pool queue (λ p, foldl node_up p nodes) c.

(** The idle timer of one owned node. *)
Definition idle_timer (now : Time) (idleNodes : list string) (p : Pool) (name : string) : Pool :=
  if decide (name ∈ idleNodes) then
    match IdleSince p !! name with
    | Some _ => p
    | None => p <| IdleSince := <[name := now]> (IdleSince p) |>
    end
  else p <| IdleSince := delete name (IdleSince p) |>.
Definition RegisterNodesIdle (now : Time) (queue : string) (idleNodes : list string) (c : Controller P N) :
    Controller P N :=
  on_pool queue (λ p, foldl (idle_timer now idleNodes) p (elements (Owned p))) c.

(** *** Giving machines back *)

(** A provisioning machine destroyed; it stays when the provider fails. *)
Definition destroy_booting (pp : Pool * P) (vmID : string) : Pool * P :=
  let '(p, prov) := pp in
  let '(prov, ok) := Reclaim (mkRef (p_Provider p) vmID) "deallocate" true prov in
  if ok then
    (dec_inflight (p <| Provisioning := delete vmID (Provisioning p) |>
                     <| ProvisionedAt := delete vmID (ProvisionedAt p) |>), prov)
  else (p, prov).

Definition orphans (jobIDs : list string) (p : Pool) : list string :=
  filter (λ vmID, match Provisioning p !! vmID with
                  | Some jobID => negb (bool_decide (jobID = "")) && negb (bool_decide (jobID ∈ jobIDs))
                  | None => false
                  end = true) (range (Provisioning p)).
Definition SyncQueuedJobs (queue : string) (jobIDs : list string) (c : Controller P N) : Controller P N :=
  match pools c !! queue with
  | None => c
  | Some p =>
    let '(p', prov) := foldl destroy_booting (p, provider c) (orphans jobIDs p) in
    put_pool queue p' prov (c_nodes c) c
  end.

Definition timed_out (now : Time) (p : Pool) : list string :=
  let timeout := if ProvisionTimeout p <=? 0 then 10 * Minute else ProvisionTimeout p in
  filter (λ vmID, match ProvisionedAt p !! vmID with
                  | Some since => timeout <=? Sub now since
                  | None => false
                  end = true) (range (ProvisionedAt p)).
Definition sweepProvisioningTimeoutLocked (now : Time) (p : Pool) (prov : P) : Pool * P :=
  foldl destroy_booting (p, prov) (timed_out now p).

(** The pool, the provider and the node controller of a reclaim. *)
Definition reclaimNodeLocked (now : Time) (w : Pool * P * option N) (name : string) : Pool * P * option N :=
  let '(p, prov, nc) := w in
  let p := p <| LastReclaim := <[name := now]> (LastReclaim p) |> in
  match nc with
  | None => (p <| IdleSince := delete name (IdleSince p) |>, prov, nc)
  | Some n =>
    let policy := if decide (p_Reclaim p = "") then "deallocate" else p_Reclaim p in
    match DrainNode name n with
    | (n, false) => (p, prov, Some n)
    | (n, true) =>
      match DeregisterNode name n with
      | (n, false) => (p, prov, Some n)
      | (n, true) =>
        let destroy := bool_decide (policy = "destroy") in
        let '(prov, _) := Reclaim (mkRef (p_Provider p) name) policy destroy prov in
        let p := p <| Owned := Owned p ∖ {[name]} |> <| IdleSince := delete name (IdleSince p) |>
                   <| LastReclaim := delete name (LastReclaim p) |> in
        let p := dec_running p in
        let p := if bool_decide (policy = "hibernate") && negb destroy
                 then p <| Hibernated := <[name := now]> (Hibernated p) |> else p in
        (p, prov, Some n)
      end
    end
  end.

Definition idle_candidates (now : Time) (p : Pool) : list string :=
  filter (λ name, match IdleSince p !! name with
                  | Some since => IdleTime p <=? Sub now since
                  | None => false
                  end = true) (range (IdleSince p)).

(** One candidate of the sweep: a reclaim unless the last attempt is too recent. *)
Definition try_reclaim (now : Time) (w : Pool * P * option N) (name : string) : Pool * P * option N :=
  let p := w.1.1 in
  if (0 <? DrainTimeout p) && match LastReclaim p !! name with
                              | Some last => Sub now last <? DrainTimeout p
                              | None => false
                              end
  then w else reclaimNodeLocked now w name.

Definition reclaim_pool (now : Time) (c : Controller P N) (qname : string) : Controller P N :=
  match pools c !! qname with
  | None => c
  | Some p =>
    let '(p, prov) := sweepProvisioningTimeoutLocked now p (provider c) in
    if (IdleTime p <=? 0) || (Running p <=? MinNodes p) then put_pool qname p prov (c_nodes c) c
    else
      let '(p, prov, nc) := foldl (try_reclaim now) (p, prov, c_nodes c) (idle_candidates now p) in
      put_pool qname p prov nc c
  end.
Definition reclaimIdle (now : Time) (c : Controller P N) : Controller P N :=
  foldl (reclaim_pool now) c (range (pools c)).
End controller.
