(* ===== verification/CecSpec.v ===== *)
(** * What the cloud elastic controller guarantees

    The accounting of a pool of machines: which are booting, which are up, which are
    suspended; the bounds of its size; and which machines it gives back. *)

From S2P Require Import Prelude GoStd JobManager Cec.

Local Open Scope string_scope.
Local Open Scope list_scope.
Local Open Scope Z_scope.

Implicit Types (p : Pool) (ev : Event) (iss : gset string).

(** ** The accounting of a pool *)

(** A counter against the number of machines it stands for: never more and, when [x],
    exactly as many. *)
Definition counts (x : bool) (c : Z) (n : nat) : Prop := 0 ≤ c ≤ Z.of_nat n ∧ (x = true → c = Z.of_nat n).

Record pool_ok (x : bool) (iss : gset string) (p : Pool) : Prop := {
  po_inflight : counts x (Inflight p) (size (Provisioning p));
  po_running : counts x (Running p) (size (Owned p));
  po_disj : dom (Provisioning p) ## Owned p;
  po_hib : dom (Hibernated p) ## dom (Provisioning p) ∪ Owned p;
  po_idle : dom (IdleSince p) ⊆ Owned p;
  po_issued : dom (Provisioning p) ∪ Owned p ∪ dom (Hibernated p) ⊆ iss;
}.

Section accounting.
Context {x : bool}.

Lemma counts_up c n : counts x c n → counts x (c + 1) (S n).
Proof. unfold counts. intros [? H]. split; [lia|]. intros Hx%H. lia. Qed.
Lemma counts_down c n : counts x c (S n) → counts x (if 0 <? c then c - 1 else c) n.
Proof. unfold counts. intros [? H]. split; [case_match; lia|]. intros Hx%H. case_match; lia. Qed.

Lemma new_pool_ok iss ev : pool_ok x iss (new_pool ev).
Proof. split; simpl; rewrite ?dom_empty_L; [split; [lia|done]..| | | |]; set_solver. Qed.

Lemma pool_ok_mono iss iss' p : iss ⊆ iss' → pool_ok x iss p → pool_ok x iss' p.
Proof. intros Hs [H1 H2 H3 H4 H5 H6]. split; try done. by etransitivity. Qed.

(** The accounting only looks at these fields. *)
Lemma pool_ok_frame iss p p' :
  Inflight p' = Inflight p → Running p' = Running p → Provisioning p' = Provisioning p →
  Owned p' = Owned p → Hibernated p' = Hibernated p → IdleSince p' = IdleSince p →
  pool_ok x iss p → pool_ok x iss p'.
Proof. intros H1 H2 H3 H4 H5 H6 [? ? ? ? ? ?]. split; rewrite ?H1, ?H2, ?H3, ?H4, ?H5, ?H6; done. Qed.

(** A conditional update of a field that the accounting does not look at. *)
Ltac branch_ok :=
  try first [case_decide | lazymatch goal with |- pool_ok _ _ (if ?b then _ else _) => destruct b end];
  first [done | eapply pool_ok_frame; [..|eassumption]; reflexivity].
(** One assignment of a chain [let p := ... in ...] at a time. *)
Ltac pool_steps :=
  repeat lazymatch goal with
  | |- pool_ok ?ex ?iss (let x := ?e in @?b x) =>
    let q := fresh "p" in let Hq := fresh "Hq" in
    cut (∀ q, pool_ok ex iss q → pool_ok ex iss (b q));
    [let Hc := fresh in intros Hc; refine (Hc _ _); clear Hc; branch_ok
    |intros q Hq; cbv beta]
  end.

Lemma ensurePool_ok iss ev ps :
  map_Forall (λ _, pool_ok x iss) ps → pool_ok x iss (ensurePool ev ps).
Proof.
  intros Hps. set (p0 := default (new_pool ev) (ps !! ev_Queue ev)).
  assert (pool_ok x iss p0) as H0.
  { unfold p0. destruct (ps !! ev_Queue ev) as [p|] eqn:E; [exact (Hps _ _ E)|apply new_pool_ok]. }
  cbv beta delta [ensurePool]. change (default (new_pool ev) (ps !! ev_Queue ev)) with p0. clearbody p0.
  pool_steps; branch_ok.
Qed.

Lemma in_flight_small iss p : pool_ok x iss p → Inflight p + Running p ≤ Z.of_nat (size iss).
Proof.
  intros [[H1 _] [H2 _] H3 H4 H5 H6].
  assert (size (dom (Provisioning p) ∪ Owned p) ≤ size iss)%nat as Hs by (apply subseteq_size; set_solver).
  rewrite size_union, size_dom in Hs by done. lia.
Qed.

(** *** Booting machines that come up *)

Lemma dec_inflight_eq p : 0 ≤ Inflight p ≤ MaxInt64 →
  dec_inflight p = p <| Inflight := if 0 <? Inflight p then Inflight p - 1 else Inflight p |>.
Proof.
  intros Hi. unfold dec_inflight. destruct (0 <? Inflight p) eqn:E; [|by destruct p].
  apply Z.ltb_lt in E. rewrite int64_id by (unfold_int; lia). done.
Qed.

Lemma dec_running_eq p : 0 ≤ Running p ≤ MaxInt64 →
  dec_running p = p <| Running := if 0 <? Running p then Running p - 1 else Running p |>.
Proof.
  intros Hi. unfold dec_running. destruct (0 <? Running p) eqn:E; [|by destruct p].
  apply Z.ltb_lt in E. rewrite int64_id by (unfold_int; lia). done.
Qed.

Lemma size_delete_S (m : gmap string string) n j : m !! n = Some j → size m = S (size (delete n m)).
Proof.
  intros Hn. assert (size m ≠ 0)%nat as Hne by (intros E%map_size_empty_inv; by rewrite E, lookup_empty in Hn).
  rewrite map_size_delete, Hn. lia.
Qed.

Lemma counts_small iss p : pool_ok x iss p → Z.of_nat (size iss) < 2 ^ 60 →
  0 ≤ Inflight p < 2 ^ 60 ∧ 0 ≤ Running p < 2 ^ 60.
Proof. intros Hok Hsz. pose proof (in_flight_small iss p Hok). destruct Hok as [[H1 _] [H2 _] _ _ _ _]. lia. Qed.

Lemma node_up_ok iss p n :
  Z.of_nat (size iss) < 2 ^ 60 → pool_ok x iss p → pool_ok x iss (node_up p n).
Proof.
  intros Hsz Hok. unfold node_up. destruct (Provisioning p !! n) as [j|] eqn:Hn; [|done].
  destruct (counts_small iss p Hok Hsz) as [Hi Hr]. destruct Hok as [H1 H2 H3 H4 H5 H6].
  assert (n ∈ dom (Provisioning p)) as Hd by (by apply elem_of_dom_2 in Hn).
  assert (n ∉ Owned p) as Ho by set_solver.
  rewrite dec_inflight_eq by (cbn [Inflight set_field]; unfold_int; lia).
  split; cbn [Inflight Provisioning Running Owned Hibernated IdleSince set_field].
  - apply counts_down. by rewrite <- (size_delete_S _ _ _ Hn).
  - rewrite size_union by set_solver. rewrite size_singleton, int64_id by (unfold_int; lia). by apply counts_up.
  - rewrite dom_delete_L. set_solver.
  - rewrite dom_delete_L. set_solver.
  - set_solver.
  - rewrite dom_delete_L. set_solver.
Qed.

Lemma nodes_up_ok iss p ns :
  Z.of_nat (size iss) < 2 ^ 60 → pool_ok x iss p → pool_ok x iss (foldl node_up p ns).
Proof. intros Hsz. revert p. induction ns; simpl; auto using node_up_ok. Qed.

(** *** Idle timers *)

Lemma idle_timer_ok iss now idle p n :
  n ∈ Owned p → pool_ok x iss p → pool_ok x iss (idle_timer now idle p n).
Proof.
  intros Hn [H1 H2 H3 H4 H5 H6]. unfold idle_timer. case_decide.
  - destruct (IdleSince p !! n); split; try done. simpl. rewrite dom_insert_L. set_solver.
  - split; try done. simpl. rewrite dom_delete_L. set_solver.
Qed.

Lemma idle_timer_owned now idle p n : Owned (idle_timer now idle p n) = Owned p.
Proof. unfold idle_timer. case_decide; [|done]. by destruct (IdleSince p !! n). Qed.

Lemma idle_timers_ok iss now idle p ns :
  (∀ n, n ∈ ns → n ∈ Owned p) → pool_ok x iss p → pool_ok x iss (foldl (idle_timer now idle) p ns).
Proof.
  revert p. induction ns as [|n ns IH]; intros p Hns Hok; [done|]. simpl. apply IH.
  - intros m Hm. rewrite idle_timer_owned. apply Hns. by right.
  - apply idle_timer_ok; [apply Hns; left|done].
Qed.

(** *** New machines *)

Lemma bind_vms later (job : nat → string) (vms : list (nat * VM)) p :
  NoDup (vm_ID ∘ snd <$> vms) → (∀ v, v ∈ vms → vm_ID v.2 ∉ dom (Provisioning p)) →
  ∃ a b, foldl (λ p iv, bind_vm later (vm_ID iv.2) (job iv.1) p) p vms
         = p <| Provisioning := a |> <| ProvisionedAt := b |> ∧
    dom a = dom (Provisioning p) ∪ list_to_set (vm_ID ∘ snd <$> vms) ∧
    size a = (size (Provisioning p) + length vms)%nat.
Proof.
  revert p. induction vms as [|[i v] vms IH]; intros p Hnd Hf.
  { exists (Provisioning p), (ProvisionedAt p). split_and!; [by destruct p|simpl; set_solver|simpl; lia]. }
  cbn [fmap list_fmap] in Hnd. apply NoDup_cons in Hnd as [Hn Hnd]. simpl in Hn.
  assert (vm_ID v ∉ dom (Provisioning p)) as Hv by (apply (Hf (i, v)); left).
  destruct (IH (bind_vm later (vm_ID v) (job i) p) Hnd) as (a & b & He & Hd & Hs).
  { intros w Hw. unfold bind_vm. cbn [Provisioning set_field]. rewrite dom_insert_L.
    assert (vm_ID w.2 ∉ dom (Provisioning p)) by (apply Hf; by right).
    assert (vm_ID w.2 ≠ vm_ID v) by (intros E; apply Hn; rewrite <- E; by apply (list_elem_of_fmap_2 (vm_ID ∘ snd))).
    set_solver. }
  exists a, b. cbn [foldl fst snd]. split_and!.
  - rewrite He. by destruct p.
  - rewrite Hd. unfold bind_vm. cbn [Provisioning set_field]. rewrite dom_insert_L. simpl. set_solver.
  - rewrite Hs. unfold bind_vm. cbn [Provisioning set_field].
    rewrite map_size_insert_None by (by apply not_elem_of_dom). simpl. lia.
Qed.

Lemma imap_snd {A} (l : list A) : (imap (λ i v, (i, v)) l).*2 = l.
Proof.
  assert (∀ f : nat → nat, (imap (λ i v, (f i, v)) l).*2 = l) as H; [|exact (H id)].
  induction l as [|a l IH]; intros f; [done|]. simpl. f_equal. exact (IH (f ∘ S)).
Qed.

Lemma bind_all_eq later ev vms p :
  NoDup (vm_ID <$> vms) → list_to_set (vm_ID <$> vms) ## (dom (Provisioning p) : gset string) →
  ∃ a b, bind_all later ev vms p = p <| Provisioning := a |> <| ProvisionedAt := b |> ∧
    dom a = dom (Provisioning p) ∪ list_to_set (vm_ID <$> vms) ∧
    size a = (size (Provisioning p) + length vms)%nat.
Proof.
  intros Hnd Hf. unfold bind_all.
  assert (vm_ID ∘ snd <$> imap (λ i v, (i, v)) vms = vm_ID <$> vms) as E.
  { rewrite list_fmap_compose. by rewrite imap_snd. }
  destruct (bind_vms later (λ i, job_for i ev) (imap (λ i v, (i, v)) vms) p) as (a & b & He & Hd & Hs).
  - by rewrite E.
  - intros [i v] Hv Hin. apply (Hf (vm_ID v)); [|done]. apply elem_of_list_to_set.
    apply list_elem_of_fmap_2. rewrite <- (imap_snd vms). by apply (list_elem_of_fmap_2 snd _ (i, v)).
  - exists a, b. rewrite E in Hd. rewrite length_imap in Hs. by split_and!.
Qed.

Lemma new_vms_ok iss iss2 p (a : gmap string string) (b : gmap string Time) (new : gset string) n :
  pool_ok x iss p → Z.of_nat (size iss2) < 2 ^ 60 → iss ∪ new ⊆ iss2 → new ## iss →
  dom a = dom (Provisioning p) ∪ new → size a = (size (Provisioning p) + n)%nat →
  pool_ok x iss2 (p <| Provisioning := a |> <| ProvisionedAt := b |>
                  <| Inflight := int64 (Inflight p + Z.of_nat n) |>).
Proof.
  intros [H1 H2 H3 H4 H5 H6] Hsz Hs Hn Hd Hsa.
  assert (size (dom a) ≤ size iss2)%nat as Hle by (apply subseteq_size; rewrite Hd; set_solver).
  rewrite size_dom, Hsa in Hle.
  split; cbn [Inflight Provisioning Running Owned Hibernated IdleSince set_field]; rewrite ?Hd.
  - destruct H1 as [H1 Hx]. unfold counts. rewrite Hsa, int64_id by (unfold_int; lia). split; [lia|]. intros ->%Hx. lia.
  - done.
  - set_solver.
  - set_solver.
  - done.
  - set_solver.
Qed.

(** *** Suspended machines *)

Lemma oldest_in m ks id t :
  "" ∉ ks → (∀ k, k ∈ ks → is_Some (m !! k)) → (id = "" ∧ ks ≠ [] ∨ is_Some (m !! id) ∧ id ≠ "") →
  is_Some (m !! oldest m ks id t).
Proof.
  revert id t. induction ks as [|k ks IH]; intros id t Hn Hks Hid; simpl.
  { by destruct Hid as [[_ ?]|[? _]]. }
  apply not_elem_of_cons in Hn as [Hk Hn]. destruct (Hks k ltac:(left)) as [tk Hm]. rewrite Hm.
  assert (∀ k', k' ∈ ks → is_Some (m !! k')) as Hks' by (intros k' ?; apply Hks; by right).
  destruct (bool_decide (id = "") || Before tk t) eqn:E.
  - apply IH; [done|done|]. right. split; [by exists tk|done].
  - apply orb_false_iff in E as [E%bool_decide_eq_false _]. apply IH; [done|done|].
    right. destruct Hid as [[? _]|?]; done.
Qed.

End accounting.

Section pools.
Context {x : bool} {P N : Type} `{HP : Provider P} `{HL : !ProviderLaws P} `{HN : NodeController N} `{HR : MapRange}.
Implicit Types (prov : P).

(** The machine taken from the suspended ones starts booting. *)
Lemma resume_step_ok iss now p id job :
  Z.of_nat (size iss) < 2 ^ 60 → pool_ok x iss p → is_Some (Hibernated p !! id) →
  pool_ok x iss ((bind_vm now id job (p <| Hibernated := delete id (Hibernated p) |>))
                 <| Inflight := int64 (Inflight p + 1) |>).
Proof.
  intros Hsz Hok Hid. destruct (counts_small iss p Hok Hsz) as [Hi Hr]. destruct Hok as [H1 H2 H3 H4 H5 H6].
  apply elem_of_dom in Hid. assert (id ∉ dom (Provisioning p)) as Hp by set_solver.
  split; unfold bind_vm; cbn [Inflight Provisioning Running Owned Hibernated IdleSince set_field].
  - rewrite map_size_insert_None by (by apply not_elem_of_dom).
    rewrite int64_id by (unfold_int; lia). by apply counts_up.
  - done.
  - rewrite dom_insert_L. set_solver.
  - rewrite dom_insert_L, dom_delete_L. set_solver.
  - done.
  - rewrite dom_insert_L, dom_delete_L. set_solver.
Qed.

(** Fields the resume loop keeps. *)
Definition same_limits (p p' : Pool) : Prop :=
  Running p' = Running p ∧ MaxNodes p' = MaxNodes p ∧ MinNodes p' = MinNodes p ∧ Owned p' = Owned p ∧
  CooldownUntil p' = CooldownUntil p.

Lemma resume_loop_issued fuel now ev need resumed p prov p' prov' resumed' :
  resume_loop fuel now ev need resumed p prov = (p', prov', resumed') → issued prov ⊆ issued prov'.
Proof.
  revert resumed p prov. induction fuel as [|fuel IH]; intros r q pr; cbn [resume_loop]; [by intros [= <- <- <-]|].
  destruct (_ && _); [|by intros [= <- <- <-]]. cbv zeta.
  match goal with |- context [Resume ?a ?b] =>
    pose proof (Resume_issued a b) as Hr; destruct (Resume a b) as [pr2 ok2] end.
  intros Hrun%IH. simpl in Hr. set_solver.
Qed.

Lemma resume_loop_valid fuel now ev need resumed p prov p' prov' resumed' :
  resume_loop fuel now ev need resumed p prov = (p', prov', resumed') → valid prov → valid prov'.
Proof.
  revert resumed p prov. induction fuel as [|fuel IH]; intros r q pr; cbn [resume_loop]; [by intros [= <- <- <-]|].
  destruct (_ && _); [|by intros [= <- <- <-]]. cbv zeta.
  match goal with |- context [Resume ?a ?b] =>
    pose proof (Resume_valid a b) as Hr; destruct (Resume a b) as [pr2 ok2] end.
  intros Hrun Hv. apply (IH _ _ _ Hrun). by apply Hr.
Qed.

Lemma resume_loop_ok fuel now ev need resumed p prov p' prov' resumed' :
  resume_loop fuel now ev need resumed p prov = (p', prov', resumed') →
  valid prov → Z.of_nat (size (issued prov')) < 2 ^ 60 → pool_ok x (issued prov) p → Z.of_nat resumed ≤ need →
  pool_ok x (issued prov') p' ∧ issued prov ⊆ issued prov' ∧ same_limits p p' ∧
  Z.of_nat resumed' ≤ need ∧ (resumed ≤ resumed')%nat ∧
  Inflight p' = Inflight p + (Z.of_nat resumed' - Z.of_nat resumed).
Proof.
  revert resumed p prov. induction fuel as [|fuel IH]; intros resumed p prov; cbn [resume_loop].
  { intros [= <- <- <-] _ _ Hok Hle. split_and!; [done|done|by repeat split|done|lia|lia]. }
  destruct ((Z.of_nat resumed <? need) && negb (bool_decide (Hibernated p = ∅))) eqn:E.
  2: { intros [= <- <- <-] _ _ Hok Hle. split_and!; [done|done|by repeat split|done|lia|lia]. }
  apply andb_true_iff in E as [E1 E2]. apply Z.ltb_lt in E1.
  apply negb_true_iff, bool_decide_eq_false in E2. cbv zeta.
  set (id := oldest (Hibernated p) (range (Hibernated p)) "" zero_time).
  set (p1 := (bind_vm _ _ _ _) <| Inflight := _ |>).
  destruct (Resume (mkRef (p_Provider p1) id) prov) as [prov1 ok] eqn:Er.
  assert (issued prov ⊆ issued prov1) as Hi1.
  { pose proof (Resume_issued (mkRef (p_Provider p1) id) prov) as Hr. by rewrite Er in Hr. }
  intros Hrun Hv Hsz Hok Hle. pose proof (range_order (Hibernated p)) as Hro.
  assert (valid prov1) as Hv1.
  { pose proof (Resume_valid (mkRef (p_Provider p1) id) prov Hv) as Hr. by rewrite Er in Hr. }
  assert (is_Some (Hibernated p !! id)) as Hid.
  { apply oldest_in.
    - intros Hin%(map_order_elem _ _ _ Hro). apply (issued_named prov Hv), (po_issued _ _ _ Hok).
      apply elem_of_dom in Hin. by apply elem_of_union_r.
    - intros k. by apply map_order_elem.
    - left. split; [done|]. intros En. apply E2. unfold map_order in Hro. rewrite En in Hro.
      apply Permutation_nil_l in Hro. symmetry in Hro. apply fmap_nil_inv in Hro.
      by apply map_to_list_empty_iff in Hro. }
  pose proof (resume_loop_issued _ _ _ _ _ _ _ _ _ _ Hrun) as Hi2.
  assert (pool_ok x (issued prov) p1) as Hok1.
  { refine (resume_step_ok (issued prov) now p id (job_for resumed ev) _ Hok Hid).
    eapply Z.le_lt_trans; [|exact Hsz]. apply inj_le, subseteq_size. by etransitivity. }
  destruct (IH _ _ _ Hrun Hv1 Hsz) as (H1 & H2 & (L1 & L2 & L3 & L4 & L5) & H3 & H4 & H5);
    [by eapply pool_ok_mono|lia|].
  assert (Inflight p1 = Inflight p + 1) as Hin.
  { unfold p1. cbn [Inflight set_field]. apply int64_id. destruct (counts_small _ _ Hok) as [Hi _]; [|unfold_int; lia].
    eapply Z.le_lt_trans; [|exact Hsz]. apply inj_le, subseteq_size. by etransitivity. }
  split_and!; [done|by etransitivity|by repeat split|done|lia|lia].
Qed.

(** *** Scale-out *)

Lemma scale_out_ok cooldown now later ev p prov p' prov' :
  scale_out cooldown now later ev p prov = (p', prov') → valid prov →
  valid prov' → pool_ok x (issued prov) p →
  pool_ok x (issued prov') p' ∧ Running p' = Running p ∧ MaxNodes p' = MaxNodes p ∧ MinNodes p' = MinNodes p ∧
  (p' = p ∧ prov' = prov ∨
   Before now (CooldownUntil p) = false ∧
   (at_most_asked P → Inflight p' ≤ Inflight p + int64 (desiredSize p ev - int64 (Running p + Inflight p)))).
Proof.
  unfold scale_out. destruct (Before now (CooldownUntil p)) eqn:Hcd.
  { intros [= <- <-] _ _ Hok. split_and!; auto. }
  cbv zeta. set (need := int64 (desiredSize p ev - int64 (Running p + Inflight p))).
  destruct (need <=? 0) eqn:Hneed; [intros [= <- <-] _ _ Hok; split_and!; auto|]. apply Z.leb_gt in Hneed.
  set (p0 := p <| LastScale := now |> <| CooldownUntil := _ |>).
  destruct (resume_loop _ now ev need 0 p0 prov) as [[p1 prov1] resumed] eqn:Hres.
  assert (∀ prov2, issued prov1 ⊆ issued prov2 → Z.of_nat (size (issued prov2)) < 2 ^ 60 →
    valid prov → pool_ok x (issued prov) p → pool_ok x (issued prov1) p1 ∧ same_limits p0 p1 ∧
    0 ≤ Z.of_nat resumed ≤ need ∧ Inflight p1 = Inflight p + Z.of_nat resumed) as Hr.
  { intros prov2 Hi Hsz Hv0 Hok.
    assert (Z.of_nat (size (issued prov1)) < 2 ^ 60) as Hsz1.
    { eapply Z.le_lt_trans; [|exact Hsz]. by apply inj_le, subseteq_size. }
    assert (pool_ok x (issued prov) p0) as Hok0 by (by apply (pool_ok_frame _ p)).
    destruct (resume_loop_ok _ _ _ _ _ _ _ _ _ _ Hres Hv0 Hsz1 Hok0) as (H1 & _ & H2 & H3 & H4 & H5); [simpl; lia|].
    split_and!; [done|done|lia|done|]. rewrite H5. cbn [Inflight set_field]. change (Inflight p0) with (Inflight p). lia. }
  assert (Z.of_nat resumed ≤ need → int64 (need - Z.of_nat resumed) = need - Z.of_nat resumed) as Hsub.
  { intros Hle. apply int64_id. pose proof (int64_range (desiredSize p ev - int64 (Running p + Inflight p))) as Hb.
    fold need in Hb. unfold_int. lia. }
  destruct (int64 (need - Z.of_nat resumed) <=? 0) eqn:Hmore.
  { intros [= <- <-] Hv0 Hsz%issued_small Hok. destruct (Hr prov1 ltac:(done) Hsz Hv0 Hok) as (H1 & (L1 & L2 & L3 & _) & H3 & H4).
    split_and!; [done..|]. right. split; [done|]. intros _. rewrite H4. lia. }
  destruct (Ensure _ prov1) as [prov2 [vms|]] eqn:Hens; intros [= <- <-] Hv0 Hv2 Hok;
    pose proof (issued_small _ Hv2) as Hsz.
  2: { apply Ensure_failed in Hens. destruct (Hr prov2 Hens Hsz Hv0 Hok) as (H1 & (L1 & L2 & L3 & _) & H3 & H4).
       split_and!; [by eapply pool_ok_mono|done..|]. right. split; [done|]. intros _. rewrite H4. lia. }
  apply Z.leb_gt in Hmore. pose proof (resume_loop_valid _ _ _ _ _ _ _ _ _ _ Hres Hv0) as Hv1.
  assert (0 ≤ int64 (need - Z.of_nat resumed) ≤ MaxInt64) as Hcnt.
  { pose proof (int64_range (need - Z.of_nat resumed)) as Hir. unfold_int. lia. }
  pose proof (Ensure_fresh _ _ _ _ Hens Hv1 Hv2 Hcnt) as (Hnd & Hsub2 & Hfr).
  destruct (Hr prov2 ltac:(etransitivity; [|exact Hsub2]; apply union_subseteq_l) Hsz Hv0 Hok)
    as (H1 & (L1 & L2 & L3 & _) & H3 & H4).
  assert (list_to_set (vm_ID <$> vms) ## (dom (Provisioning p1) : gset string)) as Hd.
  { pose proof (po_issued _ _ _ H1) as Hi. intros i Hx Hp. apply (Hfr i Hx), Hi.
    by do 2 apply elem_of_union_l. }
  destruct (bind_all_eq later ev vms p1 Hnd Hd) as (a & b & -> & Hda & Hsa).
  assert (pool_ok x (issued prov2) (p1 <| Provisioning := a |> <| ProvisionedAt := b |>
            <| Inflight := int64 (Inflight p1 + Z.of_nat (length vms)) |>)) as Hok2.
  { by apply (new_vms_ok (issued prov1) _ p1 a b (list_to_set (vm_ID <$> vms))). }
  split_and!; [exact Hok2|exact L1|exact L2|exact L3|]. right. split; [done|].
  intros Hmost. specialize (Hmost _ _ _ _ Hens Hv1 Hv2 Hcnt). cbn [r_Count ensure_request] in Hmost.
  rewrite Hsub in Hmost by lia. cbn [Inflight set_field].
  destruct (counts_small _ _ H1) as [Hi1 _].
  { eapply Z.le_lt_trans; [|exact Hsz]. apply inj_le, subseteq_size. etransitivity; [|exact Hsub2]. apply union_subseteq_l. }
  assert (Z.of_nat (length vms) < 2 ^ 60) as Hlen.
  { eapply Z.le_lt_trans; [|exact Hsz]. apply inj_le. rewrite <- (length_fmap vm_ID vms), <- (size_list_to_set (C := gset string)) by done.
    apply subseteq_size. set_solver. }
  rewrite int64_id by (unfold_int; lia). lia.
Qed.

(** *** Destroying and reclaiming *)

Lemma destroy_booting_ok p prov vm p' prov' :
  destroy_booting (p, prov) vm = (p', prov') → (x = true → is_Some (Provisioning p !! vm)) →
  Z.of_nat (size (issued prov')) < 2 ^ 60 → pool_ok x (issued prov) p →
  pool_ok x (issued prov') p' ∧ issued prov ⊆ issued prov' ∧
  (Provisioning p' = Provisioning p ∨ Provisioning p' = delete vm (Provisioning p)).
Proof.
  unfold destroy_booting. pose proof (Reclaim_issued (mkRef (p_Provider p) vm) "deallocate" true prov) as Hi.
  destruct (Reclaim _ _ _ prov) as [prov1 ok]. simpl in Hi. destruct ok; intros [= <- <-] Hj Hsz Hok.
  2: { split_and!; [by eapply pool_ok_mono|done|by left]. }
  destruct (counts_small _ _ (pool_ok_mono _ _ _ Hi Hok) Hsz) as [Hin _]. destruct Hok as [H1 H2 H3 H4 H5 H6].
  rewrite dec_inflight_eq by (cbn [Inflight set_field]; unfold_int; lia).
  split_and!; [|done|by right].
  split; cbn [Inflight Provisioning Running Owned Hibernated IdleSince set_field].
  - destruct (Provisioning p !! vm) as [j|] eqn:Hv.
    + apply counts_down. by rewrite <- (size_delete_S _ _ _ Hv).
    + rewrite delete_id by done. destruct H1 as [H1 _]. split; [case_match; lia|]. intros Hx. by destruct (Hj Hx).
  - done.
  - rewrite dom_delete_L. set_solver.
  - rewrite dom_delete_L. set_solver.
  - done.
  - rewrite dom_delete_L. set_solver.
Qed.

Lemma destroy_all_issued vms p prov p' prov' :
  foldl destroy_booting (p, prov) vms = (p', prov') → issued prov ⊆ issued prov'.
Proof.
  revert p prov. induction vms as [|v vms IH]; intros q pr; cbn [foldl]; [by intros [= <- <-]|].
  unfold destroy_booting at 2. pose proof (Reclaim_issued (mkRef (p_Provider q) v) "deallocate" true pr) as Hi.
  destruct (Reclaim _ _ _ pr) as [pr1 [|]]; simpl in Hi; intros Hrun%IH; by etransitivity.
Qed.

Lemma destroy_all_ok vms p prov p' prov' :
  foldl destroy_booting (p, prov) vms = (p', prov') → NoDup vms →
  (x = true → ∀ vm, vm ∈ vms → is_Some (Provisioning p !! vm)) →
  Z.of_nat (size (issued prov')) < 2 ^ 60 → pool_ok x (issued prov) p →
  pool_ok x (issued prov') p' ∧ issued prov ⊆ issued prov' ∧
  ∀ vm, vm ∉ vms → Provisioning p' !! vm = Provisioning p !! vm.
Proof.
  revert p prov. induction vms as [|vm vms IH]; intros p prov; cbn [foldl].
  { intros [= <- <-] _ _ _ Hok. by split_and!. }
  destruct (destroy_booting (p, prov) vm) as [p1 prov1] eqn:E. intros Hrun Hnd Hin Hsz Hok.
  apply NoDup_cons in Hnd as [Hvm Hnd].
  pose proof (destroy_all_issued _ _ _ _ _ Hrun) as Hi1.
  destruct (destroy_booting_ok _ _ _ _ _ E) as (Hok1 & Hi & Hp1); [intros Hx; apply (Hin Hx); left| |done|].
  { eapply Z.le_lt_trans; [|exact Hsz]. by apply inj_le, subseteq_size. }
  destruct (IH p1 prov1 Hrun Hnd) as (H1 & H2 & H3); [|done|done|].
  { intros Hx v Hv. destruct Hp1 as [-> | ->]; [apply (Hin Hx); by right|].
    rewrite lookup_delete_ne by (intros ->; done). apply (Hin Hx). by right. }
  split_and!; [done|by etransitivity|].
  intros v [Hne Hv]%not_elem_of_cons. rewrite (H3 v Hv). destruct Hp1 as [-> | ->]; [done|].
  by rewrite lookup_delete_ne by (intros ->; done).
Qed.

Lemma reclaimNode_ok now p prov (nc : option N) name p' prov' nc' :
  reclaimNodeLocked now (p, prov, nc) name = (p', prov', nc') → name ∈ Owned p →
  Z.of_nat (size (issued prov')) < 2 ^ 60 → pool_ok x (issued prov) p →
  pool_ok x (issued prov') p' ∧ issued prov ⊆ issued prov' ∧
  (Owned p' = Owned p ∨ Owned p' = Owned p ∖ {[name]}).
Proof.
  unfold reclaimNodeLocked. cbv zeta. set (p1 := p <| LastReclaim := _ |>). intros Hrun Hn Hsz Hok.
  assert (pool_ok x (issued prov) p1) as Hok1 by (by apply (pool_ok_frame _ p)).
  assert (Owned p1 = Owned p) as Ho1 by done. clearbody p1.
  destruct nc as [n|].
  2: { injection Hrun as <- <- <-. split_and!; [|done|by left]. destruct Hok1 as [H1 H2 H3 H4 H5 H6].
       split; try done. cbn [IdleSince Owned set_field]. rewrite dom_delete_L. set_solver. }
  destruct (DrainNode name n) as [n1 [|]]; [|injection Hrun as <- <- <-; by split_and!; auto].
  destruct (DeregisterNode name n1) as [n2 [|]]; [|injection Hrun as <- <- <-; by split_and!; auto].
  set (policy := if decide (p_Reclaim p1 = "") then "deallocate" else p_Reclaim p1) in *. clearbody policy.
  pose proof (Reclaim_issued (mkRef (p_Provider p1) name) policy (bool_decide (policy = "destroy")) prov) as Hi.
  destruct (Reclaim _ _ _ prov) as [prov1 ok]. simpl in Hi.
  set (p2 := p1 <| Owned := _ |> <| IdleSince := _ |> <| LastReclaim := _ |>) in *.
  assert (Z.of_nat (size (issued prov1)) < 2 ^ 60) as Hsz1 by (by injection Hrun as _ <- _).
  destruct (counts_small _ _ (pool_ok_mono _ _ _ Hi Hok1) Hsz1) as [_ Hr].
  set (r := if 0 <? Running p1 then Running p1 - 1 else Running p1).
  assert (dec_running p2 = p2 <| Running := r |>) as Hdr by (apply dec_running_eq; change (Running p2) with (Running p1); unfold_int; lia).
  rewrite Hdr in Hrun.
  assert (∀ h, dom h ⊆ dom (Hibernated p1) ∪ {[name]} →
    pool_ok x (issued prov1) (p2 <| Running := r |> <| Hibernated := h |>)) as Hfin.
  { intros h Hh. destruct Hok1 as [H1 H2 H3 H4 H5 H6].
    split; unfold p2; cbn [Inflight Provisioning Running Owned Hibernated IdleSince set_field].
    - done.
    - apply counts_down. rewrite size_difference by set_solver. rewrite size_singleton.
      assert (size (Owned p1) ≠ 0)%nat by (intros E%size_empty_inv; set_solver).
      by replace (S (size (Owned p1) - 1)) with (size (Owned p1)) by lia.
    - set_solver.
    - set_solver.
    - rewrite dom_delete_L. set_solver.
    - set_solver. }
  assert (Owned p2 = Owned p ∖ {[name]}) as Ho2 by (unfold p2; simpl; by rewrite Ho1).
  destruct (bool_decide (policy = "hibernate") && _); injection Hrun as <- <- <-; (split_and!; [|done|by right]).
  - apply Hfin. rewrite dom_insert_L. set_solver.
  - apply (Hfin (Hibernated p1)). set_solver.
Qed.

Lemma reclaimNode_issued now p prov (nc : option N) name :
  issued prov ⊆ issued (reclaimNodeLocked now (p, prov, nc) name).1.2.
Proof.
  unfold reclaimNodeLocked. cbv zeta. destruct nc as [n|]; [|done].
  destruct (DrainNode name n) as [n1 [|]]; [|done]. destruct (DeregisterNode name n1) as [n2 [|]]; [|done].
  match goal with |- context [Reclaim ?a ?b ?c ?d] =>
    pose proof (Reclaim_issued a b c d) as Hi; destruct (Reclaim a b c d) as [pr ok] end. done.
Qed.

Lemma reclaims_issued now names (w : Pool * P * option N) :
  issued w.1.2 ⊆ issued (foldl (try_reclaim now) w names).1.2.
Proof.
  revert w. induction names as [|n names IH]; intros w; [done|]. cbn [foldl].
  etransitivity; [|apply IH]. unfold try_reclaim. destruct (_ && _); [done|].
  destruct w as [[p prov] nc]. apply reclaimNode_issued.
Qed.

Lemma reclaims_ok now names p prov (nc : option N) p' prov' nc' :
  foldl (try_reclaim now) (p, prov, nc) names = (p', prov', nc') → NoDup names →
  (∀ n, n ∈ names → n ∈ Owned p) → Z.of_nat (size (issued prov')) < 2 ^ 60 → pool_ok x (issued prov) p →
  pool_ok x (issued prov') p' ∧ Owned p ∖ list_to_set names ⊆ Owned p'.
Proof.
  revert p prov nc. induction names as [|n names IH]; intros p prov nc; cbn [foldl].
  { intros [= <- <- <-] _ _ _ Hok. split; [done|]. set_solver. }
  intros Hrun [Hn Hnd]%NoDup_cons Hin Hsz Hok.
  unfold try_reclaim at 2 in Hrun. cbn [fst] in Hrun. destruct (_ && _).
  { destruct (IH _ _ _ Hrun Hnd) as [H1 H2]; [intros m Hm; apply Hin; by right|done|done|].
    split; [done|]. set_solver. }
  destruct (reclaimNodeLocked now (p, prov, nc) n) as [[p1 prov1] nc1] eqn:E.
  assert (issued prov1 ⊆ issued prov') as Hi1.
  { pose proof (reclaims_issued now names (p1, prov1, nc1)) as Hi. by rewrite Hrun in Hi. }
  destruct (reclaimNode_ok _ _ _ _ _ _ _ _ E) as (Hok1 & _ & Ho); [apply Hin; left| |done|].
  { eapply Z.le_lt_trans; [|exact Hsz]. by apply inj_le, subseteq_size. }
  destruct (IH _ _ _ Hrun Hnd) as [H1 H2]; [|done|done|].
  { intros m Hm. assert (m ∈ Owned p) by (apply Hin; by right). assert (m ≠ n) by (by intros ->).
    destruct Ho as [-> | ->]; set_solver. }
  split; [done|]. destruct Ho as [Ho|Ho]; rewrite Ho in H2; set_solver.
Qed.

Lemma range_NoDup {A} (m : gmap string A) : NoDup (range m).
Proof. eapply map_order_NoDup, range_order. Qed.

Lemma range_elem {A} (m : gmap string A) k : k ∈ range m ↔ is_Some (m !! k).
Proof. apply map_order_elem, range_order. Qed.

(** *** The life of a pool

    A pool with its provider and its node controller, through the operations of the
    controller; [exact] leaves out the two that make a counter smaller than the number of
    machines: a sweep that finds a machine that has registered since, and the event that a
    node is down. *)
Inductive pstep (exact : bool) : Pool * P * option N → Pool * P * option N → Prop :=
  | ps_settings ev p prov nc :
      pstep exact (p, prov, nc) (ensurePool ev {[ev_Queue ev := p]}, prov, nc)
  | ps_scale cooldown now later ev p prov nc p' prov' :
      scale_out cooldown now later ev p prov = (p', prov') → pstep exact (p, prov, nc) (p', prov', nc)
  | ps_up nodes p prov nc : pstep exact (p, prov, nc) (foldl node_up p nodes, prov, nc)
  | ps_idle now idle p prov nc :
      pstep exact (p, prov, nc) (foldl (idle_timer now idle) p (elements (Owned p)), prov, nc)
  | ps_sync jobs p prov nc p' prov' :
      foldl destroy_booting (p, prov) (orphans jobs p) = (p', prov') → pstep exact (p, prov, nc) (p', prov', nc)
  | ps_sweep now p prov nc p' prov' :
      sweepProvisioningTimeoutLocked now p prov = (p', prov') →
      (exact = true → ∀ vm, vm ∈ timed_out now p → is_Some (Provisioning p !! vm)) →
      pstep exact (p, prov, nc) (p', prov', nc)
  | ps_down ev p prov nc :
      exact = false → pstep exact (p, prov, nc) (dec_running (ensurePool ev {[ev_Queue ev := p]}), prov, nc)
  | ps_reclaim now p prov nc p' prov' nc' :
      foldl (try_reclaim now) (p, prov, nc) (idle_candidates now p) = (p', prov', nc') →
      pstep exact (p, prov, nc) (p', prov', nc')
  | ps_other p prov prov' nc nc' :    (* what the controller does for its other pools *)
      issued prov ⊆ issued prov' → pstep exact (p, prov, nc) (p, prov', nc').

Definition vstep (exact : bool) (w w' : Pool * P * option N) : Prop := pstep exact w w' ∧ valid w'.1.2.

Lemma node_down_ok iss p : x = false → Z.of_nat (size iss) < 2 ^ 60 → pool_ok x iss p → pool_ok x iss (dec_running p).
Proof.
  intros Hx Hsz Hok. destruct (counts_small _ _ Hok Hsz) as [_ Hr]. rewrite dec_running_eq by (unfold_int; lia).
  destruct Hok as [H1 [H2 _] H3 H4 H5 H6]. split; try done. cbn [Running Owned set_field].
  split; [case_match; lia|]. by rewrite Hx.
Qed.

Lemma vstep_ok w w' : vstep x w w' → valid w.1.2 → pool_ok x (issued w.1.2) w.1.1 → pool_ok x (issued w'.1.2) w'.1.1.
Proof.
  intros [Hs Hv'] Hv. pose proof (issued_small _ Hv') as Hsz.
  destruct Hs as [ev p prov nc|cd now later ev p prov nc p' prov' E|ns p prov nc|now idle p prov nc
    |jobs p prov nc p' prov' E|now p prov nc p' prov' E Hin|ev p prov nc Hx|now p prov nc p' prov' nc' E|];
    simpl in *; intros Hok.
  - apply ensurePool_ok. by apply map_Forall_singleton.
  - by eapply scale_out_ok.
  - by apply nodes_up_ok.
  - apply idle_timers_ok; [|done]. intros n. by rewrite elem_of_elements.
  - eapply (destroy_all_ok _ _ _ _ _ E); [apply NoDup_filter, range_NoDup| |done|done].
    intros _ vm [_ Hvm]%list_elem_of_filter. by apply range_elem.
  - eapply (destroy_all_ok _ _ _ _ _ E); [apply NoDup_filter, range_NoDup|done|done|done].
  - apply node_down_ok; [done..|]. apply ensurePool_ok. by apply map_Forall_singleton.
  - eapply (reclaims_ok _ _ _ _ _ _ _ _ E); [apply NoDup_filter, range_NoDup| |done|done].
    intros n [_ Hn%range_elem]%list_elem_of_filter. apply (po_idle _ _ _ Hok). by apply elem_of_dom.
  - by eapply pool_ok_mono.
Qed.

Lemma vsteps_ok w w' : rtc (vstep x) w w' → valid w.1.2 → pool_ok x (issued w.1.2) w.1.1 → pool_ok x (issued w'.1.2) w'.1.1.
Proof.
  induction 1 as [|w w1 w2 Hs _ IH]; [done|]. intros Hvx Hok. apply IH; [apply Hs|by eapply vstep_ok].
Qed.
End pools.

Section pool_theorems.
Context {P N : Type} `{HP : Provider P} `{HL : !ProviderLaws P} `{HN : NodeController N} `{HR : MapRange}.
Implicit Types (prov : P).

(** C36: the pool's counters never exceed the machines they stand for: through any sequence
    of the operations of the controller, with a provider whose new machines have new ids,
    [Inflight] is at most the number of machines that boot, [Running] at most the number of
    machines the pool owns, and no machine is in two of the states booting, up and
    suspended.  As long as no node is reported down and no sweep for machines that boot too
    long finds one that has registered, both counters are exact. *)
Theorem pool_accounting exact ev prov0 (nc0 : option N) p prov nc :
  valid prov0 → rtc (vstep exact) (new_pool ev, prov0, nc0) (p, prov, nc) →
  0 ≤ Inflight p ≤ Z.of_nat (size (Provisioning p)) ∧ 0 ≤ Running p ≤ Z.of_nat (size (Owned p)) ∧
  dom (Provisioning p) ## Owned p ∧ dom (Hibernated p) ## dom (Provisioning p) ∪ Owned p ∧
  (exact = true → Inflight p = Z.of_nat (size (Provisioning p)) ∧ Running p = Z.of_nat (size (Owned p))).
Proof.
  intros Hv Hr. destruct (vsteps_ok _ _ Hr Hv (new_pool_ok _ _)) as [[H1 X1] [H2 X2] H3 H4 _ _].
  exact (conj H1 (conj H2 (conj H3 (conj H4 (λ E, conj (X1 E) (X2 E)))))).
Qed.

(** C37: a capacity event never makes a pool larger than its limit, whatever the shortfall
    and the headroom, also when suspended machines are resumed first.  The pool has a limit
    that is not below its minimum, it is within it before the event, and its counters are at
    most what they stand for, as every sequence of operations leaves them; the provider
    returns at most as many machines as it is asked for. *)
Theorem scale_out_bounded exact cooldown now later ev p prov p' prov' :
  at_most_asked P → valid prov → valid prov' → pool_ok exact (issued prov) p →
  0 ≤ MinNodes p ≤ MaxNodes p → 0 < MaxNodes p ≤ MaxInt64 → Running p + Inflight p ≤ MaxNodes p →
  scale_out cooldown now later ev p prov = (p', prov') →
  Running p' + Inflight p' ≤ MaxNodes p' ∧ MaxNodes p' = MaxNodes p.
Proof.
  intros Hmost Hv Hv' Hok Hmin Hmax Hle Hrun.
  destruct (scale_out_ok _ _ _ _ _ _ _ _ Hrun Hv Hv' Hok) as (_ & Hr & Hm & _ & [[-> _]|[_ Hi]]); [by split|].
  specialize (Hi Hmost). split; [|done]. rewrite Hr, Hm. destruct (counts_small _ _ Hok (issued_small _ Hv)) as [Hi0 Hr0].
  assert (0 ≤ desiredSize p ev ≤ MaxNodes p) as Hd.
  { unfold desiredSize. cbv zeta. set (t := int64 _). clearbody t. replace (0 <? MaxNodes p) with true by lia.
    cbn [andb]. destruct (MaxNodes p <? t) eqn:E1; destruct (_ <? MinNodes p) eqn:E2; bool_to_prop; lia. }
  rewrite (int64_id (Running p + Inflight p)) in Hi by (unfold_int; lia).
  rewrite int64_id in Hi by (unfold_int; lia). lia.
Qed.
End pool_theorems.

(** ** The provider without a cloud keeps the interface *)

Lemma itoa_digits_fmt fuel n acc : 0 < n → itoa_digits fuel n acc = fmt_digits fuel n acc.
Proof.
  revert n acc. induction fuel as [|fuel IH]; intros n acc Hn; [done|]. simpl.
  replace (0 <? n) with true by lia. destruct (n <? 10) eqn:E; bool_to_prop.
  - rewrite Z.div_small by lia. by destruct fuel.
  - apply IH. apply Z.div_str_pos. lia.
Qed.

(** The conversion written by hand is the standard one on every [int] but the smallest,
    of which it keeps the sign only. *)
Theorem itoa_Itoa n : is_int64 n → itoa n = if n =? MinInt64 then "-" else Itoa n.
Proof.
  intros Hn. unfold itoa, Itoa, FormatInt, FormatUint. destruct (n =? 0) eqn:E0.
  { apply Z.eqb_eq in E0 as ->. done. }
  destruct (n =? MinInt64) eqn:Em.
  { apply Z.eqb_eq in Em as ->. by vm_compute. }
  apply Z.eqb_neq in E0, Em. destruct (n <? 0) eqn:El; bool_to_prop.
  - rewrite int64_id by (unfold_int; lia). by rewrite itoa_digits_fmt by lia.
  - apply itoa_digits_fmt. lia.
Qed.

Lemma itoa_Itoa_witness : itoa 2047 = "2047".
Proof. rewrite (itoa_Itoa 2047); [by vm_compute|by_decide]. Defined.

Lemma itoa_pos n : 0 < n ≤ MaxInt64 → itoa n = Itoa n.
Proof.
  intros Hn. unfold itoa, Itoa, FormatInt, FormatUint. replace (n =? 0) with false by lia.
  replace (n <? 0) with false by lia. apply itoa_digits_fmt. lia.
Qed.

Definition stub_id (name : string) (k : Z) : string := name +:+ "-vm-" +:+ itoa k.

Lemma app_str_inj a b c : a +:+ b = a +:+ c → b = c.
Proof. induction a as [|x a IH]; simpl; [done|]. intros [= ?]. auto. Qed.

Lemma stub_id_inj name k l : 0 < k ≤ MaxInt64 → 0 < l ≤ MaxInt64 → stub_id name k = stub_id name l → k = l.
Proof.
  intros Hk Hl. unfold stub_id. intros H%app_str_inj%app_str_inj. rewrite !itoa_pos in H by done.
  by apply Itoa_inj in H; [|unfold_int; lia..].
Qed.

Definition stub_issued (p : StubProvider) : gset string :=
  list_to_set (stub_id (NameValue p) <$> seqZ 2 (nextID p - 1)).

Lemma elem_stub_issued (p : StubProvider) x : x ∈ stub_issued p ↔ ∃ k, x = stub_id (NameValue p) k ∧ 2 ≤ k ≤ nextID p.
Proof.
  unfold stub_issued. rewrite elem_of_list_to_set, list_elem_of_fmap. split.
  - intros (k & -> & Hk%elem_of_seqZ). exists k. split; [done|lia].
  - intros (k & -> & Hk). exists k. split; [done|]. apply elem_of_seqZ. lia.
Qed.

Lemma stub_ensure_spec now req n (p : StubProvider) out :
  1 ≤ nextID p → nextID p + Z.of_nat n ≤ MaxInt64 →
  let '(p', vms) := stub_ensure now req n p out in
  NameValue p' = NameValue p ∧ nextID p' = nextID p + Z.of_nat n ∧
  vm_ID <$> vms = (vm_ID <$> out) ++ (stub_id (NameValue p) <$> seqZ (nextID p + 1) (Z.of_nat n)).
Proof.
  revert p out. induction n as [|n IH]; intros p out Hp Hn; cbn [stub_ensure].
  { split_and!; [done|lia|]. simpl. by rewrite app_nil_r. }
  unfold stub_create. cbv zeta. cbn [NameValue nextID set_field]. rewrite int64_id by (unfold_int; lia).
  set (p1 := _ <| inFlight := _ |>). set (vm := mkVM _ _ _ _ _ _ _ _ _).
  specialize (IH p1 (out ++ [vm])). change (nextID p1) with (nextID p + 1) in IH.
  change (NameValue p1) with (NameValue p) in IH.
  destruct (stub_ensure now req n p1 (out ++ [vm])) as [p' vms]. destruct IH as (H1 & H2 & H3); [lia..|].
  split_and!; [done|lia|]. rewrite H3, fmap_app, <- app_assoc. f_equal.
  rewrite (seqZ_cons (nextID p + 1) (Z.of_nat (S n))) by lia. cbn [fmap list_fmap app]. f_equal.
  f_equal. f_equal; lia.
Qed.

Definition stub_valid (p : StubProvider) : Prop := 1 ≤ nextID p < 2 ^ 60.

Lemma int64_step z k : int64 (int64 z + k) = int64 (z + k).
Proof.
  unfold int64. f_equal.
  replace ((z + 2 ^ 63) mod 2 ^ 64 - 2 ^ 63 + k + 2 ^ 63) with ((z + 2 ^ 63) mod 2 ^ 64 + k) by lia.
  rewrite Zplus_mod_idemp_l. f_equal. lia.
Qed.

Lemma stub_nextID now req n (p : StubProvider) out :
  is_int64 (nextID p) → nextID (stub_ensure now req n p out).1 = int64 (nextID p + Z.of_nat n).
Proof.
  revert p out. induction n as [|n IH]; intros p out Hp; cbn [stub_ensure].
  { rewrite Z.add_0_r. by rewrite int64_id. }
  unfold stub_create. cbv zeta. rewrite IH; cbn [nextID set_field]; [|apply int64_range].
  rewrite int64_step. f_equal. lia.
Qed.

Lemma stub_fresh req (p p' : StubProvider) vms :
  stub_Ensure zero_time req p = (p', Some vms) → stub_valid p → stub_valid p' → 0 ≤ r_Count req ≤ MaxInt64 →
  NoDup (vm_ID <$> vms) ∧
  stub_issued p ∪ list_to_set (vm_ID <$> vms) ⊆ stub_issued p' ∧ list_to_set (vm_ID <$> vms) ## stub_issued p.
Proof.
  unfold stub_Ensure. intros Hrun Hp Hp' Hc. unfold stub_valid in Hp, Hp'.
  set (n := Z.to_nat (r_Count req)) in Hrun. assert (Z.of_nat n = r_Count req) as Hn by lia.
  pose proof (stub_nextID zero_time req n p []) as Hid.
  assert (nextID p + Z.of_nat n ≤ MaxInt64) as Hb.
  { destruct (stub_ensure zero_time req n p []) as [q l]. injection Hrun as <- <-. simpl in Hid.
    specialize (Hid ltac:(unfold_int; lia)). destruct (Z.le_gt_cases (nextID p + Z.of_nat n) MaxInt64); [done|].
    exfalso. rewrite Hid in Hp'. unfold int64 in Hp'.
    rewrite <- (Z.mod_unique (nextID p + Z.of_nat n + 2 ^ 63) (2 ^ 64) 1 (nextID p + Z.of_nat n + 2 ^ 63 - 2 ^ 64)) in Hp';
      unfold_int; lia. }
  pose proof (stub_ensure_spec zero_time req n p [] ltac:(lia) Hb) as Hs.
  destruct (stub_ensure zero_time req n p []) as [q l]. injection Hrun as <- <-. destruct Hs as (H1 & H2 & H3).
  cbn [fmap list_fmap app] in H3. split_and!.
  - rewrite H3. apply (NoDup_fmap_2_strong); [|apply NoDup_seqZ].
    intros x y Hx%elem_of_seqZ Hy%elem_of_seqZ. apply stub_id_inj; lia.
  - intros x [Hx|Hx]%elem_of_union; apply elem_stub_issued; rewrite H1, H2.
    + apply elem_stub_issued in Hx as (k & -> & Hk). exists k. split; [done|lia].
    + rewrite H3, elem_of_list_to_set, list_elem_of_fmap in Hx. destruct Hx as (k & -> & Hk%elem_of_seqZ).
      exists k. split; [done|lia].
  - intros x Hx (k & -> & Hk)%elem_stub_issued. rewrite H3, elem_of_list_to_set, list_elem_of_fmap in Hx.
    destruct Hx as (l' & Heq & Hl%elem_of_seqZ). apply stub_id_inj in Heq; unfold_int; lia.
Qed.

Lemma stub_named (p : StubProvider) : "" ∉ stub_issued p.
Proof. intros (k & Hk & _)%elem_stub_issued. unfold stub_id in Hk. by destruct (NameValue p). Qed.

Lemma stub_small (p : StubProvider) : stub_valid p → Z.of_nat (size (stub_issued p)) < 2 ^ 60.
Proof.
  intros Hp. unfold stub_valid in Hp. unfold stub_issued.
  rewrite size_list_to_set, length_fmap, length_seqZ; [lia|].
  apply NoDup_fmap_2_strong; [|apply NoDup_seqZ].
  intros x y Hx%elem_of_seqZ Hy%elem_of_seqZ. apply stub_id_inj; unfold_int; lia.
Qed.

Lemma stub_never_fails req (p p' : StubProvider) :
  stub_Ensure zero_time req p = (p', None) → stub_issued p ⊆ stub_issued p'.
Proof. unfold stub_Ensure. by destruct (stub_ensure _ _ _ _ _). Qed.

Lemma stub_keeps ref pol d (p : StubProvider) : stub_issued p ⊆ stub_issued (stub_Reclaim ref pol d p).1.
Proof. done. Qed.

#[export] Instance stub_laws : ProviderLaws StubProvider := {
  issued := stub_issued;
  valid := stub_valid;
  issued_named := λ sp _, stub_named sp;
  issued_small := stub_small;
  Ensure_fresh := stub_fresh;
  Ensure_failed := stub_never_fails;
  Reclaim_issued := stub_keeps;
  Resume_issued := λ _ sp, reflexivity (R := (⊆)) (stub_issued sp);
  Resume_valid := λ _ sp Hp, Hp;
}.

Lemma stub_ensure_length now req n (p : StubProvider) out :
  length (stub_ensure now req n p out).2 = (length out + n)%nat.
Proof.
  revert p out. induction n as [|n IH]; intros p out; cbn [stub_ensure]; [simpl; lia|].
  unfold stub_create. cbv zeta. rewrite IH, length_app. simpl. lia.
Qed.

Lemma stub_at_most : at_most_asked StubProvider.
Proof.
  intros req p p' vms. simpl. unfold stub_Ensure. intros Hrun _ _ Hc.
  pose proof (stub_ensure_length zero_time req (Z.to_nat (r_Count req)) p []) as Hl.
  destruct (stub_ensure _ _ _ _ _). simplify_eq/=. lia.
Qed.

(** ** The provider of the Azure cloud keeps it too

    As long as the names still to be drawn are distinct and new. *)

Definition az_names (a : AzureCRP) : list string := (λ r, "ot-node-" +:+ r) <$> omap id (az_draws a).
Record az_valid (a : AzureCRP) : Prop := {
  av_small : Z.of_nat (size (registry a)) < 2 ^ 60;
  av_named : registry a !! "" = None;
  av_once : NoDup (az_names a);
  av_new : ∀ n, n ∈ az_names a → registry a !! n = None;
}.

Lemma az_call_keeps a : registry (az_call a).1 = registry a ∧ az_names (az_call a).1 = az_names a.
Proof. unfold az_call. by destruct (az_answers a). Qed.

Lemma genNodeName_spec a a' name : genNodeName a = (a', name) →
  registry a' = registry a ∧ az_names a = option_list name ++ az_names a'.
Proof.
  unfold genNodeName, az_names. destruct (az_draws a) as [|[r|] draws] eqn:E; intros [= <- <-]; rewrite ?E; done.
Qed.

(** The machines of a call have names drawn for it, and the registry gets them. *)
Lemma az_ensure_spec now req n a out a' vms :
  az_ensure now req n a out = (a', vms) →
  ∃ new, dom (registry a') = dom (registry a) ∪ list_to_set new ∧ (length new ≤ n)%nat ∧
    new ++ az_names a' `sublist_of` az_names a ∧
    match vms with Some vms => vm_ID <$> vms = (vm_ID <$> out) ++ new | None => True end.
Proof.
  revert a out. induction n as [|n IH]; intros a out; cbn [az_ensure].
  { intros [= <- <-]. exists []. split_and!; [set_solver|simpl; lia|done|by rewrite app_nil_r]. }
  destruct (genNodeName a) as [a1 name] eqn:Eg. apply genNodeName_spec in Eg as [Hr Hn].
  destruct name as [vm|]; simpl in Hn.
  2: { intros [= <- <-]. exists []. rewrite Hr, Hn. split_and!; [set_solver|simpl; lia|done|done]. }
  rewrite Hn, <- Hr. destruct (az_call a1) as [a2 nic] eqn:E2. destruct (az_call_keeps a1) as [H2 H2'].
  rewrite E2 in H2, H2'. simpl in H2, H2'. rewrite <- H2, <- H2'.
  assert (∀ a3 out', az_ensure now req n a3 out' = (a', vms) → registry a3 = registry a2 → az_names a3 = az_names a2 →
    out' = out → ∃ new, dom (registry a') = dom (registry a2) ∪ list_to_set new ∧ (length new ≤ S n)%nat ∧
    new ++ az_names a' `sublist_of` vm :: az_names a2 ∧
    match vms with Some vms => vm_ID <$> vms = (vm_ID <$> out) ++ new | None => True end) as Hskip.
  { intros a3 out' Hrun <- <- ->. destruct (IH _ _ Hrun) as (new & H3 & H4 & H5 & H6).
    exists new. split_and!; [done|lia|by apply sublist_cons|done]. }
  destruct nic; [|intros H; by eapply Hskip].
  destruct (az_call a2) as [a3 ok] eqn:E3. destruct (az_call_keeps a2) as [H3 H3'].
  rewrite E3 in H3, H3'. simpl in H3, H3'. destruct ok; [|intros H; by eapply Hskip].
  intros (new & Hd & Hl & Hs & Hv)%IH. exists (vm :: new). cbn [registry set_field] in Hd.
  split_and!; [|simpl; lia| |].
  - rewrite Hd, dom_insert_L, H3. simpl. set_solver.
  - rewrite <- H3'. by apply sublist_skip.
  - destruct vms; [|done]. rewrite Hv, fmap_app, <- app_assoc. done.
Qed.

Lemma az_grows req (a a' : AzureCRP) vms : az_Ensure zero_time req a = (a', vms) → dom (registry a) ⊆ dom (registry a').
Proof. intros (new & -> & _)%az_ensure_spec. set_solver. Qed.

Lemma az_fresh req (a a' : AzureCRP) vms :
  az_Ensure zero_time req a = (a', Some vms) → az_valid a →
  NoDup (vm_ID <$> vms) ∧ dom (registry a) ∪ list_to_set (vm_ID <$> vms) ⊆ dom (registry a') ∧
  list_to_set (vm_ID <$> vms) ## dom (registry a).
Proof.
  intros (new & Hd & _ & Hs & Hv)%az_ensure_spec [_ _ Ho Hn]. simpl in Hv. rewrite Hv.
  assert (NoDup (new ++ az_names a')) as Hnd by (by eapply sublist_NoDup). apply NoDup_app in Hnd as (Hnd & _ & _).
  split_and!; [done|by rewrite Hd|]. intros n Hin Hreg%elem_of_dom. rewrite elem_of_list_to_set in Hin.
  rewrite Hn in Hreg; [by destruct Hreg|]. eapply sublist_subseteq; [exact Hs|]. apply elem_of_app. by left.
Qed.

Lemma az_call_valid a : az_valid a → az_valid (az_call a).1.
Proof. intros [H1 H2 H3 H4]. destruct (az_call_keeps a) as [E1 E2]. split; by rewrite ?E1, ?E2. Qed.

Lemma az_same a : dom (registry a) ⊆ dom (registry (az_call a).1).
Proof. by rewrite (proj1 (az_call_keeps a)). Qed.

Lemma az_unnamed a : az_valid a → "" ∉ dom (registry a).
Proof. intros [_ H _ _]. by apply not_elem_of_dom. Qed.
Lemma az_small a : az_valid a → Z.of_nat (size (dom (registry a))) < 2 ^ 60.
Proof. intros [H _ _ _]. by rewrite size_dom. Qed.

#[export] Instance azure_laws : ProviderLaws AzureCRP := {
  issued := λ a, dom (registry a);
  valid := az_valid;
  issued_named := az_unnamed;
  issued_small := az_small;
  Ensure_fresh := λ req a a' vms H Hv _ _, az_fresh req a a' vms H Hv;
  Ensure_failed := λ req a a' H, az_grows req a a' None H;
  Reclaim_issued := λ _ _ _ a, az_same a;
  Resume_issued := λ _ a, az_same a;
  Resume_valid := λ _ a, az_call_valid a;
}.

Lemma azure_at_most : at_most_asked AzureCRP.
Proof.
  intros req a a' vms (new & _ & Hl & _ & Hv)%az_ensure_spec _ _ Hc. simpl in Hv.
  rewrite <- (length_fmap vm_ID vms), Hv. lia.
Qed.

(** A machine the cloud refuses is skipped and the others are returned; when the generator
    of names fails the machines made before are in the cloud, but the call fails and the
    controller never hears of them. *)
Example azure_partial :
  let req n := ensure_request (new_pool (mkEvent EventCapacity "cloud" "azure" "D2" [] (mkShortfall 0 0 0) 0 0 10 0 0
    "" "" "" 0 "" "" "" "" "" 0 0 0)) (mkEvent "" "" "" "" [] (mkShortfall 0 0 0) 0 0 0 0 0 "" "" "" 0 "" "" "" "" "" 0 0 0) n in
  option_map length (az_Ensure zero_time (req 3) (mkAzure [Some "a"; Some "b"; Some "c"] [true; true; false; true; true] ∅)).2
    = Some 2%nat ∧
  (let '(a, vms) := az_Ensure zero_time (req 2) (mkAzure [Some "a"; None] [true; true] ∅) in
   vms = None ∧ size (registry a) = 1%nat).
Proof. by vm_compute. Qed.

(** ** Evaluations *)

(** A server that drains and deregisters every node. *)
#[export] Instance willing : NodeController unit := {
  DrainNode := λ _ n, (n, true);
  DeregisterNode := λ _ n, (n, true);
}.

Definition cloud_event (nodes min max : Z) : Event :=
  mkEvent EventCapacity "cloud" "stub" "D2" [mkDemand "7.srv" 1 0] (mkShortfall 2 nodes 1) 0 min max
    (60 * Second) 0 "" "" "" 0 "" "" "" "" "" 0 0 0.
Definition stub : StubProvider := NewStubProvider "s".
Definition cec0 : Controller StubProvider unit := mkController stub ∅ [] (30 * Second) (Some tt).
(** Three machines asked for and booted. *)
Definition cec3 : Controller StubProvider unit :=
  RegisterNodesUp "cloud" ["s-vm-2"; "s-vm-3"; "s-vm-4"]
    (handle (time_Unix 1000) (time_Unix 1000) (cloud_event 3 2 10) cec0).

Lemma stub_is_valid : valid stub.
Proof. change (stub_valid stub). by vm_compute. Qed.
(** The provider after a capacity event. *)
Lemma scaled_valid nodes p prov :
  nodes ∈ [3; 300] →
  scale_out (30 * Second) 1 1 (cloud_event nodes 2 10) (new_pool (cloud_event nodes 2 10)) stub = (p, prov) →
  valid prov.
Proof.
  intros Hn E.
  assert (prov = (scale_out (30 * Second) 1 1 (cloud_event nodes 2 10) (new_pool (cloud_event nodes 2 10)) stub).2)
    as -> by (rewrite E; reflexivity).
  clear E.
  revert Hn. intros [->|[->|?%elem_of_nil]%elem_of_cons]%elem_of_cons; [..|done].
  - change (stub_valid (scale_out (30 * Second) 1 1 (cloud_event 3 2 10) (new_pool (cloud_event 3 2 10)) stub).2).
    by vm_compute.
  - change (stub_valid (scale_out (30 * Second) 1 1 (cloud_event 300 2 10) (new_pool (cloud_event 300 2 10)) stub).2).
    by vm_compute.
Qed.

Lemma pool_accounting_witness :
  ∃ p prov, scale_out (30 * Second) 1 1 (cloud_event 3 2 10) (new_pool (cloud_event 3 2 10)) stub = (p, prov) ∧
    Inflight p = Z.of_nat (size (Provisioning p)).
Proof.
  destruct (scale_out (30 * Second) 1 1 (cloud_event 3 2 10) (new_pool (cloud_event 3 2 10)) stub)
    as [p prov] eqn:E. exists p, prov. split; [reflexivity|].
  apply (pool_accounting (N := unit) true (cloud_event 3 2 10) stub None p prov None stub_is_valid); [|reflexivity].
  apply rtc_once. split; [exact (ps_scale _ _ _ _ _ _ _ _ _ _ E)|].
  refine (scaled_valid 3 p prov _ E). left.
Defined.

Lemma scale_out_bounded_witness :
  ∃ p prov, scale_out (30 * Second) 1 1 (cloud_event 300 2 10) (new_pool (cloud_event 300 2 10)) stub = (p, prov) ∧
    Running p + Inflight p ≤ MaxNodes p.
Proof.
  assert (0 ≤ 2 ≤ 10 ∧ 0 < 10 ≤ MaxInt64 ∧ 0 + 0 ≤ 10) as (B1 & B2 & B3) by by_decide.
  destruct (scale_out (30 * Second) 1 1 (cloud_event 300 2 10) (new_pool (cloud_event 300 2 10)) stub)
    as [p prov] eqn:E. exists p, prov. split; [reflexivity|].
  apply (scale_out_bounded true (30 * Second) 1 1 (cloud_event 300 2 10) (new_pool (cloud_event 300 2 10)) stub p prov
    stub_at_most stub_is_valid (scaled_valid 300 p prov ltac:(right; left) E) (new_pool_ok _ _) B1 B2 B3 E).
Defined.

(** The sweep for machines that boot too long destroys machines that are up: a machine
    that registers is taken out of the booting machines but its boot time is kept, so ten
    minutes later it is destroyed, while the pool goes on counting it as running. *)
Theorem sweep_destroys_running :
  let c := reclaimIdle (time_Unix 1601) cec3 in
  option_map Running (pools cec3 !! "cloud") = Some 3 ∧ size (inFlight (provider cec3)) = 3%nat ∧
  option_map Running (pools c !! "cloud") = Some 3 ∧ option_map (size ∘ Owned) (pools c !! "cloud") = Some 3%nat ∧
  inFlight (provider c) = ∅.
Proof. by vm_compute. Qed.

(** The idle sweep compares the size of the pool with its minimum once, before it goes
    over the idle machines: a pool of three with a minimum of two that is idle is reclaimed
    to nothing. *)
Theorem reclaim_below_minimum :
  let c := RegisterNodesIdle (time_Unix 1010) "cloud" ["s-vm-2"; "s-vm-3"; "s-vm-4"] cec3 in
  let c' := reclaimIdle (time_Unix 1080) c in
  option_map Running (pools c !! "cloud") = Some 3 ∧ option_map MinNodes (pools c !! "cloud") = Some 2 ∧
  option_map Running (pools c' !! "cloud") = Some 0.
Proof. by vm_compute. Qed.

(** ** Theorems: which machines are given back *)

Section given_back.
Context {P N : Type} `{HP : Provider P} `{HL : !ProviderLaws P} `{HN : NodeController N} `{HR : MapRange}.
Implicit Types (c : Controller P N).

(** Reconciling with the server's jobs destroys no machine that boots for a job that
    still exists, queued or running, nor one that is bound to no job. *)
Theorem SyncQueuedJobs_keeps queue jobIDs c p vm job :
  pools c !! queue = Some p → pool_ok false (issued (provider c)) p →
  Z.of_nat (size (issued (provider (SyncQueuedJobs queue jobIDs c)))) < 2 ^ 60 →
  Provisioning p !! vm = Some job → job = "" ∨ job ∈ jobIDs →
  ∃ p', pools (SyncQueuedJobs queue jobIDs c) !! queue = Some p' ∧ Provisioning p' !! vm = Some job.
Proof.
  intros Hp Hok. unfold SyncQueuedJobs. rewrite Hp.
  destruct (foldl destroy_booting (p, provider c) (orphans jobIDs p)) as [p' prov'] eqn:E. simpl.
  intros Hsz Hvm Hjob. exists p'. split; [apply lookup_insert_eq|].
  destruct (destroy_all_ok (x := false) _ _ _ _ _ E) as (_ & _ & H); [apply NoDup_filter, range_NoDup| |done|done|].
  { intros _ v [_ Hv]%list_elem_of_filter. by apply range_elem. }
  rewrite H; [done|]. intros [Ho _]%list_elem_of_filter. rewrite Hvm in Ho.
  apply andb_true_iff in Ho as [Ho1 Ho2]. apply negb_true_iff, bool_decide_eq_false in Ho1, Ho2. tauto.
Qed.

(** The idle sweep takes back no machine that is busy or has been idle for less than
    the pool's idle time, whatever the server and the cloud answer. *)
Theorem reclaim_only_idle now c qname p n :
  pools c !! qname = Some p → pool_ok false (issued (provider c)) p →
  Z.of_nat (size (issued (provider (reclaim_pool now c qname)))) < 2 ^ 60 →
  n ∈ Owned p →
  match IdleSince p !! n with Some since => Sub now since < IdleTime p | None => True end →
  ∃ p', pools (reclaim_pool now c qname) !! qname = Some p' ∧ n ∈ Owned p'.
Proof.
  intros Hp Hok. unfold reclaim_pool. rewrite Hp.
  destruct (sweepProvisioningTimeoutLocked now p (provider c)) as [p1 prov1] eqn:E.
  assert (Owned p1 = Owned p ∧ IdleSince p1 = IdleSince p ∧ IdleTime p1 = IdleTime p) as (Ho & Hi & Ht).
  { clear -E. unfold sweepProvisioningTimeoutLocked in E. revert E. generalize (timed_out now p) as l.
    generalize (provider c) as prov. intros prov l. revert p prov. induction l as [|v l IH]; intros q prov; cbn [foldl].
    - by intros [= <- <-].
    - unfold destroy_booting at 2. destruct (Reclaim _ _ _ prov) as [pr [|]]; intros H%IH; [|done].
      destruct H as (-> & -> & ->). unfold dec_inflight. by destruct (0 <? _). }
  destruct ((IdleTime p1 <=? 0) || (Running p1 <=? MinNodes p1)); simpl.
  { intros _ Hn _. exists p1. split; [apply lookup_insert_eq|]. by rewrite Ho. }
  destruct (foldl (try_reclaim now) (p1, prov1, c_nodes c) (idle_candidates now p1)) as [[p2 prov2] nc2] eqn:E2.
  simpl. intros Hsz Hn Hidle. exists p2. split; [apply lookup_insert_eq|].
  assert (issued prov1 ⊆ issued prov2) as Hi2.
  { pose proof (reclaims_issued now (idle_candidates now p1) (p1, prov1, c_nodes c)) as Hs. by rewrite E2 in Hs. }
  assert (Z.of_nat (size (issued prov1)) < 2 ^ 60) as Hsz1.
  { eapply Z.le_lt_trans; [|exact Hsz]. by apply inj_le, subseteq_size. }
  destruct (destroy_all_ok (x := false) _ _ _ _ _ E) as (Hok1 & _); [apply NoDup_filter, range_NoDup|done|done|done|].
  destruct (reclaims_ok (x := false) _ _ _ _ _ _ _ _ E2) as [_ Hsub]; [apply NoDup_filter, range_NoDup| |done|done|].
  { intros m [_ Hm%range_elem]%list_elem_of_filter. apply (po_idle _ _ _ Hok1). by apply elem_of_dom. }
  apply Hsub. rewrite Ho. apply elem_of_difference. split; [done|].
  rewrite elem_of_list_to_set. intros [Hc _]%list_elem_of_filter. rewrite Hi, Ht in Hc.
  destruct (IdleSince p !! n); [|done]. bool_to_prop. lia.
Qed.
End given_back.

(** A pool with one booting machine and one that is up. *)
Definition small_pool : Pool :=
  (new_pool (cloud_event 3 0 10)) <| Provisioning := {["s-vm-2" := "7.srv"]} |> <| Inflight := 1 |>
    <| Owned := {["s-vm-3"]} |> <| Running := 1 |>.
Definition small_cec : Controller StubProvider unit :=
  mkController (mkStub "s" 3 ∅) {["cloud" := small_pool]} [] (30 * Second) (Some tt).

Lemma small_pool_ok : pool_ok false (issued (provider small_cec)) small_pool.
Proof.
  change (issued (provider small_cec)) with (stub_issued (mkStub "s" 3 ∅)).
  split; by_decide.
Qed.

Lemma SyncQueuedJobs_keeps_witness :
  ∃ p', pools (SyncQueuedJobs "cloud" ["7.srv"] small_cec) !! "cloud" = Some p' ∧
        Provisioning p' !! "s-vm-2" = Some "7.srv".
Proof.
  apply (SyncQueuedJobs_keeps "cloud" ["7.srv"] small_cec small_pool "s-vm-2" "7.srv").
  - by vm_compute.
  - apply small_pool_ok.
  - apply issued_small. change (stub_valid (provider (SyncQueuedJobs "cloud" ["7.srv"] small_cec))). by vm_compute.
  - by vm_compute.
  - right. left.
Defined.

Lemma reclaim_only_idle_witness :
  ∃ p', pools (reclaim_pool (time_Unix 1000) small_cec "cloud") !! "cloud" = Some p' ∧ "s-vm-3" ∈ Owned p'.
Proof.
  apply (reclaim_only_idle (time_Unix 1000) small_cec "cloud" small_pool "s-vm-3").
  - by vm_compute.
  - apply small_pool_ok.
  - apply issued_small. change (stub_valid (provider (reclaim_pool (time_Unix 1000) small_cec "cloud"))). by vm_compute.
  - by_decide.
  - by vm_compute.
Defined.
