(* ===== verification/PersistNodes.v ===== *)
(** * The saved node list: saveNodes and recoverNodes in internal/server/server.go

    One line per node: its name, then fields np=, queue=, dynamic=1, groups= and one
    gres.name=count per generic resource. *)

From S2P Require Import Prelude GoStd Node Queue Store Persist PersistConf.

Local Open Scope string_scope.
Local Open Scope list_scope.
Local Open Scope Z_scope.

(** ** Writing *)

Section write.
Context `{MapRange}.

Definition node_extra (n : Node) : string :=
  (if decide (Node.Queue n = "") then "" else " queue=" +:+ Node.Queue n)
  +:+ (if Dynamic n then " dynamic=1" else "")
  +:+ (if decide (Groups n = []) then "" else " groups=" +:+ Join "," (Groups n))
  +:+ foldr (λ k s, " gres." +:+ k +:+ "=" +:+ Itoa (lookup_or 0 k (GRes n)) +:+ s) ""
        (range (GRes n)).
Definition node_line (n : Node) : string :=
  Node.Name n +:+ " np=" +:+ Itoa (NumProcs n) +:+ node_extra n +:+ String newline "".
Definition nodes_text (m : Node.Manager) : string :=
  foldr (λ n s, node_line n +:+ s) "" (AllNodes (range (nodes m)) m).

End write.

(** ** Reading *)

Definition word_np (np : Z) (p : string) : Z :=
  match strip_prefix "np=" p with Some v => Sscanf_d v np | None => np end.
Definition word_queue (qname p : string) : string := default qname (strip_prefix "queue=" p).
Definition word_dynamic (dynamic : bool) (p : string) : bool :=
  if decide (p = "dynamic=1") then true else dynamic.
Definition word_groups (groups : list string) (p : string) : list string :=
  match strip_prefix "groups=" p with Some v => ParseList v | None => groups end.
Definition word_gres (gres : gmap string Z) (p : string) : gmap string Z :=
  match strip_prefix "gres." p with
  | Some kv =>
    match cut "=" kv with
    | Some (k, v) => match ParseInt v with
                     | (n, None) => if 0 <=? n then <[k := n]> gres else gres
                     | _ => gres
                     end
    | None => gres
    end
  | None => gres
  end.

(** What the fields of a line set on the node. *)
Definition set_node (parts : list string) (nn : Node) : Node :=
  let qname := foldl word_queue "" parts in
  let groups := foldl word_groups [] parts in
  let nn := if decide (qname = "") then nn else nn <| Node.Queue := qname |> in
  let nn := nn <| GRes := foldl word_gres (GRes nn) parts |> in
  let nn := if decide (groups = []) then nn else nn <| Groups := groups |> in
  if foldl word_dynamic false parts then nn <| Dynamic := true |> else nn.

Definition recover_node (m : Node.Manager) (line : string) : Node.Manager :=
  let line := TrimSpace line in
  if decide (line = "") then m
  else if HasPrefix line "#" then m
  else match Fields line with
       | [] => m
       | nodeName :: parts =>
         let '(nn, m) := AddNode nodeName (foldl word_np 1 parts) m in
         m <| nodes := <[nodeName := set_node parts nn]> (nodes m) |>
       end.
Definition recoverNodes (text : string) (m : Node.Manager) : Node.Manager :=
  foldl recover_node m (Split newline text).

(** ** What a saved node comes back as *)

Definition saved_node (id : Z) (n : Node) : Node :=
  (NewNode (Node.Name n) id) <| NumProcs := NumProcs n |> <| SlotsTotal := NumProcs n |>
    <| Node.Queue := Node.Queue n |> <| GRes := GRes n |> <| Groups := Groups n |>
    <| Dynamic := Dynamic n |>.

Record savable_node (n : Node) : Prop := {
  sn_name : Node.Name n ≠ "" ∧ no_space (Node.Name n) = true ∧ HasPrefix (Node.Name n) "#" = false;
  sn_np : is_int64 (NumProcs n);
  sn_queue : no_space (Node.Queue n) = true;
  sn_groups : NoDup (Groups n) ∧ Forall clean_item (Groups n);
  sn_gres : map_Forall (λ k v, clean_key k ∧ 0 ≤ v ≤ MaxInt64) (GRes n);
}.

(** ** Lemmas *)

(** A line as the words it is made of. *)
Definition spaced (ws : list string) : string := foldr (λ w s, " " +:+ w +:+ s) "" ws.
Definition word (w : string) : Prop := w ≠ "" ∧ no_space w = true.

Lemma spaced_app a b : spaced (a ++ b) = spaced a +:+ spaced b.
Proof.
  induction a as [|w a IH]; [done|]. cbn [app spaced foldr]. fold (spaced (a ++ b)) (spaced a).
  rewrite IH. by rewrite !app_str_assoc.
Qed.

Lemma fields_spaced ws w : Forall word ws → word w → fields_go (w +:+ spaced ws) "" = w :: ws.
Proof.
  intros Hws. revert w. induction Hws as [|x ws Hx Hws IH]; intros w [Hw Hn].
  - rewrite fields_go_word by done. simpl. by rewrite decide_False.
  - cbn [spaced foldr]. fold (spaced ws). rewrite fields_go_word by done.
    change (" " +:+ x +:+ spaced ws) with (String " " (x +:+ spaced ws)).
    cbn [fields_go]. change (is_space " ") with true. cbv iota.
    change ("" +:+ w) with w. rewrite decide_False by done. rewrite IH by done. done.
Qed.

Lemma spaced_nonempty ws : ws ≠ [] → spaced ws ≠ "".
Proof. by destruct ws. Qed.

Lemma trim_right_spaced ws : Forall word ws → trim_right (spaced ws) = spaced ws.
Proof.
  induction 1 as [|w ws [Hw Hn] Hws IH]; [done|]. cbn [spaced foldr]. fold (spaced ws).
  rewrite <- app_str_assoc. destruct ws as [|w' ws'].
  - cbn [spaced foldr]. rewrite app_str_nil_r. apply trim_right_app; [done|by apply trim_right_no_space].
  - apply trim_right_app; [by apply spaced_nonempty|done].
Qed.

Lemma TrimSpace_words w ws : word w → Forall word ws → TrimSpace (w +:+ spaced ws) = w +:+ spaced ws.
Proof.
  intros [Hw Hn] Hws. unfold TrimSpace.
  assert (trim_left (w +:+ spaced ws) = w +:+ spaced ws) as ->.
  { destruct w as [|c w]; [done|]. unfold no_space in Hn. simpl in Hn. simpl.
    apply andb_true_iff in Hn as [Hc _]. by destruct (is_space c). }
  destruct ws as [|x ws].
  - change (spaced []) with "". rewrite app_str_nil_r. by apply trim_right_no_space.
  - apply trim_right_app; [by apply spaced_nonempty|by apply trim_right_spaced].
Qed.

Lemma has_byte_spaced ws : Forall word ws → has_byte newline (spaced ws) = false.
Proof.
  induction 1 as [|w ws [_ Hn] Hws IH]; [done|]. cbn [spaced foldr]. fold (spaced ws).
  rewrite !has_byte_app. rewrite IH. rewrite (all_bytes_has _ newline w Hn) by done. done.
Qed.

Section roundtrip.
Context `{MapRange}.

Definition gres_word (g : gmap string Z) (k : string) : string :=
  "gres." +:+ k +:+ "=" +:+ Itoa (lookup_or 0 k g).
Definition node_words (n : Node) : list string :=
  ["np=" +:+ Itoa (NumProcs n)]
  ++ (if decide (Node.Queue n = "") then [] else ["queue=" +:+ Node.Queue n])
  ++ (if Dynamic n then ["dynamic=1"] else [])
  ++ (if decide (Groups n = []) then [] else ["groups=" +:+ Join "," (Groups n)])
  ++ (gres_word (GRes n) <$> range (GRes n)).

Lemma spaced_gres g ks :
  foldr (λ k s, " gres." +:+ k +:+ "=" +:+ Itoa (lookup_or 0 k g) +:+ s) "" ks
  = spaced (gres_word g <$> ks).
Proof.
  induction ks as [|k ks IH]; [done|]. cbn [foldr fmap list_fmap spaced]. rewrite IH.
  fold (spaced (gres_word g <$> ks)). unfold gres_word. by rewrite !app_str_assoc.
Qed.

Lemma node_line_words n :
  node_line n = (Node.Name n +:+ spaced (node_words n)) +:+ String newline "".
Proof.
  unfold node_line, node_extra, node_words. rewrite spaced_gres, !spaced_app, !app_str_assoc.
  destruct (decide (Node.Queue n = "")), (decide (Groups n = [])), (Dynamic n); cbn [spaced foldr];
    by rewrite ?app_str_nil_r, ?app_str_assoc.
Qed.

Lemma no_space_app a b : no_space (a +:+ b) = no_space a && no_space b.
Proof. apply all_bytes_app. Qed.

Lemma word_app p v : word p → no_space v = true → word (p +:+ v).
Proof. intros [Hp Hn] Hv. split; [by destruct p|]. by rewrite no_space_app, Hn, Hv. Qed.

Lemma node_words_word n : savable_node n → Forall word (node_words n).
Proof.
  intros [_ _ Hq [_ Hg] Hr]. unfold node_words. repeat apply Forall_app_2.
  - apply Forall_singleton, word_app; [done|apply FormatInt_no_space].
  - case_decide; [constructor|]. by apply Forall_singleton, word_app.
  - destruct (Dynamic n); [|constructor]. by apply Forall_singleton.
  - case_decide; [constructor|]. apply Forall_singleton, word_app; [done|by apply no_space_Join].
  - apply Forall_fmap, Forall_forall. intros k Hk.
    apply (map_order_elem _ _ _ (range_order _)) in Hk as [v Hv]. destruct (Hr k v Hv) as [[Hk _] _].
    unfold compose, gres_word. apply word_app; [done|].
    rewrite !no_space_app, Hk. apply FormatInt_no_space.
Qed.

(** *** The fields, one reader at a time *)

Lemma foldl_skip {A} (f : A → string → A) x ws :
  Forall (λ w, ∀ x, f x w = x) ws → foldl f x ws = x.
Proof. intros Hs. revert x. induction Hs as [|w ws Hw Hs IH]; intros x; simpl; [done|]. by rewrite Hw. Qed.

Lemma skip_gres {A} (f : A → string → A) g ks x :
  (∀ x k, f x ("gres." +:+ k) = x) → foldl f x (gres_word g <$> ks) = x.
Proof.
  intros Hf. apply foldl_skip, Forall_fmap, Forall_forall. intros k _ y. apply Hf.
Qed.

Ltac skip_words := unfold node_words; rewrite !foldl_app;
  rewrite skip_gres by (intros; reflexivity).

Lemma read_np n : is_int64 (NumProcs n) → foldl word_np 1 (node_words n) = NumProcs n.
Proof.
  intros Hi. skip_words.
  assert (foldl word_np 1 ["np=" +:+ Itoa (NumProcs n)] = NumProcs n) as ->
    by (transitivity (Sscanf_d (Itoa (NumProcs n)) 1); [reflexivity|by apply Sscanf_d_Itoa]).
  by repeat case_decide; destruct (Dynamic n).
Qed.

Lemma read_queue n : foldl word_queue "" (node_words n) = Node.Queue n.
Proof. skip_words. by repeat case_decide; destruct (Dynamic n). Qed.

Lemma read_dynamic n : foldl word_dynamic false (node_words n) = Dynamic n.
Proof. skip_words. by repeat case_decide; destruct (Dynamic n). Qed.

Lemma read_groups n :
  NoDup (Groups n) → Forall clean_item (Groups n) → foldl word_groups [] (node_words n) = Groups n.
Proof.
  intros Hn Hc. skip_words. destruct (decide (Groups n = [])) as [->|Hg].
  - by case_decide; destruct (Dynamic n).
  - transitivity (ParseList (Join "," (Groups n))); [|by apply ParseList_Join].
    by case_decide; destruct (Dynamic n).
Qed.

Lemma read_gres_word (g0 : gmap string Z) k g :
  clean_key k → 0 ≤ lookup_or 0 k g0 ≤ MaxInt64 →
  word_gres g (gres_word g0 k) = <[k := lookup_or 0 k g0]> g.
Proof.
  intros [_ Hk] Hv. unfold word_gres, gres_word. rewrite strip_prefix_app.
  change ("=" +:+ Itoa (lookup_or 0 k g0)) with (String "=" (Itoa (lookup_or 0 k g0))).
  rewrite cut_app by done. unfold Itoa. rewrite ParseInt_FormatInt by (unfold_int; lia).
  by replace (0 <=? lookup_or 0 k g0) with true by lia.
Qed.

Lemma read_gres n :
  map_Forall (λ k v, clean_key k ∧ 0 ≤ v ≤ MaxInt64) (GRes n) →
  foldl word_gres ∅ (node_words n) = GRes n.
Proof.
  intros Hr. unfold node_words. rewrite !foldl_app.
  match goal with |- foldl _ ?x _ = _ => assert (x = ∅) as -> by (by repeat case_decide; destruct (Dynamic n)) end.
  transitivity (foldl (λ (g : gmap string Z) k, <[k := lookup_or 0 k (GRes n)]> g) ∅ (range (GRes n)));
    [|apply foldl_insert_keys, range_order].
  assert (∀ k, k ∈ range (GRes n) → clean_key k ∧ 0 ≤ lookup_or 0 k (GRes n) ≤ MaxInt64) as Hk.
  { intros k Hk. apply (map_order_elem _ _ _ (range_order _)) in Hk as [v Hv].
    unfold lookup_or. rewrite Hv. by apply Hr. }
  revert Hk. generalize (range (GRes n)) (∅ : gmap string Z). intros ks.
  induction ks as [|k ks IH]; intros g Hk; [done|]. cbn [fmap list_fmap foldl].
  destruct (Hk k) as [Hc Hv]; [by left|]. rewrite read_gres_word by done.
  apply IH. intros k' ?. apply Hk. by right.
Qed.

Lemma set_node_words n n0 :
  savable_node n → Node.Queue n0 = "" → GRes n0 = ∅ → Groups n0 = [] → Dynamic n0 = false →
  set_node (node_words n) n0
  = n0 <| Node.Queue := Node.Queue n |> <| GRes := GRes n |> <| Groups := Groups n |>
       <| Dynamic := Dynamic n |>.
Proof.
  intros [_ _ _ [Hg Hc] Hr] H1 H2 H3 H4. unfold set_node. cbv zeta.
  rewrite read_queue, read_dynamic, read_groups by done.
  assert (∀ x, Node.Queue x = "" → (if decide (Node.Queue n = "") then x else x <| Node.Queue := Node.Queue n |>)
    = x <| Node.Queue := Node.Queue n |>) as ->.
  { intros x Hx. case_decide as E; [rewrite E, <- Hx; by destruct x|done]. }
  2: exact H1.
  change (GRes (n0 <| Node.Queue := Node.Queue n |>)) with (GRes n0). rewrite H2, read_gres by exact Hr.
  assert (∀ x, Groups x = [] → (if decide (Groups n = []) then x else x <| Groups := Groups n |>)
    = x <| Groups := Groups n |>) as ->.
  { intros x Hx. case_decide as E; [rewrite E, <- Hx; by destruct x|done]. }
  2: exact H3.
  destruct (Dynamic n); [reflexivity|]. rewrite <- H4. by destruct n0.
Qed.

(** One line of the file, for a node that is not in the table. *)
Lemma recover_node_line n m :
  savable_node n → nodes m !! Node.Name n = None →
  recover_node m (Node.Name n +:+ spaced (node_words n))
  = Node.mkManager (<[Node.Name n := saved_node (nextID m) n]> (nodes m)) (byID m ++ [nextID m])
      (int64 (nextID m + 1)).
Proof.
  intros Hs Hm. pose proof Hs as [(Hn1 & Hn2 & Hn3) Hnp _ _ _].
  pose proof (node_words_word n Hs) as Hw. unfold recover_node. cbv zeta.
  rewrite TrimSpace_words by done. rewrite decide_False by by destruct (Node.Name n).
  assert (HasPrefix (Node.Name n +:+ spaced (node_words n)) "#" = false) as ->.
  { destruct (Node.Name n) as [|c s]; [done|]. rewrite HasPrefix_strip in *.
    apply bool_decide_eq_false in Hn3. apply bool_decide_eq_false. intros Hx. apply Hn3.
    simpl in *.
    destruct (decide _); [by eexists|done]. }
  unfold Fields. rewrite fields_spaced by done. rewrite read_np by done.
  unfold AddNode. rewrite Hm. cbv zeta. unfold set_field at 1. cbn [nodes byID nextID].
  rewrite set_node_words by done. rewrite insert_insert_eq. reflexivity.
Qed.

(** The lines of the file, in the order the nodes were written. *)
Lemma recover_lines l m :
  Forall savable_node l → NoDup (Node.Name <$> l) → (∀ n, n ∈ l → nodes m !! Node.Name n = None) →
  0 ≤ nextID m → nextID m + Z.of_nat (length l) < 2 ^ 63 →
  let m' := recoverNodes (foldr (λ n s, node_line n +:+ s) "" l) m in
  (∀ i n, l !! i = Some n → nodes m' !! Node.Name n = Some (saved_node (nextID m + Z.of_nat i) n)) ∧
  (∀ name, name ∉ Node.Name <$> l → nodes m' !! name = nodes m !! name) ∧
  nextID m' = nextID m + Z.of_nat (length l).
Proof.
  unfold recoverNodes. revert m. induction l as [|n l IH]; intros m Hs Hn Hm Hid Hb.
  - cbn [foldr Split foldl]. change (recover_node m "") with m. split_and!; [done|done|simpl; lia].
  - apply Forall_cons in Hs as [Hs1 Hs]. apply NoDup_cons in Hn as [Hni Hn]. cbn [foldr].
    rewrite node_line_words, app_str_assoc.
    change (String newline "" +:+ ?x) with (String newline x).
    rewrite Split_cons.
    2:{ rewrite has_byte_app, has_byte_spaced by by apply node_words_word.
        destruct Hs1 as [(_ & Hsp & _) _ _ _ _]. by rewrite (all_bytes_has _ newline _ Hsp). }
    cbn [foldl length]. rewrite recover_node_line by (try done; apply Hm; left).
    rewrite int64_id by (unfold_int; cbn [length] in Hb; lia).
    set (m1 := Node.mkManager _ _ _).
    destruct (IH m1) as (H1 & H2 & H3); [done|done| |unfold m1; cbn [nextID]; lia|unfold m1; cbn [nextID length] in *; lia|].
    { intros n' Hn'. unfold m1. cbn [nodes]. rewrite lookup_insert_ne.
      - apply Hm. by right.
      - intros E. apply Hni. rewrite E. by apply list_elem_of_fmap_2. }
    split_and!.
    + intros [|i] n' Hl; simpl in Hl.
      * simplify_eq. rewrite H2 by done. unfold m1. cbn [nodes]. rewrite lookup_insert_eq. do 2 f_equal. lia.
      * rewrite (H1 i n' Hl). unfold m1. cbn [nextID]. do 2 f_equal. lia.
    + intros name Hname. cbn [fmap list_fmap] in Hname. apply not_elem_of_cons in Hname as [Hne Hni'].
      rewrite H2 by done. unfold m1. cbn [nodes]. by rewrite lookup_insert_ne.
    + rewrite H3. unfold m1. cbn [nextID]. lia.
Qed.

Lemma AllNodes_names m :
  map_Forall (λ k n, Node.Name n = k) (nodes m) →
  Node.Name <$> AllNodes (range (nodes m)) m = range (nodes m).
Proof.
  intros Hm. unfold AllNodes.
  assert (∀ k, k ∈ range (nodes m) → is_Some (nodes m !! k)) as Hk
    by (intros k; apply (map_order_elem _ _ _ (range_order _))).
  induction (range (nodes m)) as [|k ks IH]; [done|]. cbn [omap list_omap].
  destruct (Hk k) as [n Hn]; [by left|]. rewrite Hn. cbn [fmap list_fmap]. f_equal; [by apply Hm|].
  apply IH. intros k' ?. apply Hk. by right.
Qed.

Lemma AllNodes_elem m n :
  n ∈ AllNodes (range (nodes m)) m → ∃ k, nodes m !! k = Some n.
Proof. unfold AllNodes. rewrite list_elem_of_omap. intros (k & _ & Hk). eauto. Qed.

End roundtrip.

(** ** Theorem *)

(** Saving the node list and restarting gives back the nodes: the table after
    [recoverNodes] has the nodes that were saved and no others, each with its processors,
    queue, groups, generic resources and whether it was registered dynamically, all slots
    free and the state down until it reports; the nodes get the identifiers 0, 1, ... in
    the order they were written. *)
Theorem recoverNodes_saved `{MapRange} (m : Node.Manager) :
  map_Forall (λ k n, Node.Name n = k ∧ savable_node n) (nodes m) →
  Z.of_nat (size (nodes m)) < 2 ^ 63 →
  let m' := recoverNodes (nodes_text m) Node.NewManager in
  dom (nodes m') = dom (nodes m) ∧
  ∀ i n, AllNodes (range (nodes m)) m !! i = Some n →
    nodes m' !! Node.Name n = Some (saved_node (Z.of_nat i) n).
Proof.
  intros Hm Hsz m'. unfold m', nodes_text.
  assert (map_Forall (λ k n, Node.Name n = k) (nodes m)) as Hk by (intros k n Hn; by apply Hm).
  pose proof (AllNodes_names m Hk) as Hnames. set (l := AllNodes (range (nodes m)) m) in *.
  destruct (recover_lines l Node.NewManager) as (H1 & H2 & _).
  - apply Forall_forall. intros n [k Hn]%AllNodes_elem. by apply (Hm k n Hn).
  - rewrite Hnames. eapply map_order_NoDup, range_order.
  - done.
  - done.
  - assert (length l = size (nodes m)) as ->; [|done].
    rewrite <- (length_fmap Node.Name), Hnames, (Permutation_length (range_order (nodes m))).
    rewrite length_fmap. apply length_map_to_list.
  - split; [|exact H1]. apply set_eq. intros k. rewrite !elem_of_dom.
    rewrite <- (map_order_elem _ _ k (range_order (nodes m))), <- Hnames. split.
    + intros Hs. destruct (decide (k ∈ Node.Name <$> l)) as [|Hni]; [done|].
      rewrite H2 in Hs by done. by destruct Hs.
    + intros (n & -> & Hn)%list_elem_of_fmap. apply list_elem_of_lookup in Hn as [i Hi].
      rewrite (H1 i n Hi). by eexists.
Qed.

Definition sample_node : Node :=
  (NewNode "n1" 4) <| NumProcs := 8 |> <| Groups := ["gpu"; "fast"] |>
    <| GRes := {["lic" := 3]} |> <| Node.Queue := "batch" |>.
Definition sample_nodes : Node.Manager := Node.mkManager {["n1" := sample_node]} [4] 5.

Lemma recoverNodes_saved_witness :
  let m' := recoverNodes (nodes_text sample_nodes) Node.NewManager in
  dom (nodes m') = dom (nodes sample_nodes) ∧
  ∀ i n, AllNodes (range (nodes sample_nodes)) sample_nodes !! i = Some n →
    nodes m' !! Node.Name n = Some (saved_node (Z.of_nat i) n).
Proof.
  apply recoverNodes_saved; [|by vm_compute].
  intros k n. change (nodes sample_nodes) with ({["n1" := sample_node]} : gmap string Node).
  intros [<- <-]%lookup_singleton_Some. split; [reflexivity|].
  split; [by vm_compute|by_decide|by vm_compute|by_decide|].
  intros k v. change (GRes sample_node) with ({["lic" := 3]} : gmap string Z).
  intros [<- <-]%lookup_singleton_Some. split; [by_decide|by vm_compute].
Defined.

(** A node that was taken offline is no longer offline after a restart, and its
    properties and note are gone. *)
Example offline_lost :
  let n := (NewNode "n1" 0) <| Node.State := StateOffline |> <| Properties := ["bigmem"] |> <| Note := "broken fan" |> in
  let m := Node.mkManager {["n1" := n]} [0] 1 in
  (λ n, (has_flag (Node.State n) StateOffline, Properties n, Note n))
    <$> nodes (recoverNodes (nodes_text m) Node.NewManager) !! "n1" = Some (false, [], "").
Proof. by vm_compute. Qed.
