(* ===== verification/Recover.v ===== *)
(** * Restarting the server: saveState, recoverJobs and recoverState in
    internal/server/server.go

    The tables of the server are written to the file store and read from it.  The server
    database (the configuration) has a file of its own and is not part of this. *)

From S2P Require Import Prelude GoStd Job JobManager Node Queue Route ServerState Submit Exec.
From S2P Require Import Store Persist PersistConf PersistNodes.

Local Open Scope string_scope.
Local Open Scope list_scope.
Local Open Scope Z_scope.

(** ** Reading the jobs *)

(** [AddJob] and [IncrJobCount] of the job's queue, when there is one. *)
Definition enter (j : Job) (s : Server) : Server :=
  upd_queue (Job.Queue j) (IncrJobCount (Job.State j)) (upd_mgr (AddJob j) s).

(** The body of the loop of [recoverJobs]; completed jobs take the same steps as the
    others.  [script] is what [LoadJobScript] returns. *)
Definition recover_job (now : Time) (data : string) (script : option string) (s : Server) (id : string) :
    Server :=
  let j := deserializeJob now data id (ServerName (cfg s)) in
  let j := match script with Some sc => j <| Script := sc |> | None => j end in
  enter j s.

Definition recoverJobs `{MapRange} (now : Time) (fs : FileStore) (s : Server) : Server :=
  let files := LoadJobs fs in
  foldl (λ s id, recover_job now (lookup_or "" id files) (LoadJobScript id fs) s id) s (range files).

(** [recoverState] without the server database. *)
Definition recover_tables `{MapRange} (env : Env) (fs : FileStore) (s : Server) : Server :=
  let s := s <| queueMgr := recoverQueues (LoadQueues fs) (queueMgr s) |> in
  let s := match LoadNodes fs with
           | Some data => s <| nodeMgr := recoverNodes data (nodeMgr s) |>
           | None => s
           end in
  restoreRecoveredRunningJobs env (recoverJobs (now env) fs s).

(** [saveState] without the server database. *)
Definition save_tables `{MapRange} (s : Server) (fs : FileStore) : FileStore :=
  let fs := foldl (λ fs q, (SaveQueue NoFault (Queue.Name q) (queue_text q) fs).2) fs
              (AllQueues (range (queueMgr s)) (queueMgr s)) in
  let fs := (SaveNodes NoFault (nodes_text (nodeMgr s)) fs).2 in
  foldl (λ fs j, (SaveJob NoFault (Job.ID j) (serializeJob j) fs).2) fs
    (AllJobs (range (jobs (jobMgr s))) (jobMgr s)).

(** ** The counters of a queue and the job table *)

(** The counters of every queue agree with the job table. *)
Definition queues_exact (s : Server) : Prop :=
  ∀ name q, queueMgr s !! name = Some q →
    TotalJobs q = count_if (λ j, bool_decide (Job.Queue j = name)) (the_jobs s) ∧
    length (StateJobs q) = 7%nat ∧
    ∀ st, 0 ≤ st < 7 → jobs_in q st = CountByStateInQueue name [st] (jobMgr s).

Lemma enter_count (P : Job → bool) j s :
  the_jobs s !! Job.ID j = None →
  count_if P (the_jobs (enter j s)) = (if P j then 1 else 0) + count_if P (the_jobs s).
Proof.
  intros Hnew. unfold enter. rewrite jobs_upd_queue, jobs_upd_mgr, AddJob_jobs. by rewrite count_if_insert.
Qed.

Lemma enter_state_count name st j s :
  the_jobs s !! Job.ID j = None →
  CountByStateInQueue name [st] (jobMgr (enter j s))
  = (if bool_decide (Job.Queue j = name) && (Job.State j =? st) then 1 else 0)
    + CountByStateInQueue name [st] (jobMgr s).
Proof.
  intros Hnew. etransitivity; [by apply (enter_count (λ j, bool_decide (Job.Queue j = name) && bool_decide (Job.State j ∈ [st])))|].
  unfold CountByStateInQueue, the_jobs. f_equal.
  destruct (bool_decide (Job.Queue j = name)); [cbn [andb]|done].
  rewrite (bool_decide_ext _ (Job.State j = st)) by by rewrite list_elem_of_singleton.
  destruct (Job.State j =? st) eqn:E; bool_to_prop; [by rewrite bool_decide_true|by rewrite bool_decide_false].
Qed.

Lemma enter_exact j s :
  queues_exact s → the_jobs s !! Job.ID j = None → Z.of_nat (size (the_jobs s)) < 2 ^ 60 →
  queues_exact (enter j s).
Proof.
  intros Hq Hnew Hsz name q Hlk.
  assert (∀ P, 0 ≤ count_if P (the_jobs s) < 2 ^ 62) as Hb.
  { intros P. pose proof (count_if_nonneg P (the_jobs s)). pose proof (count_if_size P (the_jobs s)). lia. }
  destruct (decide (Job.Queue j = name)) as [<-|Hne].
  - unfold enter in Hlk. rewrite lookup_upd_queue in Hlk.
    apply fmap_Some in Hlk as (q0 & Hq0 & ->). destruct (Hq _ _ Hq0) as (Ht & Hl & Hs).
    unfold IncrJobCount. cbv zeta. set (q1 := q0 <| TotalJobs := _ |>).
    change (length (StateJobs q1) = 7%nat) in Hl. split_and!.
    + transitivity (TotalJobs q1); [by destruct (in_states q1 _)|].
      rewrite enter_count, bool_decide_true by done. unfold q1, set_field. cbn [TotalJobs]. rewrite Ht.
      rewrite int64_id; [lia|].
      specialize (Hb (λ j0, bool_decide (Job.Queue j0 = Job.Queue j))). unfold_int. lia.
    + apply (if_len _ _ _ (λ q, length (StateJobs q))); [by rewrite bump_len|done].
    + intros st Hst. specialize (Hs st Hst). change (jobs_in q0 st) with (jobs_in q1 st) in Hs.
      rewrite bump_up; [|done|done|rewrite Hs; apply Hb].
      rewrite Hs, enter_state_count, bool_decide_true by done. cbn [andb]. lia.
  - unfold enter in Hlk. rewrite lookup_upd_queue_ne in Hlk by done.
    destruct (Hq _ _ Hlk) as (Ht & Hl & Hs). rewrite enter_count, bool_decide_false by done.
    split_and!; [lia|done|]. intros st Hst.
    by rewrite enter_state_count, (Hs st Hst), (bool_decide_false (Job.Queue j = name)).
Qed.

(** The queues of two states differ in their counters only. *)
Definition but_counts (q : Queue) : Queue := q <| TotalJobs := 0 |> <| StateJobs := [] |>.
Definition same_queues (s s' : Server) : Prop :=
  ∀ name, but_counts <$> queueMgr s' !! name = but_counts <$> queueMgr s !! name.

Lemma enter_same_queues j s : same_queues s (enter j s).
Proof.
  intros name. unfold enter. destruct (decide (Job.Queue j = name)) as [<-|Hne].
  - rewrite lookup_upd_queue. change (queueMgr (upd_mgr (AddJob j) s)) with (queueMgr s).
    destruct (queueMgr s !! Job.Queue j) as [q|]; [|done]. simpl. f_equal.
    unfold IncrJobCount. cbv zeta. by destruct (in_states _ _).
  - by rewrite lookup_upd_queue_ne.
Qed.

(** *** The jobs of the store *)

(** The job that comes back for [j]. *)
Definition recovered (now : Time) (server : string) (script : option string) (j : Job) : Job :=
  match script with
  | Some sc => (saved_job now server j) <| Script := sc |>
  | None => saved_job now server j
  end.

Lemma recovered_ID now server script j : Job.ID (recovered now server script j) = Job.ID j.
Proof. by destruct script. Qed.

Lemma recover_job_enter now script s j :
  savable j →
  recover_job now (serializeJob j) script s (Job.ID j)
  = enter (recovered now (ServerName (cfg s)) script j) s.
Proof. intros Hj. unfold recover_job. rewrite read_kv_job by done. by destruct script. Qed.

Section recover.
Context (now : Time) (server : string) (js : gmap string Job) (scripts : string → option string).
Context (Hjs : map_Forall (λ id j, Job.ID j = id ∧ savable j) js).

Definition recovered_jobs (ks : list string) : gmap string Job :=
  list_to_map ((λ k, (k, recovered now server (scripts k) (default zero_job (js !! k)))) <$> ks).

Lemma recovered_jobs_cons k ks :
  recovered_jobs (k :: ks)
  = <[k := recovered now server (scripts k) (default zero_job (js !! k))]> (recovered_jobs ks).
Proof. done. Qed.

Lemma recovered_jobs_None k ks : k ∉ ks → recovered_jobs ks !! k = None.
Proof.
  intros Hk. induction ks as [|k' ks IH]; [done|]. apply not_elem_of_cons in Hk as [Hne Hk].
  rewrite recovered_jobs_cons, lookup_insert_ne by done. by apply IH.
Qed.

Lemma recovered_jobs_Some k ks :
  k ∈ ks → recovered_jobs ks !! k = Some (recovered now server (scripts k) (default zero_job (js !! k))).
Proof.
  induction ks as [|k' ks IH]; [by intros ?%elem_of_nil|]. rewrite recovered_jobs_cons.
  destruct (decide (k = k')) as [->|Hne]; [by rewrite lookup_insert_eq|].
  rewrite lookup_insert_ne by done. intros [?|?]%elem_of_cons; [done|by apply IH].
Qed.

Lemma recover_fold ks s :
  (∀ k, k ∈ ks → is_Some (js !! k)) → NoDup ks → ServerName (cfg s) = server →
  (∀ k, k ∈ ks → the_jobs s !! k = None) →
  Z.of_nat (size (the_jobs s)) + Z.of_nat (length ks) < 2 ^ 60 →
  mgr_ok (jobMgr s) → queues_exact s →
  let s' := foldl (λ s id, recover_job now (lookup_or "" id (serializeJob <$> js)) (scripts id) s id) s ks in
  the_jobs s' = recovered_jobs ks ∪ the_jobs s ∧ mgr_ok (jobMgr s') ∧ queues_exact s' ∧
  the_nodes s' = the_nodes s ∧ same_queues s s'.
Proof.
  revert s. induction ks as [|k ks IH]; intros s Hin Hnd Hcfg Hfresh Hsz Hm Hq; cbn [foldl].
  { split_and!; try done. unfold recovered_jobs. simpl. by rewrite (left_id_L ∅ (∪)). }
  apply NoDup_cons in Hnd as [Hnk Hnd]. destruct (Hin k) as [j Hj]; [by left|].
  destruct (Hjs k j Hj) as [Hid Hs]. assert (the_jobs s !! k = None) as Hk by (apply Hfresh; by left).
  assert (lookup_or "" k (serializeJob <$> js) = serializeJob j) as ->
    by (unfold lookup_or; rewrite lookup_fmap, Hj; done).
  replace (recover_job now (serializeJob j) (scripts k) s k)
    with (enter (recovered now server (scripts k) j) s)
    by (rewrite <- Hcfg; rewrite <- recover_job_enter by done; by rewrite Hid).
  set (j' := recovered _ _ _ j). assert (Job.ID j' = k) as Hid' by (unfold j'; by rewrite recovered_ID).
  assert (the_jobs (enter j' s) = <[k := j']> (the_jobs s)) as Hjobs.
  { unfold enter. rewrite jobs_upd_queue, jobs_upd_mgr, AddJob_jobs. by rewrite Hid'. }
  cbn [length] in Hsz.
  destruct (IH (enter j' s)) as (H1 & H2 & H3 & H4 & H5).
  - intros k' ?. apply Hin. by right.
  - done.
  - done.
  - intros k' Hk'. rewrite Hjobs, lookup_insert_ne by (intros ->; done). apply Hfresh. by right.
  - rewrite Hjobs, map_size_insert_None by done. lia.
  - apply AddJob_ok; [done|by rewrite Hid'|unfold the_jobs in Hsz; lia].
  - apply enter_exact; [done|by rewrite Hid'|lia].
  - split_and!; [|done|done|done|].
    + rewrite H1, Hjobs, recovered_jobs_cons, Hj. cbn [default]. fold j'.
      rewrite <- insert_union_r by by apply recovered_jobs_None. by rewrite insert_union_l.
    + intros name. rewrite H5. apply enter_same_queues.
Qed.

End recover.

(** *** The slots of recovered jobs *)

(** The slots a running job takes on each of its nodes. *)
Definition ppn_of (js : gmap string Job) (id : string) : Z :=
  match js !! id with
  | Some j => let ppn := (jobNodeRequest j).2 in if ppn <? 1 then 1 else ppn
  | None => 0
  end.
Definition runs_on (js : gmap string Job) (name id : string) : bool :=
  match js !! id with
  | Some j => (Job.State j =? StateRunning) && negb (bool_decide (Job.ExecHost j = ""))
              && bool_decide (name ∈ exec_nodes (Job.ExecHost j))
  | None => false
  end.

Definition assign_once (id : string) (ppn : Z) (n : Node) : Node :=
  if decide (id ∈ AssignedJobs n) then n else AssignJob id ppn n.

Lemma AssignJob_jobs id k n : AssignedJobs (AssignJob id k n) = AssignedJobs n ++ [id].
Proof. unfold AssignJob. cbv zeta. by destruct (_ <=? _). Qed.
Lemma AssignJob_slots id k n : SlotsUsed (AssignJob id k n) = int64 (SlotsUsed n + k).
Proof. unfold AssignJob. cbv zeta. by destruct (_ <=? _). Qed.

Lemma assign_once_idemp id k n : assign_once id k (assign_once id k n) = assign_once id k n.
Proof.
  unfold assign_once at 2 3. case_decide as Hin; unfold assign_once; [by rewrite decide_True|].
  rewrite decide_True; [done|]. rewrite AssignJob_jobs. set_solver.
Qed.

Lemma restore_on_lookup j k s x name :
  the_nodes (restore_on j k s x) !! name
  = (if decide (name = x) then assign_once (Job.ID j) k else id) <$> the_nodes s !! name.
Proof.
  unfold restore_on, get_node, GetNode. fold (the_nodes s). destruct (the_nodes s !! x) as [n|] eqn:E.
  - case_decide as Hin; case_decide as Hx; subst.
    + rewrite E. simpl. unfold assign_once. by rewrite decide_True.
    + by rewrite option_fmap_id.
    + unfold assign_on. rewrite nodes_upd_node, lookup_alter_eq, E. simpl. unfold assign_once. by rewrite decide_False.
    + unfold assign_on. rewrite nodes_upd_node, lookup_alter_ne by done. by rewrite option_fmap_id.
  - case_decide; subst; [by rewrite E|by rewrite option_fmap_id].
Qed.

Lemma restore_on_fold j k ns s name :
  the_nodes (foldl (restore_on j k) s ns) !! name
  = (if decide (name ∈ ns) then assign_once (Job.ID j) k else id) <$> the_nodes s !! name.
Proof.
  revert s. induction ns as [|x ns IH]; intros s; cbn [foldl].
  - rewrite decide_False by apply not_elem_of_nil. by rewrite option_fmap_id.
  - rewrite IH, restore_on_lookup. destruct (the_nodes s !! name) as [n|]; [|done]. simpl. f_equal.
    destruct (decide (name ∈ ns)) as [H1|H1], (decide (name = x)) as [H2|H2].
    + rewrite decide_True by by right. apply assign_once_idemp.
    + rewrite decide_True by by right. done.
    + subst. rewrite decide_True by by left. done.
    + rewrite decide_False; [done|]. by intros [?|?]%elem_of_cons.
Qed.

Lemma restore_on_jobs j k ns s : the_jobs (foldl (restore_on j k) s ns) = the_jobs s.
Proof.
  revert s. induction ns as [|x ns IH]; intros s; cbn [foldl]; [done|]. rewrite IH.
  unfold restore_on. destruct (get_node x s); [|done]. by case_decide.
Qed.

Lemma restore_on_queues j k ns s : queueMgr (foldl (restore_on j k) s ns) = queueMgr s.
Proof.
  revert s. induction ns as [|x ns IH]; intros s; cbn [foldl]; [done|]. rewrite IH.
  unfold restore_on. destruct (get_node x s); [|done]. by case_decide.
Qed.

(** What a pass over a job does to one node. *)
Definition restore_step (js : gmap string Job) (name : string) (n : Node) (id : string) : Node :=
  if runs_on js name id then assign_once id (ppn_of js id) n else n.

Lemma restore_job_lookup s id name :
  (∀ k j, the_jobs s !! k = Some j → Job.ID j = k) →
  the_nodes (restore_job s id) !! name
  = (λ n, restore_step (the_jobs s) name n id) <$> the_nodes s !! name ∧
  the_jobs (restore_job s id) = the_jobs s ∧ queueMgr (restore_job s id) = queueMgr s.
Proof.
  intros Hids. unfold restore_job, restore_step, runs_on, ppn_of.
  destruct (the_jobs s !! id) as [j|] eqn:E; [|by rewrite option_fmap_id].
  destruct (Job.State j =? StateRunning); [|by rewrite option_fmap_id].
  destruct (bool_decide (Job.ExecHost j = "")); cbn [negb orb andb]; [by rewrite option_fmap_id|].
  rewrite restore_on_fold, restore_on_jobs, restore_on_queues. split; [|done].
  rewrite (Hids id j E). destruct (the_nodes s !! name) as [n|]; [|done]. simpl. f_equal.
  case_decide; [by rewrite bool_decide_true|by rewrite bool_decide_false].
Qed.

Lemma restore_fold ks s name :
  (∀ k j, the_jobs s !! k = Some j → Job.ID j = k) →
  the_nodes (foldl restore_job s ks) !! name
  = (λ n, foldl (restore_step (the_jobs s) name) n ks) <$> the_nodes s !! name ∧
  the_jobs (foldl restore_job s ks) = the_jobs s ∧ queueMgr (foldl restore_job s ks) = queueMgr s.
Proof.
  revert s. induction ks as [|k ks IH]; intros s Hids; cbn [foldl]; [by rewrite option_fmap_id|].
  destruct (restore_job_lookup s k name Hids) as (H1 & H2 & H3).
  destruct (IH (restore_job s k)) as (H4 & H5 & H6); [by rewrite H2|].
  rewrite H4, H5, H6, H1, H2. split; [|done]. by rewrite <- option_fmap_compose.
Qed.

Lemma restore_steps js name ks n :
  NoDup ks → (∀ id, id ∈ ks → id ∉ AssignedJobs n) → is_int64 (SlotsUsed n) →
  let n' := foldl (restore_step js name) n ks in
  let new := filter (λ id, runs_on js name id = true) ks in
  AssignedJobs n' = AssignedJobs n ++ new ∧ SlotsUsed n' = int64 (SlotsUsed n + sum_Z (ppn_of js) new).
Proof.
  revert n. induction ks as [|k ks IH]; intros n Hnd Hni Hi; cbv zeta; cbn [foldl].
  { rewrite filter_nil, app_nil_r. simpl. by rewrite Z.add_0_r, int64_id. }
  apply NoDup_cons in Hnd as [Hk Hnd]. unfold restore_step at 2 4. rewrite filter_cons.
  destruct (runs_on js name k) eqn:E.
  - rewrite decide_True by done. unfold assign_once. rewrite decide_False by (apply Hni; by left).
    destruct (IH (AssignJob k (ppn_of js k) n)) as [H1 H2]; [done| | |].
    + intros id Hid. rewrite AssignJob_jobs. intros [Hin| ->%list_elem_of_singleton]%elem_of_app; [|done].
      revert Hin. apply Hni. by right.
    + rewrite AssignJob_slots. apply int64_range.
    + rewrite H1, H2, AssignJob_jobs, AssignJob_slots, int64_add_l. cbn [sum_Z foldr].
      fold (sum_Z (ppn_of js) (filter (λ id, runs_on js name id = true) ks)).
      split; [by rewrite <- app_assoc|]. f_equal. lia.
  - rewrite decide_False by done. apply IH; [done| |done]. intros id ?. apply Hni. by right.
Qed.

(** ** Theorems *)

(** Recovering the jobs of the store gives the job table that was saved: one job per
    saved record, as the text holds it and with its script, and nothing else; and the
    counters agree with it: the number of jobs per state of the job manager, and for every
    queue the number of its jobs in total and per state.  Nothing else changes. *)
Theorem recoverJobs_exact `{MapRange} now fs (js : gmap string Job) s :
  LoadJobs fs = serializeJob <$> js →
  map_Forall (λ id j, Job.ID j = id ∧ savable j) js → Z.of_nat (size js) < 2 ^ 60 →
  the_jobs s = ∅ → mgr_ok (jobMgr s) → queues_exact s →
  let s' := recoverJobs now fs s in
  (∀ id, the_jobs s' !! id = recovered now (ServerName (cfg s)) (LoadJobScript id fs) <$> js !! id) ∧
  mgr_ok (jobMgr s') ∧ queues_exact s' ∧ same_queues s s' ∧ the_nodes s' = the_nodes s.
Proof.
  intros Hl Hjs Hsz He Hm Hq. unfold recoverJobs. rewrite Hl.
  pose proof (range_order (serializeJob <$> js)) as Ho.
  pose proof (λ k, map_order_elem _ _ k Ho) as Hin.
  destruct (recover_fold now (ServerName (cfg s)) js (λ id, LoadJobScript id fs) Hjs
              (range (serializeJob <$> js)) s) as (H1 & H2 & H3 & H4 & H5).
  - intros k Hk%Hin. by rewrite lookup_fmap, fmap_is_Some in Hk.
  - by eapply map_order_NoDup.
  - done.
  - intros k _. by rewrite He.
  - rewrite He, (Permutation_length Ho), length_fmap, length_map_to_list, map_size_fmap. simpl.
    rewrite map_size_empty. lia.
  - done.
  - done.
  - split; [|done]. intros id. rewrite H1, He, (right_id_L ∅ (∪)).
    destruct (js !! id) as [j|] eqn:E.
    + rewrite recovered_jobs_Some; [by rewrite E|]. apply Hin. rewrite lookup_fmap, E. by eexists.
    + apply recovered_jobs_None. rewrite Hin, lookup_fmap, E. by intros [].
Qed.

(** After a restart every node carries exactly the recovered jobs that run on it, and
    its used slots are the sum of what those jobs requested per node, so a running job's
    processors are not given to another: [restoreRecoveredRunningJobs] on nodes that come
    back empty. *)
Theorem restore_exact env s name n' :
  map_order (the_jobs s) (job_order env) → (∀ k j, the_jobs s !! k = Some j → Job.ID j = k) →
  map_Forall (λ _ n, AssignedJobs n = [] ∧ SlotsUsed n = 0) (the_nodes s) →
  let s' := restoreRecoveredRunningJobs env s in
  the_nodes s' !! name = Some n' →
  AssignedJobs n' = filter (λ id, runs_on (the_jobs s) name id = true) (job_order env) ∧
  SlotsUsed n' = int64 (sum_Z (ppn_of (the_jobs s)) (AssignedJobs n')) ∧
  the_jobs s' = the_jobs s ∧ queueMgr s' = queueMgr s.
Proof.
  intros Ho Hids Hn s' Hl. unfold s', restoreRecoveredRunningJobs in *.
  destruct (restore_fold (job_order env) s name Hids) as (H1 & H2 & H3). rewrite H1 in Hl.
  apply fmap_Some in Hl as (n & Hnn & ->). destruct (Hn name n Hnn) as [Ha Hs].
  destruct (restore_steps (the_jobs s) name (job_order env) n) as [H4 H5].
  - by eapply map_order_NoDup.
  - intros id _. rewrite Ha. apply not_elem_of_nil.
  - rewrite Hs. by_decide.
  - rewrite H5, H4, Ha, Hs. split_and!; [done|done|done|done].
Qed.

(** *** Witnesses *)

Definition job_store : FileStore :=
  mkFileStore ∅ ∅ {["7.host.JB" := serializeJob sample_job; "7.host.SC" := "sleep 60"]}.
Definition fresh_server : Server := test_server (NewQueue "batch" TypeExecution).

Lemma fresh_exact : queues_exact fresh_server.
Proof.
  intros name q. change (queueMgr fresh_server) with ({["batch" := NewQueue "batch" TypeExecution]} : gmap string Queue).
  intros [<- <-]%lookup_singleton_Some. split_and!; [by vm_compute|done|].
  intros st Hst. unfold jobs_in, CountByStateInQueue. cbn [NewQueue StateJobs set_field].
  change (jobs (jobMgr fresh_server)) with (∅ : gmap string Job). rewrite count_if_empty.
  change (StateJobs _) with (replicate 7 0). rewrite lookup_replicate_2 by lia. done.
Qed.

Lemma recoverJobs_exact_witness :
  let s' := recoverJobs 0 job_store fresh_server in
  (∀ id, the_jobs s' !! id
     = recovered 0 "srv" (LoadJobScript id job_store) <$> ({["7.host" := sample_job]} : gmap string Job) !! id) ∧
  mgr_ok (jobMgr s') ∧ queues_exact s' ∧ same_queues fresh_server s' ∧ the_nodes s' = the_nodes fresh_server.
Proof.
  apply (recoverJobs_exact 0 job_store {["7.host" := sample_job]} fresh_server).
  - by vm_compute.
  - intros id j [<- <-]%lookup_singleton_Some. split; [reflexivity|apply sample_job_savable].
  - by vm_compute.
  - reflexivity.
  - apply NewManager_ok.
  - apply fresh_exact.
Defined.

Definition running_server : Server :=
  fresh_server <| jobMgr := AddJob sample_job (jobMgr fresh_server) |>
    <| nodeMgr := (Node.AddNode "n1" 4 Node.NewManager).2 |>.
Definition running_env : Env := mkEnv (time_Unix 1000) ["7.host"] ["n1"] ["batch"] "head".

Lemma restore_exact_witness :
  let s' := restoreRecoveredRunningJobs running_env running_server in
  let n' := AssignJob "7.host" 1 ((NewNode "n1" 0) <| NumProcs := 4 |> <| SlotsTotal := 4 |>) in
  AssignedJobs n' = filter (λ id, runs_on (the_jobs running_server) "n1" id = true) (job_order running_env) ∧
  SlotsUsed n' = int64 (sum_Z (ppn_of (the_jobs running_server)) (AssignedJobs n')) ∧
  the_jobs s' = the_jobs running_server ∧ queueMgr s' = queueMgr running_server.
Proof.
  apply (restore_exact running_env running_server "n1"); [| | |by vm_compute].
  - unfold map_order. change (the_jobs running_server) with ({["7.host" := sample_job]} : gmap string Job).
    by rewrite map_to_list_singleton.
  - intros k j. change (the_jobs running_server) with ({["7.host" := sample_job]} : gmap string Job).
    by intros [<- <-]%lookup_singleton_Some.
  - intros k n. change (the_nodes running_server)
      with ({["n1" := (NewNode "n1" 0) <| NumProcs := 4 |> <| SlotsTotal := 4 |>]} : gmap string Node).
    by intros [<- <-]%lookup_singleton_Some.
Defined.
