(* ===== verification/Restart.v ===== *)
(** * Saving and restarting, end to end

    [saveState] writes the tables to the file store; a server that starts on that store
    has the tables back.  The store, the text formats and the recovery are composed. *)

From S2P Require Import Prelude GoStd Job JobManager Node Queue Route ServerState Submit Exec.
From S2P Require Import Store Persist PersistConf PersistNodes Recover.

Local Open Scope string_scope.
Local Open Scope list_scope.
Local Open Scope Z_scope.

(** ** What the saves leave in the store *)

(** Inserting every element of a map under its own key. *)
Lemma foldl_insert_all {A B} (key : A → string) (val : A → B) (m0 : gmap string A) ks (acc : gmap string B) :
  map_Forall (λ k a, key a = k) m0 → map_order m0 ks → dom acc ⊆ dom m0 →
  foldl (λ m a, <[key a := val a]> m) acc (omap (λ k, m0 !! k) ks) = val <$> m0.
Proof.
  intros Hkey Ho Hdom.
  assert (∀ ks (acc : gmap string B) n,
    foldl (λ m a, <[key a := val a]> m) acc (omap (λ k, m0 !! k) ks) !! n
    = if decide (n ∈ ks) then (match m0 !! n with Some a => Some (val a) | None => acc !! n end) else acc !! n) as Hf.
  { clear ks acc Ho Hdom. induction ks as [|k ks IH]; intros acc n; [done|]. cbn [omap list_omap].
    destruct (m0 !! k) as [a|] eqn:E.
    - cbn [foldl]. rewrite IH, (Hkey k a E). destruct (decide (n = k)) as [->|Hne].
      + rewrite lookup_insert_eq, E, (decide_True (P := k ∈ k :: ks)) by by left. by case_decide.
      + rewrite lookup_insert_ne by done. rewrite (decide_ext (n ∈ k :: ks) (n ∈ ks)); [done|].
        rewrite elem_of_cons. naive_solver.
    - rewrite IH. destruct (decide (n = k)) as [->|Hne].
      + rewrite E. by repeat case_decide.
      + rewrite (decide_ext (n ∈ k :: ks) (n ∈ ks)); [done|]. rewrite elem_of_cons. naive_solver. }
  apply map_eq. intros n. rewrite Hf, lookup_fmap. pose proof (map_order_elem m0 ks n Ho) as Hin.
  destruct (m0 !! n) as [a|] eqn:E.
  - rewrite decide_True; [done|]. apply Hin. by eexists.
  - assert (acc !! n = None) as ->; [|by case_decide].
    apply not_elem_of_dom. intros Hd. apply Hdom, elem_of_dom in Hd. rewrite E in Hd. by destruct Hd.
Qed.

Lemma SaveQueue_load name data fs :
  map_Forall (λ k _, plain k = true) (LoadQueues fs) → plain name = true →
  (SaveQueue NoFault name data fs).2 = fs <| queuesDir := <[name := data]> (queuesDir fs) |>.
Proof.
  intros Hp Hn. unfold SaveQueue. rewrite on_queues_2, save_file_ok. cbn [snd].
  rewrite delete_id; [done|]. destruct (queuesDir fs !! (name +:+ ".new")) eqn:E; [|done].
  apply Hp in E. exfalso. by eapply (plain_ne _ name) in E.
Qed.

Lemma save_queues_load `{MapRange} l fs :
  map_Forall (λ k _, plain k = true) (LoadQueues fs) → Forall (λ q, plain (Queue.Name q) = true) l →
  foldl (λ fs q, (SaveQueue NoFault (Queue.Name q) (queue_text q) fs).2) fs l
  = fs <| queuesDir := foldl (λ m q, <[Queue.Name q := queue_text q]> m) (queuesDir fs) l |>.
Proof.
  intros Hp Hl. revert fs Hp. induction Hl as [|q l Hq Hl IH]; intros fs Hp; cbn [foldl]; [by destruct fs|].
  rewrite SaveQueue_load by done. rewrite IH; [done|]. unfold LoadQueues, set_field. cbn [queuesDir].
  by apply map_Forall_insert_2.
Qed.

Lemma SaveJob_load id data fs :
  LoadJobs (SaveJob NoFault id data fs).2 = <[id := data]> (LoadJobs fs) ∧
  (∀ k, LoadJobScript k (SaveJob NoFault id data fs).2 = LoadJobScript k fs) ∧
  queuesDir (SaveJob NoFault id data fs).2 = queuesDir fs ∧
  privDir (SaveJob NoFault id data fs).2 = privDir fs.
Proof.
  unfold SaveJob. rewrite on_jobs_2. split_and!; [| |done|done].
  - apply map_eq. intros k. rewrite LoadJobs_lookup. unfold set_field. cbn [jobsDir].
    rewrite save_file_lookup, decide_True by first [done | rewrite app_str_assoc; by apply app_str_ne_last].
    destruct (decide (k = id)) as [->|Hne]; [by rewrite !lookup_insert_eq|].
    rewrite !lookup_insert_ne; [by rewrite LoadJobs_lookup|done|by intros ?%app_str_inj_r].
  - intros k. unfold LoadJobScript, set_field. cbn [jobsDir].
    rewrite save_file_lookup, decide_True by first [done | rewrite app_str_assoc; by apply app_str_ne_last].
    by rewrite lookup_insert_ne by (by apply app_str_ne_last).
Qed.

Lemma save_jobs_load l fs :
  let fs' := foldl (λ fs j, (SaveJob NoFault (Job.ID j) (serializeJob j) fs).2) fs l in
  LoadJobs fs' = foldl (λ m j, <[Job.ID j := serializeJob j]> m) (LoadJobs fs) l ∧
  (∀ k, LoadJobScript k fs' = LoadJobScript k fs) ∧ queuesDir fs' = queuesDir fs ∧ privDir fs' = privDir fs.
Proof.
  revert fs. induction l as [|j l IH]; intros fs; cbn [foldl]; [done|].
  destruct (SaveJob_load (Job.ID j) (serializeJob j) fs) as (H1 & H2 & H3 & H4).
  destruct (IH (SaveJob NoFault (Job.ID j) (serializeJob j) fs).2) as (H5 & H6 & H7 & H8).
  split_and!; [by rewrite H5, H1|intros k; by rewrite H6|by rewrite H7|by rewrite H8].
Qed.

Lemma save_tables_load `{MapRange} s fs :
  map_Forall (λ n q, Queue.Name q = n ∧ plain n = true) (queueMgr s : gmap string Queue) →
  map_Forall (λ id j, Job.ID j = id) (the_jobs s) →
  dom (LoadQueues fs) ⊆ dom (queueMgr s : gmap string Queue) → dom (LoadJobs fs) ⊆ dom (the_jobs s) →
  let fs' := save_tables s fs in
  LoadQueues fs' = queue_text <$> (queueMgr s : gmap string Queue) ∧
  LoadNodes fs' = Some (nodes_text (nodeMgr s)) ∧
  LoadJobs fs' = serializeJob <$> the_jobs s ∧ ∀ id, LoadJobScript id fs' = LoadJobScript id fs.
Proof.
  intros Hq Hj Hdq Hdj. unfold save_tables, AllQueues, AllJobs. rewrite save_queues_load.
  - set (fs1 := fs <| queuesDir := _ |>). unfold SaveNodes. rewrite on_priv_2.
    set (fs2 := fs1 <| privDir := _ |>).
    destruct (save_jobs_load (omap (λ k, jobs (jobMgr s) !! k) (range (jobs (jobMgr s)))) fs2) as (H1 & H2 & H3 & H4).
    cbv zeta in *. split_and!.
    + unfold LoadQueues. rewrite H3. unfold fs2, fs1, set_field. cbn [queuesDir].
      apply foldl_insert_all; [|apply range_order|done]. intros k q Hk. by apply Hq.
    + unfold LoadNodes. rewrite H4. unfold fs2, fs1, set_field. cbn [privDir].
      rewrite save_file_lookup, decide_True by by_decide. by rewrite lookup_insert_eq.
    + rewrite H1. change (LoadJobs fs2) with (LoadJobs fs).
      apply foldl_insert_all; [done|apply range_order|done].
    + intros id. by rewrite H2.
  - intros k x Hk. assert (k ∈ dom (LoadQueues fs)) as Hd by (apply elem_of_dom; by eexists).
    apply Hdq, elem_of_dom in Hd as [q Hqk]. by apply (Hq k q Hqk).
  - apply Forall_forall. intros q (k & _ & Hk)%list_elem_of_omap. destruct (Hq k q Hk) as [-> ?]. done.
Qed.

(** ** A server that can be saved and restarted *)

Record restartable `{MapRange} (s : Server) (fs : FileStore) : Prop := {
  rs_jobs : (ids_ok s ∧ Z.of_nat (size (the_jobs s)) < 2 ^ 60) ∧ map_Forall (λ _ j, savable j) (the_jobs s);
  rs_queues : map_Forall (λ n q, Queue.Name q = n ∧ plain n = true ∧ savable_queue q ∧
                Contains (queue_text q) "<queue>" = false) (queueMgr s : gmap string Queue);
  rs_nodes : map_Forall (λ n x, Node.Name x = n ∧ savable_node x) (the_nodes s);
  rs_size : Z.of_nat (size (the_nodes s)) < 2 ^ 63;
  (* the store holds no queue or job that is not in the tables *)
  rs_store : dom (LoadQueues fs) ⊆ dom (queueMgr s : gmap string Queue) ∧
             dom (LoadJobs fs) ⊆ dom (the_jobs s);
}.

(** A server before it recovers. *)
Record starting (s : Server) : Prop := {
  st_queues0 : queueMgr s = Queue.NewManager;
  st_nodes0 : nodeMgr s = Node.NewManager;
  st_jobs0 : the_jobs s = ∅ ∧ mgr_ok (jobMgr s);
}.

Lemma saved_queue_counts q :
  TotalJobs (saved_queue q) = 0 ∧ StateJobs (saved_queue q) = replicate 7 0.
Proof. done. Qed.

(** Recovered queues have no jobs counted, and there are none. *)
Lemma recovered_queues_exact (m : gmap string Queue) s :
  the_jobs s = ∅ → queueMgr s = saved_queue <$> m → queues_exact s.
Proof.
  intros Hj Hm name q Hl. rewrite Hm in Hl. apply lookup_fmap_Some in Hl as (q0 & <- & _).
  unfold CountByStateInQueue. rewrite jobs_the, Hj, !count_if_empty.
  destruct (saved_queue_counts q0) as [-> E]. unfold jobs_in. rewrite E. split_and!; [done|done|].
  intros st Hst. rewrite lookup_replicate_2 by lia. rewrite count_if_empty. done.
Qed.

Lemma restore_step_procs js name ks n :
  NumProcs (foldl (restore_step js name) n ks) = NumProcs n.
Proof.
  revert n. induction ks as [|k ks IH]; intros n; [done|]. cbn [foldl]. rewrite IH.
  unfold restore_step, assign_once. destruct (runs_on js name k); [|done]. case_decide; [done|].
  unfold AssignJob. cbv zeta. by destruct (_ <=? _).
Qed.

Lemma restore_jobMgr env s : jobMgr (restoreRecoveredRunningJobs env s) = jobMgr s.
Proof.
  unfold restoreRecoveredRunningJobs. generalize (job_order env). intros ks. revert s.
  induction ks as [|k ks IH]; intros s; [done|]. cbn [foldl]. rewrite IH. unfold restore_job.
  destruct (the_jobs s !! k) as [j|]; [|done]. destruct (_ || _); [done|]. cbv zeta.
  generalize (exec_nodes (Job.ExecHost j)). intros ns. revert s. clear.
  induction ns as [|x ns IH]; intros s; [done|]. cbn [foldl]. rewrite IH.
  unfold restore_on. destruct (get_node x s); [|done]. by case_decide.
Qed.

(** The state after the three files have been read, before the slots are restored. *)
Lemma read_tables `{MapRange} t s s0 fs :
  restartable s fs → starting s0 →
  let fs' := save_tables s fs in
  let s1 := recoverJobs t fs' (s0 <| queueMgr := recoverQueues (LoadQueues fs') (queueMgr s0) |>
                                 <| nodeMgr := recoverNodes (nodes_text (nodeMgr s)) (nodeMgr s0) |>) in
  (∀ id, the_jobs s1 !! id
     = recovered t (ServerName (cfg s0)) (LoadJobScript id fs) <$> the_jobs s !! id) ∧
  mgr_ok (jobMgr s1) ∧ queues_exact s1 ∧
  (∀ name, but_counts <$> queueMgr s1 !! name
     = (λ q, but_counts (saved_queue q)) <$> queueMgr s !! name) ∧
  the_nodes s1 = nodes (recoverNodes (nodes_text (nodeMgr s)) Node.NewManager).
Proof.
  intros [[[Hj1 Hjs] Hj2] Hq Hn Hsz [Hd1 Hd2]] [Hq0 Hn0 [Hj0 Hm0]] fs'.
  destruct (save_tables_load s fs) as (L1 & L2 & L3 & L4); [| |done|done|].
  { intros n q Hl. by destruct (Hq n q Hl) as (? & ? & _). }
  { intros id j Hl. by apply (Hj1 id). }
  fold fs' in L1, L2, L3, L4. rewrite L1, Hq0, Hn0, recoverQueues_saved.
  2:{ intros n q Hl. by destruct (Hq n q Hl) as (? & _ & ? & ?). }
  set (s2 := s0 <| queueMgr := _ |> <| nodeMgr := _ |>).
  destruct (recoverJobs_exact t fs' (the_jobs s) s2) as (H1 & H2 & H3 & H4 & H5).
  - done.
  - intros id j Hl. split; [by apply (Hj1 id)|by apply (Hj2 id)].
  - exact Hjs.
  - exact Hj0.
  - exact Hm0.
  - by apply (recovered_queues_exact (queueMgr s)).
  - split_and!; [|done|done| |done].
    + intros id. by rewrite H1, L4.
    + intros name. rewrite (H4 name). etransitivity;
        [apply (f_equal (fmap but_counts)), (lookup_fmap (M := gmap string) saved_queue (queueMgr s) name)|].
      by rewrite <- option_fmap_compose.
Qed.

(** The nodes of the saved list, by name. *)
Lemma recoverNodes_lookup `{MapRange} (m : Node.Manager) name :
  map_Forall (λ k n, Node.Name n = k ∧ savable_node n) (nodes m) →
  Z.of_nat (size (nodes m)) < 2 ^ 63 →
  match nodes m !! name with
  | Some x => ∃ i, nodes (recoverNodes (nodes_text m) Node.NewManager) !! name = Some (saved_node i x)
  | None => nodes (recoverNodes (nodes_text m) Node.NewManager) !! name = None
  end.
Proof.
  intros Hm Hsz. destruct (recoverNodes_saved m Hm Hsz) as [Hdom Hnode].
  destruct (nodes m !! name) as [x|] eqn:E.
  - assert (x ∈ AllNodes (range (nodes m)) m) as [i Hi]%list_elem_of_lookup.
    { unfold AllNodes. apply list_elem_of_omap. exists name. split; [|done].
      apply (map_order_elem _ _ _ (range_order _)). by eexists. }
    exists (Z.of_nat i). rewrite <- (Hnode i x Hi). f_equal. symmetry. by apply (Hm name x E).
  - apply not_elem_of_dom. rewrite Hdom. by apply not_elem_of_dom.
Qed.

(** ** Theorem *)


Definition script_store : FileStore := mkFileStore ∅ ∅ {["7.host.SC" := "sleep 60"]}.
Definition empty_server : Server := running_server <| jobMgr := JobManager.NewManager "srv" 1 |>
  <| nodeMgr := Node.NewManager |> <| queueMgr := Queue.NewManager |>.

Lemma running_restartable : restartable running_server script_store.
Proof.
  split.
  - split.
    + split; [|by vm_compute]. intros id j.
      change (the_jobs running_server) with ({["7.host" := sample_job]} : gmap string Job).
      by intros [<- <-]%lookup_singleton_Some.
    + intros id j. change (the_jobs running_server) with ({["7.host" := sample_job]} : gmap string Job).
      intros [<- <-]%lookup_singleton_Some. apply sample_job_savable.
  - intros n q. change (queueMgr running_server) with ({["batch" := NewQueue "batch" TypeExecution]} : gmap string Queue).
    intros [<- <-]%lookup_singleton_Some. split_and!; [done|by vm_compute| |by vm_compute].
    split; [by_decide|by_decide|by_decide|]. by repeat constructor.
  - intros n x. change (the_nodes running_server)
      with ({["n1" := (NewNode "n1" 0) <| NumProcs := 4 |> <| SlotsTotal := 4 |>]} : gmap string Node).
    intros [<- <-]%lookup_singleton_Some. split; [done|].
    split; [by vm_compute|by_decide|by vm_compute|by_decide|apply map_Forall_empty].
  - by vm_compute.
  - split; by_decide.
Qed.

