(* ===== verification/Status.v ===== *)
(** * Status replies: the format functions of internal/server/server.go

    What the server reports of its jobs, queues and nodes.  The helper closures [add] and
    [addResc] append an attribute. *)

From S2P Require Import Prelude GoStd Dis DisMessage Job JobManager Node Queue Route ServerState.
From S2P Require Import Persist PersistConf.
Import Proto.

Local Open Scope string_scope.
Local Open Scope list_scope.
Local Open Scope Z_scope.

Definition attr (name value : string) : SvrAttrl := mkAttr name false "" value 1.
Definition resc_attr (name resc value : string) : SvrAttrl := mkAttr name true resc value 1.
Definition attr_of (kv : string * string) : SvrAttrl := attr kv.1 kv.2.

(** ** Jobs *)

Section format.
Context `{MapRange}.

Definition resc_attrs (name : string) (m : gmap string string) : list SvrAttrl :=
  omap (λ k, let v := lookup_or "" k m in if decide (v = "") then None else Some (resc_attr name k v))
    (range m).

(** The attributes before the resources, in the order they are added; [text_attr] is [add],
    which leaves empty values out. *)
Definition job_head (j : Job) : list (string * string) :=
  text_attr "Job_Name" (Job.Name j) ++ text_attr "Job_Owner" (Owner j)
  ++ text_attr "job_state" (Job.StateName j) ++ text_attr "queue" (Job.Queue j)
  ++ text_attr "server" (Job.Server j) ++ text_attr "Checkpoint" (Checkpoint j)
  ++ (if decide (Checkpoint j = "") then [("Checkpoint", "u")] else [])
  ++ text_attr "Output_Path" (StdoutPath j) ++ text_attr "Error_Path" (StderrPath j)
  ++ text_attr "Join_Path" (JoinPath j) ++ text_attr "Keep_Files" (KeepFiles j)
  ++ text_attr "Account_Name" (Account j) ++ text_attr "Shell_Path_List" (Shell j)
  ++ text_attr "Mail_Points" (MailPoints j) ++ text_attr "Mail_Users" (MailUsers j)
  ++ text_attr "Rerunable" (Rerunnable j) ++ text_attr "Hold_Types" (HoldTypes j)
  ++ text_attr "User_List" (UserList j) ++ text_attr "depend" (DependList j)
  ++ text_attr "stagein" (StageinList j) ++ text_attr "stageout" (StageoutList j)
  ++ text_attr "group_list" (GroupList j) ++ text_attr "job_array_request" (JobArrayReq j)
  ++ text_attr "init_work_dir" (InitWorkDir j) ++ text_attr "comment" (Job.Comment j)
  ++ (if Job.Priority j =? 0 then [] else [("Priority", Itoa (Job.Priority j))])
  ++ time_attr "Execution_Time" (ExecutionTime j) ++ text_attr "exec_host" (ExecHost j)
  ++ text_attr "provision_vm" (ProvisionVM j) ++ text_attr "provision_node" (ProvisionNode j)
  ++ int_attr "exec_port" (ExecPort j) ++ int_attr "session_id" (SessionID j)
  ++ time_attr "ctime" (CreateTime j) ++ time_attr "qtime" (QueueTime j)
  ++ time_attr "start_time" (StartTime j) ++ time_attr "comp_time" (CompTime j)
  ++ time_attr "mtime" (MTime j) ++ text_attr "euser" (EUser j) ++ text_attr "egroup" (EGroup j)
  ++ (if (Job.State j =? StateComplete) || (Job.State j =? StateExiting)
      then [("exit_status", Itoa (ExitStatus j))] else []).
Definition job_tail (j : Job) : list (string * string) :=
  text_attr "Variable_List"
    (Join "," ((λ k, k +:+ "=" +:+ lookup_or "" k (VariableList j)) <$> range (VariableList j)))
  ++ text_attr "hashname" (HashName j) ++ text_attr "fault_tolerant" (FaultTolerant j)
  ++ text_attr "job_radix" (JobRadix j) ++ text_attr "request_version" (ReqVersion j).

Definition formatJobStatus (j : Job) : StatusObject :=
  mkObject MgrObjJob (Job.ID j)
    ((attr_of <$> job_head j) ++ resc_attrs "Resource_List" (ResourceReq j)
     ++ resc_attrs "resources_used" (ResourceUsed j) ++ (attr_of <$> job_tail j)).

(** ** Queues *)

(** The counters recomputed from the job table. *)
Definition count_states (jobs : list Job) : Z * list Z :=
  foldl (λ ts j,
    (ts.1 + 1,
     if (0 <=? Job.State j) && (Job.State j <? 7) then alter (Z.add 1) (Z.to_nat (Job.State j)) ts.2 else ts.2))
    (0, replicate 7 0) jobs.
Definition refreshQueueCounts (env : Env) (m : JobManager.Manager) (q : Queue) : Queue :=
  let '(total, states) := count_states (JobsInQueue (job_order env) (Queue.Name q) m) in
  q <| TotalJobs := total |> <| StateJobs := states |>.

Definition state_count (q : Queue) : string :=
  let at_ i := Itoa (default 0 (StateJobs q !! i)) in
  "Transit:" +:+ at_ 0%nat +:+ " Queued:" +:+ at_ 1%nat +:+ " Held:" +:+ at_ 2%nat
  +:+ " Waiting:" +:+ at_ 3%nat +:+ " Running:" +:+ at_ 4%nat +:+ " Exiting:" +:+ at_ 5%nat
  +:+ " Complete:" +:+ at_ 6%nat.

Definition queue_head (q : Queue) : list (string * string) :=
  [("queue_type", if Type_ q =? TypeExecution then "Execution" else "Route");
   ("total_jobs", Itoa (TotalJobs q)); ("state_count", state_count q);
   ("enabled", bool_text (Enabled q)); ("started", bool_text (Started q))].
Definition queue_limits (q : Queue) : list (string * string) :=
  (if Queue.Priority q =? 0 then [] else [("Priority", Itoa (Queue.Priority q))])
  ++ list_attr "disallowed_types" (DisallowedTypes q) ++ int_attr "max_queuable" (MaxJobs q)
  ++ int_attr "max_running" (MaxRun q) ++ int_attr "max_user_queuable" (MaxUserJobs q)
  ++ int_attr "max_user_run" (Queue.MaxUserRun q)
  ++ flag_attr "acl_user_enable" (ACLUserEnabled q) ++ list_attr "acl_users" (ACLUsers q)
  ++ flag_attr "acl_group_enable" (ACLGroupEnabled q) ++ list_attr "acl_groups" (ACLGroups q)
  ++ flag_attr "acl_host_enable" (ACLHostEnabled q) ++ list_attr "acl_hosts" (ACLHosts q)
  ++ text_attr "naccesspolicy" (NaccessPolicy q) ++ list_attr "hostlist" (HostList q)
  ++ list_attr "route_destinations" (RouteDestin q)
  ++ flag_attr "from_route_only" (qAttrTrue (lookup_or "" "from_route_only" (Queue.Attrs q))).
(** The resource limits are reported with empty values too. *)
Definition queue_resources (q : Queue) : list SvrAttrl :=
  ((λ k, resc_attr "resources_min" k (lookup_or "" k (ResourceMin q))) <$> range (ResourceMin q))
  ++ ((λ k, resc_attr "resources_max" k (lookup_or "" k (ResourceMax q))) <$> range (ResourceMax q))
  ++ ((λ k, resc_attr "resources_default" k (lookup_or "" k (ResourceDflt q))) <$> range (ResourceDflt q)).

(** The object, and the queue with its counters refreshed. *)
Definition formatQueueStatus (env : Env) (m : JobManager.Manager) (q : Queue) : Queue * StatusObject :=
  let q := refreshQueueCounts env m q in
  (q, mkObject MgrObjQueue (Queue.Name q)
        ((attr_of <$> queue_head q ++ queue_limits q) ++ queue_resources q
         ++ (attr_of <$> cloud_attrs q))).

(** ** Nodes *)

Definition builtin_resources : list string :=
  ["ncpus"; "mem"; "walltime"; "nodes"; "select"; "ppn"; "host"; "feature"; "features"; "properties"].
Definition add_req (m : gmap string string) (req : gmap string Z) (name : string) : gmap string Z :=
  if decide (name ∈ builtin_resources) then req
  else match atoi_ok (lookup_or "" name m) with
       | Some n => if 0 <? n then <[name := n]> req else req
       | None => req
       end.
Definition jobGenericReqs (j : Job) : gmap string Z :=
  foldl (add_req (ResourceReq j)) ∅ (range (ResourceReq j)).

(** The processors and the generic resources of the jobs on a node. *)
Definition used_cpus (env : Env) (s : Server) (n : Node) : Z :=
  foldl (λ used jid, int64 (used + match get_job env jid s with
                                   | Some j => jobRequestedCPUs j
                                   | None => 1
                                   end)) 0 (AssignedJobs n).
Definition add_gres (used : gmap string Z) (m : gmap string Z) : gmap string Z :=
  foldl (λ used name, <[name := int64 (lookup_or 0 name used + lookup_or 0 name m)]> used) used (range m).
Definition gres_used (env : Env) (s : Server) (n : Node) : gmap string Z :=
  foldl (λ used jid, match get_job env jid s with
                     | Some j => add_gres used (jobGenericReqs j)
                     | None => used
                     end) ∅ (AssignedJobs n).

Definition num_attrs (prefix : string) (m : gmap string Z) : list (string * string) :=
  (λ k, (prefix +:+ k, Itoa (lookup_or 0 k m))) <$> range m.

Definition node_attrs (env : Env) (s : Server) (n : Node) : list (string * string) :=
  [("state", Node.StateName n); ("power_state", PowerState n); ("np", Itoa (NumProcs n));
   ("ntype", "cluster")]
  ++ ((λ k, (k, lookup_or "" k (Status n))) <$> filter (λ k, k ≠ "state") (range (Status n)))
  ++ (if decide (AssignedJobs n = []) then []
      else [("jobs", Join ", " (AssignedJobs n)); ("used_cpus", Itoa (used_cpus env s n))])
  ++ num_attrs "resources_available." (GRes n) ++ num_attrs "gres_used." (gres_used env s n)
  ++ list_attr "properties" (Properties n) ++ list_attr "hostgroups" (Groups n)
  ++ text_attr "note" (Note n) ++ (if Dynamic n then [("is_dynamic", "true")] else []).

Definition formatNodeStatus (env : Env) (s : Server) (n : Node) : StatusObject :=
  mkObject MgrObjNode (Node.Name n) (attr_of <$> node_attrs env s n).

(** ** Handlers

    The reply is an error code or a list of objects. *)

Definition handleStatusJob `{SliceSort} (env : Env) (id : string) (s : Server) : result Z (list StatusObject) :=
  if decide (id = "") then
    Ok (formatJobStatus <$> sort_Slice (λ a b, String.ltb (Job.ID a) (Job.ID b)) (AllJobs (job_order env) (jobMgr s)))
  else match get_job env id s with
       | Some j => Ok [formatJobStatus j]
       | None => Err PbseUnkjobid
       end.

Definition handleStatusQueue (env : Env) (id : string) (s : Server) : Server * result Z (list StatusObject) :=
  if decide (id = "") then
    let qs := AllQueues (queue_order env) (queueMgr s) in
    (foldl (λ s q, upd_queue (Queue.Name q) (refreshQueueCounts env (jobMgr s)) s) s qs,
     Ok ((λ q, (formatQueueStatus env (jobMgr s) q).2) <$> qs))
  else match GetQueue id (queueMgr s) with
       | Some q => (upd_queue id (refreshQueueCounts env (jobMgr s)) s, Ok [(formatQueueStatus env (jobMgr s) q).2])
       | None => (s, Err PbseUnkQue)
       end.

Definition handleStatusNode (env : Env) (id : string) (s : Server) : result Z (list StatusObject) :=
  if decide (id = "") then Ok (formatNodeStatus env s <$> AllNodes (node_order env) (nodeMgr s))
  else match get_node id s with
       | Some n => Ok [formatNodeStatus env s n]
       | None => Err PbseUnkNode
       end.

End format.
