(* ===== verification/StatusSpec.v ===== *)
(** * What the scheduler sees: status replies read by the scheduler

    The server formats its nodes and jobs (internal/server/server.go), the scheduler parses
    the reply (internal/sched/scheduler/scheduler.go).  The theorems compose the two. *)

From Stdlib Require Import SpecFloat.
From S2P Require Import Prelude GoStd Dis DisMessage Job JobManager Node Queue Route ServerState.
From S2P Require Import Submit Sched Persist PersistConf PersistNodes Status.

Local Open Scope string_scope.
Local Open Scope list_scope.
Local Open Scope Z_scope.

(** ** Nodes *)

Lemma words_Join l : Forall clean_item l → words (Join "," l) = l.
Proof.
  intros Hl. unfold words. destruct l as [|x l]; [done|]. rewrite Split_Join; [|done|].
  2:{ eapply Forall_impl; [exact Hl|]. by intros y (_ & _ & ?). }
  assert (TrimSpace <$> x :: l = x :: l) as ->.
  { generalize (x :: l) Hl. intros l' Hl'. induction Hl' as [|y l' (_ & Hy & _) Hl' IH]; [done|].
    cbn [fmap list_fmap]. by rewrite TrimSpace_no_space, IH. }
  apply filter_all. eapply Forall_impl; [exact Hl|]. by intros y (? & _).
Qed.

(** The list of jobs is joined with a comma and a blank and split at the commas. *)
Lemma Split_Join_blank x l :
  Forall (λ y, has_byte "," y = false) (x :: l) →
  Split "," (Join ", " (x :: l)) = x :: ((λ y, " " +:+ y) <$> l).
Proof.
  revert x. induction l as [|y l IH]; intros x Hl; apply Forall_cons in Hl as [Hx Hl].
  - by apply Split_no_sep.
  - change (Join ", " (x :: y :: l)) with (x +:+ String "," (String " " (Join ", " (y :: l)))).
    rewrite Split_cons by done. specialize (IH y Hl). cbn [fmap list_fmap]. f_equal.
    change (Split "," (String " " (Join ", " (y :: l))))
      with (match Split "," (Join ", " (y :: l)) with [] => [" "] | z :: zs => String " " z :: zs end).
    by rewrite IH.
Qed.

Section nodes.
Context (ParseFloat : string → spec_float).

Definition parse_kv (nu : NodeInfo * bool) (kv : string * string) : NodeInfo * bool :=
  parse_node_attr ParseFloat nu (attr_of kv).

(** An entry of a compute node's own report that says nothing the server reports itself. *)
Definition mom_entry (k v : string) : Prop :=
  (k ∉ ["state"; "np"; "used_cpus"; "properties"; "features"; "hostgroups"; "groups"; "is_dynamic"]) ∧
  (k = "jobs" → v = "") ∧ strip_prefix "resources_available." k = None ∧
  strip_prefix "gres_used." k = None.

(** Such an entry only changes the memory and the load the scheduler knows of. *)
Lemma parse_mom name st np free tm am la js us ps gs dy gt gu k v u :
  mom_entry k v → np ≠ 0 →
  ∃ tm' am' la',
    parse_node_attr ParseFloat (mkNodeInfo name st np free tm am la js us ps gs dy gt gu, u) (attr k v)
    = (mkNodeInfo name st np free tm' am' la' js us ps gs dy gt gu, u).
Proof.
  intros (Hk & Hj & Hp1 & Hp2) Hnp. unfold parse_node_attr. cbn [Value attr DisMessage.Name].
  apply switch_ind_in; [|rewrite Hp1, Hp2; eauto].
  assert (∀ l : list string, k ∈ l → (∀ x, x ∈ l → x ∈ ["state"; "np"; "used_cpus"; "properties"; "features";
    "hostgroups"; "groups"; "is_dynamic"]) → False) as Hno
    by (intros l Hl Hx; exact (Hk (Hx k Hl))).
  repeat (apply Forall_cons_2 || apply Forall_nil_2); cbn [fst snd]; intros Hin.
  all: try (exfalso; apply (Hno _ Hin); intros x; rewrite !elem_of_cons; tauto).
  all: try (unfold set_field; simpl; by eauto).
  - destruct (n_NumProcs _ =? 0) eqn:E; bool_to_prop; [done|eauto].
  - apply list_elem_of_singleton in Hin. rewrite (Hj Hin). eauto.
Qed.

Lemma parse_mom_all name st np free tm am la js us ps gs dy gt gu u l :
  Forall (λ kv, mom_entry kv.1 kv.2) l → np ≠ 0 →
  ∃ tm' am' la',
    foldl parse_kv (mkNodeInfo name st np free tm am la js us ps gs dy gt gu, u) l
    = (mkNodeInfo name st np free tm' am' la' js us ps gs dy gt gu, u).
Proof.
  intros Hl Hnp. revert tm am la. induction Hl as [|[k v] l Hkv Hl IH]; intros tm am la; [by eauto|].
  cbn [foldl]. unfold parse_kv at 2. unfold attr_of. cbn [fst snd] in *.
  destruct (parse_mom name st np free tm am la js us ps gs dy gt gu k v u Hkv Hnp) as (a & b & c & ->).
  apply IH.
Qed.

(** The generic resources, as counted and as used. *)
Lemma parse_num `{MapRange} prefix (set : NodeInfo → gmap string Z → NodeInfo) (get : NodeInfo → gmap string Z) n u m :
  (∀ k v n, is_int64 v → 0 ≤ v → parse_kv (n, u) (prefix +:+ k, Itoa v) = (set n (<[k := v]> (get n)), u)) →
  (∀ n x y, set (set n x) y = set n y) → (∀ n x, get (set n x) = x) → set n ∅ = n → get n = ∅ →
  map_Forall (λ _ v, 0 ≤ v ≤ MaxInt64) m →
  foldl parse_kv (n, u) (num_attrs prefix m) = (set n m, u).
Proof.
  intros Hp Hss Hgs Hn Hg Hm. unfold num_attrs.
  assert (∀ k, k ∈ range m → 0 ≤ lookup_or 0 k m ≤ MaxInt64) as Hk.
  { intros k Hk. apply (map_order_elem _ _ _ (range_order m)) in Hk as [v Hv].
    unfold lookup_or. rewrite Hv. by apply (Hm k). }
  transitivity (set n (foldl (λ r k, <[k := lookup_or 0 k m]> r) (get n) (range m)), u).
  2:{ rewrite Hg, foldl_insert_keys; [done|apply range_order]. }
  assert (∀ x, foldl parse_kv (set n x, u) ((λ k, (prefix +:+ k, Itoa (lookup_or 0 k m))) <$> range m)
    = (set n (foldl (λ r k, <[k := lookup_or 0 k m]> r) x (range m)), u)) as Hx.
  { induction (range m) as [|k ks IH]; intros x; [done|]. cbn [fmap list_fmap foldl].
    specialize (Hk k ltac:(by left)) as Hkk. rewrite Hp by (unfold_int; lia).
    rewrite Hss, Hgs. apply IH. intros k' ?. apply Hk. by right. }
  rewrite <- (Hx (get n)). by rewrite Hg, Hn.
Qed.

Lemma parse_avail `{MapRange} n u m :
  n_GResTotal n = ∅ → map_Forall (λ _ v, 0 ≤ v ≤ MaxInt64) m →
  foldl parse_kv (n, u) (num_attrs "resources_available." m) = (n <| n_GResTotal := m |>, u).
Proof.
  intros Hn Hm. apply (parse_num _ (λ n x, n <| n_GResTotal := x |>) n_GResTotal); try done.
  - intros k v n' Hv H0.
    transitivity (match nonneg (atoi_ok (Itoa v)) with
                  | Some c => (n' <| n_GResTotal := <[k := c]> (n_GResTotal n') |>, u)
                  | None => (n', u) end); [reflexivity|].
    rewrite atoi_ok_Itoa by done. unfold nonneg. by replace (0 <=? v) with true by lia.
  - destruct n. simpl in *. by subst.
Qed.

Lemma parse_used `{MapRange} n u m :
  n_GResUsed n = ∅ → map_Forall (λ _ v, 0 ≤ v ≤ MaxInt64) m →
  foldl parse_kv (n, u) (num_attrs "gres_used." m) = (n <| n_GResUsed := m |>, u).
Proof.
  intros Hn Hm. apply (parse_num _ (λ n x, n <| n_GResUsed := x |>) n_GResUsed); try done.
  - intros k v n' Hv H0.
    transitivity (match nonneg (atoi_ok (Itoa v)) with
                  | Some c => (n' <| n_GResUsed := <[k := c]> (n_GResUsed n') |>, u)
                  | None => (n', u) end); [reflexivity|].
    rewrite atoi_ok_Itoa by done. unfold nonneg. by replace (0 <=? v) with true by lia.
  - destruct n. simpl in *. by subst.
Qed.

Lemma parse_lists n u ps gs :
  Forall clean_item ps → Forall clean_item gs → n_Properties n = [] → n_Groups n = [] →
  foldl parse_kv (n, u) (list_attr "properties" ps ++ list_attr "hostgroups" gs)
  = (n <| n_Properties := ps |> <| n_Groups := gs |>, u).
Proof.
  intros Hp Hg Hn1 Hn2. rewrite foldl_app.
  assert (∀ n, n_Properties n = [] →
    foldl parse_kv (n, u) (list_attr "properties" ps) = (n <| n_Properties := ps |>, u)) as Hps.
  { intros n' Hn'. unfold list_attr. case_decide as E.
    - subst. destruct n'. simpl in *. by subst.
    - transitivity (n' <| n_Properties := n_Properties n' ++ words (Join "," ps) |>, u); [reflexivity|].
      by rewrite Hn', words_Join. }
  rewrite Hps by done.
  unfold list_attr. case_decide as E.
  - subst. destruct n. simpl in *. by subst.
  - transitivity (n <| n_Properties := ps |> <| n_Groups := n_Groups n ++ words (Join "," gs) |>, u); [reflexivity|].
    by rewrite Hn2, words_Join.
Qed.

(** The server's own view of a node that it reports. *)
Record reported `{MapRange} (env : Env) (s : Server) (n : Node) : Prop := {
  rp_np : is_int64 (NumProcs n) ∧ NumProcs n ≠ 0;
  rp_mom : map_Forall (λ k v, k = "state" ∨ mom_entry k v) (Status n);
  rp_jobs : Forall (λ id, id ≠ "" ∧ has_byte "," id = false) (AssignedJobs n);
  rp_lists : Forall clean_item (Properties n) ∧ Forall clean_item (Groups n);
  rp_gres : map_Forall (λ _ v, 0 ≤ v ≤ MaxInt64) (GRes n) ∧
            map_Forall (λ _ v, 0 ≤ v ≤ MaxInt64) (gres_used env s n);
  rp_used : 0 ≤ used_cpus env s n ≤ MaxInt64;
}.

(** The jobs on the node as the scheduler reads them. *)
Definition seen_jobs (ids : list string) : list string :=
  match ids with [] => [] | id :: ids => id :: ((λ i, " " +:+ i) <$> ids) end.

Lemma parse_jobs n ids used :
  Forall (λ id, id ≠ "" ∧ has_byte "," id = false) ids → ids ≠ [] → is_int64 used → 0 ≤ used →
  ∃ free, foldl parse_kv (n, false) [("jobs", Join ", " ids); ("used_cpus", Itoa used)]
  = (n <| n_Jobs := seen_jobs ids |> <| n_FreeCPUs := free |> <| n_UsedCPUs := used |>, true).
Proof.
  intros Hids Hne Hu H0. destruct ids as [|id ids]; [done|].
  assert (Join ", " (id :: ids) ≠ "") as Hj.
  { apply Forall_cons in Hids as [[Hid _] _]. destruct id; [done|]. by destruct ids. }
  cbn [foldl]. exists (let n := n <| n_Jobs := seen_jobs (id :: ids) |> in
    let free := int64 (n_NumProcs n - Z.of_nat (length (n_Jobs n))) in if free <? 0 then 0 else free).
  transitivity (parse_kv (if decide (Join ", " (id :: ids) = "") then (n, false)
    else let n := n <| n_Jobs := Split "," (Join ", " (id :: ids)) |> in
         let free := int64 (n_NumProcs n - Z.of_nat (length (n_Jobs n))) in
         (n <| n_FreeCPUs := if free <? 0 then 0 else free |>, false)) ("used_cpus", Itoa used)); [reflexivity|].
  rewrite decide_False by done. rewrite Split_Join_blank.
  2:{ eapply Forall_impl; [exact Hids|]. by intros x [_ ?]. }
  fold (seen_jobs (id :: ids)). set (n' := _ <| n_FreeCPUs := _ |>).
  transitivity (match nonneg (atoi_ok (Itoa used)) with
                | Some u => (n' <| n_UsedCPUs := u |>, true) | None => (n', false) end); [reflexivity|].
  rewrite atoi_ok_Itoa by done. unfold nonneg. by replace (0 <=? used) with true by lia.
Qed.

Lemma foldl_attr nu (l : list (string * string)) :
  foldl (parse_node_attr ParseFloat) nu (attr_of <$> l) = foldl parse_kv nu l.
Proof. revert nu. induction l as [|kv l IH]; intros nu; [done|]. cbn [fmap list_fmap foldl]. apply IH. Qed.

Lemma mom_attrs_ok `{MapRange} (st : gmap string string) :
  map_Forall (λ k v, k = "state" ∨ mom_entry k v) st →
  Forall (λ kv, mom_entry kv.1 kv.2)
    ((λ k, (k, lookup_or "" k st)) <$> filter (λ k, k ≠ "state") (range st)).
Proof.
  intros Hst. apply Forall_fmap, Forall_forall. intros k [Hne Hk]%list_elem_of_filter.
  apply (map_order_elem _ _ _ (range_order st)) in Hk as [v Hv]. unfold compose, lookup_or.
  cbn [fst snd]. rewrite Hv. destruct (Hst k v Hv); [done|]. done.
Qed.

Lemma parse_note n u v : foldl parse_kv (n, u) (text_attr "note" v) = (n, u).
Proof. unfold text_attr. by case_decide. Qed.

Lemma parse_dynamic n u (b : bool) :
  n_Dynamic n = false →
  foldl parse_kv (n, u) (if b then [("is_dynamic", "true")] else []) = (n <| n_Dynamic := b |>, u).
Proof. intros Hn. destruct b; [reflexivity|]. destruct n. simpl in *. by subst. Qed.

(** The attributes of a node after the first ones. *)
Lemma parse_rest `{MapRange} env s n n0 u :
  reported env s n → n_GResTotal n0 = ∅ → n_GResUsed n0 = ∅ → n_Properties n0 = [] →
  n_Groups n0 = [] → n_Dynamic n0 = false →
  foldl parse_kv (n0, u) (num_attrs "resources_available." (GRes n) ++ num_attrs "gres_used." (gres_used env s n)
    ++ (list_attr "properties" (Properties n) ++ list_attr "hostgroups" (Groups n))
    ++ text_attr "note" (Note n) ++ (if Dynamic n then [("is_dynamic", "true")] else []))
  = (n0 <| n_GResTotal := GRes n |> <| n_GResUsed := gres_used env s n |>
        <| n_Properties := Properties n |> <| n_Groups := Groups n |> <| n_Dynamic := Dynamic n |>, u).
Proof.
  intros [_ _ _ [Hp Hg] [Hr1 Hr2] _] H1 H2 H3 H4 H5. rewrite 2 foldl_app.
  rewrite parse_avail by done. rewrite parse_used by done. rewrite foldl_app.
  rewrite parse_lists by done. rewrite foldl_app, parse_note. by rewrite parse_dynamic.
Qed.
End nodes.

(** ** Theorems on nodes *)

Lemma node_as_seen `{MapRange} ParseFloat env s n :
  reported env s n →
  ∃ mem avail load,
    parseNodeInfo ParseFloat (formatNodeStatus env s n)
    = mkNodeInfo (Node.Name n) (Node.StateName n) (NumProcs n)
        (if decide (AssignedJobs n = []) then NumProcs n
         else let free := int64 (NumProcs n - used_cpus env s n) in if free <? 0 then 0 else free)
        mem avail load (seen_jobs (AssignedJobs n)) (used_cpus env s n) (Properties n) (Groups n)
        (Dynamic n) (GRes n) (gres_used env s n).
Proof.
  intros Hn. pose proof Hn as [[Hnp Hnz] Hmom Hjobs _ _ [Hu0 Hu1]].
  unfold parseNodeInfo, formatNodeStatus. cbn [obj_Name obj_Attrs]. rewrite foldl_attr. unfold node_attrs.
  rewrite !foldl_app.
  set (n0 := mkNodeInfo _ _ _ _ _ _ _ _ _ _ _ _ _ _).
  assert (foldl (parse_kv ParseFloat) (n0, false) [("state", Node.StateName n); ("power_state", PowerState n);
      ("np", Itoa (NumProcs n)); ("ntype", "cluster")]
    = (mkNodeInfo (Node.Name n) (Node.StateName n) (NumProcs n) (NumProcs n) 0 0 (S754_zero false) [] 0 [] []
        false ∅ ∅, false)) as ->.
  { transitivity (mkNodeInfo (Node.Name n) (Node.StateName n) (Atoi (Itoa (NumProcs n))).1
      (Atoi (Itoa (NumProcs n))).1 0 0 (S754_zero false) [] 0 [] [] false ∅ ∅, false); [reflexivity|].
    by rewrite Atoi_Itoa. }
  destruct (parse_mom_all ParseFloat (Node.Name n) (Node.StateName n) (NumProcs n) (NumProcs n) 0 0
    (S754_zero false) [] 0 [] [] false ∅ ∅ false _ (mom_attrs_ok (Status n) Hmom) Hnz) as (tm & am & la & ->).
  exists tm, am, la. destruct (decide (AssignedJobs n = [])) as [E|E].
  - cbn [foldl]. rewrite <- !foldl_app.
    pose proof (parse_rest ParseFloat env s n (mkNodeInfo (Node.Name n) (Node.StateName n) (NumProcs n)
      (NumProcs n) tm am la [] 0 [] [] false ∅ ∅) false Hn) as Hr. rewrite !app_assoc in Hr |- *.
    rewrite Hr by done. unfold used_cpus. rewrite E. reflexivity.
  - destruct (parse_jobs ParseFloat (mkNodeInfo (Node.Name n) (Node.StateName n) (NumProcs n)
      (NumProcs n) tm am la [] 0 [] [] false ∅ ∅) (AssignedJobs n) (used_cpus env s n)) as [free ->];
      [done|done|unfold_int; lia|done|].
    rewrite <- !foldl_app. match goal with |- context [foldl _ (?x, true) _] => set (n1 := x) end.
    pose proof (parse_rest ParseFloat env s n n1 true Hn) as Hr. rewrite !app_assoc in Hr |- *.
    rewrite Hr by done. reflexivity.
Qed.

(** C27: the scheduler sees a node as the server keeps it: its state, its processors, its
    properties, groups and generic resources with what is in use, whether it is dynamic,
    and as free processors those that the jobs on it do not use, never below zero; the
    compute node's own report supplies the memory and the load.  This is for a node whose
    report, like that of the daemon of this program, has none of the keys the server reports
    itself and an empty list of jobs; the server passes such keys on as they come. *)
Theorem scheduler_sees_node `{MapRange} ParseFloat env s n :
  reported env s n →
  ∃ mem avail load,
    parseNodeInfo ParseFloat (formatNodeStatus env s n)
    = mkNodeInfo (Node.Name n) (Node.StateName n) (NumProcs n)
        (if decide (AssignedJobs n = []) then NumProcs n
         else let free := int64 (NumProcs n - used_cpus env s n) in if free <? 0 then 0 else free)
        mem avail load (seen_jobs (AssignedJobs n)) (used_cpus env s n) (Properties n) (Groups n)
        (Dynamic n) (GRes n) (gres_used env s n).
Proof. apply node_as_seen. Qed.

#[export] Instance mom_entry_dec k v : Decision (mom_entry k v).
Proof. unfold mom_entry. apply _. Defined.

(** A node that has reported, with two jobs on it. *)
Definition busy_node : Node :=
  AssignJob "2.srv" 1 (AssignJob "1.srv" 1
    (UpdateFromStatus 0 ["node=n1"; "opsys=linux"; "ncpus=8"; "loadave=0.50"; "totmem=1024kb"; "state=free"; "gres="; "jobs="]
      ((NewNode "n1" 0) <| Properties := ["gpu"] |> <| GRes := {["lic" := 3]} |>))).
Definition busy_server : Server := test_server (NewQueue "batch" TypeExecution).

Lemma busy_reported : reported test_env busy_server busy_node.
Proof.
  split.
  - split; [by_decide|by vm_compute].
  - by_decide.
  - by_decide.
  - by_decide.
  - by_decide.
  - by vm_compute.
Qed.

Lemma scheduler_sees_node_witness :
  ∃ mem avail load,
    parseNodeInfo (λ _, S754_zero false) (formatNodeStatus test_env busy_server busy_node)
    = mkNodeInfo "n1" "free" 8 6 mem avail load ["1.srv"; " 2.srv"] 2 ["gpu"] [] false {["lic" := 3]} ∅.
Proof. apply (scheduler_sees_node (λ _, S754_zero false) test_env busy_server busy_node), busy_reported. Defined.

(** A report made of such entries, over what the node reported before. *)
Lemma UpdateFromStatus_report now items n :
  Forall (λ item, match cut "=" item with Some (k, v) => k = "state" ∨ mom_entry k v | None => True end) items →
  map_Forall (λ k v, k = "state" ∨ mom_entry k v) (Status n) →
  map_Forall (λ k v, k = "state" ∨ mom_entry k v) (Status (UpdateFromStatus now items n)).
Proof.
  intros Hi Hn. unfold UpdateFromStatus. cbv zeta.
  assert (map_Forall (λ k v, k = "state" ∨ mom_entry k v) (Status (foldl apply_item n items))) as H.
  { revert n Hn. induction Hi as [|i items Hi _ IH]; intros n Hn; [done|]. cbn [foldl]. apply IH.
    unfold apply_item, applyStateString. destruct (cut "=" i) as [[k v]|]; [|done].
    assert (map_Forall (λ k v, k = "state" ∨ mom_entry k v) (<[k := v]> (Status n))) by by apply map_Forall_insert_2.
    repeat case_decide; done. }
  by destruct (_ && _).
Qed.

(** A report with the server's own keys is believed over the server: the scheduler sees the
    processors, the properties and the kind of node the report claims. *)
Example report_overrides :
  let n := UpdateFromStatus 0 ["ncpus=8"; "np=64"; "properties=gpu"; "is_dynamic=true"; "state=free"; "jobs="]
             (NewNode "n1" 0) in
  let seen := parseNodeInfo (λ _, S754_zero false) (formatNodeStatus test_env busy_server n) in
  NumProcs n = 8 ∧ Properties n = [] ∧ Dynamic n = false ∧
  n_FreeCPUs seen = 64 ∧ n_Properties seen = ["gpu"] ∧ n_Dynamic seen = true.
Proof. by vm_compute. Qed.

(** ** Queue counters *)

(** The values of a map in the order it is ranged in. *)
Lemma omap_lookup_perm {A} (m : gmap string A) ks :
  map_order m ks → omap (λ k, m !! k) ks ≡ₚ (map_to_list m).*2.
Proof.
  intros ->. assert (∀ kv, kv ∈ map_to_list m → m !! kv.1 = Some kv.2) as Hl.
  { intros [k a] Hk. by apply elem_of_map_to_list. }
  induction (map_to_list m) as [|[k a] l IH]; [done|]. cbn [fmap list_fmap omap list_omap fst snd].
  assert (m !! k = Some a) as -> by (apply (Hl (k, a)); by left). f_equiv. apply IH. intros kv Hkv. apply Hl. by right.
Qed.

Lemma count_if_values {A} (P : A → bool) (m : gmap string A) ks :
  map_order m ks → count_if P m = sum_Z (λ a, if P a then 1 else 0) (omap (λ k, m !! k) ks).
Proof.
  intros Ho. rewrite (omap_lookup_perm m ks Ho). unfold count_if.
  induction (map_to_list m) as [|kv l IH]; [done|]. cbn [fmap list_fmap sum_Z foldr]. unfold sum_Z in IH. by rewrite IH.
Qed.

Lemma sum_filter {A} (P Q : A → bool) l :
  sum_Z (λ a, if P a then 1 else 0) (filter (λ a, Q a = true) l)
  = sum_Z (λ a, if Q a && P a then 1 else 0) l.
Proof.
  induction l as [|a l IH]; [done|]. rewrite filter_cons. cbn [sum_Z foldr]. fold (sum_Z (λ a, if Q a && P a then 1 else 0) l).
  destruct (Q a); [rewrite decide_True by done|rewrite decide_False by done]; cbn [andb]; [|by rewrite IH].
  cbn [sum_Z foldr]. unfold sum_Z in IH at 1. by rewrite IH.
Qed.

Lemma count_states_eq l t ss :
  length ss = 7%nat →
  let r := foldl (λ ts j,
    (ts.1 + 1,
     if (0 <=? Job.State j) && (Job.State j <? 7) then alter (Z.add 1) (Z.to_nat (Job.State j)) ts.2 else ts.2))
    (t, ss) l in
  r.1 = t + sum_Z (λ _, 1) l ∧ length r.2 = 7%nat ∧
  ∀ st, 0 ≤ st < 7 → default 0 (r.2 !! Z.to_nat st)
    = default 0 (ss !! Z.to_nat st) + sum_Z (λ j, if Job.State j =? st then 1 else 0) l.
Proof.
  revert t ss. induction l as [|j l IH]; intros t ss Hl; cbn [foldl sum_Z foldr fst snd].
  { split_and!; [simpl; lia|done|]. intros. simpl. lia. }
  set (ss' := if (0 <=? Job.State j) && (Job.State j <? 7) then alter (Z.add 1) (Z.to_nat (Job.State j)) ss else ss).
  assert (length ss' = 7%nat) as Hl'.
  { unfold ss'. destruct (_ && _); [by rewrite length_alter|done]. }
  destruct (IH (t + 1) ss' Hl') as (H1 & H2 & H3). cbn [fst snd] in *. cbv zeta in *.
  fold (sum_Z (λ _ : Job, 1) l). split_and!; [lia|done|]. intros st Hst. rewrite H3 by done.
  fold (sum_Z (λ j, if Job.State j =? st then 1 else 0) l). unfold ss'.
  destruct ((0 <=? Job.State j) && (Job.State j <? 7)) eqn:E; bool_to_prop.
  - destruct (Job.State j =? st) eqn:E2; bool_to_prop.
    + rewrite E2, list_lookup_alter_eq. destruct (ss !! Z.to_nat st) eqn:E3; [simpl; lia|].
      apply lookup_ge_None in E3. lia.
    + rewrite list_lookup_alter_ne by lia. lia.
  - destruct (Job.State j =? st) eqn:E2; bool_to_prop; [|lia].
    apply andb_false_iff in E as [E|E]; bool_to_prop; lia.
Qed.

(** The counters reported for a queue are those of the job table at that moment,
    whatever the incrementally kept ones were: the total is the number of its jobs, and
    each state's counter the number of its jobs in that state. *)
Theorem refreshQueueCounts_exact env m q st :
  map_order (jobs m) (job_order env) → 0 ≤ st < 7 →
  let q' := refreshQueueCounts env m q in
  TotalJobs q' = count_if (λ j, bool_decide (Job.Queue j = Queue.Name q)) (jobs m) ∧
  jobs_in q' st = CountByStateInQueue (Queue.Name q) [st] m.
Proof.
  intros Ho Hst. unfold refreshQueueCounts, count_states, CountByStateInQueue.
  rewrite !(count_if_values _ _ _ Ho). unfold JobsInQueue, AllJobs.
  set (l := omap (λ k, jobs m !! k) (job_order env)).
  assert (filter (λ j, Job.Queue j = Queue.Name q) l
    = filter (λ j, bool_decide (Job.Queue j = Queue.Name q) = true) l) as ->.
  { apply list_filter_iff. intros j. by rewrite bool_decide_eq_true. }
  set (l' := filter _ l). destruct (count_states_eq l' 0 (replicate 7 0)) as (H1 & H2 & H3); [done|].
  destruct (foldl _ _ l') as [total states]. cbn [fst snd] in *. unfold jobs_in, set_field. cbn [TotalJobs StateJobs]. split.
  - rewrite H1. unfold l'. rewrite (sum_filter (λ _, true)). rewrite Z.add_0_l. apply sum_Z_ext.
    intros j _. by rewrite andb_true_r.
  - rewrite H3 by done. unfold l'. rewrite (sum_filter (λ j, Job.State j =? st)).
    rewrite lookup_replicate_2 by lia. simpl. apply sum_Z_ext. intros j _.
    destruct (bool_decide (Job.Queue j = Queue.Name q)); [|done]. cbn [andb].
    destruct (Job.State j =? st) eqn:E; bool_to_prop.
    + by rewrite bool_decide_true by (rewrite E; left).
    + rewrite bool_decide_false; [done|]. by rewrite list_elem_of_singleton.
Qed.

Definition one_job : Job := (NewJob 0 "1.srv" "batch" "srv") <| Job.State := StateRunning |>.
Definition one_job_mgr : JobManager.Manager := AddJob one_job (JobManager.NewManager "srv" 2).
Definition one_job_env : Env := mkEnv 0 ["1.srv"] [] [] "head".
Definition drifted_queue : Queue := (NewQueue "batch" TypeExecution) <| TotalJobs := -3 |>.

Lemma refreshQueueCounts_exact_witness :
  let q' := refreshQueueCounts one_job_env one_job_mgr drifted_queue in
  TotalJobs q' = 1 ∧ jobs_in q' 4 = 1.
Proof.
  destruct (refreshQueueCounts_exact one_job_env one_job_mgr drifted_queue 4) as [H1 H2].
  - unfold map_order. change (jobs one_job_mgr) with ({["1.srv" := one_job]} : gmap string Job).
    by rewrite map_to_list_singleton.
  - by vm_compute.
  - cbv zeta. rewrite H1, H2. clear. vm_compute. split; reflexivity.
Defined.
