(* ===== verification/StatusJobs.v ===== *)
(** * Jobs as the scheduler sees them

    [formatJobStatus] of the server (internal/server/server.go) composed with
    [parseJobInfo] of the scheduler (internal/sched/scheduler/scheduler.go). *)

From S2P Require Import Prelude GoStd Dis DisMessage Job JobManager Node Queue Route ServerState.
From S2P Require Import Submit Sched Persist PersistConf Status.

Local Open Scope string_scope.
Local Open Scope list_scope.
Local Open Scope Z_scope.

(** ** The plain attributes *)

Definition parse_jkv (j : JobInfo) (kv : string * string) : JobInfo := parse_job_attr j (attr_of kv).

Lemma foldl_jattr j (l : list (string * string)) :
  foldl parse_job_attr j (attr_of <$> l) = foldl parse_jkv j l.
Proof. revert j. induction l as [|kv l IH]; intros j; [done|]. cbn [fmap list_fmap foldl]. apply IH. Qed.

Section pieces.
Context (key : string) (j : JobInfo).

(** Attributes the scheduler does not read. *)
Lemma skip_text v : (∀ v j, parse_jkv j (key, v) = j) → foldl parse_jkv j (text_attr key v) = j.
Proof. intros Hs. unfold text_attr. case_decide; [done|]. apply Hs. Qed.
Lemma skip_int n : (∀ v j, parse_jkv j (key, v) = j) → foldl parse_jkv j (int_attr key n) = j.
Proof. intros Hs. unfold int_attr. destruct (0 <? n); [|done]. apply Hs. Qed.
Lemma skip_time t : (∀ v j, parse_jkv j (key, v) = j) → foldl parse_jkv j (time_attr key t) = j.
Proof. intros Hs. unfold time_attr. destruct (IsZero t); [done|]. apply Hs. Qed.

(** Attributes it copies. *)
Lemma take_text (proj : JobInfo → string) `{Setter JobInfo string proj} (g : string → string) v :
  (∀ v j, parse_jkv j (key, v) = j <| proj := g v |>) → g "" = "" →
  (∀ j, j <| proj := proj j |> = j) → proj j = "" →
  foldl parse_jkv j (text_attr key v) = j <| proj := g v |>.
Proof.
  intros Hr Hg He Hz. unfold text_attr. case_decide as Hv; cbn [foldl]; [|apply Hr].
  subst v. rewrite Hg, <- Hz. by rewrite He.
Qed.
End pieces.

(** The user of an owner user@host. *)
Definition owner_user (v : string) : string :=
  match cut "@" v with
  | Some (u, _) => if decide (u = "") then v else u
  | None => v
  end.

Definition new_info (id : string) : JobInfo :=
  mkJobInfo id "" "" "" "" 0 zero_time 0 0 1 "" "" [] 0 0 ∅ false false zero_time.
Definition plain_view (j : Job) : JobInfo :=
  (new_info (Job.ID j)) <| j_Name := Job.Name j |> <| j_Owner := owner_user (Owner j) |>
    <| j_State := Job.StateName j |> <| j_Queue := Job.Queue j |> <| j_Priority := Job.Priority j |>
    <| j_QueueTime := saved_time zero_time (QueueTime j) |>.

Ltac skip_t k := rewrite (skip_text k) by (intros; reflexivity).
Ltac skip_i k := rewrite (skip_int k) by (intros; reflexivity).
Ltac skip_tm k := rewrite (skip_time k) by (intros; reflexivity).
Ltac take_t k p g := rewrite (take_text k _ p g) by first [reflexivity | intros []; reflexivity].

Lemma take_priority j n :
  is_int64 n → j_Priority j = 0 →
  foldl parse_jkv j (if n =? 0 then [] else [("Priority", Itoa n)]) = j <| j_Priority := n |>.
Proof.
  intros Hi Hz. destruct (n =? 0) eqn:E; bool_to_prop; [subst; destruct j; simpl in *; by subst|].
  transitivity (j <| j_Priority := (Atoi (Itoa n)).1 |>); [reflexivity|].
  unfold Atoi, Itoa. by rewrite ParseInt_FormatInt.
Qed.

Lemma take_qtime j t :
  is_int64 (Unix t) → j_QueueTime j = zero_time →
  foldl parse_jkv j (time_attr "qtime" t) = j <| j_QueueTime := saved_time zero_time t |>.
Proof.
  intros Hi Hz. unfold time_attr, saved_time. destruct (IsZero t); [destruct j; simpl in *; by subst|].
  transitivity (match ParseInt (Itoa (Unix t)) with
                | (ts, None) => j <| j_QueueTime := time_Unix ts |> | (_, Some _) => j end); [reflexivity|].
  unfold Itoa. by rewrite ParseInt_FormatInt.
Qed.

Lemma parse_head j :
  is_int64 (Job.Priority j) → is_int64 (Unix (QueueTime j)) →
  foldl parse_jkv (new_info (Job.ID j)) (job_head j) = plain_view j.
Proof.
  intros Hp Hq. unfold job_head. rewrite !foldl_app.
  take_t "Job_Name" j_Name (@id string). take_t "Job_Owner" j_Owner owner_user.
  take_t "job_state" j_State (@id string). take_t "queue" j_Queue (@id string).
  skip_t "server". skip_t "Checkpoint".
  match goal with |- context [foldl parse_jkv ?x (if decide (Checkpoint j = "") then _ else _)] =>
    replace (foldl parse_jkv x (if decide (Checkpoint j = "") then [("Checkpoint", "u")] else [])) with x
      by (by case_decide) end.
  skip_t "Output_Path". skip_t "Error_Path". skip_t "Join_Path". skip_t "Keep_Files".
  skip_t "Account_Name". skip_t "Shell_Path_List". skip_t "Mail_Points". skip_t "Mail_Users".
  skip_t "Rerunable". skip_t "Hold_Types". skip_t "User_List". skip_t "depend". skip_t "stagein".
  skip_t "stageout". skip_t "group_list". skip_t "job_array_request". skip_t "init_work_dir".
  skip_t "comment". rewrite take_priority by first [exact Hp | reflexivity].
  skip_tm "Execution_Time". skip_t "exec_host". skip_t "provision_vm". skip_t "provision_node".
  skip_i "exec_port". skip_i "session_id". skip_tm "ctime".
  rewrite take_qtime by first [exact Hq | reflexivity].
  skip_tm "start_time". skip_tm "comp_time". skip_tm "mtime". skip_t "euser". skip_t "egroup".
  destruct (_ || _); reflexivity.
Qed.

Lemma parse_tail `{MapRange} j x : foldl parse_jkv x (job_tail j) = x.
Proof.
  unfold job_tail. rewrite !foldl_app. skip_t "Variable_List". skip_t "hashname".
  skip_t "fault_tolerant". skip_t "job_radix". skip_t "request_version". reflexivity.
Qed.

(** ** The resources *)

Lemma switch_none {A} x (cases : list (list string * A)) d :
  Forall (λ c, x ∉ c.1) cases → switch x cases d = d.
Proof.
  induction cases as [|[ks a] cases IH]; intros Hx; [done|].
  apply Forall_cons in Hx as [Hn Hx]. cbn [switch fst] in *. rewrite bool_decide_false by done. by apply IH.
Qed.

Definition parse_req (m : gmap string string) (j : JobInfo) (k : string) : JobInfo :=
  let v := lookup_or "" k m in
  if decide (v = "") then j else parse_job_attr j (resc_attr "Resource_List" k v).

Lemma foldl_resc (name : string) (m : gmap string string) ks j :
  foldl parse_job_attr j
    (omap (λ k, let v := lookup_or "" k m in if decide (v = "") then None else Some (resc_attr name k v)) ks)
  = foldl (λ j k, let v := lookup_or "" k m in
             if decide (v = "") then j else parse_job_attr j (resc_attr name k v)) j ks.
Proof.
  revert j. induction ks as [|k ks IH]; intros j; [done|]. cbn [omap list_omap foldl]. cbv zeta.
  case_decide; apply IH.
Qed.

(** The usage is not read. *)
Lemma parse_used_resc `{MapRange} m j : foldl parse_job_attr j (resc_attrs "resources_used" m) = j.
Proof.
  unfold resc_attrs. rewrite foldl_resc. generalize (range m). intros ks. revert j.
  induction ks as [|k ks IH]; intros j; [done|]. cbn [foldl]. cbv zeta. rewrite IH.
  case_decide; [done|]. by destruct k.
Qed.

(** The key of a resource. *)
Lemma resc_key_inj k x : "Resource_List." +:+ k = "Resource_List." +:+ x → k = x.
Proof.
  intros E. apply (f_equal (strip_prefix "Resource_List.")) in E. rewrite !strip_prefix_app in E. by simplify_eq.
Qed.

Definition generic_req (j : JobInfo) (k v : string) : JobInfo :=
  match atoi_ok v with
  | Some n => if 0 <? n then j <| j_GRes := <[k := n]> (j_GRes j) |> else j
  | None => j
  end.

Lemma parse_generic j k v :
  k ≠ "" → k ∉ builtin_resources →
  parse_job_attr j (resc_attr "Resource_List" k v) = generic_req j k v.
Proof.
  intros Hk Hb. unfold parse_job_attr. cbn [resc_attr DisMessage.Name HasResc Resc Value].
  rewrite bool_decide_false by done. cbn [andb negb].
  change ("Resource_List" +:+ "." +:+ k) with ("Resource_List." +:+ k).
  rewrite switch_none.
  - rewrite strip_prefix_app. unfold generic_req. by destruct (atoi_ok v).
  - unfold builtin_resources in Hb.
    repeat (apply Forall_cons_2; [cbn [fst]; rewrite ?elem_of_cons, ?elem_of_nil; intros Hin;
      repeat destruct Hin as [Hin|Hin]; try done; apply Hb, list_elem_of_In;
      first [ apply (resc_key_inj k "walltime") in Hin | apply (resc_key_inj k "mem") in Hin
            | apply (resc_key_inj k "ncpus") in Hin | apply (resc_key_inj k "nodes") in Hin
            | apply (resc_key_inj k "select") in Hin | apply (resc_key_inj k "ppn") in Hin
            | apply (resc_key_inj k "host") in Hin | apply (resc_key_inj k "feature") in Hin
            | apply (resc_key_inj k "features") in Hin | apply (resc_key_inj k "properties") in Hin ];
      subst k; simpl; tauto|]).
    constructor.
Qed.

(** What the resources do not touch. *)
Definition frame (j : JobInfo) : string * string * string * string * string * Z * Time :=
  (j_ID j, j_Name j, j_Owner j, j_State j, j_Queue j, j_Priority j, j_QueueTime j).

Lemma parse_resc_fields j k v :
  k ≠ "" →
  let j' := parse_job_attr j (resc_attr "Resource_List" k v) in
  j_Walltime j' = (if decide (k = "walltime") then parseWalltime v else j_Walltime j) ∧
  j_MemReq j' = (if decide (k = "mem") then parseMemory v else j_MemReq j) ∧
  j_CPUReq j' = (if decide (k = "ncpus") then (Atoi v).1 else j_CPUReq j) ∧
  j_GRes j' = (if decide (k ∈ builtin_resources) then j_GRes j else j_GRes (generic_req j k v)) ∧
  frame j' = frame j.
Proof.
  intros Hk. destruct (decide (k ∈ builtin_resources)) as [Hb|Hb].
  - unfold builtin_resources in Hb. rewrite !elem_of_cons, elem_of_nil in Hb.
    destruct_or! Hb; try done; subst k.
    1-5: unfold parse_job_attr; cbn -[parseNodeSelectSpec parseWalltime parseMemory Atoi];
         try (destruct (parseNodeSelectSpec v)); done.
    + change (parse_job_attr j (resc_attr "Resource_List" "ppn" v)) with
        (match atoi_ok v with Some p => if 0 <? p then j <| j_PPN := p |> else j | None => j end).
      destruct (atoi_ok v) as [p|]; [destruct (0 <? p)|]; done.
    + change (parse_job_attr j (resc_attr "Resource_List" "host" v)) with
        (match strip_prefix "@" (TrimSpace v) with Some g => j <| j_HostGroup := g |> | None => j <| j_Host := v |> end).
      destruct (strip_prefix "@" (TrimSpace v)); done.
    + done.
    + done.
    + done.
  - rewrite parse_generic by done. unfold builtin_resources in Hb.
    rewrite !not_elem_of_cons in Hb. destruct_and! Hb. unfold generic_req.
    rewrite !decide_False by done. destruct (atoi_ok v) as [n|]; [destruct (0 <? n)|]; done.
Qed.

(** A field that one resource sets, after all of them. *)
Definition requested {T} (m : gmap string string) (k : string) (g : string → T) (d : T) : T :=
  let v := lookup_or "" k m in if decide (v = "") then d else g v.

Lemma fold_field {T} (proj : JobInfo → T) k0 (g : string → T) m ks j :
  (∀ j k v, k ≠ "" → proj (parse_job_attr j (resc_attr "Resource_List" k v))
                     = if decide (k = k0) then g v else proj j) →
  "" ∉ ks →
  proj (foldl (parse_req m) j ks) = if decide (k0 ∈ ks) then requested m k0 g (proj j) else proj j.
Proof.
  intros Hp. revert j. induction ks as [|k ks IH]; intros j Hks; cbn [foldl]; [done|].
  apply not_elem_of_cons in Hks as [Hk Hks]. rewrite IH by done.
  assert (proj (parse_req m j k) = if decide (k = k0) then requested m k0 g (proj j) else proj j) as ->.
  { unfold parse_req, requested. cbv zeta. destruct (decide (k = k0)) as [->|Hne].
    - destruct (decide (lookup_or "" k0 m = "")); [done|]. rewrite Hp by done. by rewrite decide_True.
    - destruct (decide (lookup_or "" k m = "")); [done|]. rewrite Hp by done. by rewrite decide_False. }
  destruct (decide (k = k0)) as [->|Hne].
  - rewrite (decide_True (P := k0 ∈ k0 :: ks)) by by left. case_decide; [|done].
    unfold requested. cbv zeta. by case_decide.
  - rewrite (decide_ext (k0 ∈ k :: ks) (k0 ∈ ks)); [done|]. rewrite elem_of_cons. naive_solver.
Qed.

Lemma fold_gres m ks j :
  "" ∉ ks → j_GRes (foldl (parse_req m) j ks) = foldl (add_req m) (j_GRes j) ks.
Proof.
  revert j. induction ks as [|k ks IH]; intros j Hks; cbn [foldl]; [done|].
  apply not_elem_of_cons in Hks as [Hk Hks]. rewrite IH by done. f_equal.
  unfold parse_req, add_req. cbv zeta. case_decide as Hv.
  - rewrite Hv. by case_decide.
  - destruct (parse_resc_fields j k (lookup_or "" k m)) as (_ & _ & _ & -> & _); [done|].
    case_decide; [done|]. unfold generic_req. destruct (atoi_ok _) as [n|]; [destruct (0 <? n)|]; done.
Qed.

Lemma fold_frame m ks j : "" ∉ ks → frame (foldl (parse_req m) j ks) = frame j.
Proof.
  revert j. induction ks as [|k ks IH]; intros j Hks; cbn [foldl]; [done|].
  apply not_elem_of_cons in Hks as [Hk Hks]. rewrite IH by done. unfold parse_req. cbv zeta.
  case_decide; [done|]. by apply parse_resc_fields.
Qed.

Lemma requested_range `{MapRange} {T} m k (g : string → T) d :
  (if decide (k ∈ range m) then requested m k g d else d) = requested m k g d.
Proof.
  case_decide as Hk; [done|]. unfold requested, lookup_or. cbv zeta.
  rewrite (map_order_elem _ _ _ (range_order m)) in Hk. destruct (m !! k); [by destruct Hk|]. done.
Qed.

(** ** Theorem *)

(** C28: the scheduler sees a job as the server keeps it: its name, user, state, queue,
    priority, queue time to the second, walltime, memory and processors as requested (one
    processor when none are), and exactly the generic resources that the server itself
    charges to the node for it, whatever the order the resources are reported in. *)
Theorem scheduler_sees_job `{MapRange} j :
  is_int64 (Job.Priority j) → is_int64 (Unix (QueueTime j)) → ResourceReq j !! "" = None →
  let i := parseJobInfo (formatJobStatus j) in
  frame i = (Job.ID j, Job.Name j, owner_user (Owner j), Job.StateName j, Job.Queue j, Job.Priority j,
             saved_time zero_time (QueueTime j)) ∧
  j_Walltime i = requested (ResourceReq j) "walltime" parseWalltime 0 ∧
  j_MemReq i = requested (ResourceReq j) "mem" parseMemory 0 ∧
  j_CPUReq i = requested (ResourceReq j) "ncpus" (λ v, (Atoi v).1) 1 ∧
  j_GRes i = jobGenericReqs j.
Proof.
  intros Hp Hq Hr i.
  assert (i = foldl (parse_req (ResourceReq j)) (plain_view j) (range (ResourceReq j))) as ->.
  { unfold i, parseJobInfo, formatJobStatus. cbn [obj_Name obj_Attrs]. fold (new_info (Job.ID j)).
    rewrite !foldl_app, !foldl_jattr, parse_head by done.
    rewrite parse_tail, parse_used_resc. unfold resc_attrs. by rewrite foldl_resc. }
  assert ("" ∉ range (ResourceReq j)) as Hne.
  { rewrite (map_order_elem _ _ _ (range_order _)), Hr. by intros []. }
  split_and!.
  - by rewrite fold_frame.
  - rewrite (fold_field j_Walltime "walltime" parseWalltime), requested_range; [done| |done].
    intros ???. apply parse_resc_fields.
  - rewrite (fold_field j_MemReq "mem" parseMemory), requested_range; [done| |done].
    intros ????. by apply parse_resc_fields.
  - rewrite (fold_field j_CPUReq "ncpus" (λ v, (Atoi v).1)), requested_range; [done| |done].
    intros ????. by apply parse_resc_fields.
  - by rewrite fold_gres.
Qed.

Definition queued_job : Job :=
  (NewJob (time_Unix 5) "7.srv" "batch" "srv") <| Owner := "ann@host" |> <| Job.State := StateQueued |>
    <| ResourceReq := {["ncpus" := "4"; "lic" := "2"; "walltime" := "01:00:00"]} |>.

Lemma scheduler_sees_job_witness :
  let i := parseJobInfo (formatJobStatus queued_job) in
  frame i = ("7.srv", "", "ann", "Q", "batch", 0, zero_time) ∧
  j_Walltime i = 3600 * Second ∧ j_MemReq i = 0 ∧ j_CPUReq i = 4 ∧ j_GRes i = {["lic" := 2]}.
Proof.
  destruct (scheduler_sees_job queued_job) as (H1 & H2 & H3 & H4 & H5); [by_decide|by_decide|by vm_compute|].
  cbv zeta. rewrite H1, H2, H3, H4, H5. clear. vm_compute. repeat split.
Defined.
