(* ===== verification/PersistServer.v ===== *)
(** * The server database: saveServerDB, recoverServerDB and what they call in
    internal/server/server.go

    The settings of the server and the next job number are saved as a flat XML document,
    one element per setting, and read back when the server starts; the older format of
    key=value lines is recognised.  The document is a list of elements here, in the order
    the source writes them, and its text is their concatenation. *)

From S2P Require Import Prelude GoStd Job JobManager Node Queue Route ServerConfig ServerState.
From S2P Require Import Store Persist PersistConf Recover.

Local Open Scope string_scope.
Local Open Scope list_scope.
Local Open Scope Z_scope.

(** ** The saved text *)

(** The cases of [applyServerDBAttr] but for the next job number, which is not in the
    configuration. *)
(** Scheduling, timing, logging and access control. *)
Definition db_cases_general : list (string * Field) :=
  [("default_queue", STR cfg_DefaultQueue); ("scheduling", BOOL Scheduling);
   ("scheduler_iteration", INT SchedulerIteration); ("event_driven", BOOL EventDriven);
   ("sched_min_interval", INT SchedMinInterval);
   ("default_queue_depth", INT cfg_DefaultQueueDepth);
   ("sched_max_job_start", INT cfg_SchedMaxJobStart); ("max_sched_time", INT cfg_MaxSchedTime);
   ("defer", BOOL SchedDefer); ("defer_batch", BOOL SchedDeferBatch);
   ("sched_trigger_port", INT SchedTriggerPort); ("node_check_rate", INT NodeCheckRate);
   ("tcp_timeout", INT TCPTimeout); ("keep_completed", INT KeepCompleted);
   ("job_stat_rate", INT JobStatRate); ("poll_jobs", BOOL PollJobs); ("ping_rate", INT PingRate);
   ("job_start_timeout", INT JobStartTimeout); ("job_force_cancel_time", INT JobForceCancelTime);
   ("job_sync_timeout", INT JobSyncTimeout); ("log_events", INT LogLevel);
   ("log_file_max_size", INT LogFileMaxSize); ("log_file_roll_depth", INT LogFileRollDepth);
   ("log_keep_days", INT LogKeepDays); ("record_job_info", BOOL RecordJobInfo);
   ("record_job_script", BOOL RecordJobScript); ("job_log_file_max_size", INT JobLogFileMaxSize);
   ("job_log_file_roll_depth", INT JobLogFileRollDepth);
   ("job_log_keep_days", INT JobLogKeepDays); ("managers", STR Managers);
   ("operators", STR Operators); ("acl_host_enable", BOOL ACLHostEnable);
   ("acl_hosts", STR cfg_ACLHosts); ("acl_user_enable", BOOL ACLUserEnable);
   ("acl_users", STR cfg_ACLUsers); ("acl_roots", STR ACLRoots);
   ("acl_logic_or", BOOL ACLLogicOr); ("acl_group_sloppy", BOOL ACLGroupSloppy);
   ("acl_user_hosts", STR ACLUserHosts); ("acl_group_hosts", STR ACLGroupHosts)].

(** Limits, mail, node and job policy, arrays, timeouts, hardware and the rest. *)
Definition db_cases_policy : list (string * Field) :=
  [("max_running", INT MaxRunning); ("max_user_run", INT cfg_MaxUserRun);
   ("max_group_run", INT MaxGroupRun); ("max_user_queuable", INT MaxUserQueuable);
   ("mail_domain", STR MailDomain); ("mail_from", STR MailFrom);
   ("no_mail_force", BOOL NoMailForce); ("mail_subject_fmt", STR MailSubjectFmt);
   ("mail_body_fmt", STR MailBodyFmt); ("email_batch_seconds", INT EmailBatchSeconds);
   ("default_node", STR DefaultNode); ("node_pack", BOOL NodePack);
   ("query_other_jobs", BOOL QueryOtherJobs); ("mom_job_sync", BOOL MOMJobSync);
   ("down_on_error", BOOL DownOnError); ("disable_server_id_check", BOOL DisableServerIdCheck);
   ("allow_node_submit", BOOL AllowNodeSubmit); ("allow_proxy_user", BOOL AllowProxyUser);
   ("auto_node_np", BOOL AutoNodeNP); ("np_default", INT NPDefault);
   ("allow_dynamic_nodes", BOOL AllowDynamicNodes);
   ("node_allowed_ip_ranges", STR NodeAllowedIPRanges); ("job_nanny", BOOL JobNanny);
   ("owner_purge", BOOL OwnerPurge); ("copy_on_rerun", BOOL CopyOnRerun);
   ("job_exclusive_on_use", BOOL JobExclusiveOnUse);
   ("disable_automatic_requeue", BOOL DisableAutoRequeue);
   ("automatic_requeue_exit_code", INT AutoRequeueExitCode);
   ("dont_write_nodes_file", BOOL DontWriteNodesFile);
   ("max_job_array_size", INT MaxJobArraySize); ("max_slot_limit", INT MaxSlotLimit);
   ("clone_batch_size", INT CloneBatchSize); ("clone_batch_delay", INT CloneBatchDelay);
   ("moab_array_compatible", BOOL MoabArrayCompatible);
   ("display_job_server_suffix", BOOL DisplayJobServerSuffix);
   ("job_suffix_alias", STR JobSuffixAlias); ("use_jobs_subdirs", BOOL UseJobsSubdirs);
   ("kill_delay", INT KillDelay); ("user_kill_delay", INT UserKillDelay);
   ("exit_code_canceled_job", INT ExitCodeCanceledJob);
   ("timeout_for_job_delete", INT TimeoutForJobDelete);
   ("timeout_for_job_requeue", INT TimeoutForJobRequeue);
   ("default_gpu_mode", STR DefaultGpuMode); ("idle_slot_limit", INT IdleSlotLimit);
   ("cgroup_per_task", BOOL CgroupPerTask); ("pass_cpu_clock", BOOL PassCpuClock);
   ("submit_hosts", STR SubmitHosts); ("node_submit_exceptions", STR NodeSubmitExceptions);
   ("node_suffix", STR NodeSuffix); ("comment", STR cfg_Comment);
   ("lock_file_update_time", INT LockFileUpdateTime);
   ("lock_file_check_time", INT LockFileCheckTime);
   ("interactive_jobs_can_roam", BOOL InteractiveJobsCanRoam); ("legacy_vmem", BOOL LegacyVmem);
   ("ghost_array_recovery", BOOL GhostArrayRecovery);
   ("tcp_incoming_timeout", INT TCPIncomingTimeout);
   ("job_full_report_time", INT JobFullReportTime)].

Definition db_cases : list (string * Field) := db_cases_general ++ db_cases_policy.

(** One call of the writers of [saveServerDB]. *)
Inductive Write :=
  | writeInt (tag : string) (get : Config → Z)
  | writeBool (tag : string) (get : Config → bool)
  | writeStr (tag : string) (get : Config → string)
  | writeMap (tag : string) (get : Config → gmap string string).

(** Scheduling, timing, logging and access control. *)
Definition db_writes_general : list Write :=
  [writeStr "default_queue" cfg_DefaultQueue; writeBool "scheduling" Scheduling;
   writeInt "scheduler_iteration" SchedulerIteration; writeBool "event_driven" EventDriven;
   writeInt "sched_min_interval" SchedMinInterval;
   writeInt "default_queue_depth" cfg_DefaultQueueDepth;
   writeInt "sched_max_job_start" cfg_SchedMaxJobStart;
   writeInt "max_sched_time" cfg_MaxSchedTime; writeBool "defer" SchedDefer;
   writeBool "defer_batch" SchedDeferBatch; writeInt "sched_trigger_port" SchedTriggerPort;
   writeInt "node_check_rate" NodeCheckRate; writeInt "tcp_timeout" TCPTimeout;
   writeInt "keep_completed" KeepCompleted; writeInt "job_stat_rate" JobStatRate;
   writeBool "poll_jobs" PollJobs; writeInt "ping_rate" PingRate;
   writeInt "job_start_timeout" JobStartTimeout;
   writeInt "job_force_cancel_time" JobForceCancelTime;
   writeInt "job_sync_timeout" JobSyncTimeout; writeInt "log_events" LogLevel;
   writeInt "log_file_max_size" LogFileMaxSize; writeInt "log_file_roll_depth" LogFileRollDepth;
   writeInt "log_keep_days" LogKeepDays; writeBool "record_job_info" RecordJobInfo;
   writeBool "record_job_script" RecordJobScript;
   writeInt "job_log_file_max_size" JobLogFileMaxSize;
   writeInt "job_log_file_roll_depth" JobLogFileRollDepth;
   writeInt "job_log_keep_days" JobLogKeepDays; writeStr "managers" Managers;
   writeStr "operators" Operators; writeBool "acl_host_enable" ACLHostEnable;
   writeStr "acl_hosts" cfg_ACLHosts; writeBool "acl_user_enable" ACLUserEnable;
   writeStr "acl_users" cfg_ACLUsers; writeStr "acl_roots" ACLRoots;
   writeBool "acl_logic_or" ACLLogicOr; writeBool "acl_group_sloppy" ACLGroupSloppy;
   writeStr "acl_user_hosts" ACLUserHosts; writeStr "acl_group_hosts" ACLGroupHosts].

(** Limits, mail, node and job policy, arrays, timeouts, hardware and the rest. *)
Definition db_writes_policy : list Write :=
  [writeInt "max_running" MaxRunning; writeInt "max_user_run" cfg_MaxUserRun;
   writeInt "max_group_run" MaxGroupRun; writeInt "max_user_queuable" MaxUserQueuable;
   writeMap "resources_available" ResourcesAvail; writeMap "resources_default" ResourcesDefault;
   writeMap "resources_max" ResourcesMax; writeMap "resources_cost" ResourcesCost;
   writeStr "mail_domain" MailDomain; writeStr "mail_from" MailFrom;
   writeBool "no_mail_force" NoMailForce; writeStr "mail_subject_fmt" MailSubjectFmt;
   writeStr "mail_body_fmt" MailBodyFmt; writeInt "email_batch_seconds" EmailBatchSeconds;
   writeStr "default_node" DefaultNode; writeBool "node_pack" NodePack;
   writeBool "query_other_jobs" QueryOtherJobs; writeBool "mom_job_sync" MOMJobSync;
   writeBool "down_on_error" DownOnError;
   writeBool "disable_server_id_check" DisableServerIdCheck;
   writeBool "allow_node_submit" AllowNodeSubmit; writeBool "allow_proxy_user" AllowProxyUser;
   writeBool "auto_node_np" AutoNodeNP; writeInt "np_default" NPDefault;
   writeBool "allow_dynamic_nodes" AllowDynamicNodes;
   writeStr "node_allowed_ip_ranges" NodeAllowedIPRanges; writeBool "job_nanny" JobNanny;
   writeBool "owner_purge" OwnerPurge; writeBool "copy_on_rerun" CopyOnRerun;
   writeBool "job_exclusive_on_use" JobExclusiveOnUse;
   writeBool "disable_automatic_requeue" DisableAutoRequeue;
   writeInt "automatic_requeue_exit_code" AutoRequeueExitCode;
   writeBool "dont_write_nodes_file" DontWriteNodesFile;
   writeInt "max_job_array_size" MaxJobArraySize; writeInt "max_slot_limit" MaxSlotLimit;
   writeInt "clone_batch_size" CloneBatchSize; writeInt "clone_batch_delay" CloneBatchDelay;
   writeBool "moab_array_compatible" MoabArrayCompatible;
   writeBool "display_job_server_suffix" DisplayJobServerSuffix;
   writeStr "job_suffix_alias" JobSuffixAlias; writeBool "use_jobs_subdirs" UseJobsSubdirs;
   writeInt "kill_delay" KillDelay; writeInt "user_kill_delay" UserKillDelay;
   writeInt "exit_code_canceled_job" ExitCodeCanceledJob;
   writeInt "timeout_for_job_delete" TimeoutForJobDelete;
   writeInt "timeout_for_job_requeue" TimeoutForJobRequeue;
   writeStr "default_gpu_mode" DefaultGpuMode; writeInt "idle_slot_limit" IdleSlotLimit;
   writeBool "cgroup_per_task" CgroupPerTask; writeBool "pass_cpu_clock" PassCpuClock;
   writeStr "submit_hosts" SubmitHosts; writeStr "node_submit_exceptions" NodeSubmitExceptions;
   writeStr "node_suffix" NodeSuffix; writeStr "comment" cfg_Comment;
   writeInt "lock_file_update_time" LockFileUpdateTime;
   writeInt "lock_file_check_time" LockFileCheckTime;
   writeBool "interactive_jobs_can_roam" InteractiveJobsCanRoam;
   writeBool "legacy_vmem" LegacyVmem; writeBool "ghost_array_recovery" GhostArrayRecovery;
   writeInt "tcp_incoming_timeout" TCPIncomingTimeout;
   writeInt "job_full_report_time" JobFullReportTime].

Definition db_writes : list Write := db_writes_general ++ db_writes_policy.

(** The tags [recoverServerDBXML] looks for. *)
Definition xml_tags : list string :=
  ["nextjobid"; "default_queue"; "scheduling"; "scheduler_iteration"; "node_check_rate";
   "tcp_timeout"; "keep_completed"; "job_stat_rate"; "poll_jobs"; "ping_rate";
   "job_start_timeout"; "job_force_cancel_time"; "job_sync_timeout"; "log_events";
   "log_file_max_size"; "log_file_roll_depth"; "log_keep_days"; "record_job_info";
   "record_job_script"; "job_log_file_max_size"; "job_log_file_roll_depth"; "job_log_keep_days";
   "managers"; "operators"; "acl_host_enable"; "acl_hosts"; "acl_user_enable"; "acl_users";
   "acl_roots"; "acl_logic_or"; "acl_group_sloppy"; "acl_user_hosts"; "acl_group_hosts";
   "max_running"; "max_user_run"; "max_group_run"; "max_user_queuable"; "mail_domain";
   "mail_from"; "no_mail_force"; "mail_subject_fmt"; "mail_body_fmt"; "email_batch_seconds";
   "default_node"; "node_pack"; "query_other_jobs"; "mom_job_sync"; "down_on_error";
   "disable_server_id_check"; "allow_node_submit"; "allow_proxy_user"; "auto_node_np";
   "np_default"; "allow_dynamic_nodes"; "node_allowed_ip_ranges"; "job_nanny"; "owner_purge";
   "copy_on_rerun"; "job_exclusive_on_use"; "disable_automatic_requeue";
   "automatic_requeue_exit_code"; "dont_write_nodes_file"; "max_job_array_size";
   "max_slot_limit"; "clone_batch_size"; "clone_batch_delay"; "moab_array_compatible";
   "display_job_server_suffix"; "job_suffix_alias"; "use_jobs_subdirs"; "kill_delay";
   "user_kill_delay"; "exit_code_canceled_job"; "timeout_for_job_delete";
   "timeout_for_job_requeue"; "default_gpu_mode"; "idle_slot_limit"; "cgroup_per_task";
   "pass_cpu_clock"; "submit_hosts"; "node_submit_exceptions"; "node_suffix"; "comment";
   "lock_file_update_time"; "lock_file_check_time"; "interactive_jobs_can_roam"; "legacy_vmem";
   "ghost_array_recovery"; "tcp_incoming_timeout"; "job_full_report_time"].

(** ** Writing the document *)

Definition dquote : string := String (ascii_of_nat 34) "".
Definition endl : string := String newline "".

Definition db_head : string :=
  "<?xml version=" +:+ dquote +:+ "1.0" +:+ dquote +:+ " encoding=" +:+ dquote +:+ "UTF-8"
  +:+ dquote +:+ "?>" +:+ endl +:+ "<server_db>" +:+ endl.
Definition db_foot : string := "</server_db>" +:+ endl.

(** [writeTag]. *)
Definition element (tv : string * string) : string :=
  "  <" +:+ tv.1 +:+ ">" +:+ tv.2 +:+ "</" +:+ tv.1 +:+ ">" +:+ endl.

Section document.
Context `{MapRange}.

(** The elements a call writes. *)
Definition written (c : Config) (w : Write) : list (string * string) :=
  match w with
  | writeInt tag get => [(tag, Itoa (get c))]
  | writeBool tag get => [(tag, bool_text (get c))]
  | writeStr tag get => text_attr tag (get c)
  | writeMap tag get => map_attrs (tag +:+ ".") (get c)
  end.

Definition db_elements (s : Server) : list (string * string) :=
  ("nextjobid", Itoa (GetNextJobIDNum (jobMgr s))) :: concat (written (cfg s) <$> db_writes).

Definition elements_text (els : list (string * string)) (rest : string) : string :=
  foldr (λ tv s, element tv +:+ s) rest els.

Definition db_text (s : Server) : string := db_head +:+ elements_text (db_elements s) db_foot.

Definition saveServerDB (s : Server) (fs : FileStore) : FileStore :=
  (SaveServerDB NoFault (db_text s) fs).2.

End document.

(** ** Reading it *)

Definition applyServerDBAttr (key val : string) (s : Server) : Server :=
  if decide (key = "nextjobid" ∨ key = "next_job_id") then
    match atoi_ok val with
    | Some n => upd_mgr (SetNextJobIDNum n) s
    | None => s
    end
  else match find_case key db_cases with
       | Some f => s <| cfg := assign f val (cfg s) |>
       | None => s
       end.

(** The loop of [parseResourceMapXML] on what is left of the content: every turn moves
    past an element, so the number of turns is below the length of the content. *)
Fixpoint parse_resc (fuel : nat) (content prefix : string) (m : gmap string string) : gmap string string :=
  match fuel with
  | O => m
  | S fuel =>
    match cut_str ("<" +:+ prefix +:+ ".") content with
    | None => m
    | Some (_, rest) =>
      match cut ">" (prefix +:+ "." +:+ rest) with
      | None => m
      | Some (fullTag, body) =>
        match cut_str ("</" +:+ fullTag +:+ ">") body with
        | None => m
        | Some (val, content) =>
          parse_resc fuel content prefix (<[TrimPrefix fullTag (prefix +:+ ".") := TrimSpace val]> m)
        end
      end
    end
  end.
Definition parseResourceMapXML (content prefix : string) (m : gmap string string) : gmap string string :=
  parse_resc (S (String.length content)) content prefix m.

Definition rescMaps : list (string * RescField) :=
  [("resources_available", MAP ResourcesAvail); ("resources_default", MAP ResourcesDefault);
   ("resources_max", MAP ResourcesMax); ("resources_cost", MAP ResourcesCost)].

(** The bodies of the two loops of [recoverServerDBXML]. *)
Definition read_tag (content : string) (s : Server) (tag : string) : Server :=
  let val := extractXMLTag content tag in
  if decide (val = "") then s else applyServerDBAttr tag val s.
Definition read_resc (content : string) (s : Server) (prefix : string) : Server :=
  match find_case prefix rescMaps with
  | Some r => s <| cfg := rset r (parseResourceMapXML content prefix (rget r (cfg s))) (cfg s) |>
  | None => s
  end.

(** The two loops range over maps with these keys. *)
Definition key_map {A} (a : A) (l : list string) : gmap string A := list_to_map ((λ k, (k, a)) <$> l).

Definition recoverServerDBXML `{MapRange} (content : string) (s : Server) : Server :=
  let s := foldl (read_tag content) s (range (key_map "" xml_tags)) in
  foldl (read_resc content) s (range (list_to_map rescMaps : gmap string RescField)).

Definition recoverServerDB `{MapRange} (fs : FileStore) (s : Server) : Server :=
  match LoadServerDB fs with
  | None => s
  | Some content =>
    if Contains content "<server_db>" || Contains content "<nextjobid>"
    then recoverServerDBXML content s
    else read_kv applyServerDBAttr content s
  end.

(** ** The whole state *)

Definition saveState `{MapRange} (s : Server) (fs : FileStore) : FileStore := save_tables s (saveServerDB s fs).
Definition recoverState `{MapRange} (env : Env) (fs : FileStore) (s : Server) : Server :=
  recover_tables env fs (recoverServerDB fs s).
