(* ===== verification/PersistServerSpec.v ===== *)
(** * The server database is read back as it was written

    The text of the saved document is taken apart element by element: no value or tag
    holds an angle bracket, so a search for an opening tag finds exactly the element of
    that tag.  The settings are then seen as a list of values, one per case of
    [applyServerDBAttr]: each case writes its own position, which makes the order in
    which the tags are ranged over irrelevant. *)

From S2P Require Import Prelude GoStd Job JobManager Node Queue Route ServerConfig ServerState.
From S2P Require Import Submit Store Persist PersistConf Recover Restart PersistServer.

Local Open Scope string_scope.
Local Open Scope list_scope.
Local Open Scope Z_scope.

(** ** Searching an XML text *)

(** What follows the first occurrence of [sub]. *)
Definition after (sub s : string) : option string := snd <$> cut_str sub s.

Lemma after_eq sub s :
  after sub s = match strip_prefix sub s with
                | Some r => Some r
                | None => match s with EmptyString => None | String _ s => after sub s end
                end.
Proof.
  unfold after. destruct s as [|c s]; cbn [cut_str]; destruct (strip_prefix sub _); try done.
  by destruct (cut_str sub s) as [[? ?]|].
Qed.

(** A text without an opening bracket is skipped. *)
Lemma after_skip p a b :
  has_byte "<" a = false → after (String "<" p) (a +:+ b) = after (String "<" p) b.
Proof.
  induction a as [|c a IH]; [done|]. cbn [has_byte]. intros [Hc Ha]%orb_false_iff.
  change (String c a +:+ b) with (String c (a +:+ b)). rewrite after_eq. cbn [strip_prefix].
  rewrite decide_False; [by apply IH|]. intros <-. by rewrite bool_decide_true in Hc.
Qed.

Lemma after_miss sub c s : strip_prefix sub (String c s) = None → after sub (String c s) = after sub s.
Proof. intros H. by rewrite after_eq, H. Qed.

Lemma cut_str_here p a b :
  has_byte "<" a = false → cut_str (String "<" p) (a +:+ String "<" (p +:+ b)) = Some (a, b).
Proof.
  induction a as [|c a IH]; intros Ha.
  - change ("" +:+ String "<" (p +:+ b)) with (String "<" p +:+ b).
    destruct (String "<" p +:+ b) eqn:E; cbn [cut_str]; rewrite <- E, strip_prefix_app; done.
  - cbn [has_byte] in Ha. apply orb_false_iff in Ha as [Hc Ha].
    change (String c a +:+ String "<" (p +:+ b)) with (String c (a +:+ String "<" (p +:+ b))).
    cbn [cut_str strip_prefix]. rewrite decide_False by (intros <-; by rewrite bool_decide_true in Hc).
    by rewrite IH.
Qed.

(** Two words that end at the first [c]. *)
Lemma strip_prefix_word c t t' r :
  has_byte c t = false → has_byte c t' = false →
  strip_prefix (t +:+ String c "") (t' +:+ String c r) = if decide (t = t') then Some r else None.
Proof.
  revert t'. induction t as [|d t IH]; intros [|d' t'] Ht Ht'; cbn [has_byte] in *.
  - change ("" +:+ String c "") with (String c ""). change ("" +:+ String c r) with (String c r).
    cbn [strip_prefix]. by rewrite !decide_True.
  - apply orb_false_iff in Ht' as [Hc _]. change ("" +:+ String c "") with (String c "").
    change (String d' t' +:+ String c r) with (String d' (t' +:+ String c r)). cbn [strip_prefix].
    rewrite decide_False by (intros <-; by rewrite bool_decide_true in Hc). by rewrite decide_False.
  - apply orb_false_iff in Ht as [Hc _]. change (String d t +:+ String c "") with (String d (t +:+ String c "")).
    change ("" +:+ String c r) with (String c r). cbn [strip_prefix].
    rewrite decide_False by (intros ->; by rewrite bool_decide_true in Hc). by rewrite decide_False.
  - apply orb_false_iff in Ht as [_ Ht]. apply orb_false_iff in Ht' as [_ Ht'].
    change (String d t +:+ String c "") with (String d (t +:+ String c "")).
    change (String d' t' +:+ String c r) with (String d' (t' +:+ String c r)). cbn [strip_prefix].
    destruct (decide (d = d')) as [<-|Hn].
    + rewrite IH by done. destruct (decide (t = t')) as [<-|Hn]; [by rewrite decide_True|].
      rewrite decide_False; [done|]. intros E. by injection E.
    + rewrite decide_False; [done|]. intros E. by injection E.
Qed.

Lemma strip_prefix_tag t t' r :
  has_byte ">" t = false → has_byte ">" t' = false →
  strip_prefix (t +:+ ">") (t' +:+ String ">" r) = if decide (t = t') then Some r else None.
Proof. apply strip_prefix_word. Qed.

Lemma strip_prefix_app_none c p t r :
  has_byte c p = false → strip_prefix p t = None → strip_prefix p (t +:+ String c r) = None.
Proof.
  revert t. induction p as [|d p IH]; intros t Hp Ht; [by destruct t|].
  cbn [has_byte] in Hp. apply orb_false_iff in Hp as [Hd Hp].
  destruct t as [|e t].
  - change ("" +:+ String c r) with (String c r). cbn [strip_prefix].
    rewrite decide_False; [done|]. intros ->. by rewrite bool_decide_true in Hd.
  - change (String e t +:+ String c r) with (String e (t +:+ String c r)). cbn [strip_prefix] in *.
    destruct (decide (d = e)); [by apply IH|done].
Qed.

(** ** The elements of the document *)

(** Tags that can be searched for, and texts that can be the content of an element. *)
Definition plain_tag (t : string) : Prop :=
  has_byte "<" t = false ∧ has_byte ">" t = false ∧
  match t with String c _ => c ≠ "/"%char ∧ c ≠ "?"%char | EmptyString => False end.
Definition angle_free (tv : string * string) : Prop :=
  has_byte "<" tv.1 = false ∧ has_byte ">" tv.1 = false ∧ has_byte "<" tv.2 = false.

Lemma element_eq t v rest :
  element (t, v) +:+ rest
  = "  " +:+ String "<" (t +:+ String ">" (v +:+ String "<" (String "/" (t +:+ String ">" (endl +:+ rest))))).
Proof. unfold element. cbn [fst snd]. rewrite !app_str_assoc. reflexivity. Qed.

(** The element is skipped when the pattern is not its opening tag. *)
Lemma after_element p t v rest :
  has_byte "<" t = false → has_byte "<" v = false →
  (∀ s, strip_prefix p (t +:+ String ">" s) = None) → (∀ s, strip_prefix p (String "/" s) = None) →
  after (String "<" p) (element (t, v) +:+ rest) = after (String "<" p) rest.
Proof.
  intros Ht Hv Hp Hs. rewrite element_eq, after_skip by done.
  rewrite after_miss by (cbn [strip_prefix]; rewrite decide_True by done; apply Hp).
  rewrite after_skip by done.
  change (String ">" (v +:+ ?x)) with ((">" +:+ v) +:+ x). rewrite after_skip by done.
  rewrite after_miss by (cbn [strip_prefix]; rewrite decide_True by done; apply Hs).
  change (String "/" (t +:+ ?x)) with (("/" +:+ t) +:+ x). rewrite after_skip by done.
  change (String ">" (endl +:+ rest)) with ((">" +:+ endl) +:+ rest). by rewrite after_skip.
Qed.

Lemma strip_prefix_slash p s :
  match p with String c _ => c ≠ "/"%char | EmptyString => False end → strip_prefix p (String "/" s) = None.
Proof. destruct p as [|c p]; [done|]. intros Hc. cbn [strip_prefix]. by rewrite decide_False. Qed.

(** The opening tag of an element that is there is found at it, and the first one is found. *)
Lemma after_open tag els rest :
  plain_tag tag → Forall angle_free els → after (String "<" (tag +:+ ">")) rest = None →
  match find_case tag els with
  | Some v => ∃ rest', after (String "<" (tag +:+ ">")) (elements_text els rest)
                = Some (v +:+ String "<" (("/" +:+ tag +:+ ">") +:+ rest'))
  | None => after (String "<" (tag +:+ ">")) (elements_text els rest) = None
  end.
Proof.
  intros (H1 & H2 & H3) Hels Hrest. induction Hels as [|[t v] els (A1 & A2 & A3) _ IH]; [done|].
  cbn [fst snd] in *. cbn [find_case elements_text foldr]. destruct (decide (tag = t)) as [<-|Hn].
  - exists (endl +:+ elements_text els rest). rewrite element_eq, after_skip by done.
    rewrite after_eq. cbn [strip_prefix]. rewrite decide_True by done. rewrite strip_prefix_tag by done.
    rewrite decide_True by done. rewrite !app_str_assoc. reflexivity.
  - change (foldr (λ tv s, element tv +:+ s) rest els) with (elements_text els rest).
    rewrite after_element; [done|done|done| |].
    + intros s. rewrite strip_prefix_tag by done. by rewrite decide_False.
    + intros s. apply strip_prefix_slash. destruct tag; [done|]. by destruct H3.
Qed.

(** The prologue and the last line of the document hold no tag of a setting. *)
Lemma after_head p rest :
  (∀ s, strip_prefix p (String "?" s) = None) → (∀ s, strip_prefix p ("server_db>" +:+ s) = None) →
  after (String "<" p) (db_head +:+ rest) = after (String "<" p) rest.
Proof.
  intros Hq Hdb. unfold db_head. rewrite !app_str_assoc.
  change ("<?xml version=" +:+ ?x) with (String "<" (String "?" ("xml version=" +:+ x))).
  rewrite after_miss by (cbn [strip_prefix]; rewrite decide_True by done; apply Hq).
  change (String "?" ("xml version=" +:+ dquote +:+ "1.0" +:+ dquote +:+ " encoding=" +:+ dquote +:+ "UTF-8"
    +:+ dquote +:+ "?>" +:+ endl +:+ ?x))
    with (("?xml version=" +:+ dquote +:+ "1.0" +:+ dquote +:+ " encoding=" +:+ dquote +:+ "UTF-8"
    +:+ dquote +:+ "?>" +:+ endl) +:+ x).
  rewrite after_skip by done.
  change ("<server_db>" +:+ endl +:+ rest) with (String "<" ("server_db>" +:+ endl +:+ rest)).
  rewrite after_miss by (cbn [strip_prefix]; rewrite decide_True by done; apply Hdb).
  change ("server_db>" +:+ endl +:+ rest) with (("server_db>" +:+ endl) +:+ rest). by rewrite after_skip.
Qed.

Lemma after_foot p : (∀ s, strip_prefix p (String "/" s) = None) → after (String "<" p) db_foot = None.
Proof.
  intros Hs. change db_foot with (String "<" (String "/" ("server_db>" +:+ endl))).
  rewrite after_miss by (cbn [strip_prefix]; rewrite decide_True by done; apply Hs).
  rewrite <- (app_str_nil_r (String "/" _)). by rewrite after_skip.
Qed.

Lemma extract_document tag els :
  plain_tag tag → tag ≠ "server_db" → Forall angle_free els →
  extractXMLTag (db_head +:+ elements_text els db_foot) tag = default "" (TrimSpace <$> find_case tag els).
Proof.
  intros Ht Hn Hels. pose proof Ht as (H1 & H2 & H3).
  assert (∀ s, strip_prefix (tag +:+ ">") (String "/" s) = None) as Hslash.
  { intros s. apply strip_prefix_slash. destruct tag; [done|]. by destruct H3. }
  pose proof (after_open tag els db_foot Ht Hels (after_foot _ Hslash)) as Ho.
  rewrite <- (after_head _ (elements_text els db_foot)) in Ho.
  - unfold after in Ho. unfold extractXMLTag. change ("<" +:+ tag +:+ ">") with (String "<" (tag +:+ ">")).
    destruct (find_case tag els) as [v|] eqn:E; cbn [fmap option_fmap option_map default].
    + destruct Ho as (r & Ho). destruct (cut_str _ _) as [[a b]|]; [|discriminate Ho].
      assert (b = v +:+ String "<" (("/" +:+ tag +:+ ">") +:+ r)) as -> by (by injection Ho).
      change ("</" +:+ tag +:+ ">") with (String "<" ("/" +:+ tag +:+ ">")).
      rewrite (cut_str_here ("/" +:+ tag +:+ ">") v r); [done|]. apply find_case_elem in E.
      rewrite Forall_forall in Hels. by apply Hels in E as (_ & _ & E).
    + by destruct (cut_str _ _) as [[a b]|]; [discriminate Ho|].
  - intros s. destruct tag as [|c tag]; [done|]. destruct H3 as [_ H3].
    change (String c tag +:+ ">") with (String c (tag +:+ ">")). cbn [strip_prefix]. by rewrite decide_False.
  - intros s. change ("server_db>" +:+ s) with ("server_db" +:+ String ">" s).
    rewrite strip_prefix_tag by done. by rewrite decide_False.
Qed.

(** ** The resource maps of the document *)

Lemma parse_resc_S fuel content prefix m :
  parse_resc (S fuel) content prefix m
  = match after (String "<" (prefix +:+ ".")) content with
    | None => m
    | Some rest =>
      match cut ">" (prefix +:+ "." +:+ rest) with
      | None => m
      | Some (fullTag, body) =>
        match cut_str ("</" +:+ fullTag +:+ ">") body with
        | None => m
        | Some (val, content) =>
          parse_resc fuel content prefix (<[TrimPrefix fullTag (prefix +:+ ".") := TrimSpace val]> m)
        end
      end
    end.
Proof.
  cbn [parse_resc]. unfold after. change ("<" +:+ prefix +:+ ".") with (String "<" (prefix +:+ ".")).
  by destruct (cut_str _ content) as [[? ?]|].
Qed.

Lemma parse_resc_cong fuel content content' prefix m :
  after (String "<" (prefix +:+ ".")) content = after (String "<" (prefix +:+ ".")) content' →
  parse_resc fuel content prefix m = parse_resc fuel content' prefix m.
Proof. intros E. destruct fuel; [done|]. by rewrite !parse_resc_S, E. Qed.

Definition resc_step (prefix : string) (m : gmap string string) (tv : string * string) : gmap string string :=
  match strip_prefix (prefix +:+ ".") tv.1 with
  | Some k => <[k := TrimSpace tv.2]> m
  | None => m
  end.

Lemma parse_resc_elements prefix els fuel m :
  has_byte ">" prefix = false → (∀ s, strip_prefix (prefix +:+ ".") (String "/" s) = None) →
  Forall angle_free els → (length els < fuel)%nat →
  parse_resc fuel (elements_text els db_foot) prefix m = foldl (resc_step prefix) m els.
Proof.
  intros Hp Hs Hels. assert (has_byte ">" (prefix +:+ ".") = false) as Hp' by by rewrite has_byte_app, Hp.
  revert fuel m. induction Hels as [|[t v] els (A1 & A2 & A3) _ IH]; intros fuel m Hf; cbn [fst snd length foldl] in *.
  - destruct fuel; [lia|]. by rewrite parse_resc_S, after_foot.
  - unfold resc_step at 2. cbn [fst snd elements_text foldr].
    change (foldr (λ tv s, element tv +:+ s) db_foot els) with (elements_text els db_foot).
    destruct (strip_prefix (prefix +:+ ".") t) as [k|] eqn:E.
    + destruct fuel as [|fuel]; [lia|]. apply strip_prefix_some in E. subst t. rewrite parse_resc_S.
      rewrite element_eq, after_skip by done. rewrite after_eq. cbn [strip_prefix]. rewrite decide_True by done.
      rewrite (app_str_assoc (prefix +:+ ".") k), strip_prefix_app.
      rewrite <- (app_str_assoc prefix "."), <- (app_str_assoc (prefix +:+ ".") k), cut_app by done.
      change ("</" +:+ ((prefix +:+ ".") +:+ k) +:+ ">") with (String "<" ("/" +:+ ((prefix +:+ ".") +:+ k) +:+ ">")).
      assert (String "/" (((prefix +:+ ".") +:+ k) +:+ String ">" (endl +:+ elements_text els db_foot))
        = ("/" +:+ ((prefix +:+ ".") +:+ k) +:+ ">") +:+ endl +:+ elements_text els db_foot) as ->.
      { by rewrite !app_str_assoc. }
      rewrite cut_str_here by done. unfold TrimPrefix. rewrite strip_prefix_app. cbn [default].
      rewrite (parse_resc_cong _ _ (elements_text els db_foot)) by by rewrite after_skip.
      apply IH. lia.
    + rewrite (parse_resc_cong _ _ (elements_text els db_foot)); [apply IH; lia|].
      apply after_element; [done|done| |done]. intros s. by apply strip_prefix_app_none.
Qed.

Lemma elements_text_len els rest : (length els ≤ String.length (elements_text els rest))%nat.
Proof.
  induction els as [|[t v] els IH]; cbn [elements_text foldr length]; [lia|].
  change (foldr (λ tv s, element tv +:+ s) rest els) with (elements_text els rest).
  pose proof (len_app (element (t, v)) (elements_text els rest)) as Hl. unfold len in Hl.
  change (String.length (element (t, v)))
    with (2 + String.length ("<" +:+ t +:+ ">" +:+ v +:+ "</" +:+ t +:+ ">" +:+ endl))%nat in Hl.
  lia.
Qed.

Lemma parse_document prefix els m :
  has_byte ">" prefix = false →
  (∀ c s, c ∈ ["/"%char; "?"%char] → strip_prefix (prefix +:+ ".") (String c s) = None) →
  (∀ s, strip_prefix (prefix +:+ ".") ("server_db>" +:+ s) = None) → Forall angle_free els →
  parseResourceMapXML (db_head +:+ elements_text els db_foot) prefix m = foldl (resc_step prefix) m els.
Proof.
  intros Hp Hc Hdb Hels. unfold parseResourceMapXML.
  rewrite (parse_resc_cong _ _ (elements_text els db_foot)).
  - apply parse_resc_elements; [done| |done|]; [intros s; apply Hc; by left|].
    pose proof (elements_text_len els db_foot). pose proof (len_app db_head (elements_text els db_foot)) as Hl.
    unfold len in Hl. lia.
  - apply after_head; [|done]. intros s. apply Hc. right. by left.
Qed.

(** ** What is written for a configuration *)

Definition xml_text (v : string) : Prop := has_byte "<" v = false ∧ TrimSpace v = v.
Definition xml_key (k : string) : Prop := has_byte "<" k = false ∧ has_byte ">" k = false.

Definition write_tag (w : Write) : string :=
  match w with writeInt t _ | writeBool t _ | writeStr t _ | writeMap t _ => t end.

(** The settings that an element can hold: 64-bit integers, texts without an angle bracket
    and without blanks around them. *)
Definition savable_write (c : Config) (w : Write) : Prop :=
  match w with
  | writeInt _ get => is_int64 (get c)
  | writeBool _ _ => True
  | writeStr _ get => xml_text (get c)
  | writeMap _ get => map_Forall (λ k v, xml_key k ∧ xml_text v) (get c)
  end.
Definition savable_config (c : Config) : Prop := Forall (savable_write c) db_writes.

#[export] Instance xml_text_dec v : Decision (xml_text v).
Proof. unfold xml_text. apply _. Defined.
#[export] Instance xml_key_dec k : Decision (xml_key k).
Proof. unfold xml_key. apply _. Defined.
#[export] Instance savable_write_dec c w : Decision (savable_write c w).
Proof. destruct w; cbn [savable_write]; apply _. Defined.

Definition dot_free (w : Write) : Prop := xml_key (write_tag w) ∧ has_byte "." (write_tag w) = false.

Lemma Itoa_no_angle n : has_byte "<" (Itoa n) = false.
Proof.
  unfold Itoa, FormatInt. destruct (n <? 0) eqn:E; bool_to_prop.
  - change (has_byte "<" (FormatUint (- n)) = false).
    apply (all_bytes_has is_digit); [apply FormatUint_digits; lia|done].
  - apply (all_bytes_has is_digit); [apply FormatUint_digits; lia|done].
Qed.

Section written.
Context `{MapRange}.

Lemma written_angle_free c w : savable_write c w → dot_free w → Forall angle_free (written c w).
Proof.
  intros Hs [[H1 H2] _]. destruct w as [t get|t get|t get|t get]; cbn [written savable_write write_tag] in *.
  - apply Forall_singleton. split_and!; [done|done|apply Itoa_no_angle].
  - apply Forall_singleton. by split_and!; [..|destruct (get c)].
  - destruct Hs as [Hs _]. unfold text_attr. case_decide; [done|]. by apply Forall_singleton.
  - unfold map_attrs. apply Forall_fmap, Forall_forall. intros k Hk.
    apply (map_order_elem _ _ _ (range_order (get c))) in Hk as [v Hv].
    unfold compose, angle_free, lookup_or. cbn [fst snd]. rewrite Hv. cbn [default].
    apply Hs in Hv as [[Hk1 Hk2] [Hv _]]. rewrite !has_byte_app, H1, H2, Hk1, Hk2. done.
Qed.

(** The resources that are written are the ones that are read, map by map. *)
Lemma resc_written p c w m :
  has_byte "." p = false → savable_write c w → dot_free w →
  foldl (resc_step p) m (written c w)
  = match w with
    | writeMap t get => if decide (p = t) then get c ∪ m else m
    | _ => m
    end.
Proof.
  intros Hp Hs [_ Hw].
  assert (∀ t, has_byte "." t = false → strip_prefix (p +:+ ".") t = None) as Hnone.
  { intros t Ht. destruct (strip_prefix (p +:+ ".") t) as [k|] eqn:E; [|done]. apply strip_prefix_some in E.
    subst t. rewrite !has_byte_app in Ht. by destruct (has_byte "." p). }
  destruct w as [t get|t get|t get|t get]; cbn [written savable_write write_tag foldl] in *.
  - unfold resc_step. cbn [fst]. by rewrite Hnone.
  - unfold resc_step. cbn [fst]. by rewrite Hnone.
  - unfold text_attr. case_decide; [done|]. cbn [foldl]. unfold resc_step. cbn [fst]. by rewrite Hnone.
  - unfold map_attrs. destruct (decide (p = t)) as [<-|Hn].
    + transitivity (foldl (λ r k, <[k := lookup_or "" k (get c)]> r) m (range (get c))).
      * assert (∀ k, k ∈ range (get c) → TrimSpace (lookup_or "" k (get c)) = lookup_or "" k (get c)) as Ht.
        { intros k [v Hv]%(map_order_elem _ _ _ (range_order (get c))). unfold lookup_or. rewrite Hv.
          by apply Hs in Hv as [_ [_ Hv]]. }
        revert m Ht. generalize (range (get c)) as ks. induction ks as [|k ks IH]; intros m Ht; [done|].
        cbn [fmap list_fmap foldl]. unfold resc_step at 2. cbn [fst snd].
        rewrite strip_prefix_app, Ht by by left. apply IH. intros k' Hk'. apply Ht. by right.
      * apply map_eq. intros k. rewrite foldl_insert_lookup, lookup_union.
        pose proof (map_order_elem _ _ k (range_order (get c))) as He. unfold lookup_or.
        case_decide as Hk; [apply He in Hk as [v Hv]; rewrite Hv; by destruct (m !! k)|].
        rewrite He in Hk. apply eq_None_not_Some in Hk. rewrite Hk. by destruct (m !! k).
    + generalize (range (get c)) as ks. intros ks. induction ks as [|k ks IH]; [done|].
      cbn [fmap list_fmap foldl]. unfold resc_step at 2. cbn [fst snd]. rewrite app_str_assoc.
      change ("." +:+ k) with (String "." k).
      rewrite (strip_prefix_word "." p t) by done. by rewrite decide_False.
Qed.

End written.

(** ** A setting as an element and as a value *)

Fixpoint find_write (n : string) (ws : list Write) : option Write :=
  match ws with
  | [] => None
  | w :: ws => if decide (n = write_tag w) then Some w else find_write n ws
  end.

Definition write_of (n : string) (f : Field) : Write :=
  match f with FStr get _ => writeStr n get | FInt get _ => writeInt n get | FBool get _ => writeBool n get end.

(** The text of a field in the document. *)
Definition shown (f : Field) (c : Config) : string :=
  match f with FStr get _ => get c | FInt get _ => Itoa (get c) | FBool get _ => bool_text (get c) end.

Lemma find_case_app {A} n (l1 l2 : list (string * A)) :
  find_case n (l1 ++ l2) = match find_case n l1 with Some a => Some a | None => find_case n l2 end.
Proof. induction l1 as [|[m a] l1 IH]; [done|]. cbn [app find_case]. by destruct (decide (n = m)). Qed.

Lemma find_write_None n ws : n ∉ write_tag <$> ws → find_write n ws = None.
Proof.
  induction ws as [|w ws IH]; [done|]. cbn [fmap list_fmap]. intros [Hn Hr]%not_elem_of_cons. cbn [find_write].
  rewrite decide_False by done. by apply IH.
Qed.

Lemma find_written_other `{MapRange} n c w :
  has_byte "." n = false → n ≠ write_tag w → find_case n (written c w) = None.
Proof.
  intros Hd Hn. destruct w as [t get|t get|t get|t get]; cbn [written write_tag find_case] in *.
  - by rewrite decide_False.
  - by rewrite decide_False.
  - unfold text_attr. case_decide; [done|]. cbn [find_case]. by rewrite decide_False.
  - unfold map_attrs. induction (range (get c)) as [|k ks IH]; [done|]. cbn [fmap list_fmap find_case].
    rewrite decide_False; [done|]. intros ->. rewrite !has_byte_app in Hd. by destruct (has_byte "." t).
Qed.

Lemma find_written `{MapRange} n c ws :
  has_byte "." n = false → NoDup (write_tag <$> ws) →
  find_case n (concat (written c <$> ws)) = find_write n ws ≫= λ w, find_case n (written c w).
Proof.
  intros Hd. induction ws as [|w ws IH]; [done|]. cbn [fmap list_fmap concat find_write].
  intros [Hw Hnd]%NoDup_cons. rewrite find_case_app, IH by done. destruct (decide (n = write_tag w)) as [->|Hn].
  - rewrite find_write_None by done. cbn [mbind option_bind]. by destruct (find_case _ (written c w)).
  - by rewrite find_written_other.
Qed.

Lemma Itoa_ne n : Itoa n ≠ "".
Proof. unfold Itoa, FormatInt. destruct (_ <? 0); [done|apply FormatUint_nonempty]. Qed.

Lemma find_write_of `{MapRange} n f c :
  find_case n (written c (write_of n f)) = if decide (shown f c = "") then None else Some (shown f c).
Proof.
  destruct f as [get set|get set|get set]; cbn [write_of written shown find_case].
  - unfold text_attr. case_decide; [done|]. cbn [find_case]. by rewrite decide_True.
  - rewrite decide_True by done. rewrite decide_False; [done|apply Itoa_ne].
  - rewrite decide_True by done. by destruct (get c).
Qed.

Lemma db_writes_ok : NoDup (write_tag <$> db_writes) ∧ Forall dot_free db_writes.
Proof. split; [by_decide|]. repeat (apply Forall_cons; split; [by vm_compute|]). by apply Forall_nil. Qed.

(** Every setting that can be read back is written, under its own name. *)
Lemma db_cases_written :
  Forall (λ nf, find_write nf.1 db_writes = Some (write_of nf.1 nf.2)) db_cases.
Proof. repeat (apply Forall_cons; split; [reflexivity|]). by apply Forall_nil. Qed.

(** ** The settings as a list of values *)

Inductive value := VStr (s : string) | VInt (n : Z) | VBool (b : bool).
#[export] Instance value_eq_dec : EqDecision value.
Proof. solve_decision. Defined.

Definition read_field (f : Field) (c : Config) : value :=
  match f with FStr get _ => VStr (get c) | FInt get _ => VInt (get c) | FBool get _ => VBool (get c) end.

(** The value a text stands for; an integer that cannot be read leaves the old value. *)
Definition parse_value (f : Field) (v : string) (old : value) : value :=
  match f with
  | FStr _ _ => VStr v
  | FInt _ _ => VInt (Sscanf_d v match old with VInt n => n | _ => 0 end)
  | FBool _ _ => VBool (parseBool v)
  end.

Definition view (c : Config) : list value := (λ nf, read_field nf.2 c) <$> db_cases.
Definition resources (c : Config) : list (gmap string string) := (λ nr, rget nr.2 c) <$> rescMaps.
(** The fields that are not attributes. *)
Definition paths (c : Config) :=
  (PBSHome c, Port c, StartType c, Debug c, ServerPriv c, JobsDir c, QueuesDir c, NodesFile c, ServerDB c,
   LogDir c, AcctDir c, ServerName c, SchedulerMode c).

(** A case writes its own position and nothing else. *)
Lemma assign_view_at i :
  match db_cases !! i with
  | Some nf => ∀ v c, view (assign nf.2 v c) = <[i := parse_value nf.2 v (read_field nf.2 c)]> (view c)
  | None => True
  end.
Proof. do 97 (destruct i as [|i]; [intros v c; reflexivity|]). exact I. Qed.

Lemma assign_frame :
  Forall (λ nf, ∀ v c, resources (assign nf.2 v c) = resources c ∧ paths (assign nf.2 v c) = paths c) db_cases.
Proof. repeat (apply Forall_cons; split; [intros v c; split; reflexivity|]). by apply Forall_nil. Qed.

Lemma rset_frame :
  Forall (λ nr, ∀ m c, view (rset nr.2 m c) = view c ∧ paths (rset nr.2 m c) = paths c) rescMaps.
Proof. repeat (apply Forall_cons; split; [intros v c; split; reflexivity|]). by apply Forall_nil. Qed.

Lemma db_cases_NoDup : NoDup db_cases.*1.
Proof. by_decide. Qed.

Lemma view_lookup c i n f : db_cases !! i = Some (n, f) → view c !! i = Some (read_field f c).
Proof. intros Hi. unfold view. by rewrite list_lookup_fmap, Hi. Qed.

Lemma assign_view i n f v c :
  db_cases !! i = Some (n, f) → view (assign f v c) = <[i := parse_value f v (read_field f c)]> (view c).
Proof. intros Hi. pose proof (assign_view_at i) as H. rewrite Hi in H. apply H. Qed.

Lemma read_assign i j n n' f f' v c :
  db_cases !! i = Some (n, f) → db_cases !! j = Some (n', f') →
  read_field f' (assign f v c) = if decide (n' = n) then parse_value f v (read_field f c) else read_field f' c.
Proof.
  intros Hi Hj. apply (inj Some). rewrite <- (view_lookup _ j n' f' Hj), (assign_view i n f v c Hi).
  destruct (decide (n' = n)) as [->|Hn].
  - assert (i = j) as <-.
    { apply (NoDup_lookup db_cases.*1 i j n db_cases_NoDup); by rewrite list_lookup_fmap, ?Hi, ?Hj. }
    rewrite list_lookup_insert_eq; [done|]. unfold view. rewrite length_fmap. by eapply lookup_lt_Some.
  - rewrite list_lookup_insert_ne by (intros ->; simplify_eq). by apply view_lookup with n'.
Qed.

(** ** The loop over the tags *)

(** What the loop over [tags] does when the document holds [val tag] for each tag. *)
Record read_spec (val : string → string) (tags : list string) (s s' : Server) : Prop := {
  rs_fields : ∀ n f, (n, f) ∈ db_cases → read_field f (cfg s')
    = if decide (n ∈ tags ∧ val n ≠ "") then parse_value f (val n) (read_field f (cfg s))
      else read_field f (cfg s);
  rs_frame : resources (cfg s') = resources (cfg s) ∧ paths (cfg s') = paths (cfg s);
  rs_next : jobMgr s' = match (if decide ("nextjobid" ∈ tags) then atoi_ok (val "nextjobid") else None) with
                        | Some k => SetNextJobIDNum k (jobMgr s)
                        | None => jobMgr s
                        end;
  rs_rest : s' = s <| cfg := cfg s' |> <| jobMgr := jobMgr s' |>;
}.

Lemma nextjobid_not_case n f : (n, f) ∈ db_cases → n ≠ "nextjobid".
Proof.
  intros Hin ->. assert ("nextjobid" ∉ db_cases.*1) as Hn by by_decide.
  apply Hn, list_elem_of_fmap. by exists ("nextjobid", f).
Qed.

(** The case of the next job number. *)
Lemma read_next val s :
  read_spec val ["nextjobid"] s (applyServerDBAttr "nextjobid" (val "nextjobid") s).
Proof.
  unfold applyServerDBAttr. rewrite decide_True by by left.
  assert (∀ s' : Server, cfg s' = cfg s → ∀ n f, (n, f) ∈ db_cases → read_field f (cfg s')
    = if decide (n ∈ ["nextjobid"] ∧ val n ≠ "") then parse_value f (val n) (read_field f (cfg s))
      else read_field f (cfg s)) as Hf.
  { intros s' -> n f Hin%nextjobid_not_case. rewrite decide_False; [done|]. by intros [->%list_elem_of_singleton _]. }
  split; [apply Hf; by destruct (atoi_ok _)|by destruct (atoi_ok _)| |by destruct (atoi_ok _), s].
  rewrite decide_True by by left. by destruct (atoi_ok _).
Qed.

(** The case of a setting. *)
Lemma read_setting val s tag :
  tag ≠ "nextjobid" → tag ≠ "next_job_id" → val tag ≠ "" →
  read_spec val [tag] s (applyServerDBAttr tag (val tag) s).
Proof.
  intros H1 H2 Hv. unfold applyServerDBAttr. rewrite decide_False by tauto.
  assert ("nextjobid" ∉ [tag]) as Hnx by by intros <-%list_elem_of_singleton.
  destruct (find_case tag db_cases) as [f0|] eqn:Ef.
  - apply find_case_elem in Ef. pose proof Ef as [i Hi]%list_elem_of_lookup.
    split; [|by apply (proj1 (Forall_forall _ _) assign_frame (tag, f0))|by rewrite decide_False|by destruct s].
    intros n f Hin. pose proof Hin as [j Hj]%list_elem_of_lookup. cbn [cfg set_field].
    rewrite (read_assign i j tag n f0 f (val tag) (cfg s) Hi Hj).
    destruct (decide (n = tag)) as [->|Hn'].
    + rewrite decide_True by by split; [left|]. apply (find_case_in _ _ _ db_cases_NoDup) in Ef, Hin.
      rewrite Ef in Hin. by injection Hin as ->.
    + rewrite decide_False; [done|]. by intros [->%list_elem_of_singleton _].
  - split; [|done|by rewrite decide_False|by destruct s].
    intros n f Hin. rewrite decide_False; [done|]. intros [->%list_elem_of_singleton _].
    apply (find_case_in _ _ _ db_cases_NoDup) in Hin. by rewrite Ef in Hin.
Qed.

Lemma read_tag_step content val s tag :
  extractXMLTag content tag = val tag → tag ≠ "next_job_id" →
  read_spec val [tag] s (read_tag content s tag).
Proof.
  intros Hv Hne. unfold read_tag. rewrite Hv. destruct (decide (val tag = "")) as [E|E].
  - split; [|done| |by destruct s].
    + intros n f _. rewrite decide_False; [done|]. by intros [->%list_elem_of_singleton Hn].
    + case_decide as Ht; [|done]. apply list_elem_of_singleton in Ht. by rewrite Ht, E.
  - destruct (decide (tag = "nextjobid")) as [->|Hn]; [apply read_next|by apply read_setting].
Qed.

Lemma read_tags content val tags s :
  (∀ tag, tag ∈ tags → extractXMLTag content tag = val tag ∧ tag ≠ "next_job_id") → NoDup tags →
  read_spec val tags s (foldl (read_tag content) s tags).
Proof.
  revert s. induction tags as [|tag tags IH]; intros s Hv Hnd.
  - split; [|done|done|by destruct s]. intros n f _. rewrite decide_False; [done|]. by intros [?%not_elem_of_nil _].
  - apply NoDup_cons in Hnd as [Ht Hnd]. destruct (Hv tag) as [Hv1 Hv2]; [by left|].
    destruct (read_tag_step content val s tag Hv1 Hv2) as [F1 [R1 P1] N1 S1].
    cbn [foldl]. destruct (IH (read_tag content s tag)) as [F2 [R2 P2] N2 S2]; [|done|].
    { intros t Hin. apply Hv. by right. }
    split.
    + intros n f Hin. rewrite (F2 n f Hin), (F1 n f Hin). destruct (decide (n = tag)) as [->|Hn].
      * rewrite (decide_False (P := tag ∈ tags ∧ _)) by by intros [? _].
        apply decide_ext. rewrite list_elem_of_singleton, elem_of_cons. tauto.
      * rewrite (decide_False (P := n ∈ [tag] ∧ _)) by by intros [->%list_elem_of_singleton _].
        apply decide_ext. rewrite elem_of_cons. tauto.
    + by rewrite R2, P2.
    + rewrite N2, N1. destruct (decide (tag = "nextjobid")) as [->|Hn].
      * rewrite (decide_False (P := "nextjobid" ∈ tags)) by done. rewrite !decide_True by by left. done.
      * rewrite (decide_False (P := "nextjobid" ∈ [tag])) by by intros <-%list_elem_of_singleton.
        by rewrite (decide_ext ("nextjobid" ∈ tag :: tags) ("nextjobid" ∈ tags)) by (rewrite elem_of_cons; split; [intros [E|E]; [congruence|done]|by right]).
    + clear -S1 S2. revert S1 S2. generalize (foldl (read_tag content) (read_tag content s tag) tags) as s2.
      generalize (read_tag content s tag) as s1. intros [] [] S1 S2. destruct s. injection S1. injection S2.
      intros. by subst.
Qed.

(** ** The loop over the resource maps *)

Lemma rset_other :
  Forall (λ nr, Forall (λ nr', ∀ m c,
    rget nr'.2 (rset nr.2 m c) = if decide (nr'.1 = nr.1) then m else rget nr'.2 c) rescMaps) rescMaps.
Proof.
  repeat (apply Forall_cons; split; [repeat (apply Forall_cons; split; [intros m c; reflexivity|]); by apply Forall_nil|]).
  by apply Forall_nil.
Qed.

Record resc_spec (content : string) (ks : list string) (s s' : Server) : Prop := {
  cs_maps : ∀ p r, (p, r) ∈ rescMaps → rget r (cfg s')
    = if decide (p ∈ ks) then parseResourceMapXML content p (rget r (cfg s)) else rget r (cfg s);
  cs_frame : view (cfg s') = view (cfg s) ∧ paths (cfg s') = paths (cfg s);
  cs_rest : s' = s <| cfg := cfg s' |>;
}.

Lemma rescMaps_NoDup : NoDup rescMaps.*1.
Proof. by_decide. Qed.

Lemma read_resc_step content p s : resc_spec content [p] s (read_resc content s p).
Proof.
  unfold read_resc. destruct (find_case p rescMaps) as [r|] eqn:E.
  - apply find_case_elem in E. pose proof rset_other as Ho. rewrite Forall_forall in Ho. specialize (Ho _ E).
    rewrite Forall_forall in Ho. split; [|by apply (proj1 (Forall_forall _ _) rset_frame (p, r))|by destruct s].
    intros p' r' Hin. cbn [cfg set_field]. rewrite (Ho (p', r') Hin). cbn [fst].
    destruct (decide (p' = p)) as [->|Hn].
    + rewrite decide_True by by left. apply (find_case_in _ _ _ rescMaps_NoDup) in E, Hin. congruence.
    + rewrite decide_False; [done|]. by intros ->%list_elem_of_singleton.
  - split; [|done|by destruct s]. intros p' r' Hin. rewrite decide_False; [done|]. intros ->%list_elem_of_singleton.
    apply (find_case_in _ _ _ rescMaps_NoDup) in Hin. by rewrite E in Hin.
Qed.

Lemma read_rescs content ks s : NoDup ks → resc_spec content ks s (foldl (read_resc content) s ks).
Proof.
  revert s. induction ks as [|k ks IH]; intros s.
  - intros _. split; [|done|by destruct s]. intros p r _. by rewrite decide_False by apply not_elem_of_nil.
  - intros [Hk Hnd]%NoDup_cons. destruct (read_resc_step content k s) as [M1 [V1 P1] S1].
    cbn [foldl]. destruct (IH (read_resc content s k) Hnd) as [M2 [V2 P2] S2]. split.
    + intros p r Hin. rewrite (M2 p r Hin), (M1 p r Hin). destruct (decide (p = k)) as [->|Hn].
      * rewrite decide_False by done. by rewrite !decide_True by by left.
      * rewrite (decide_False (P := p ∈ [k])) by by intros ->%list_elem_of_singleton.
        apply decide_ext. rewrite elem_of_cons. tauto.
    + by rewrite V2, P2.
    + clear -S1 S2. revert S1 S2. generalize (foldl (read_resc content) (read_resc content s k) ks) as s2.
      generalize (read_resc content s k) as s1. intros [] [] S1 S2. destruct s. injection S1. injection S2.
      intros. by subst.
Qed.

(** ** The document of a server *)

Lemma find_write_elem n ws w : find_write n ws = Some w → w ∈ ws.
Proof.
  induction ws as [|w' ws IH]; [done|]. cbn [find_write]. rewrite elem_of_cons.
  case_decide; [intros [= ->]; by left|auto].
Qed.

Lemma savable_field c n f : savable_config c → (n, f) ∈ db_cases → savable_write c (write_of n f).
Proof.
  intros Hs Hin. pose proof db_cases_written as Hw. rewrite Forall_forall in Hw. specialize (Hw _ Hin).
  unfold savable_config in Hs. rewrite Forall_forall in Hs. by apply Hs, (find_write_elem n).
Qed.

Lemma shown_trimmed c n f : savable_write c (write_of n f) → TrimSpace (shown f c) = shown f c.
Proof.
  destruct f as [get set|get set|get set]; cbn [write_of savable_write shown].
  - by intros [_ ?].
  - intros _. apply TrimSpace_no_space, FormatInt_no_space.
  - intros _. by destruct (get c).
Qed.

Lemma parse_shown c n f old : savable_write c (write_of n f) → parse_value f (shown f c) old = read_field f c.
Proof.
  destruct f as [get set|get set|get set]; cbn [write_of savable_write shown parse_value read_field]; [done| |].
  - intros Hi. by rewrite Sscanf_d_Itoa.
  - intros _. by destruct (get c).
Qed.

Section document.
Context `{MapRange} (s : Server).
Hypothesis (Hs : savable_config (cfg s)).

Lemma db_elements_free : Forall angle_free (db_elements s).
Proof.
  unfold db_elements. apply Forall_cons; split; [split_and!; [done|done|apply Itoa_no_angle]|].
  apply Forall_concat, Forall_fmap, Forall_forall. intros w Hw. destruct db_writes_ok as [_ Hd].
  unfold savable_config in Hs. rewrite Forall_forall in Hs, Hd. apply written_angle_free; auto.
Qed.

(** The text that the document holds for a setting. *)
Definition db_val (tag : string) : string := default "" (TrimSpace <$> find_case tag (db_elements s)).

Lemma db_val_next : db_val "nextjobid" = Itoa (nextJobID (jobMgr s)).
Proof.
  unfold db_val, db_elements. cbn [find_case]. rewrite decide_True by done. cbn [fmap option_fmap option_map default].
  apply TrimSpace_no_space, FormatInt_no_space.
Qed.

Lemma db_val_field n f : (n, f) ∈ db_cases → db_val n = shown f (cfg s).
Proof.
  intros Hin. unfold db_val, db_elements. cbn [find_case].
  rewrite decide_False by by eapply nextjobid_not_case.
  assert (Forall (λ nf, has_byte "." nf.1 = false) db_cases) as Hd by by_decide.
  pose proof db_cases_written as Hw. rewrite Forall_forall in Hd, Hw. destruct db_writes_ok as [Hnd _].
  specialize (Hd _ Hin). specialize (Hw _ Hin). cbn [fst snd] in *.
  rewrite find_written, Hw by done. cbn [mbind option_bind].
  rewrite find_write_of. case_decide as E; cbn [fmap option_fmap option_map default]; [done|].
  by apply (shown_trimmed _ n), savable_field.
Qed.

Lemma db_resources p r m : (p, r) ∈ rescMaps → foldl (resc_step p) m (db_elements s) = rget r (cfg s) ∪ m.
Proof.
  intros Hin. destruct db_writes_ok as [_ Hd]. unfold savable_config in Hs.
  assert (has_byte "." p = false ∧ strip_prefix (p +:+ ".") "nextjobid" = None) as [Hp Hn].
  { assert (Forall (λ nr, has_byte "." nr.1 = false ∧ strip_prefix (nr.1 +:+ ".") "nextjobid" = None) rescMaps) as Hf
      by by_decide. rewrite Forall_forall in Hf. by apply (Hf _ Hin). }
  unfold db_elements. cbn [foldl]. unfold resc_step at 2. cbn [fst]. rewrite Hn.
  assert (∀ ws m, Forall (savable_write (cfg s)) ws → Forall dot_free ws →
    foldl (resc_step p) m (concat (written (cfg s) <$> ws))
    = foldl (λ m w, match w with writeMap t get => if decide (p = t) then get (cfg s) ∪ m else m | _ => m end) m ws) as Hf.
  { clear -Hp. induction ws as [|w ws IH]; intros m; [done|]. intros [H1 H1']%Forall_cons [H2 H2']%Forall_cons.
    cbn [fmap list_fmap concat foldl]. rewrite foldl_app, resc_written by done. by apply IH. }
  rewrite Hf by done. clear -Hin. repeat (apply elem_of_cons in Hin as [[= -> ->]|Hin]; [reflexivity|]).
  by apply not_elem_of_nil in Hin.
Qed.

End document.

Lemma Contains_head rest : Contains (db_head +:+ rest) "<server_db>" = true.
Proof. reflexivity. Qed.

Lemma xml_tags_ok :
  NoDup xml_tags ∧ Forall (λ t, t ≠ "server_db" ∧ t ≠ "next_job_id") xml_tags ∧ Forall plain_tag xml_tags.
Proof.
  split_and!; [by_decide|by_decide|]. repeat (apply Forall_cons; split; [by vm_compute|]). by apply Forall_nil.
Qed.

Lemma read_field_view n f c c' : (n, f) ∈ db_cases → view c = view c' → read_field f c = read_field f c'.
Proof.
  intros [i Hi]%list_elem_of_lookup Hv. apply (inj Some).
  by rewrite <- (view_lookup c i n f Hi), Hv, (view_lookup c' i n f Hi).
Qed.

Lemma rget_resources p r c c' : (p, r) ∈ rescMaps → resources c = resources c' → rget r c = rget r c'.
Proof.
  intros [i Hi]%list_elem_of_lookup Hr. apply (inj Some). unfold resources in Hr.
  assert (∀ c, resources c !! i = Some (rget r c)) as Hl by (intros c0; unfold resources; by rewrite list_lookup_fmap, Hi).
  rewrite <- !Hl. unfold resources. by rewrite Hr.
Qed.

Lemma rescMaps_range `{MapRange} p r :
  (p, r) ∈ rescMaps → p ∈ range (list_to_map rescMaps : gmap string RescField).
Proof.
  intros Hin. apply (map_order_elem _ _ _ (range_order _)). exists r.
  apply elem_of_list_to_map; [apply rescMaps_NoDup|done].
Qed.

Lemma parse_rescMaps p els m :
  (∃ r, (p, r) ∈ rescMaps) → Forall angle_free els →
  parseResourceMapXML (db_head +:+ elements_text els db_foot) p m = foldl (resc_step p) m els.
Proof.
  intros [r Hin]. clear -Hin.
  repeat (apply elem_of_cons in Hin as [[= -> _]|Hin];
    [apply parse_document; [done|intros c s Hc; repeat (apply elem_of_cons in Hc as [->|Hc]; [done|]); by apply not_elem_of_nil in Hc|done]|]).
  by apply not_elem_of_nil in Hin.
Qed.

Lemma key_map_elem {A} (a : A) l k : NoDup l → is_Some (key_map a l !! k) ↔ k ∈ l.
Proof.
  intros Hnd. unfold key_map. rewrite <- not_eq_None_Some, <- not_elem_of_list_to_map.
  rewrite <- list_fmap_compose. change (fst ∘ _) with (@id string). rewrite list_fmap_id.
  split; [apply dec_stable|by intros ? ?].
Qed.

(** What the reader makes of the document of [s]. *)
Record db_read (s s0 s1 : Server) : Prop := {
  dr_next : jobMgr s1 = SetNextJobIDNum (nextJobID (jobMgr s)) (jobMgr s0);
  dr_fields : ∀ n f, (n, f) ∈ db_cases → read_field f (cfg s1)
    = if decide (n ∈ xml_tags ∧ shown f (cfg s) ≠ "") then read_field f (cfg s) else read_field f (cfg s0);
  dr_maps : ∀ p r, (p, r) ∈ rescMaps → rget r (cfg s1) = rget r (cfg s) ∪ rget r (cfg s0);
  dr_paths : paths (cfg s1) = paths (cfg s0);
  dr_rest : s1 = s0 <| cfg := cfg s1 |> <| jobMgr := jobMgr s1 |>;
}.

Lemma recover_document `{MapRange} s s0 fs :
  savable_config (cfg s) → is_int64 (nextJobID (jobMgr s)) → LoadServerDB fs = Some (db_text s) →
  db_read s s0 (recoverServerDB fs s0).
Proof.
  intros Hs Hn Hload. set (s1 := recoverServerDB fs s0). pose proof (db_elements_free s Hs) as Hfree.
  destruct xml_tags_ok as (T1 & T2 & T3). rewrite Forall_forall in T2, T3.
  assert (∀ tag, tag ∈ range (key_map "" xml_tags) ↔ tag ∈ xml_tags) as Hrange.
  { intros tag. rewrite (map_order_elem _ _ tag (range_order (key_map "" xml_tags))). by apply key_map_elem. }
  set (s2 := foldl (read_tag (db_text s)) s0 (range (key_map "" xml_tags))).
  assert (s1 = foldl (read_resc (db_text s)) s2 (range (list_to_map rescMaps : gmap string RescField))) as E1.
  { unfold s1, recoverServerDB. rewrite Hload. unfold db_text at 1. by rewrite Contains_head. }
  destruct (read_tags (db_text s) (db_val s) (range (key_map "" xml_tags)) s0) as [F [R P] N S].
  { intros tag Hin%Hrange. destruct (T2 _ Hin). split; [|done]. apply extract_document; auto. }
  { apply (map_order_NoDup _ _ (range_order _)). }
  destruct (read_rescs (db_text s) (range (list_to_map rescMaps : gmap string RescField)) s2) as [M [V P'] S'].
  { apply (map_order_NoDup _ _ (range_order _)). }
  fold s2 in F, R, P, N, S. rewrite <- E1 in M, V, P', S'. clear E1. split.
  - replace (jobMgr s1) with (jobMgr s2) by by rewrite S'.
    rewrite N, decide_True by (apply Hrange; by_decide). by rewrite db_val_next, atoi_ok_Itoa.
  - intros n f Hin. rewrite (read_field_view n f (cfg s1) (cfg s2) Hin V), (F n f Hin), (db_val_field s Hs n f Hin).
    rewrite (decide_ext (n ∈ range (key_map "" xml_tags) ∧ shown f (cfg s) ≠ "") (n ∈ xml_tags ∧ shown f (cfg s) ≠ ""))
      by by rewrite Hrange.
    destruct (decide (n ∈ xml_tags ∧ shown f (cfg s) ≠ "")); [|done]. by apply (parse_shown _ n), savable_field.
  - intros p r Hin. rewrite (M p r Hin), decide_True by by apply (rescMaps_range p r).
    rewrite (rget_resources p r (cfg s2) (cfg s0) Hin R). unfold db_text.
    rewrite parse_rescMaps; [by apply db_resources|by exists r|done].
  - by rewrite P'.
  - etransitivity; [exact S'|]. revert S S'. generalize s1, s2. intros [] [] S S'. destruct s0.
    injection S. injection S'. intros. by subst.
Qed.

Lemma load_saved_db `{MapRange} s fs : LoadServerDB (saveServerDB s fs) = Some (db_text s).
Proof.
  unfold saveServerDB, SaveServerDB, LoadServerDB. rewrite on_priv_2, save_file_ok. cbn [snd privDir set_field].
  apply lookup_insert_eq.
Qed.

(** ** Theorems *)

(** C15: the settings an administrator made survive a restart: reading the saved server
    database gives back the next job number, every setting whose tag the reader looks for
    and that is not an empty text, and the four resource maps, added to what the starting
    server has; everything else of the starting server is left alone.  Texts must not hold
    an opening angle bracket or have blanks around them. *)
Theorem serverdb_roundtrip `{MapRange} s s0 fs :
  savable_config (cfg s) → is_int64 (nextJobID (jobMgr s)) →
  let s1 := recoverServerDB (saveServerDB s fs) s0 in
  jobMgr s1 = SetNextJobIDNum (nextJobID (jobMgr s)) (jobMgr s0) ∧
  (∀ n f, (n, f) ∈ db_cases → read_field f (cfg s1)
     = if decide (n ∈ xml_tags ∧ shown f (cfg s) ≠ "") then read_field f (cfg s) else read_field f (cfg s0)) ∧
  (∀ p r, (p, r) ∈ rescMaps → rget r (cfg s1) = rget r (cfg s) ∪ rget r (cfg s0)) ∧
  paths (cfg s1) = paths (cfg s0) ∧ s1 = s0 <| cfg := cfg s1 |> <| jobMgr := jobMgr s1 |>.
Proof.
  intros Hs Hn. destruct (recover_document s s0 _ Hs Hn (load_saved_db s fs)) as [H1 H2 H3 H4 H5]. by split_and!.
Qed.

(** A server whose administrator has made some settings, and one that starts. *)
Definition set_up : Server :=
  empty_server <| cfg := test_cfg <| MaxRunning := 7 |> <| Managers := "root@srv" |> <| EventDriven := false |>
                             <| ResourcesDefault := {["walltime" := "01:00:00"]} |> |>
    <| jobMgr := JobManager.NewManager "srv" 42 |>.

Lemma set_up_savable : savable_config (cfg set_up).
Proof. unfold savable_config. repeat (apply Forall_cons; split; [by_decide|]). by apply Forall_nil. Qed.

Lemma serverdb_roundtrip_witness :
  let s1 := recoverServerDB (saveServerDB set_up (mkFileStore ∅ ∅ ∅)) empty_server in
  nextJobID (jobMgr s1) = 42 ∧ MaxRunning (cfg s1) = 7 ∧ Managers (cfg s1) = "root@srv" ∧
  ResourcesDefault (cfg s1) = {["walltime" := "01:00:00"]}.
Proof.
  destruct (serverdb_roundtrip set_up empty_server (mkFileStore ∅ ∅ ∅)) as (H1 & H2 & H3 & _);
    [apply set_up_savable|by_decide|]. cbv zeta.
  generalize dependent (recoverServerDB (saveServerDB set_up (mkFileStore ∅ ∅ ∅)) empty_server). intros s1 H1 H2 H3.
  assert (MaxRunning (cfg s1) = 7) as ->.
  { assert (VInt (MaxRunning (cfg s1)) = VInt 7) as [= ->]; [|reflexivity].
    exact (H2 "max_running" (INT MaxRunning) (find_case_elem "max_running" db_cases _ eq_refl)). }
  assert (Managers (cfg s1) = "root@srv") as ->.
  { assert (VStr (Managers (cfg s1)) = VStr "root@srv") as [= ->]; [|reflexivity].
    exact (H2 "managers" (STR Managers) (find_case_elem "managers" db_cases _ eq_refl)). }
  assert (ResourcesDefault (cfg s1) = {["walltime" := "01:00:00"]} ∪ ∅) as ->.
  { exact (H3 "resources_default" (MAP ResourcesDefault) (find_case_elem "resources_default" rescMaps _ eq_refl)). }
  rewrite H1. split_and!; reflexivity.
Defined.

(** Settings of the event-driven scheduling are saved and never read back: the reader does
    not look for their tags. *)
Example event_driven_lost :
  let s1 := recoverServerDB (saveServerDB set_up (mkFileStore ∅ ∅ ∅)) empty_server in
  EventDriven (cfg set_up) = false ∧ EventDriven (cfg s1) = true.
Proof. by vm_compute. Qed.

(** ** Numbering across a restart *)

Lemma NextJobIDs_ext n m m' :
  nextJobID m = nextJobID m' → serverName m = serverName m' → NextJobIDs n m = NextJobIDs n m'.
Proof.
  revert m m'. induction n as [|n IH]; intros m m' H1 H2; [done|]. cbn [NextJobIDs NextJobID].
  rewrite H1, H2. f_equal. apply IH; cbn [nextJobID serverName set_field]; by rewrite ?H1.
Qed.

Definition numbering (s : Server) : Z * string := (nextJobID (jobMgr s), serverName (jobMgr s)).

Lemma enter_numbering j s : numbering (enter j s) = numbering s.
Proof.
  unfold enter, numbering, upd_queue, upd_mgr, AddJob, incr_count, set_field. cbn [jobMgr].
  by destruct (in_counts _ _).
Qed.

Lemma recoverJobs_numbering `{MapRange} t fs s : numbering (recoverJobs t fs s) = numbering s.
Proof.
  unfold recoverJobs. generalize (range (LoadJobs fs)). intros ks. revert s.
  induction ks as [|k ks IH]; intros s; [done|]. cbn [foldl]. rewrite IH. apply enter_numbering.
Qed.

Lemma saveServerDB_tables `{MapRange} s fs :
  LoadQueues (saveServerDB s fs) = LoadQueues fs ∧ LoadJobs (saveServerDB s fs) = LoadJobs fs ∧
  ∀ id, LoadJobScript id (saveServerDB s fs) = LoadJobScript id fs.
Proof. unfold saveServerDB, SaveServerDB. rewrite on_priv_2. done. Qed.

Lemma save_tables_db `{MapRange} s fs : LoadServerDB (save_tables s fs) = LoadServerDB fs.
Proof.
  unfold save_tables, LoadServerDB. generalize (AllJobs (range (jobs (jobMgr s))) (jobMgr s)). intros js.
  generalize (AllQueues (range (queueMgr s)) (queueMgr s)). intros qs.
  assert (∀ l fs, privDir (foldl (λ fs j, (SaveJob NoFault (Job.ID j) (serializeJob j) fs).2) fs l) = privDir fs) as Hj.
  { induction l as [|j l IH]; intros fs'; [done|]. cbn [foldl]. rewrite IH. unfold SaveJob. by rewrite on_jobs_2. }
  assert (∀ l fs, privDir (foldl (λ fs q, (SaveQueue NoFault (Queue.Name q) (queue_text q) fs).2) fs l) = privDir fs) as Hq.
  { induction l as [|q l IH]; intros fs'; [done|]. cbn [foldl]. rewrite IH. unfold SaveQueue. by rewrite on_queues_2. }
  rewrite Hj. unfold SaveNodes. rewrite on_priv_2, save_file_ok. cbn [snd privDir set_field]. rewrite Hq.
  rewrite lookup_insert_ne by done. by rewrite lookup_delete_ne.
Qed.

Lemma restartable_db `{MapRange} s fs : restartable s fs → restartable s (saveServerDB s fs).
Proof. intros [H1 H2 H3 H4 H5]. destruct (saveServerDB_tables s fs) as (E1 & E2 & _). split; by rewrite ?E1, ?E2. Qed.

Lemma starting_db s s0 s1 : db_read s s0 s1 → starting s0 → starting s1 ∧ ServerName (cfg s1) = ServerName (cfg s0).
Proof.
  intros [H1 _ _ H4 H5] [S1 S2 [S3 S4]]. split; [|by injection H4]. rewrite H5. split; [done|done|].
  cbn [jobMgr set_field the_jobs]. rewrite H1. split; [exact S3|]. by apply (mstep_ok (jobMgr s0)); [constructor|].
Qed.

(** A restart does not reuse job numbers: the server that has recovered its whole state
    hands out exactly the ids the old one would have handed out next, and none of them is
    the id of a recovered job if none was the id of a job before. *)
Theorem restart_numbering `{MapRange} env s s0 fs n :
  restartable s fs → starting s0 → savable_config (cfg s) → is_int64 (nextJobID (jobMgr s)) →
  serverName (jobMgr s0) = serverName (jobMgr s) →
  (∀ id, id ∈ NextJobIDs n (jobMgr s) → the_jobs s !! id = None) →
  let s1 := recoverState env (saveState s fs) s0 in
  NextJobIDs n (jobMgr s1) = NextJobIDs n (jobMgr s) ∧
  ∀ id, id ∈ NextJobIDs n (jobMgr s1) → the_jobs s1 !! id = None.
Proof.
  intros Hr H0 Hs Hn Hsv Hfresh s1. unfold s1, recoverState, saveState.
  set (fs1 := saveServerDB s fs). set (s2 := recoverServerDB (save_tables s fs1) s0).
  assert (db_read s s0 s2) as Hdb.
  { apply recover_document; [done|done|]. rewrite save_tables_db. apply load_saved_db. }
  destruct (starting_db s s0 s2 Hdb H0) as [Hst Hname].
  pose proof (restartable_db s fs Hr) as Hr'. fold fs1 in Hr'.
  destruct (read_tables (now env) s s2 fs1 Hr' Hst) as (Hjobs & _).
  destruct (save_tables_load s fs1) as (_ & L2 & _).
  { intros k q Hl. by destruct (rs_queues _ _ Hr' k q Hl) as (? & ? & _). }
  { intros id j Hl. by apply (proj1 (proj1 (rs_jobs _ _ Hr'))). }
  { apply Hr'. }
  { apply Hr'. }
  unfold recover_tables. cbv zeta. rewrite L2. unfold the_jobs. rewrite !restore_jobMgr.
  match goal with |- context [recoverJobs ?t ?f ?x] => pose proof (recoverJobs_numbering t f x) as Hnum end.
  injection Hnum as Hnum1 Hnum2. cbn [jobMgr set_field] in Hnum1, Hnum2.
  cbv zeta in Hjobs. rewrite (dr_next _ _ _ Hdb) in Hnum1, Hnum2. cbn [nextJobID serverName SetNextJobIDNum set_field] in Hnum1, Hnum2.
  match goal with |- NextJobIDs n ?m = _ ∧ _ => assert (NextJobIDs n m = NextJobIDs n (jobMgr s)) as E end.
  { by apply NextJobIDs_ext; [|rewrite <- Hsv]. }
  split; [done|]. intros id Hid. rewrite E in Hid. unfold the_jobs in Hjobs. rewrite Hjobs.
  apply Hfresh in Hid. unfold the_jobs in Hid. by rewrite Hid.
Qed.

Lemma running_savable : savable_config (cfg running_server).
Proof. unfold savable_config. repeat (apply Forall_cons; split; [by_decide|]). by apply Forall_nil. Qed.

Lemma restart_numbering_witness :
  let s1 := recoverState running_env (saveState running_server script_store) empty_server in
  NextJobIDs 3 (jobMgr s1) = NextJobIDs 3 (jobMgr running_server) ∧
  ∀ id, id ∈ NextJobIDs 3 (jobMgr s1) → the_jobs s1 !! id = None.
Proof.
  apply (restart_numbering running_env running_server empty_server script_store 3).
  - apply running_restartable.
  - split; [reflexivity|reflexivity|]. split; [reflexivity|apply NewManager_ok].
  - apply running_savable.
  - by_decide.
  - reflexivity.
  - intros id Hid. assert (Forall (λ i, the_jobs running_server !! i = None) (NextJobIDs 3 (jobMgr running_server))) as Hf
      by by_decide. rewrite Forall_forall in Hf. by apply Hf.
Defined.
