(* ===== verification/Auth.v ===== *)
(** * Token authentication: internal/auth/token.go

    A client proves who it is with an HMAC-SHA256 of its user name and the time under a
    key that the hosts of the cluster share.  The hash functions of the standard library
    the source calls are written out at their width: a word is an integer below 2^32, a
    byte a character of a string. *)

From S2P Require Import Prelude GoStd.

Local Open Scope string_scope.
Local Open Scope list_scope.
Local Open Scope Z_scope.

(** ** crypto/sha256 *)

Module SHA256.

Definition word (z : Z) : Z := z mod 2 ^ 32.
Definition rotr (n x : Z) : Z := Z.lor (Z.shiftr x n) (word (Z.shiftl x (32 - n))).

Definition k : list Z :=
  [1116352408; 1899447441; 3049323471; 3921009573; 961987163; 1508970993; 2453635748; 2870763221;
   3624381080; 310598401; 607225278; 1426881987; 1925078388; 2162078206; 2614888103; 3248222580;
   3835390401; 4022224774; 264347078; 604807628; 770255983; 1249150122; 1555081692; 1996064986;
   2554220882; 2821834349; 2952996808; 3210313671; 3336571891; 3584528711; 113926993; 338241895;
   666307205; 773529912; 1294757372; 1396182291; 1695183700; 1986661051; 2177026350; 2456956037;
   2730485921; 2820302411; 3259730800; 3345764771; 3516065817; 3600352804; 4094571909; 275423344;
   430227734; 506948616; 659060556; 883997877; 958139571; 1322822218; 1537002063; 1747873779;
   1955562222; 2024104815; 2227730452; 2361852424; 2428436474; 2756734187; 3204031479; 3329325298].

Definition init : list Z :=
  [1779033703; 3144134277; 1013904242; 2773480762; 1359893119; 2600822924; 528734635; 1541459225].

Definition at_ (l : list Z) (i : nat) : Z := default 0 (l !! i).

(** The message schedule: the next word from the last sixteen, newest first. *)
Definition next_word (w : list Z) : Z :=
  let v1 := at_ w 1 in
  let t1 := Z.lxor (Z.lxor (rotr 17 v1) (rotr 19 v1)) (Z.shiftr v1 10) in
  let v2 := at_ w 14 in
  let t2 := Z.lxor (Z.lxor (rotr 7 v2) (rotr 18 v2)) (Z.shiftr v2 3) in
  word (t1 + at_ w 6 + t2 + at_ w 15).

(** One round on the eight working variables a to h. *)
Definition round (v : list Z) (kw : Z) : list Z :=
  match v with
  | [a; b; c; d; e; f; g; h] =>
    let t1 := word (h + Z.lxor (Z.lxor (rotr 6 e) (rotr 11 e)) (rotr 25 e)
                    + Z.lxor (Z.land e f) (Z.land (Z.lxor e (2 ^ 32 - 1)) g) + kw) in
    let t2 := word (Z.lxor (Z.lxor (rotr 2 a) (rotr 13 a)) (rotr 22 a)
                    + Z.lxor (Z.lxor (Z.land a b) (Z.land a c)) (Z.land b c)) in
    [word (t1 + t2); a; b; c; word (d + t1); e; f; g]
  | _ => v
  end.

Fixpoint extend (n : nat) (w : list Z) : list Z :=
  match n with O => w | S n => extend n (next_word w :: w) end.

Definition block (h : list Z) (words : list Z) : list Z :=
  let w := rev (extend 48 (rev words)) in
  let v := foldl round h (zip_with (λ a b, word (a + b)) k w) in
  zip_with (λ a b, word (a + b)) h v.

(** Big-endian words of a list of bytes. *)
Fixpoint words_of (l : list Z) : list Z :=
  match l with
  | a :: b :: c :: d :: l => (((a * 256 + b) * 256 + c) * 256 + d) :: words_of l
  | _ => []
  end.
Definition bytes_be (n : nat) (z : Z) : list Z :=
  (λ i, z / 256 ^ (Z.of_nat n - 1 - Z.of_nat i) mod 256) <$> seq 0 n.

(** The padding: a bit, zeros up to 56 bytes modulo 64, the length in bits. *)
Definition pad (msg : list Z) : list Z :=
  let l := Z.of_nat (length msg) in
  msg ++ [128] ++ replicate (Z.to_nat ((55 - l) mod 64)) 0 ++ bytes_be 8 (8 * l).

Fixpoint blocks (fuel : nat) (h : list Z) (ws : list Z) : list Z :=
  match fuel with
  | O => h
  | S fuel => match ws with [] => h | _ => blocks fuel (block h (take 16 ws)) (drop 16 ws) end
  end.

Definition sum (msg : list Z) : list Z :=
  let ws := words_of (pad msg) in blocks (length ws) init ws ≫= bytes_be 4.

End SHA256.

(** ** crypto/hmac and encoding/hex *)

Fixpoint string_bytes (s : string) : list Z :=
  match s with EmptyString => [] | String c s => byte_val c :: string_bytes s end.
Fixpoint bytes_string (l : list Z) : string :=
  match l with [] => EmptyString | b :: l => String (byte_of b) (bytes_string l) end.

Definition hmac_sha256 (key msg : string) : string :=
  let kb := string_bytes key in
  let kb := if 64 <? Z.of_nat (length kb) then SHA256.sum kb else kb in
  let kb := kb ++ replicate (64 - length kb) 0 in
  let inner := SHA256.sum ((Z.lxor 54 <$> kb) ++ string_bytes msg) in
  bytes_string (SHA256.sum ((Z.lxor 92 <$> kb) ++ inner)).

Definition hex_digit (z : Z) : ascii := if z <? 10 then byte_of (48 + z) else byte_of (87 + z).
Fixpoint EncodeToString (s : string) : string :=
  match s with
  | EmptyString => EmptyString
  | String c s => String (hex_digit (byte_val c / 16)) (String (hex_digit (byte_val c mod 16)) (EncodeToString s))
  end.

Definition hex_val (c : ascii) : option Z :=
  let b := byte_val c in
  if (48 <=? b) && (b <=? 57) then Some (b - 48)
  else if (97 <=? b) && (b <=? 102) then Some (b - 87)
  else if (65 <=? b) && (b <=? 70) then Some (b - 55)
  else None.
(** [None] is an error: a byte that is no digit, or an odd length. *)
Fixpoint DecodeString (s : string) : option string :=
  match s with
  | EmptyString => Some EmptyString
  | String a (String b s) =>
    match hex_val a, hex_val b, DecodeString s with
    | Some x, Some y, Some r => Some (String (byte_of (16 * x + y)) r)
    | _, _, _ => None
    end
  | String _ EmptyString => None
  end.

(** ** The key file *)

Definition KeyFileName : string := "auth_key".
Definition MaxClockSkew : Z := 300.
Definition KeySize : Z := 32.

(** What [GenerateKeyFile] writes for the random bytes it has drawn. *)
Definition key_text (key : string) : string := EncodeToString key +:+ String newline "".
(** [LoadKey] on the content of the file. *)
Definition LoadKey (data : string) : option string := DecodeString (TrimSpace data).

(** ** Tokens *)

Definition ComputeToken (user : string) (timestamp : Z) (key : string) : string :=
  EncodeToString (hmac_sha256 key (user +:+ "|" +:+ FormatInt timestamp)).

Inductive token_error := Expired (skew : Z) | InvalidToken.

(** [now] is the clock in seconds. *)
Definition VerifyToken (now : Z) (user : string) (timestamp : Z) (token key : string) : option token_error :=
  let diff := int64 (now - timestamp) in
  let diff := if diff <? 0 then int64 (- diff) else diff in
  if MaxClockSkew <? diff then Some (Expired diff)
  else if decide (token = ComputeToken user timestamp key) then None else Some InvalidToken.

(** ** Lemmas *)

Lemma hex_val_digit z : 0 ≤ z < 16 → hex_val (hex_digit z) = Some z.
Proof.
  intros Hz. unfold hex_digit, hex_val. destruct (z <? 10) eqn:E; bool_to_prop; rewrite byte_val_of by lia.
  - rewrite (proj2 (Z.leb_le 48 _)), (proj2 (Z.leb_le _ 57)) by lia. cbn [andb]. f_equal. lia.
  - rewrite (proj2 (Z.leb_gt _ 57)), andb_false_r by lia.
    rewrite (proj2 (Z.leb_le 97 _)), (proj2 (Z.leb_le _ 102)) by lia. cbn [andb]. f_equal. lia.
Qed.

Lemma DecodeString_EncodeToString s : DecodeString (EncodeToString s) = Some s.
Proof.
  induction s as [|c s IH]; [done|]. cbn [EncodeToString DecodeString]. pose proof (byte_val_range c) as Hc.
  rewrite !hex_val_digit, IH by (try apply Z.mod_pos_bound; try (split; [apply Z.div_pos|apply Z.div_lt_upper_bound]); lia).
  rewrite <- Z.div_mod by lia. by rewrite byte_of_val.
Qed.

Lemma hex_digit_not_space z : 0 ≤ z < 16 → is_space (hex_digit z) = false.
Proof.
  intros Hz. assert (∀ n, (n < 16)%nat → is_space (hex_digit (Z.of_nat n)) = false) as H.
  { intros n Hn. do 16 (destruct n as [|n]; [reflexivity|]). lia. }
  rewrite <- (Z2Nat.id z) by lia. apply H. lia.
Qed.

Lemma EncodeToString_no_space s : no_space (EncodeToString s) = true.
Proof.
  unfold no_space. induction s as [|c s IH]; [done|]. cbn [EncodeToString all_bytes]. pose proof (byte_val_range c) as Hc.
  rewrite !hex_digit_not_space, IH by (try apply Z.mod_pos_bound; try (split; [apply Z.div_pos|apply Z.div_lt_upper_bound]); lia).
  done.
Qed.

Lemma trim_right_newline s : no_space s = true → trim_right (s +:+ String newline "") = s.
Proof.
  unfold no_space. induction s as [|c s IH]; [done|]. cbn [all_bytes]. intros [Hc Hs]%andb_true_iff.
  change (String c s +:+ ?x) with (String c (s +:+ x)). cbn [trim_right]. rewrite IH by done.
  apply negb_true_iff in Hc. by rewrite Hc.
Qed.

Lemma VerifyToken_iff now user ts token key :
  MinInt64 < now - ts ≤ MaxInt64 →
  VerifyToken now user ts token key = None ↔ Z.abs (now - ts) ≤ MaxClockSkew ∧ token = ComputeToken user ts key.
Proof.
  intros Hd. unfold VerifyToken, MaxClockSkew. rewrite (int64_id (now - ts)) by (unfold_int; lia).
  assert ((if now - ts <? 0 then int64 (- (now - ts)) else now - ts) = Z.abs (now - ts)) as ->.
  { destruct (now - ts <? 0) eqn:E; bool_to_prop; [|lia]. rewrite int64_id by (unfold_int; lia). lia. }
  destruct (300 <? Z.abs (now - ts)) eqn:E; bool_to_prop.
  - split; [done|]. intros [H _]. lia.
  - case_decide as Ht; [|by split; [|intros [_ ?]]]. by split.
Qed.

(** ** Theorems *)

(** The key file is read back as the key that was generated. *)
Theorem LoadKey_key_text key : LoadKey (key_text key) = Some key.
Proof.
  unfold LoadKey, key_text, TrimSpace. pose proof (EncodeToString_no_space key) as Hn.
  assert (trim_left (EncodeToString key +:+ String newline "") = EncodeToString key +:+ String newline ""
          ∨ EncodeToString key = "") as [->|E].
  { unfold no_space in Hn. destruct (EncodeToString key) as [|c s]; [by right|left]. cbn [all_bytes] in Hn.
    apply andb_true_iff in Hn as [Hc%negb_true_iff _].
    change (String c s +:+ ?x) with (String c (s +:+ x)). cbn [trim_left]. by rewrite Hc. }
  - by rewrite trim_right_newline, DecodeString_EncodeToString.
  - rewrite E. destruct key; [done|discriminate E].
Qed.

(** A token is accepted exactly when it is the signature of the user and the timestamp
    under the key and the timestamp is at most five minutes from the clock, for clocks and
    timestamps that do not overflow their difference. *)
Theorem VerifyToken_exact now user ts token key :
  MinInt64 < now - ts ≤ MaxInt64 →
  VerifyToken now user ts token key = None ↔
  Z.abs (now - ts) ≤ MaxClockSkew ∧ token = ComputeToken user ts key.
Proof.
  apply VerifyToken_iff.
Qed.

Lemma VerifyToken_exact_witness :
  VerifyToken 1700000100 "alice" 1700000000
    "830c750a10beffa0f1103b7fdcb2123f17ad61683887290bacb5782f41c80f64" "key" = None ∧
  VerifyToken 1700000301 "alice" 1700000000
    "830c750a10beffa0f1103b7fdcb2123f17ad61683887290bacb5782f41c80f64" "key" ≠ None.
Proof.
  split.
  - apply VerifyToken_exact; [by vm_compute|]. split; [by vm_compute|]. vm_compute. reflexivity.
  - intros H. apply VerifyToken_exact in H as [H _]; [|by vm_compute]. by vm_compute in H.
Defined.

(** The negation of the least integer is itself: a timestamp 2^63 seconds away passes the
    test of the clock. *)
Theorem skew_overflows now user key :
  VerifyToken now user (now - 2 ^ 63) (ComputeToken user (now - 2 ^ 63) key) key = None.
Proof.
  unfold VerifyToken. replace (now - (now - 2 ^ 63)) with (2 ^ 63) by lia.
  change (int64 (2 ^ 63)) with (- 2 ^ 63). change (- 2 ^ 63 <? 0) with true. cbv iota.
  change (int64 (- - 2 ^ 63)) with (- 2 ^ 63). change (MaxClockSkew <? - 2 ^ 63) with false. cbv iota.
  by rewrite decide_True.
Qed.
