(* ===== verification/NetStd.v ===== *)
(** * Package net: the addresses the server reads

    [SplitHostPort], [ParseIP], [ParseCIDR], [IPNet.Contains] and [IP.String] of the
    standard library.  An [IP] is a list of 4 or 16 bytes, a byte an integer below 256. *)

From S2P Require Import Prelude GoStd.

Local Open Scope string_scope.
Local Open Scope list_scope.
Local Open Scope Z_scope.

(** ** Hosts and ports *)

(** [s] up to and after its last [c]. *)
Fixpoint cut_last (c : ascii) (s : string) : option (string * string) :=
  match s with
  | EmptyString => None
  | String d s =>
    match cut_last c s with
    | Some (a, b) => Some (String d a, b)
    | None => if decide (d = c) then Some (EmptyString, s) else None
    end
  end.

(** The host and the port, [None] on an error (the source then goes on with empty strings). *)
Definition SplitHostPort (hostport : string) : option (string * string) :=
  match cut_last ":" hostport with
  | None => None
  | Some (before, port) =>
    match strip_prefix "[" before with
    | Some inner =>
      (* the bracket must close right before the last colon *)
      match cut "]" inner with
      | Some (host, "") =>
        if has_byte "[" host || has_byte "[" port || has_byte "]" port then None else Some (host, port)
      | _ => None
      end
    | None =>
      if has_byte ":" before || has_byte "[" hostport || has_byte "]" hostport then None
      else Some (before, port)
    end
  end.

(** ** Addresses *)

Definition IP : Type := list Z.
Definition v4InV6Prefix : list Z := [0; 0; 0; 0; 0; 0; 0; 0; 0; 0; 255; 255].

(** The octets of a dotted address: decimal, at most 255, without leading zeros. *)
Definition parse_octet (s : string) : option Z :=
  if all_bytes is_digit s && negb (bool_decide (s = "")) && (len s <=? 3)
     && (bool_decide (s = "0") || negb (HasPrefix s "0")) && (dec_value 0 s <=? 255)
  then Some (dec_value 0 s) else None.
Definition parseIPv4 (s : string) : option (list Z) :=
  match mapM parse_octet (Split "." s) with
  | Some [a; b; c; d] => Some [a; b; c; d]
  | _ => None
  end.

Definition hex_digit_val (c : ascii) : option Z :=
  let b := byte_val c in
  if (48 <=? b) && (b <=? 57) then Some (b - 48)
  else if (97 <=? b) && (b <=? 102) then Some (b - 87)
  else if (65 <=? b) && (b <=? 70) then Some (b - 55)
  else None.
(** The longest prefix of hexadecimal digits: their number, their value and the rest. *)
Fixpoint hex_span (s : string) (n acc : Z) : Z * Z * string :=
  match s with
  | String c s' =>
    match hex_digit_val c with Some d => hex_span s' (n + 1) (16 * acc + d) | None => (n, acc, s) end
  | EmptyString => (n, acc, s)
  end.

(** The groups of an address: [ip] holds the bytes so far, [ellipsis] where "::" stood.
    A turn adds at least two bytes, so nine turns are enough. *)
Fixpoint ipv6_groups (fuel : nat) (s : string) (ip : list Z) (ellipsis : option nat) :
    option (list Z * option nat) :=
  match fuel with
  | O => None
  | S fuel =>
    if (16 <=? length ip)%nat then if decide (s = "") then Some (ip, ellipsis) else None
    else
      let '(off, acc, rest) := hex_span s 0 0 in
      if (off =? 0) || (4 <? off) then None
      else if HasPrefix rest "." then
        if bool_decide (ellipsis = None) && negb (length ip =? 12)%nat || (16 <? length ip + 4)%nat then None
        else match parseIPv4 s with Some l => Some (ip ++ l, ellipsis) | None => None end
      else
        let ip := ip ++ [acc / 256; acc mod 256] in
        match rest with
        | EmptyString => Some (ip, ellipsis)
        | String c s =>
          if negb (bool_decide (c = ":"%char)) || bool_decide (s = "") then None
          else match strip_prefix ":" s with
               | Some s =>
                 if bool_decide (is_Some ellipsis) then None
                 else if decide (s = "") then Some (ip, Some (length ip))
                 else ipv6_groups fuel s ip (Some (length ip))
               | None => ipv6_groups fuel s ip ellipsis
               end
        end
  end.
Definition parseIPv6 (s : string) : option (list Z) :=
  let start := match strip_prefix "::" s with Some s => (s, Some 0%nat) | None => (s, None) end in
  if decide (start = ("", Some 0%nat)) then Some (replicate 16 0)
  else match ipv6_groups 9 start.1 [] start.2 with
       | Some (ip, ellipsis) =>
         let n := (16 - length ip)%nat in
         match ellipsis with
         | Some e => if (n =? 0)%nat then None else Some (take e ip ++ replicate n 0 ++ drop e ip)
         | None => if (n =? 0)%nat then Some ip else None
         end
       | None => None
       end.

(** [netip.ParseAddr] without a zone: which kind of address is decided by the first dot or
    colon. *)
Fixpoint first_sep (s : string) : option ascii :=
  match s with
  | EmptyString => None
  | String c s => if bool_decide (c = "."%char) || bool_decide (c = ":"%char) then Some c else first_sep s
  end.
Inductive Addr := Addr4 (b : list Z) | Addr16 (b : list Z).
Definition ParseAddr (s : string) : option Addr :=
  if has_byte "%" s then None
  else match first_sep s with
       | Some c => if decide (c = "."%char) then Addr4 <$> parseIPv4 s else Addr16 <$> parseIPv6 s
       | None => None
       end.
Definition As16 (a : Addr) : IP := match a with Addr4 b => v4InV6Prefix ++ b | Addr16 b => b end.
Definition BitLen (a : Addr) : Z := match a with Addr4 _ => 32 | Addr16 _ => 128 end.

Definition ParseIP (s : string) : option IP := As16 <$> ParseAddr s.

Definition To4 (ip : IP) : option (list Z) :=
  if decide (length ip = 4%nat) then Some ip
  else if decide (length ip = 16%nat ∧ take 12 ip = v4InV6Prefix) then Some (drop 12 ip)
  else None.

(** ** Ranges *)

Record IPNet := mkIPNet { net_IP : IP; net_Mask : list Z }.

(** [CIDRMask(n, bits)]: n ones. *)
Definition CIDRMask (n bits : Z) : list Z :=
  (λ i, let k := n - 8 * Z.of_nat i in
        if 8 <=? k then 255 else if k <=? 0 then 0 else 256 - 2 ^ (8 - k)) <$> seq 0 (Z.to_nat (bits / 8)).
Definition Mask (ip : IP) (mask : list Z) : IP :=
  let ip := if decide (length mask = 4%nat ∧ length ip = 16%nat ∧ take 12 ip = v4InV6Prefix)
            then drop 12 ip else ip in
  if decide (length ip = length mask) then zip_with Z.land ip mask else [].

(** [dtoi]: all digits, below 0xFFFFFF. *)
Definition dtoi_all (s : string) : option Z :=
  if all_bytes is_digit s && negb (bool_decide (s = "")) && (dec_value 0 s <? 16777215)
  then Some (dec_value 0 s) else None.

Definition ParseCIDR (s : string) : option IPNet :=
  match cut "/" s with
  | None => None
  | Some (addr, mask) =>
    match ParseAddr addr, dtoi_all mask with
    | Some a, Some n =>
      if BitLen a <? n then None
      else let m := CIDRMask n (BitLen a) in Some (mkIPNet (Mask (As16 a) m) m)
    | _, _ => None
    end
  end.

Definition networkNumberAndMask (n : IPNet) : list Z * list Z :=
  let ip := default (net_IP n) (To4 (net_IP n)) in
  if decide (length ip = 4%nat) then
    if decide (length (net_Mask n) = 4%nat) then (ip, net_Mask n)
    else if decide (length (net_Mask n) = 16%nat) then (ip, drop 12 (net_Mask n)) else ([], [])
  else if decide (length ip = 16%nat ∧ length (net_Mask n) = 16%nat) then (ip, net_Mask n) else ([], []).

Definition net_Contains (n : IPNet) (ip : IP) : bool :=
  let '(nn, m) := networkNumberAndMask n in
  let ip := default ip (To4 ip) in
  bool_decide (length ip = length nn) && bool_decide (zip_with Z.land nn m = zip_with Z.land ip m).

(** ** Printing *)

Fixpoint hex_digits (fuel : nat) (z : Z) (acc : string) : string :=
  match fuel with
  | O => acc
  | S fuel =>
    let d := z mod 16 in
    let acc := String (if d <? 10 then byte_of (48 + d) else byte_of (87 + d)) acc in
    if z / 16 =? 0 then acc else hex_digits fuel (z / 16) acc
  end.
Definition group (ip : IP) (i : nat) : Z := default 0 (ip !! (2 * i)%nat) * 256 + default 0 (ip !! (2 * i + 1)%nat).
(** The run of zero groups that starts at [i]. *)
Fixpoint zero_run (fuel : nat) (ip : IP) (i : nat) : nat :=
  match fuel with
  | O => 0
  | S fuel => if (i <? 8)%nat && (group ip i =? 0) then S (zero_run fuel ip (S i)) else 0
  end.
(** The first of the longest runs of two groups or more: where it starts and its length. *)
Definition longest_run (ip : IP) : nat * nat :=
  foldl (λ best i, let l := zero_run 8 ip i in if (2 <=? l)%nat && (best.2 <? l)%nat then (i, l) else best)
    (8%nat, 0%nat) (seq 0 8).
Definition string6 (ip : IP) : string :=
  let '(start, n) := longest_run ip in
  let hex i := hex_digits 4 (group ip i) "" in
  if (n =? 0)%nat then Join ":" (hex <$> seq 0 8)
  else Join ":" (hex <$> seq 0 start) +:+ "::" +:+ Join ":" (hex <$> seq (start + n) (8 - (start + n))).
Definition IP_String (ip : IP) : string :=
  match To4 ip with
  | Some b => Join "." (Itoa <$> b)
  | None => string6 ip
  end.

(** ** Examples *)

Example split_hosts :
  SplitHostPort "10.0.0.7:15002" = Some ("10.0.0.7", "15002") ∧
  SplitHostPort "[fe80::1]:7" = Some ("fe80::1", "7") ∧ SplitHostPort "fe80::1:7" = None ∧ SplitHostPort "host" = None.
Proof. by vm_compute. Qed.

Example parse_addresses :
  ParseIP "10.20.0.1" = Some (v4InV6Prefix ++ [10; 20; 0; 1]) ∧ ParseIP "10.020.0.1" = None ∧
  ParseIP "::1" = Some (replicate 15 0 ++ [1]) ∧
  ParseIP "2001:db8::ff00:42:8329" = Some [32; 1; 13; 184; 0; 0; 0; 0; 0; 0; 255; 0; 0; 66; 131; 41] ∧
  ParseIP "::ffff:1.2.3.4" = Some (v4InV6Prefix ++ [1; 2; 3; 4]) ∧ ParseIP "1::2::3" = None ∧ ParseIP "12345::" = None.
Proof. by vm_compute. Qed.

Example print_addresses :
  (IP_String <$> ParseIP "2001:db8:0:0:1:0:0:1") = Some "2001:db8::1:0:0:1" ∧
  (IP_String <$> ParseIP "::") = Some "::" ∧ (IP_String <$> ParseIP "::ffff:1.2.3.4") = Some "1.2.3.4".
Proof. by vm_compute. Qed.

Example ranges :
  let in_range n ip := match ParseCIDR n, ParseIP ip with Some n, Some ip => net_Contains n ip | _, _ => false end in
  in_range "10.20.0.0/16" "10.20.255.1" = true ∧ in_range "10.20.0.0/15" "10.22.0.1" = false ∧
  in_range "fd00::/8" "fdff::1" = true ∧ ParseCIDR "10.0.0.0/33" = None.
Proof. by vm_compute. Qed.

(** ** A range of the fourth version is an interval of integers *)

Definition is_byte (z : Z) : Prop := 0 ≤ z < 256.
(** The address as a 32-bit integer. *)
Definition v4_value (b : list Z) : Z := foldl (λ acc x, acc * 256 + x) 0 b.

Lemma land_mask x k : is_byte x → 0 ≤ k ≤ 8 → Z.land x (256 - 2 ^ k) = x / 2 ^ k * 2 ^ k.
Proof.
  unfold is_byte. intros Hx Hk.
  assert (∀ n m, (n < 256)%nat → (m < 9)%nat →
    Z.land (Z.of_nat n) (256 - 2 ^ Z.of_nat m) = Z.of_nat n / 2 ^ Z.of_nat m * 2 ^ Z.of_nat m) as H.
  { assert (Forall (λ n, Forall (λ m, Z.land (Z.of_nat n) (256 - 2 ^ Z.of_nat m)
      = Z.of_nat n / 2 ^ Z.of_nat m * 2 ^ Z.of_nat m) (seq 0 9)) (seq 0 256)) as Hf by by_decide.
    intros n m Hn Hm. rewrite Forall_forall in Hf.
    assert (n ∈ seq 0 256) as Hi by (apply elem_of_seq; lia). apply Hf in Hi. rewrite Forall_forall in Hi.
    apply Hi, elem_of_seq. lia. }
  rewrite <- (Z2Nat.id x), <- (Z2Nat.id k) by lia. apply H; lia.
Qed.

Lemma CIDRMask_4 n :
  CIDRMask n 32 = (λ k, 256 - 2 ^ Z.max 0 (Z.min 8 (8 - k))) <$> [n; n - 8; n - 16; n - 24].
Proof.
  unfold CIDRMask. change (seq 0 (Z.to_nat (32 / 8))) with [0%nat; 1%nat; 2%nat; 3%nat]. cbn [fmap list_fmap].
  change (8 * Z.of_nat 0) with 0. change (8 * Z.of_nat 1) with 8. change (8 * Z.of_nat 2) with 16.
  change (8 * Z.of_nat 3) with 24. rewrite Z.sub_0_r.
  assert (∀ k, (if 8 <=? k then 255 else if k <=? 0 then 0 else 256 - 2 ^ (8 - k))
    = 256 - 2 ^ Z.max 0 (Z.min 8 (8 - k))) as Hk.
  { intros k. destruct (8 <=? k) eqn:E1; bool_to_prop; [by rewrite Z.max_l by lia|].
    destruct (k <=? 0) eqn:E2; bool_to_prop.
    - by replace (Z.max 0 (Z.min 8 (8 - k))) with 8 by lia.
    - by replace (Z.max 0 (Z.min 8 (8 - k))) with (8 - k) by lia. }
  by rewrite !Hk.
Qed.

Lemma list4_eq (a b c d a' b' c' d' : Z) :
  [a; b; c; d] = [a'; b'; c'; d'] ↔ a = a' ∧ b = b' ∧ c = c' ∧ d = d'.
Proof. split; [intros [= -> -> -> ->]|intros (-> & -> & -> & ->)]; done. Qed.

(** The bytes of two addresses under the mask agree when the leading bits do. *)
Lemma masked_bytes n a b c d a' b' c' d' :
  0 ≤ n ≤ 32 → Forall is_byte [a; b; c; d] → Forall is_byte [a'; b'; c'; d'] →
  zip_with Z.land [a; b; c; d] (CIDRMask n 32) = zip_with Z.land [a'; b'; c'; d'] (CIDRMask n 32) ↔
  v4_value [a; b; c; d] / 2 ^ (32 - n) = v4_value [a'; b'; c'; d'] / 2 ^ (32 - n).
Proof.
  intros Hn Ha Hb. repeat (apply Forall_cons in Ha as [? Ha]). repeat (apply Forall_cons in Hb as [? Hb]).
  rewrite CIDRMask_4. cbn [fmap list_fmap zip_with]. rewrite !land_mask by (try done; lia).
  unfold v4_value, is_byte in *. cbn [foldl]. clear Ha Hb.
  assert (∃ m, n = Z.of_nat m ∧ (m < 33)%nat) as (m & -> & Hm) by (exists (Z.to_nat n); lia).
  do 33 (try destruct m as [|m]); [..|lia]. all: clear Hn Hm.
  all: match goal with |- context [2 ^ (32 - ?k)] => let e := eval vm_compute in (2 ^ (32 - k)) in
         change (2 ^ (32 - k)) with e end.
  all: repeat match goal with |- context [2 ^ Z.max 0 ?k] =>
         let e := eval vm_compute in (2 ^ Z.max 0 k) in change (2 ^ Z.max 0 k) with e end.
  all: rewrite list4_eq; Z.div_mod_to_equations; lia.
Qed.
