(* ===== verification/Admin.v ===== *)
(** * Administration: the manager requests, node registration and authentication of
    internal/server/server.go

    [handleManager] and the operations on queues, nodes and the server it dispatches to,
    [handleISMessage] with the registration of unknown compute nodes, and the two
    requests that authenticate a connection.  As for the other handlers the request is
    decoded; what the resolver of host names answers is an argument. *)

From S2P Require Import Prelude GoStd NetStd Auth Dis DisMessage Job JobManager Node Queue Route.
From S2P Require Import ServerConfig ServerState Submit.
Import Proto.

Local Open Scope string_scope.
Local Open Scope list_scope.
Local Open Scope Z_scope.

(** ** qmgr

    [None] is an error, found before anything is changed. *)

Definition mgrCreateQueue (name : string) (attrs : list SvrAttrl) (s : Server) : option Server :=
  match GetQueue name (queueMgr s) with
  | Some _ => None
  | None =>
    let q := applyQueueAttrs attrs (NewQueue name TypeExecution) in
    Some (saveQueue q (s <| queueMgr := AddQueue q (queueMgr s) |>))
  end.

Definition mgrDeleteQueue (name : string) (s : Server) : option Server :=
  match RemoveQueue name (queueMgr s) with
  | (true, m) => Some (emit (RemoveQueueFile name) (s <| queueMgr := m |>))
  | (false, _) => None
  end.

(** The queue of the table after [f], saved. *)
Definition change_queue (name : string) (f : Queue → Queue) (s : Server) : option Server :=
  match GetQueue name (queueMgr s) with
  | Some q => Some (saveQueue (f q) (upd_queue name f s))
  | None => None
  end.
Definition mgrSetQueue (name : string) (attrs : list SvrAttrl) : Server → option Server :=
  change_queue name (applyQueueAttrs attrs).
Definition mgrUnsetQueue (name : string) (attrs : list SvrAttrl) : Server → option Server :=
  change_queue name (λ q, q <| Queue.Attrs := foldl (λ m a, delete (DisMessage.Name a) m) (Queue.Attrs q) attrs |>).

Definition np_attr (a : SvrAttrl) : bool :=
  bool_decide (DisMessage.Name a = "np") || bool_decide (DisMessage.Name a = "resources_available") && bool_decide (Resc a = "np").
Definition mgrCreateNode (name : string) (attrs : list SvrAttrl) (s : Server) : option Server :=
  let np := foldl (λ np a, if np_attr a then Sscanf_d (Value a) np else np) 1 attrs in
  let s := s <| nodeMgr := (AddNode name np (nodeMgr s)).2 |> in
  Some (saveNodes (upd_node name (applyNodeAttrs attrs) s)).

Definition mgrDeleteNode (name : string) (s : Server) : option Server :=
  match RemoveNode name (nodeMgr s) with
  | (true, m) => Some (saveNodes (s <| nodeMgr := m |>))
  | (false, _) => None
  end.

Definition mgrSetNode (name : string) (attrs : list SvrAttrl) (s : Server) : option Server :=
  match get_node name s with
  | Some _ => Some (triggerSched (saveNodes (upd_node name (applyNodeAttrs attrs) s)))
  | None => None
  end.

Definition mgrSetServer (attrs : list SvrAttrl) (s : Server) : option Server :=
  Some (s <| cfg := set_server attrs (cfg s) |>).
Definition mgrUnsetServer (attrs : list SvrAttrl) (s : Server) : option Server :=
  Some (s <| cfg := unset_server attrs (cfg s) |>).

(** [saveServerDB], by what it saves. *)
Definition save_server (s : Server) : Server :=
  s <| st_server := Some (cfg s, GetNextJobIDNum (jobMgr s)) |>.

Definition manager_op (command objType : Z) (objName : string) (attrs : list SvrAttrl) (s : Server) : option Server :=
  if (objType =? MgrObjQueue) && (command =? MgrCmdCreate) then mgrCreateQueue objName attrs s
  else if (objType =? MgrObjQueue) && (command =? MgrCmdDelete) then mgrDeleteQueue objName s
  else if (objType =? MgrObjQueue) && (command =? MgrCmdSet) then mgrSetQueue objName attrs s
  else if (objType =? MgrObjQueue) && (command =? MgrCmdUnset) then mgrUnsetQueue objName attrs s
  else if (objType =? MgrObjNode) && (command =? MgrCmdCreate) then mgrCreateNode objName attrs s
  else if (objType =? MgrObjNode) && (command =? MgrCmdDelete) then mgrDeleteNode objName s
  else if (objType =? MgrObjNode) && (command =? MgrCmdSet) then mgrSetNode objName attrs s
  else if (objType =? MgrObjServer) && (command =? MgrCmdSet) then mgrSetServer attrs s
  else if (objType =? MgrObjServer) && (command =? MgrCmdUnset) then mgrUnsetServer attrs s
  else None.

Definition handleManager (command objType : Z) (objName : string) (attrs : list SvrAttrl) (s : Server) : Handled :=
  match manager_op command objType objName attrs s with
  | None => err_reply PbseBadReq true s
  | Some s => ok_reply (if objType =? MgrObjServer then save_server s else s)
  end.

(** ** Status messages of compute nodes *)

Definition ipInAllowedRanges (c : Config) (ip : NetStd.IP) : bool :=
  existsb (λ r,
    let r := TrimSpace r in
    if decide (r = "") then false
    else match ParseCIDR r with Some cidr => net_Contains cidr ip | None => false end)
    (Split "," (NodeAllowedIPRanges c)).

Definition tryAutoRegisterNode (hostname : string) (remoteIP : option NetStd.IP) (s : Server) : Server * bool :=
  if negb (AllowDynamicNodes (cfg s)) then (s, false)
  else match remoteIP with
  | None => (s, false)
  | Some ip =>
    if negb (ipInAllowedRanges (cfg s) ip) then (s, false)
    else
      let np := if AutoNodeNP (cfg s) && (0 <? NPDefault (cfg s)) then NPDefault (cfg s) else 1 in
      let s := s <| nodeMgr := (AddNode hostname np (nodeMgr s)).2 |> in
      (saveNodes (upd_node hostname (λ n, n <| Dynamic := true |>) s), true)
  end.

(** The host of the remote address, empty when the address cannot be split. *)
Definition remote_host (remote : string) : string :=
  match SplitHostPort remote with Some (host, _) => host | None => "" end.

Definition first_node_item (items : list string) : string :=
  default "" (list_find (λ item, is_Some (strip_prefix "node=" item)) items ≫= λ ii, strip_prefix "node=" ii.2).

Section status.
(** [net.LookupAddr]: the names of an address, [None] on an error. *)
Context (LookupAddr : string → option (list string)).

Definition message_hostname (remote : string) (items : list string) : string :=
  let hostname := first_node_item items in
  if decide (hostname = "") then
    let host := remote_host remote in
    match LookupAddr host with
    | Some (name :: _) => default name (strip_suffix "." name)
    | _ => host
    end
  else hostname.

(** The new state and whether the message is acknowledged. *)
Definition handleISMessage (now : Time) (remote : string) (msg : ISMessage) (s : Server) : Server * bool :=
  let hostname := message_hostname remote (is_Items msg) in
  let remoteIP := ParseIP (remote_host remote) in
  let s := match get_node hostname s with
           | Some _ => s
           | None => (tryAutoRegisterNode hostname remoteIP s).1
           end in
  match get_node hostname s with
  | None => (s, false)
  | Some _ =>
    (upd_node hostname (λ n,
       let n := n <| MomPort := is_MomPort msg |> <| RmPort := is_RmPort msg |> in
       let n := match remoteIP with Some ip => n <| Node.IP := IP_String ip |> | None => n end in
       UpdateFromStatus now (is_Items msg) n) s, true)
  end.

End status.

(** ** Authentication and messages *)

Definition handleAuthenUser (user remote : string) (clientPort : Z) (s : Server) : Handled :=
  let authKey := remote_host remote +:+ ":" +:+ FormatUint clientPort in
  ok_reply (s <| authMap := <[authKey := user]> (authMap s) |>).

Definition handleAuthToken (now : Time) (user remote : string) (timestamp : Z) (token : string) (s : Server) : Handled :=
  match authKey s with
  | None => err_reply PbseBadCred false s
  | Some key =>
    match VerifyToken (Unix now) user (int64 timestamp) token key with
    | Some _ => err_reply PbseBadCred false s
    | None => ok_reply (s <| authMap := <[remote := user]> (authMap s) |>)
    end
  end.

Definition handleMessJob (env : Env) (jobID : string) (s : Server) : Handled :=
  match get_job env jobID s with
  | None => err_reply PbseUnkjobid true s
  | Some _ => ok_reply s
  end.
