(* ===== verification/AdminSpec.v ===== *)
(** * What administration keeps true

    The tables of queues and nodes stay in step with the store through every manager
    request and status message, a compute node can only register itself where the
    configuration allows it, and what an administrator sets survives a restart. *)

From S2P Require Import Prelude GoStd NetStd Auth Dis DisMessage Job JobManager Node Queue Route.
From S2P Require Import ServerConfig ServerState Submit Exec Store Persist PersistConf Recover Restart PersistServer PersistServerSpec Admin.
Import Proto.

Local Open Scope string_scope.
Local Open Scope list_scope.
Local Open Scope Z_scope.

(** ** Attributes do not rename *)

Lemma applyQueueAttr_Name ql a : Queue.Name (applyQueueAttr ql a).1 = Queue.Name ql.1.
Proof.
  destruct ql as [q l]. unfold applyQueueAttr.
  apply (switch_ind (λ r, Queue.Name r.1 = Queue.Name q)); [|done].
  repeat (apply Forall_cons; split; [cbn [fst snd]; try done; by destruct (HasResc a)|]). by apply Forall_nil.
Qed.

Lemma applyQueueAttrs_Name attrs q : Queue.Name (applyQueueAttrs attrs q) = Queue.Name q.
Proof.
  unfold applyQueueAttrs. generalize (mkLists None None None None None None). intros l.
  assert (Queue.Name (foldl applyQueueAttr (q, l) attrs).1 = Queue.Name q) as H.
  { change q with (q, l).1 at 2. generalize (q, l). clear. induction attrs as [|a attrs IH]; intros ql; [done|].
    cbn [foldl]. by rewrite IH, applyQueueAttr_Name. }
  destruct (foldl _ _ _) as [q' l']. exact H.
Qed.

Lemma applyNodeAttr_kept a n :
  let n' := applyNodeAttr n a in
  Node.Name n' = Node.Name n ∧ AssignedJobs n' = AssignedJobs n ∧ SlotsUsed n' = SlotsUsed n.
Proof.
  unfold applyNodeAttr. cbv zeta.
  apply (switch_ind (λ n', Node.Name n' = Node.Name n ∧ AssignedJobs n' = AssignedJobs n ∧ SlotsUsed n' = SlotsUsed n)); [|done].
  repeat (apply Forall_cons; split; [cbn [snd]|]); [|done..| |by apply Forall_nil].
  - apply (switch_ind (λ n', Node.Name n' = Node.Name n ∧ AssignedJobs n' = AssignedJobs n ∧ SlotsUsed n' = SlotsUsed n)); [|done].
    repeat (apply Forall_cons; split; [done|]). by apply Forall_nil.
  - case_decide; [done|]. destruct (ParseInt (Value a)) as [k []]; [done|]. by destruct (0 <=? k).
Qed.

Lemma applyNodeAttrs_kept attrs n :
  let n' := applyNodeAttrs attrs n in
  Node.Name n' = Node.Name n ∧ AssignedJobs n' = AssignedJobs n ∧ SlotsUsed n' = SlotsUsed n.
Proof.
  unfold applyNodeAttrs. revert n. induction attrs as [|a attrs IH]; intros n; [done|]. cbn [foldl]. cbv zeta in *.
  destruct (IH (applyNodeAttr n a)) as (-> & -> & ->). apply applyNodeAttr_kept.
Qed.

Lemma UpdateFromStatus_Name now items n : Node.Name (UpdateFromStatus now items n) = Node.Name n.
Proof.
  unfold UpdateFromStatus. cbv zeta.
  assert (Node.Name (foldl apply_item n items) = Node.Name n) as <-.
  { revert n. induction items as [|i items IH]; intros n; [done|]. cbn [foldl]. rewrite IH.
    unfold apply_item, applyStateString. destruct (cut "=" i) as [[key val]|]; [|done].
    repeat case_decide; done. }
  by destruct (_ && _).
Qed.

(** ** The invariant *)

(** Queues and nodes are stored under their names, the text of every queue as it is was the
    last one handed to the store, of a queue that is gone the file was to be removed, and
    the saved list of nodes has exactly the nodes of the table. *)
Record admin_ok (s : Server) : Prop := {
  ao_queues : map_Forall (λ n q, Queue.Name q = n) (queueMgr s : gmap string Queue);
  ao_nodes : map_Forall (λ n x, Node.Name x = n) (the_nodes s);
  ao_saved : ∀ n q, queueMgr s !! n = Some q → st_queues s !! n = Some (queue_text q);
  ao_gone : ∀ n, is_Some (st_queues s !! n) → queueMgr s !! n = None → RemoveQueueFile n ∈ events s;
  ao_saved_nodes : dom (st_nodes s) = dom (the_nodes s);
}.

(** A queue is put in the table and saved. *)
Lemma admin_put_queue s q :
  admin_ok s →
  admin_ok (saveQueue q (s <| queueMgr := (<[Queue.Name q := q]> (queueMgr s : gmap string Queue) : gmap string Queue) |>)).
Proof.
  intros [H1 H2 H3 Hg H4]. split; [|done| | |done].
  - by apply map_Forall_insert_2.
  - intros n q'. cbn [saveQueue st_queues queueMgr set_field]. specialize (H3 n q'). unfold Queue.Manager in *.
    destruct (decide (Queue.Name q = n)) as [<-|Hn].
    + rewrite !lookup_insert_eq. by intros [= ->].
    + rewrite !lookup_insert_ne by done. done.
  - intros n. cbn [saveQueue st_queues queueMgr events set_field]. specialize (Hg n). unfold Queue.Manager in *.
    destruct (decide (Queue.Name q = n)) as [<-|Hn]; [by rewrite !lookup_insert_eq|]. by rewrite !lookup_insert_ne by done.
Qed.

(** The node table is changed and saved. *)
Lemma admin_put_nodes s m :
  admin_ok s → map_Forall (λ n x, Node.Name x = n) (nodes m) → admin_ok (saveNodes (s <| nodeMgr := m |>)).
Proof. intros [H1 H2 H3 Hg H4] Hm. by split. Qed.

Lemma AddNode_named name np m :
  map_Forall (λ n x, Node.Name x = n) (nodes m) → map_Forall (λ n x, Node.Name x = n) (nodes (AddNode name np m).2).
Proof. intros Hm. unfold AddNode. destruct (nodes m !! name); [done|]. by apply map_Forall_insert_2. Qed.

Lemma alter_named (f : Node → Node) name (m : gmap string Node) :
  (∀ n, Node.Name (f n) = Node.Name n) → map_Forall (λ n x, Node.Name x = n) m →
  map_Forall (λ n x, Node.Name x = n) (alter f name m).
Proof.
  intros Hf Hm n x. rewrite lookup_alter_Some. intros [(<- & y & Hy & ->)|[_ Hx]]; [rewrite Hf|]; by apply Hm.
Qed.

Lemma admin_triggerSched s : admin_ok s → admin_ok (triggerSched s).
Proof.
  intros H. unfold triggerSched, emit. repeat case_match; [done| |done]. destruct H as [A1 A2 A3 Hg A4].
  split; try done. intros n Hs Hn. cbn [events set_field]. apply elem_of_app. left. by apply Hg.
Qed.

Lemma change_queue_ok name f s s' :
  (∀ q, Queue.Name (f q) = Queue.Name q) → change_queue name f s = Some s' → admin_ok s → admin_ok s'.
Proof.
  intros Hf. unfold change_queue, GetQueue, upd_queue. destruct (queueMgr s !! name) as [q|] eqn:E; [|done].
  intros [= <-] Ha. pose proof (ao_queues _ Ha _ _ E) as Hn.
  assert (alter f name (queueMgr s) = (<[Queue.Name (f q) := f q]> (queueMgr s : gmap string Queue) : gmap string Queue)) as ->.
  { rewrite Hf, Hn. unfold Queue.Manager in *. apply map_eq. intros i. destruct (decide (i = name)) as [->|Hi].
    - rewrite lookup_insert_eq. by rewrite lookup_alter_eq, E.
    - by rewrite lookup_insert_ne, lookup_alter_ne. }
  by apply admin_put_queue.
Qed.

Lemma manager_op_ok command objType name attrs s s' :
  manager_op command objType name attrs s = Some s' → admin_ok s → admin_ok s'.
Proof.
  intros E Ha. unfold manager_op in E. repeat case_match; try done.
  - unfold mgrCreateQueue in E. case_match; [done|]. injection E as <-. by apply admin_put_queue.
  - unfold mgrDeleteQueue, RemoveQueue in E. destruct (queueMgr s !! name) as [q|] eqn:Eq; [|done]. injection E as <-.
    destruct Ha as [H1 H2 H3 Hg H4]. unfold emit. split; [by apply map_Forall_delete|done| | |done];
      intros n; cbn [st_queues queueMgr events set_field]; unfold Queue.Manager in *.
    + intros q'. rewrite lookup_delete_Some. intros [_ Hq]. by apply H3.
    + intros Hs Hn. apply elem_of_app. destruct (decide (name = n)) as [<-|Hne]; [right; by left|].
      left. apply Hg; [done|]. by rewrite lookup_delete_ne in Hn.
  - revert E Ha. apply change_queue_ok. intros q. apply applyQueueAttrs_Name.
  - revert E Ha. by apply change_queue_ok.
  - unfold mgrCreateNode in E. injection E as <-. apply (admin_put_nodes s (_ <| nodes := _ |>) Ha).
    apply alter_named; [intros n; apply applyNodeAttrs_kept|]. apply AddNode_named, Ha.
  - unfold mgrDeleteNode, RemoveNode in E. destruct (nodes (nodeMgr s) !! name) as [n|]; [|done]. injection E as <-.
    apply admin_put_nodes; [done|]. apply map_Forall_delete, Ha.
  - unfold mgrSetNode in E. case_match; [|done]. injection E as <-. apply admin_triggerSched.
    apply (admin_put_nodes s (_ <| nodes := _ |>) Ha). apply alter_named; [intros n'; apply applyNodeAttrs_kept|apply Ha].
  - injection E as <-. by destruct Ha.
  - injection E as <-. by destruct Ha.
Qed.

Lemma alter_upd_node name f s : the_nodes (upd_node name f s) = alter f name (the_nodes s).
Proof. done. Qed.

Lemma tryAutoRegister_ok hostname ip s : admin_ok s → admin_ok (tryAutoRegisterNode hostname ip s).1.
Proof.
  intros Ha. unfold tryAutoRegisterNode. destruct (negb _); [done|]. destruct ip as [ip|]; [|done].
  destruct (negb _); [done|]. cbn [fst].
  apply (admin_put_nodes s (_ <| nodes := _ |>) Ha). apply alter_named; [done|]. apply AddNode_named, Ha.
Qed.

Lemma handleISMessage_ok LookupAddr now remote msg s :
  admin_ok s → admin_ok (handleISMessage LookupAddr now remote msg s).1.
Proof.
  intros Ha. unfold handleISMessage. cbv zeta. set (h := message_hostname _ _ _).
  set (s1 := match get_node h s with Some _ => s | None => _ end).
  assert (admin_ok s1) as Ha1 by (subst s1; case_match; [done|by apply tryAutoRegister_ok]).
  destruct (get_node h s1); [|done]. cbn [fst]. destruct Ha1 as [H1 H2 H3 Hg H4]. split; [done| |done|done|].
  - apply alter_named; [|done]. intros x. rewrite UpdateFromStatus_Name. by case_match.
  - rewrite alter_upd_node, dom_alter_L. exact H4.
Qed.

(** The administrative requests of a server, in any order. *)
Inductive admin_step (LookupAddr : string → option (list string)) : Server → Server → Prop :=
  | step_manager command objType name attrs s :
      admin_step LookupAddr s (handleManager command objType name attrs s).1.1
  | step_status now remote msg s :
      admin_step LookupAddr s (handleISMessage LookupAddr now remote msg s).1
  | step_authen user remote port s : admin_step LookupAddr s (handleAuthenUser user remote port s).1.1
  | step_token now user remote ts token s :
      admin_step LookupAddr s (handleAuthToken now user remote ts token s).1.1.

Lemma handleManager_ok command objType name attrs s :
  admin_ok s → admin_ok (handleManager command objType name attrs s).1.1.
Proof.
  intros Ha. unfold handleManager. destruct (manager_op _ _ _ _ _) as [s'|] eqn:E; [|done].
  apply manager_op_ok in E; [|done]. cbn [ok_reply fst]. destruct (_ =? _); [|done]. by destruct E.
Qed.

Lemma manager_op_jobs command objType name attrs s s' :
  manager_op command objType name attrs s = Some s' → jobMgr s' = jobMgr s.
Proof.
  intros E. unfold manager_op in E. repeat case_match; try done;
    unfold mgrCreateQueue, mgrDeleteQueue, mgrSetQueue, mgrUnsetQueue, change_queue, mgrCreateNode, mgrDeleteNode,
      mgrSetNode, mgrSetServer, mgrUnsetServer in E; repeat case_match; try done; injection E as <-; try done.
  unfold triggerSched, emit. by repeat case_match.
Qed.

(** ** Theorems *)


Definition named_attr (n v : string) : SvrAttrl := mkAttr n false "" v 1.

Lemma admin_start_ok : admin_ok (empty_server <| st_queues := ∅ |> <| st_nodes := ∅ |>).
Proof. split; [done|done|done|by intros n []|done]. Qed.


(** Deleting a queue removes a file of the queues' directory, and tells the store nothing:
    with the other store its row stays, and the queue is back after the next start. *)
Example deleted_queue_stays :
  let s := (handleManager MgrCmdCreate MgrObjQueue "batch" [] (empty_server <| st_queues := ∅ |>)).1.1 in
  let s' := (handleManager MgrCmdDelete MgrObjQueue "batch" [] s).1.1 in
  st_queues s' = st_queues s ∧ is_Some (st_queues s' !! "batch") ∧ (queueMgr s' : gmap string Queue) !! "batch" = None.
Proof. split_and!; [by vm_compute|by eexists; vm_compute|by vm_compute]. Qed.

(** ** Status messages *)

Lemma UpdateFromStatus_jobs now items n :
  let n' := UpdateFromStatus now items n in AssignedJobs n' = AssignedJobs n ∧ SlotsUsed n' = SlotsUsed n.
Proof.
  unfold UpdateFromStatus. cbv zeta.
  assert (AssignedJobs (foldl apply_item n items) = AssignedJobs n ∧ SlotsUsed (foldl apply_item n items) = SlotsUsed n) as [<- <-].
  { revert n. induction items as [|i items IH]; intros n; [done|]. cbn [foldl]. destruct (IH (apply_item n i)) as [-> ->].
    unfold apply_item, applyStateString. destruct (cut "=" i) as [[key val]|]; [|done]. repeat case_decide; done. }
  by destruct (_ && _).
Qed.

Lemma ipInAllowedRanges_spec c ip :
  ipInAllowedRanges c ip = true ↔
  ∃ r cidr, r ∈ Split "," (NodeAllowedIPRanges c) ∧ TrimSpace r ≠ "" ∧
    ParseCIDR (TrimSpace r) = Some cidr ∧ net_Contains cidr ip = true.
Proof.
  unfold ipInAllowedRanges. rewrite existsb_exists. setoid_rewrite list_elem_of_In. split.
  - intros (r & Hr & H). case_decide as E; [done|]. destruct (ParseCIDR (TrimSpace r)) as [cidr|] eqn:Ec; [|done].
    exists r, cidr. done.
  - intros (r & cidr & Hr & Hne & Hc & Hin). exists r. split; [done|]. rewrite decide_False by done. by rewrite Hc.
Qed.

(** What a message that finds no node does. *)
Lemma tryAutoRegister_nodes hostname ip s name :
  name ≠ hostname → the_nodes (tryAutoRegisterNode hostname ip s).1 !! name = the_nodes s !! name.
Proof.
  intros Hn. unfold tryAutoRegisterNode. destruct (negb _); [done|]. destruct ip as [ip|]; [|done].
  destruct (negb _); [done|]. cbn [fst]. unfold the_nodes. cbn [saveNodes upd_node nodeMgr nodes set_field].
  rewrite lookup_alter_ne by done. unfold AddNode. destruct (nodes (nodeMgr s) !! hostname); [done|].
  cbn [snd nodes]. by rewrite lookup_insert_ne.
Qed.

Lemma tryAutoRegister_allowed hostname ip s :
  the_nodes s !! hostname = None → is_Some (the_nodes (tryAutoRegisterNode hostname ip s).1 !! hostname) →
  AllowDynamicNodes (cfg s) = true ∧ ∃ a, ip = Some a ∧ ipInAllowedRanges (cfg s) a = true.
Proof.
  intros Hn. unfold tryAutoRegisterNode. destruct (AllowDynamicNodes (cfg s)); cbn [negb]; [|cbn [fst]; rewrite Hn; by intros []].
  destruct ip as [a|]; [|cbn [fst]; rewrite Hn; by intros []]. destruct (ipInAllowedRanges (cfg s) a) eqn:E; cbn [negb]; [eauto|].
  cbn [fst]; rewrite Hn; by intros [].
Qed.

(** A status message changes no node but the one that sends it.  A node the server does
    not know is registered only when dynamic nodes are allowed and the address the message
    comes from lies in one of the configured ranges; for a node it knows, the jobs and
    slots accounted to it and the flags an administrator set stay as they are. *)
Theorem handleISMessage_safe LookupAddr now remote msg s :
  let h := message_hostname LookupAddr remote (is_Items msg) in
  let s' := (handleISMessage LookupAddr now remote msg s).1 in
  (∀ name, name ≠ h → the_nodes s' !! name = the_nodes s !! name) ∧
  match the_nodes s !! h with
  | None => is_Some (the_nodes s' !! h) →
      AllowDynamicNodes (cfg s) = true ∧
      ∃ ip r cidr, ParseIP (remote_host remote) = Some ip ∧ r ∈ Split "," (NodeAllowedIPRanges (cfg s)) ∧
        ParseCIDR (TrimSpace r) = Some cidr ∧ net_Contains cidr ip = true
  | Some n => ∃ n', the_nodes s' !! h = Some n' ∧ Z.land (Node.State n') admin_flags = Z.land (Node.State n) admin_flags ∧
      AssignedJobs n' = AssignedJobs n ∧ SlotsUsed n' = SlotsUsed n
  end.
Proof.
  intros h s'. subst s'. unfold handleISMessage. cbv zeta. fold h.
  set (s1 := match get_node h s with Some _ => s | None => _ end).
  assert (∀ name, name ≠ h → the_nodes s1 !! name = the_nodes s !! name) as H1.
  { intros name Hn. subst s1. destruct (get_node h s); [done|]. by apply tryAutoRegister_nodes. }
  split.
  - intros name Hn. destruct (get_node h s1); [|by apply H1]. cbn [fst]. rewrite alter_upd_node.
    rewrite lookup_alter_ne by done. by apply H1.
  - change (get_node h s) with (the_nodes s !! h) in s1. change (get_node h s1) with (the_nodes s1 !! h).
    destruct (the_nodes s !! h) as [n|] eqn:E.
    + subst s1. rewrite E. cbn [fst]. rewrite alter_upd_node, lookup_alter_eq, E. cbn [fmap option_fmap option_map].
      eexists. split; [reflexivity|]. rewrite UpdateFromStatus_admin.
      match goal with |- context [UpdateFromStatus now _ ?x] => set (n1 := x) end.
      destruct (UpdateFromStatus_jobs now (is_Items msg) n1) as [-> ->]. subst n1. by case_match.
    + intros Hs. assert (is_Some (the_nodes s1 !! h)) as Hs1.
      { revert Hs. destruct (the_nodes s1 !! h) eqn:E1; [by eexists|]. cbn [fst]. by rewrite E1. }
      apply tryAutoRegister_allowed in Hs1 as (Ha & ip & Hip & Hr); [|done]. split; [done|].
      apply ipInAllowedRanges_spec in Hr as (r & cidr & Hr1 & _ & Hr2 & Hr3). by exists ip, r, cidr.
Qed.

(** ** Authentication *)

(** The handler of AuthenUser does not look at the port it is called from: any host can
    authenticate any of its own ports as any user, and then report the end of a job. *)
Example authen_user_unchecked :
  let s := (handleAuthenUser "root" "10.0.0.9:40000" 40001 running_server).1.1 in
  let '(s', reply, keep) := handleJobObit running_env "10.0.0.9:40001" false "7.host" 1 [] s in
  (Job.State <$> the_jobs running_server !! "7.host", Job.State <$> the_jobs s' !! "7.host", keep)
  = (Some StateRunning, Some StateComplete, true).
Proof. by vm_compute. Qed.

(** The key that is stored for a client of the sixth version is not the address its
    connection has. *)
Example authen_user_v6 :
  let s := (handleAuthenUser "ann" "[fe80::7]:600" 40001 running_server).1.1 in
  authMap s !! "[fe80::7]:40001" = None ∧ authMap s !! "fe80::7:40001" = Some "ann".
Proof. by vm_compute. Qed.

(** ** From qmgr to the next start *)

Lemma Sscanf_d_range v x : is_int64 x → is_int64 (Sscanf_d v x).
Proof.
  intros Hx. unfold Sscanf_d, scan_d. destruct (skip_blanks v) as [s|]; [|done]. cbn [mbind option_bind].
  destruct (match s with String c ds => _ | EmptyString => _ end) as [sign ds].
  destruct (span_digits ds) as [tok rest]. case_decide; [done|].
  destruct (ParseInt (sign +:+ tok)) as [n [e|]] eqn:E; [done|]. by apply ParseInt_range in E.
Qed.

(** Setting an attribute assigns the field that recovering it assigns, unless the value
    is to be appended. *)
Lemma set_cases_agree :
  Forall (λ nf, nf.1 = "sched_trigger_port" ∨ find_case nf.1 set_cases = Some (SetField nf.2) ∨
    match nf.2 with FStr get set => find_case nf.1 set_cases = Some (SetACL get set) | _ => False end) db_cases.
Proof.
  repeat (apply Forall_cons; split; [first [by left|right; left; reflexivity|right; right; reflexivity]|]). by apply Forall_nil.
Qed.

Lemma set_attr_assign n f val op c :
  (n, f) ∈ db_cases → n ≠ "sched_trigger_port" → op ≠ 7 → set_attr c (mkAttr n false "" val op) = assign f val c.
Proof.
  intros Hin Hn Hop. pose proof set_cases_agree as H. rewrite Forall_forall in H. specialize (H _ Hin).
  unfold set_attr. cbn [DisMessage.Name Value Op fst snd] in *. destruct H as [?|[->|H]]; [done|done|].
  destruct f as [get set|get set|get set]; [|done..]. rewrite H. cbn [assign]. unfold mergeACLValue.
  rewrite (proj2 (Z.eqb_neq op 7)) by done. done.
Qed.

(** Every element that is written belongs to a setting or to a resource map. *)
Lemma db_writes_cases :
  Forall (λ w, (∃ f, find_case (write_tag w) db_cases = Some f ∧ w = write_of (write_tag w) f) ∨
               ∃ r, find_case (write_tag w) rescMaps = Some r ∧ w = writeMap (write_tag w) (rget r)) db_writes.
Proof.
  repeat (apply Forall_cons; split;
    [first [left; eexists; split; reflexivity|right; eexists; split; reflexivity]|]). by apply Forall_nil.
Qed.

(** An assignment of a text that can be saved keeps the configuration savable. *)
Lemma assign_savable n f val c :
  (n, f) ∈ db_cases → xml_text val → savable_config c → savable_config (assign f val c).
Proof.
  intros Hin Hval Hs. unfold savable_config in *. pose proof db_writes_cases as Hw. rewrite !Forall_forall in *.
  intros w Hiw. pose proof Hin as [i Hi]%list_elem_of_lookup.
  destruct (Hw w Hiw) as [(f' & Hf & Ew)|(r & Hr & Ew)].
  - apply find_case_elem in Hf. pose proof Hf as [j Hj]%list_elem_of_lookup.
    pose proof (read_assign i j _ _ _ _ val c Hi Hj) as Hr.
    pose proof (Hs w Hiw) as Hsw. rewrite Ew in Hsw |- *. destruct (decide (write_tag w = n)) as [En|_].
    + rewrite En in Hf. apply (find_case_in _ _ _ db_cases_NoDup) in Hin, Hf. rewrite Hin in Hf. injection Hf as <-.
      destruct f as [get set|get set|get set]; cbn [write_of savable_write read_field parse_value assign] in *; [| |done].
      * injection Hr as Hr. by rewrite Hr.
      * injection Hr as Hr. rewrite Hr. by apply Sscanf_d_range.
    + destruct f' as [get set|get set|get set]; cbn [write_of savable_write read_field] in *; [| |done];
        (injection Hr as Hr; by rewrite Hr).
  - pose proof (Hs w Hiw) as Hsw. rewrite Ew in Hsw |- *. cbn [savable_write] in *.
    apply find_case_elem in Hr. pose proof assign_frame as Ha. rewrite Forall_forall in Ha.
    destruct (Ha _ Hin val c) as [Ha1 _]. cbn [snd] in Ha1. by rewrite (rget_resources _ _ _ _ Hr Ha1).
Qed.

(** C16: what an administrator sets is there after the next start: setting one attribute of
    the server, of those that both the writer and the reader of the saved database know,
    with any operation but the increment, then saving and starting a server on it, gives the
    field the value the text stands for; every other setting the reader knows keeps the
    value it had, unless it is shown as an empty text, which is not read back.  The value
    must be a text without an opening bracket or blanks around it, and must not be empty. *)
Theorem set_survives_restart `{MapRange} n f val op s s0 fs :
  (n, f) ∈ db_cases → n ∈ xml_tags → op ≠ 7 → xml_text val → val ≠ "" →
  savable_config (cfg s) → is_int64 (nextJobID (jobMgr s)) →
  let s' := (handleManager MgrCmdSet MgrObjServer "" [mkAttr n false "" val op] s).1.1 in
  let s1 := recoverServerDB (saveServerDB s' fs) s0 in
  read_field f (cfg s1) = parse_value f val (read_field f (cfg s)) ∧
  ∀ n' f', (n', f') ∈ db_cases → n' ∈ xml_tags → n' ≠ n → shown f' (cfg s) ≠ "" →
    read_field f' (cfg s1) = read_field f' (cfg s).
Proof.
  intros Hin Ht Hop Hv Hne Hs Hnext s' s1.
  assert (n ≠ "sched_trigger_port") as Hp by (intros ->; revert Ht; change ("sched_trigger_port" ∉ xml_tags); by_decide).
  assert (cfg s' = assign f val (cfg s)) as Ec by by apply set_attr_assign.
  assert (jobMgr s' = jobMgr s) as Ej by done.
  pose proof (recover_document s' s0 (saveServerDB s' fs)) as [_ Hf _ _ _].
  { rewrite Ec. by eapply assign_savable. }
  { by rewrite Ej. }
  { apply load_saved_db. }
  fold s1 in Hf. rewrite Ec in Hf. pose proof Hin as [i Hi]%list_elem_of_lookup. split.
  - rewrite (Hf n f Hin), decide_True.
    + by rewrite (read_assign i i n n f f val (cfg s) Hi Hi), decide_True.
    + split; [done|]. pose proof (read_assign i i n n f f val (cfg s) Hi Hi) as Hr. rewrite decide_True in Hr by done.
      destruct f as [get set|get set|get set]; cbn [shown read_field parse_value assign] in *.
      * injection Hr as Hr. by rewrite Hr.
      * apply Itoa_ne.
      * by destruct (get _).
  - intros n' f' Hin' Ht' Hn Hsh. pose proof Hin' as [j Hj]%list_elem_of_lookup.
    pose proof (read_assign i j n n' f f' val (cfg s) Hi Hj) as Hr. rewrite decide_False in Hr by done.
    rewrite (Hf n' f' Hin'), decide_True; [done|]. split; [done|].
    destruct f' as [get set|get set|get set]; cbn [shown read_field] in *; injection Hr as Hr; by rewrite Hr.
Qed.

Lemma set_survives_restart_witness :
  let s' := (handleManager MgrCmdSet MgrObjServer "" [mkAttr "max_running" false "" "12" 1] set_up).1.1 in
  let s1 := recoverServerDB (saveServerDB s' (mkFileStore ∅ ∅ ∅)) empty_server in
  MaxRunning (cfg s1) = 12 ∧ Managers (cfg s1) = "root@srv".
Proof.
  destruct (set_survives_restart "max_running" (INT MaxRunning) "12" 1 set_up empty_server (mkFileStore ∅ ∅ ∅)) as [H1 H2];
    [apply find_case_elem; reflexivity|by_decide|done|by_decide|done|apply set_up_savable|by_decide|].
  cbv zeta. generalize dependent (recoverServerDB (saveServerDB (handleManager MgrCmdSet MgrObjServer ""
    [mkAttr "max_running" false "" "12" 1] set_up).1.1 (mkFileStore ∅ ∅ ∅)) empty_server). intros s1 H1 H2.
  assert (VInt (MaxRunning (cfg s1)) = VInt 12) as [= ->] by exact H1.
  assert (VStr (Managers (cfg s1)) = VStr "root@srv") as [= ->]; [|done].
  apply (H2 "managers" (STR Managers)); [apply find_case_elem; reflexivity|by_decide|done|done].
Defined.
