(* ===== verification/StatusServer.v ===== *)
(** * The status of the server: formatServerStatus in internal/server/server.go

    The status is a list of attributes: the settings, in the order the source adds them,
    the numbers of the job manager and a summary of the nodes of every pool. *)

From S2P Require Import Prelude GoStd Dis DisMessage Job JobManager Node Queue Route ServerConfig ServerState.
From S2P Require Import Submit Persist PersistConf Status.
Import Proto.

Local Open Scope string_scope.
Local Open Scope list_scope.
Local Open Scope Z_scope.

(** ** Settings *)

(** One call of the writers of [formatServerStatus]; [addTrue] and [addIntNN] are the
    calls under a test of the value, [addJobs] a text made of the job manager. *)
Inductive Add :=
  | add (name : string) (get : Config → string)
  | addJobs (name : string) (get : JobManager.Manager → string)
  | addInt (name : string) (get : Config → Z)
  | addIntNZ (name : string) (get : Config → Z)
  | addIntNN (name : string) (get : Config → Z)
  | addBool (name : string) (get : Config → bool)
  | addTrue (name : string) (get : Config → bool)
  | addStr (name : string) (get : Config → string)
  | addResc (name : string) (get : Config → gmap string string).

Definition state_counts (m : JobManager.Manager) : string :=
  Join " " (zip_with (λ name st, name +:+ ":" +:+ Itoa (StateCount st m))
    ["Transit"; "Queued"; "Held"; "Waiting"; "Running"; "Exiting"; "Complete"] [0; 1; 2; 3; 4; 5; 6]).

(** Identity, scheduling, timing, logging and access control. *)
Definition status_adds_general : list Add :=
  [add "server_name" ServerName; add "server_host" ServerName;
   add "pbs_version" (λ _, "7.0.0-go"); add "server_state" (λ _, "Active");
   addBool "scheduling" Scheduling; addJobs "total_jobs" (λ m, Itoa (JobCount m));
   addJobs "state_count" state_counts; add "default_queue" cfg_DefaultQueue;
   addInt "scheduler_iteration" SchedulerIteration; addBool "event_driven" EventDriven;
   addInt "sched_min_interval" SchedMinInterval;
   addInt "default_queue_depth" cfg_DefaultQueueDepth;
   addInt "sched_max_job_start" cfg_SchedMaxJobStart; addInt "max_sched_time" cfg_MaxSchedTime;
   addBool "defer" SchedDefer; addBool "defer_batch" SchedDeferBatch;
   addInt "sched_trigger_port" SchedTriggerPort; addInt "node_check_rate" NodeCheckRate;
   addInt "tcp_timeout" TCPTimeout; addInt "keep_completed" KeepCompleted;
   addIntNZ "job_stat_rate" JobStatRate; addTrue "poll_jobs" PollJobs;
   addInt "ping_rate" PingRate; addInt "job_start_timeout" JobStartTimeout;
   addIntNZ "job_force_cancel_time" JobForceCancelTime; addInt "job_sync_timeout" JobSyncTimeout;
   addJobs "next_job_number" (λ m, Itoa (GetNextJobIDNum m)); addInt "log_events" LogLevel;
   addIntNZ "log_file_max_size" LogFileMaxSize; addInt "log_file_roll_depth" LogFileRollDepth;
   addIntNZ "log_keep_days" LogKeepDays; addTrue "record_job_info" RecordJobInfo;
   addTrue "record_job_script" RecordJobScript;
   addIntNZ "job_log_file_max_size" JobLogFileMaxSize;
   addIntNZ "job_log_file_roll_depth" JobLogFileRollDepth;
   addIntNZ "job_log_keep_days" JobLogKeepDays; addStr "managers" Managers;
   addStr "operators" Operators; addTrue "acl_host_enable" ACLHostEnable;
   addStr "acl_hosts" cfg_ACLHosts; addTrue "acl_user_enable" ACLUserEnable;
   addStr "acl_users" cfg_ACLUsers; addStr "acl_roots" ACLRoots;
   addTrue "acl_logic_or" ACLLogicOr; addTrue "acl_group_sloppy" ACLGroupSloppy;
   addStr "acl_user_hosts" ACLUserHosts; addStr "acl_group_hosts" ACLGroupHosts].

(** Limits, mail, node and job policy, arrays, timeouts, hardware and the rest. *)
Definition status_adds_policy : list Add :=
  [addIntNZ "max_running" MaxRunning; addIntNZ "max_user_run" cfg_MaxUserRun;
   addIntNZ "max_group_run" MaxGroupRun; addIntNZ "max_user_queuable" MaxUserQueuable;
   addResc "resources_available" ResourcesAvail; addResc "resources_default" ResourcesDefault;
   addResc "resources_max" ResourcesMax; addResc "resources_cost" ResourcesCost;
   addStr "mail_domain" MailDomain; addStr "mail_from" MailFrom;
   addTrue "no_mail_force" NoMailForce; addStr "mail_subject_fmt" MailSubjectFmt;
   addStr "mail_body_fmt" MailBodyFmt; addIntNZ "email_batch_seconds" EmailBatchSeconds;
   addStr "default_node" DefaultNode; addTrue "node_pack" NodePack;
   addBool "query_other_jobs" QueryOtherJobs; addBool "mom_job_sync" MOMJobSync;
   addTrue "down_on_error" DownOnError; addTrue "disable_server_id_check" DisableServerIdCheck;
   addTrue "allow_node_submit" AllowNodeSubmit; addTrue "allow_proxy_user" AllowProxyUser;
   addTrue "auto_node_np" AutoNodeNP; addIntNZ "np_default" NPDefault;
   addTrue "allow_dynamic_nodes" AllowDynamicNodes;
   addStr "node_allowed_ip_ranges" NodeAllowedIPRanges; addTrue "job_nanny" JobNanny;
   addTrue "owner_purge" OwnerPurge; addTrue "copy_on_rerun" CopyOnRerun;
   addTrue "job_exclusive_on_use" JobExclusiveOnUse;
   addTrue "disable_automatic_requeue" DisableAutoRequeue;
   addIntNN "automatic_requeue_exit_code" AutoRequeueExitCode;
   addTrue "dont_write_nodes_file" DontWriteNodesFile;
   addInt "max_job_array_size" MaxJobArraySize; addIntNZ "max_slot_limit" MaxSlotLimit;
   addInt "clone_batch_size" CloneBatchSize; addInt "clone_batch_delay" CloneBatchDelay;
   addTrue "moab_array_compatible" MoabArrayCompatible;
   addBool "display_job_server_suffix" DisplayJobServerSuffix;
   addStr "job_suffix_alias" JobSuffixAlias; addTrue "use_jobs_subdirs" UseJobsSubdirs;
   addInt "kill_delay" KillDelay; addIntNZ "user_kill_delay" UserKillDelay;
   addInt "exit_code_canceled_job" ExitCodeCanceledJob;
   addInt "timeout_for_job_delete" TimeoutForJobDelete;
   addInt "timeout_for_job_requeue" TimeoutForJobRequeue;
   addStr "default_gpu_mode" DefaultGpuMode; addIntNZ "idle_slot_limit" IdleSlotLimit;
   addTrue "cgroup_per_task" CgroupPerTask; addTrue "pass_cpu_clock" PassCpuClock;
   addStr "submit_hosts" SubmitHosts; addStr "node_submit_exceptions" NodeSubmitExceptions;
   addStr "node_suffix" NodeSuffix; addStr "comment" cfg_Comment;
   addIntNZ "lock_file_update_time" LockFileUpdateTime;
   addIntNZ "lock_file_check_time" LockFileCheckTime;
   addTrue "interactive_jobs_can_roam" InteractiveJobsCanRoam; addTrue "legacy_vmem" LegacyVmem;
   addTrue "ghost_array_recovery" GhostArrayRecovery;
   addIntNZ "tcp_incoming_timeout" TCPIncomingTimeout;
   addIntNZ "job_full_report_time" JobFullReportTime].

Definition status_adds : list Add := status_adds_general ++ status_adds_policy.

Section status.
Context `{MapRange}.

Definition resc_list (name : string) (m : gmap string string) : list SvrAttrl :=
  (λ k, mkAttr name true k (lookup_or "" k m) 1) <$> range m.

(** The attributes a call adds. *)
Definition added (c : Config) (m : JobManager.Manager) (a : Add) : list SvrAttrl :=
  match a with
  | add n get => [attr n (get c)]
  | addJobs n get => [attr n (get m)]
  | addInt n get => [attr n (Itoa (get c))]
  | addIntNZ n get => if get c =? 0 then [] else [attr n (Itoa (get c))]
  | addIntNN n get => if 0 <=? get c then [attr n (Itoa (get c))] else []
  | addBool n get => [attr n (bool_text (get c))]
  | addTrue n get => if get c then [attr n "True"] else []
  | addStr n get => if decide (get c = "") then [] else [attr n (get c)]
  | addResc n get => resc_list n (get c)
  end.

(** ** Pools *)

Record Pools := mkPools {
  poolNodes : gmap string Z;
  poolUp : gmap string Z;
  poolCores : gmap string Z;
  poolFree : gmap string Z;
}.
#[export] Instance eta_Pools : Eta Pools := λ p, mkPools (poolNodes p) (poolUp p) (poolCores p) (poolFree p).

(** [m[k] += d]. *)
Definition bump_at (k : string) (d : Z) (m : gmap string Z) : gmap string Z := <[k := int64 (lookup_or 0 k m + d)]> m.

Definition pool_of (n : Node) : string := if decide (Node.Queue n = "") then "default" else Node.Queue n.
Definition pool_up (n : Node) : bool := Z.land (Node.State n) (Z.lor StateDown StateOffline) =? 0.
Definition free_slots (n : Node) : Z := let free := int64 (SlotsTotal n - SlotsUsed n) in if free <? 0 then 0 else free.

Definition add_node (p : Pools) (n : Node) : Pools :=
  let k := pool_of n in
  let p := p <| poolNodes := bump_at k 1 (poolNodes p) |> in
  if pool_up n then
    p <| poolUp := bump_at k 1 (poolUp p) |> <| poolCores := bump_at k (SlotsTotal n) (poolCores p) |>
      <| poolFree := bump_at k (free_slots n) (poolFree p) |>
  else p.
Definition pools_of (nodes : list Node) : Pools := foldl add_node (mkPools ∅ ∅ ∅ ∅) nodes.

Definition strI (m : gmap string Z) : gmap string string := Itoa <$> m.

Definition formatServerStatus (env : Env) (s : Server) : StatusObject :=
  let p := pools_of (AllNodes (node_order env) (nodeMgr s)) in
  mkObject MgrObjServer (ServerName (cfg s))
    (concat (added (cfg s) (jobMgr s) <$> status_adds)
     ++ resc_list "pool_nodes" (strI (poolNodes p)) ++ resc_list "pool_up_nodes" (strI (poolUp p))
     ++ resc_list "pool_total_cores" (strI (poolCores p)) ++ resc_list "pool_free_cores" (strI (poolFree p))).

Definition handleStatusServer (env : Env) (s : Server) : result Z (list StatusObject) := Ok [formatServerStatus env s].

End status.

(** ** The summary of the pools is exact *)

(** [m[pool] += g(n)] over the nodes that [P] selects. *)
Definition tally (P : Node → bool) (g : Node → Z) (m : gmap string Z) (l : list Node) : gmap string Z :=
  foldl (λ m n, if P n then bump_at (pool_of n) (g n) m else m) m l.

Lemma pools_tally l p :
  let p' := foldl add_node p l in
  poolNodes p' = tally (λ _, true) (λ _, 1) (poolNodes p) l ∧ poolUp p' = tally pool_up (λ _, 1) (poolUp p) l ∧
  poolCores p' = tally pool_up SlotsTotal (poolCores p) l ∧ poolFree p' = tally pool_up free_slots (poolFree p) l.
Proof.
  revert p. induction l as [|n l IH]; intros p; [done|]. cbn [foldl]. destruct (IH (add_node p n)) as (-> & -> & -> & ->).
  unfold add_node, tally. cbv zeta. cbn [foldl]. by destruct (pool_up n).
Qed.

Lemma lookup_or_insert {A} (d v : A) k (m : gmap string A) : lookup_or d k (<[k := v]> m) = v.
Proof. unfold lookup_or. by rewrite lookup_insert_eq. Qed.
Lemma lookup_or_insert_ne {A} (d v : A) k k' (m : gmap string A) : k ≠ k' → lookup_or d k' (<[k := v]> m) = lookup_or d k' m.
Proof. intros Hk. unfold lookup_or. by rewrite lookup_insert_ne. Qed.

Lemma tally_lookup P g k l m :
  is_int64 (lookup_or 0 k m) →
  lookup_or 0 k (tally P g m l)
  = int64 (lookup_or 0 k m + sum_Z (λ n, if P n && bool_decide (pool_of n = k) then g n else 0) l).
Proof.
  set (f := λ n, if P n && bool_decide (pool_of n = k) then g n else 0).
  revert m. induction l as [|n l IH]; intros m Hm.
  - cbn. by rewrite Z.add_0_r, int64_id.
  - change (tally P g m (n :: l)) with (tally P g (if P n then bump_at (pool_of n) (g n) m else m) l).
    change (sum_Z f (n :: l)) with (f n + sum_Z f l). unfold f at 1, bump_at.
    destruct (P n); cbn [andb]; [|by rewrite IH]. destruct (decide (pool_of n = k)) as [<-|Hn].
    + rewrite bool_decide_true by done. rewrite IH; rewrite lookup_or_insert; [|apply int64_range].
      rewrite int64_add_l. f_equal. lia.
    + rewrite bool_decide_false by done. rewrite IH; by rewrite lookup_or_insert_ne.
Qed.

(** The summary of the pools that the status of the server carries is exact: for every
    pool the number of its nodes, of its nodes that are neither down nor offline, and of
    all and of the free slots of those, as 64-bit sums over the node table. *)
Theorem pools_exact l k :
  let p := pools_of l in
  let total P g := int64 (sum_Z (λ n, if P n && bool_decide (pool_of n = k) then g n else 0) l) in
  lookup_or 0 k (poolNodes p) = total (λ _, true) (λ _, 1) ∧ lookup_or 0 k (poolUp p) = total pool_up (λ _, 1) ∧
  lookup_or 0 k (poolCores p) = total pool_up SlotsTotal ∧ lookup_or 0 k (poolFree p) = total pool_up free_slots.
Proof.
  unfold pools_of. destruct (pools_tally l (mkPools ∅ ∅ ∅ ∅)) as (-> & -> & -> & ->). cbn [poolNodes poolUp poolCores poolFree].
  rewrite !tally_lookup by by_decide. done.
Qed.
