(* ===== verification/Dispatch.v ===== *)
(** * From the wire to the handlers: dispatchRequest in internal/server/server.go

    The dispatcher reads the body of a request, hands it to the handler of its type and
    writes the reply.  It is the argument that the connection loop of [Conn] was left
    with; its state is the server and the bytes sent on the connection so far. *)

From S2P Require Import Prelude GoStd NetStd Dis DisMessage Client Conn Job JobManager Node Queue Route.
From S2P Require Import ServerConfig ServerState Submit Exec Persist PersistConf Status StatusServer Admin.
Import Proto.

Local Open Scope string_scope.
Local Open Scope list_scope.
Local Open Scope Z_scope.

Definition St : Type := Server * string.

(** What a handler leaves: the server, the bytes of its reply and whether to keep the
    connection; [Err] is a handler that never returns. *)
Definition Outcome : Type := result () (Server * string * bool).

Definition replied (h : Handled) : Outcome := let '(s, r, keep) := h in Ok (s, WriteReply r, keep).
(** A handler that may panic, and one that may wait for itself. *)
Definition replied_or_panics (h : option Handled) : Outcome := from_option replied Panic h.
Definition replied_or_waits (h : option Handled) : Outcome := from_option replied (Err ()) h.
Definition replied_status (s : Server) (r : result Z (list StatusObject)) : Outcome :=
  match r with
  | Ok objects => Ok (s, WriteStatusReply objects, true)
  | Err code => replied (err_reply code true s)
  | Panic => Panic
  end.

(** The beginning of every handler: read the body, answer [code] and give up when it
    cannot be read. *)
Definition with_body {A} (read : Reader A) (code : Z) (run : A → Server → Outcome) (st : St) (r : string) :
    result () (St * bool) * string :=
  match read r with
  | (Panic, r) => (Panic, r)
  | (Err _, r) => (Ok ((st.1, st.2 +:+ WriteReply (SendErrorReply code 0)), false), r)
  | (Ok a, r) =>
    (match run a st.1 with
     | Ok (s, bytes, keep) => Ok ((s, st.2 +:+ bytes), keep)
     | Err e => Err e
     | Panic => Panic
     end, r)
  end.
Definition no_body : Reader () := mret ().

(** ** Bodies that are read in the handler *)

Definition ReadRerunBody : Reader string := jobID ← ReadString; _ ← ignore ReadString; mret jobID.
Definition ReadOrderBody : Reader (string * string) := a ← ReadString; b ← ReadString; mret (a, b).
Definition ReadMessBody : Reader (string * string) :=
  jobID ← ReadString; _ ← ReadUint; message ← ReadString; mret (jobID, message).
Definition ReadAuthenBody : Reader Z := port ← ReadUint; _ ← ignore ReadReqExtend; mret port.
Definition ReadAltAuthenBody : Reader () := _ ← ignore ReadUint; _ ← ignore ReadString; ignore ReadReqExtend.
Definition ReadTokenBody : Reader (Z * string) :=
  ts ← ReadUint; token ← ReadString; _ ← ignore ReadReqExtend; mret (ts, token).

Section dispatch.
Context `{MapRange} `{SliceSort}.
Context (env : Env) (LookupAddr : string → option (list string)).
(** The address of the connection and whether its port is below 1024. *)
Context (remote : string) (privileged : bool).

(** Requests on jobs. *)
Definition dispatch_job (h : RequestHeader) : option (St → string → result () (St * bool) * string) :=
  let t := ReqType h in
  if (t =? BatchReqQueueJob) || (t =? BatchReqQueueJob2) then
    Some (with_body ReadQueueJobBody PbseBadReq (λ b s, replied (handleQueueJob env (User h) b.1.2 b.2 s)))
  else if t =? BatchReqJobCred then Some (with_body ReadJobCredBody PbseBadReq (λ _ s, replied (ok_reply s)))
  else if (t =? BatchReqJobScript) || (t =? BatchReqJobScript2) then
    Some (with_body ReadJobScriptBody PbseBadReq (λ b s, replied_or_panics (handleJobScript env b.1 b.2 (t =? BatchReqJobScript2) s)))
  else if t =? BatchReqRdytoCommit then Some (with_body ReadCommitBody PbseBadReq (λ b s, replied (handleRdytoCommit b s)))
  else if (t =? BatchReqCommit) || (t =? BatchReqCommit2) then
    Some (with_body ReadCommitBody PbseBadReq (λ b s, replied_or_panics (handleCommit env b s)))
  else if t =? BatchReqDeleteJob then Some (with_body ReadDeleteJobBody PbseBadReq (λ b s, replied (handleDeleteJob env b s)))
  else if t =? BatchReqHoldJob then Some (with_body ReadHoldJobBody PbseBadReq (λ b s, replied (handleHoldJob env b.1 s)))
  else if t =? BatchReqModifyJob then
    Some (with_body ReadModifyJobBody PbseBadReq (λ b s, replied (handleModifyJob env b.1 b.2 s)))
  else if t =? BatchReqSignalJob then Some (with_body ReadSignalJobBody PbseBadReq (λ b s, replied (handleSignalJob env b.1 s)))
  else if t =? BatchReqJobObit then
    Some (with_body ReadJobObit PbseBadReq (λ b s, replied (handleJobObit env remote privileged b.1.1 b.1.2 b.2 s)))
  else if t =? BatchReqRunJob then Some (with_body ReadRunJobBody PbseBadReq (λ b s, replied (handleRunJob env b.1 b.2 s)))
  else if t =? BatchReqLocateJob then Some (with_body ReadLocateJobBody PbseBadReq (λ b s, replied (handleLocateJob env b s)))
  else if t =? BatchReqSelectJobs then Some (with_body ReadStatusBody PbseBadReq (λ _ s, replied (handleSelectJobs env s)))
  else if t =? BatchReqReleaseJob then Some (with_body ReadHoldJobBody PbseBadReq (λ b s, replied (handleReleaseJob env b.1 s)))
  else if t =? BatchReqMoveJob then Some (with_body ReadMoveJobBody PbseBadReq (λ b s, replied (handleMoveJob env b.1 b.2 s)))
  else if t =? BatchReqRerun then Some (with_body ReadRerunBody PbseBadReq (λ b s, replied (handleRerunJob env b s)))
  else if t =? BatchReqOrderJob then
    Some (with_body ReadOrderBody PbseBadReq (λ b s, replied_or_waits (handleOrderJob env b.1 b.2 s)))
  else if t =? BatchReqMessJob then Some (with_body ReadMessBody PbseBadReq (λ b s, replied (handleMessJob env b.1 s)))
  else if t =? BatchReqCheckpointJob then Some (with_body ReadString PbseBadReq (λ b s, replied (handleCheckpointJob env b s)))
  else None.

(** The other requests.  [handleShutdown] answers and closes the connection; the process
    ends half a second later. *)
Definition dispatch_other (h : RequestHeader) : option (St → string → result () (St * bool) * string) :=
  let t := ReqType h in
  if t =? BatchReqConnect then Some (with_body no_body PbseBadReq (λ _ s, replied (ok_reply s)))
  else if t =? BatchReqStatusJob then
    Some (with_body ReadStatusBody PbseBadReq (λ b s, replied_status s (handleStatusJob env b.1 s)))
  else if t =? BatchReqStatusQueue then
    Some (with_body ReadStatusBody PbseBadReq
      (λ b s, let '(s, r) := handleStatusQueue env b.1 s in replied_status s r))
  else if t =? BatchReqStatusServer then
    Some (with_body ReadStatusBody PbseBadReq (λ _ s, replied_status s (handleStatusServer env s)))
  else if t =? BatchReqStatusNode then
    Some (with_body ReadStatusBody PbseBadReq (λ b s, replied_status s (handleStatusNode env b.1 s)))
  else if t =? BatchReqManager then
    Some (with_body ReadManagerBody PbseBadReq (λ b s, replied (handleManager b.1.1.1 b.1.1.2 b.1.2 b.2 s)))
  else if t =? BatchReqShutdown then
    Some (with_body no_body PbseBadReq (λ _ s, Ok (s, WriteReply SendOkReply, false)))
  else if t =? BatchReqDisconnect then Some (with_body no_body PbseBadReq (λ _ s, Ok (s, "", false)))
  else if t =? BatchReqAuthenUser then
    Some (with_body ReadAuthenBody PbseBadReq (λ b s, replied (handleAuthenUser (User h) remote b s)))
  else if t =? BatchReqAltAuthenUser then
    Some (with_body ReadAltAuthenBody PbseBadReq (λ _ s, replied (ok_reply s)))
  else if t =? BatchReqAuthToken then
    Some (with_body ReadTokenBody PbseBadCred (λ b s, replied (handleAuthToken (now env) (User h) remote b.1 b.2 s)))
  else None.

Definition dispatchRequest (h : RequestHeader) : St → string → result () (St * bool) * string :=
  match dispatch_job h with
  | Some f => f
  | None =>
    default (with_body no_body PbseBadReq (λ _ s, replied (err_reply PbseUnkReq true s))) (dispatch_other h)
  end.

(** [handleISMessage] on the stream; the acknowledgement is three integers. *)
Definition read_status (st : St) (r : string) : option St :=
  match ReadISMessage r with
  | (Panic, _) => None
  | (Err _, _) => Some st
  | (Ok msg, _) =>
    let '(s, ack) := handleISMessage LookupAddr (now env) remote msg st.1 in
    Some (s, if ack then st.2 +:+ WriteInt ISProtocolType +:+ WriteInt 3 +:+ WriteInt 0 else st.2)
  end.

(** The whole connection. *)
Definition serve (s : Server) (bytes : string) : conn_end St := handleConnection dispatchRequest read_status (s, "") bytes.

End dispatch.
