(* ===== verification/DispatchSpec.v ===== *)
(** * Whole connections

    The server with all its handlers ends every connection, and a client that sends its
    commands over one connection drives the handlers exactly as if it called them, in
    order, and reads back their replies. *)

From S2P Require Import Prelude GoStd NetStd Dis DisMessage Client Conn Job JobManager Node Queue Route.
From S2P Require Import ServerConfig ServerState Submit JobControl Exec Persist PersistConf Status StatusServer Admin Dispatch.
Import Proto.

Local Open Scope string_scope.
Local Open Scope list_scope.
Local Open Scope Z_scope.

Lemma with_body_len {A} (read : Reader A) `{!Shrinks read} code run st s r s' :
  with_body read code run st s = (r, s') → (String.length s' ≤ String.length s)%nat.
Proof. unfold with_body. destruct (read s) as [[a|e|] t] eqn:E; apply shrinks in E; by intros [= _ <-]. Qed.

Ltac solve_body := intros E; revert E; apply with_body_len;
  unfold ReadQueueJobBody, ReadJobCredBody, ReadJobScriptBody, ReadCommitBody, ReadDeleteJobBody, ReadHoldJobBody,
    ReadModifyJobBody, ReadSignalJobBody, ReadJobObit, ReadRunJobBody, ReadLocateJobBody, ReadStatusBody, ReadMoveJobBody,
    ReadRerunBody, ReadOrderBody, ReadMessBody, ReadManagerBody, ReadAuthenBody, ReadAltAuthenBody, ReadTokenBody, no_body;
  apply _.

Lemma dispatchRequest_len `{MapRange, SliceSort} env remote privileged h st s r s' :
  dispatchRequest env remote privileged h st s = (r, s') → (String.length s' ≤ String.length s)%nat.
Proof.
  unfold dispatchRequest, dispatch_job, dispatch_other. cbv zeta.
  repeat match goal with |- context [if ?b then Some _ else _] => destruct b end; cbn [default from_option id]; solve_body.
Qed.

(** ** The commands of the client *)

(** The commands whose handlers keep the connection open whatever they answer. *)
Inductive command :=
  | CRun (jobID dest : string)
  | CDelete (jobID : string)
  | CHold (jobID holdType : string)
  | CRelease (jobID holdType : string)
  | CModify (jobID : string) (attrs : list SvrAttrl)
  | CMove (jobID dest : string)
  | CSignal (jobID signal : string)
  | CSelect (attrs : list SvrAttrl)
  | CManager (cmd objType : Z) (name : string) (attrs : list SvrAttrl).

(** The bytes the client sends. *)
Definition client_bytes (user : string) (c : command) : string :=
  match c with
  | CRun a b => run_request user a b
  | CDelete a => delete_request user a ""
  | CHold a t => hold_request user a t
  | CRelease a t => release_request user a t
  | CModify a l => modify_request user a l
  | CMove a b => move_request user a b
  | CSignal a b => signal_request user a b
  | CSelect l => select_request user l
  | CManager cmd o n l => manager_request user cmd o n l
  end.

(** What they ask for: the call of the handler. *)
Definition handler (env : Env) (c : command) (s : Server) : Handled :=
  match c with
  | CRun a b => handleRunJob env a b s
  | CDelete a => handleDeleteJob env a s
  | CHold a _ => handleHoldJob env a s
  | CRelease a _ => handleReleaseJob env a s
  | CModify a l => handleModifyJob env a l s
  | CMove a b => handleMoveJob env a b s
  | CSignal a _ => handleSignalJob env a s
  | CSelect _ => handleSelectJobs env s
  | CManager cmd o n l => handleManager cmd o n l s
  end.

(** The handler runs and its reply is sent. *)
Definition perform (env : Env) (st : St) (c : command) : St :=
  let '(s, reply, _) := handler env c st.1 in (s, st.2 +:+ WriteReply reply).

(** The arguments that can be sent. *)
Definition sendable (c : command) : Prop :=
  match c with
  | CRun a b | CMove a b | CSignal a b | CHold a b | CRelease a b => wire_str a ∧ wire_str b
  | CDelete a => wire_str a
  | CModify a l => wire_str a ∧ wire_attrl l
  | CSelect l => wire_attrl l
  | CManager cmd o n l => wire_uint cmd ∧ wire_uint o ∧ wire_str n ∧ wire_attrl l
  end.

Definition as_request (user : string) (c : command) : request :=
  match c with
  | CRun a b => mkReq BatchReqRunJob user (WriteString a +:+ WriteString b) ""
  | CMove a b => mkReq BatchReqMoveJob user (WriteString a +:+ WriteString b) ""
  | CSignal a b => mkReq BatchReqSignalJob user (WriteString a +:+ WriteString b) ""
  | CDelete a => mkReq BatchReqDeleteJob user (WriteUint 0 +:+ WriteUint MgrObjJob +:+ WriteString a +:+ WriteSvrAttrl []) ""
  | CHold a t => mkReq BatchReqHoldJob user
      (WriteUint 0 +:+ WriteUint MgrObjJob +:+ WriteString a +:+ WriteSvrAttrl (hold_attrs t)) ""
  | CRelease a t => mkReq BatchReqReleaseJob user
      (WriteUint 0 +:+ WriteUint MgrObjJob +:+ WriteString a +:+ WriteSvrAttrl (hold_attrs t)) ""
  | CModify a l => mkReq BatchReqModifyJob user (WriteUint 0 +:+ WriteUint MgrObjJob +:+ WriteString a +:+ WriteSvrAttrl l) ""
  | CSelect l => mkReq BatchReqSelectJobs user (WriteString "" +:+ WriteSvrAttrl l) ""
  | CManager cmd o n l => mkReq BatchReqManager user
      (WriteUint (uint64 cmd) +:+ WriteUint (uint64 o) +:+ WriteString n +:+ WriteSvrAttrl l) ""
  end.

Lemma frame_as_request user c : frame (as_request user c) = client_bytes user c.
Proof.
  unfold frame. destruct c; cbn [as_request client_bytes rq_user rq_type rq_body rq_ext];
    unfold run_request, delete_request, hold_request, release_request, modify_request, move_request, signal_request,
      select_request, manager_request, manage_body, two_strings; by rewrite !app_str_assoc.
Qed.

(** *** The handlers keep the connection *)

Lemma handler_keeps env c s : (handler env c s).2 = true.
Proof.
  destruct c; cbn [handler].
  - unfold handleRunJob. destruct (run_check env jobID dest s) as [h|name n j] eqn:E.
    + unfold run_check in E. repeat case_match; simplify_eq; done.
    + unfold run_start. by repeat case_match.
  - unfold handleDeleteJob. repeat case_match; try done.
  - unfold handleHoldJob. repeat case_match; try done.
  - unfold handleReleaseJob. repeat case_match; try done.
  - unfold handleModifyJob. repeat case_match; try done.
  - unfold handleMoveJob. repeat case_match; try done.
  - unfold handleSignalJob. repeat case_match; try done.
  - done.
  - unfold handleManager. by case_match.
Qed.

Lemma with_body_run {A} (read : Reader A) code run st b rest a (h : Handled) :
  read (b +:+ rest) = (Ok a, rest) → run a st.1 = replied h → h.2 = true →
  with_body read code run st (b +:+ rest) = (Ok ((h.1.1, st.2 +:+ WriteReply h.1.2), true), rest).
Proof. intros Hr Hh Hk. unfold with_body. rewrite Hr, Hh. destruct h as [[s r] k]. simpl in Hk. by subst k. Qed.

(** *** The bodies of the commands *)

Ltac decode_body := rewrite !app_str_assoc; unfold manage_body, two_strings; decode_fields; try done.

Lemma wire_hold t : wire_str t → wire_attrl (hold_attrs t).
Proof. intros Ht. split; [|by vm_compute]. repeat constructor; done. Qed.

Lemma perform_eq env st c :
  perform env st c = ((handler env c st.1).1.1, st.2 +:+ WriteReply (handler env c st.1).1.2).
Proof. unfold perform. by destruct (handler env c st.1) as [[s r] k]. Qed.

Lemma command_reads `{MapRange, SliceSort} env remote privileged user c :
  sendable c → reads_body (dispatchRequest env remote privileged) (as_request user c) (λ st, perform env st c).
Proof.
  intros Hc st rest.
  pose proof (handler_keeps env c st.1) as Hk. rewrite perform_eq.
  destruct c; cbn [sendable] in Hc; cbn [as_request header_of rq_type rq_user rq_body] in *; cbn [handler] in *.
  - destruct Hc. eapply (with_body_run ReadRunJobBody _ _ st _ rest (jobID, dest)); [|done..].
    unfold ReadRunJobBody. decode_body.
  - eapply (with_body_run ReadDeleteJobBody _ _ st _ rest jobID); [|done..].
    unfold ReadDeleteJobBody. decode_body.
  - destruct Hc as [? ?%wire_hold].
    eapply (with_body_run ReadHoldJobBody _ _ st _ rest (jobID, hold_attrs holdType)); [|done..].
    unfold ReadHoldJobBody. decode_body.
  - destruct Hc as [? ?%wire_hold].
    eapply (with_body_run ReadHoldJobBody _ _ st _ rest (jobID, hold_attrs holdType)); [|done..].
    unfold ReadHoldJobBody. decode_body.
  - destruct Hc. eapply (with_body_run ReadModifyJobBody _ _ st _ rest (jobID, attrs)); [|done..].
    unfold ReadModifyJobBody. decode_body.
  - destruct Hc. eapply (with_body_run ReadMoveJobBody _ _ st _ rest (jobID, dest)); [|done..].
    unfold ReadMoveJobBody. decode_body.
  - destruct Hc. eapply (with_body_run ReadSignalJobBody _ _ st _ rest (jobID, signal)); [|done..].
    unfold ReadSignalJobBody. decode_body.
  - eapply (with_body_run ReadStatusBody _ _ st _ rest ("", attrs)); [|done..].
    unfold ReadStatusBody. decode_body.
  - destruct Hc as (Hc & Ho & ? & ?). destruct (wire_uint_int64 _ Hc) as [Hc1 Hc2], (wire_uint_int64 _ Ho) as [Ho1 Ho2].
    eapply (with_body_run ReadManagerBody _ _ st _ rest (cmd, objType, name, attrs)); [|done..].
    rewrite Hc1, Ho1. unfold ReadManagerBody. decode_body. by rewrite Hc2, Ho2.
Qed.

(** ** Theorems *)

(** *** Handlers that never return *)

Lemma with_body_waits {A} (read : Reader A) code run st r e r' :
  with_body read code run st r = (Err e, r') → ∃ a, read r = (Ok a, r') ∧ run a st.1 = Err e.
Proof.
  unfold with_body. destruct (read r) as [[a|?|] t]; [|done..].
  destruct (run a st.1) as [[[s b] k]|?|] eqn:E; intros [= <- <-]. by exists a.
Qed.

Lemma replied_returns h e : replied h ≠ Err e.
Proof. by destruct h as [[s r] k]. Qed.
Lemma panics_returns h e : replied_or_panics h ≠ Err e.
Proof. destruct h as [h|]; [apply replied_returns|done]. Qed.
Lemma status_returns s r e : replied_status s r ≠ Err e.
Proof. destruct r; [done|apply replied_returns|done]. Qed.

(** The request to exchange a job with itself. *)
Definition orders_itself (env : Env) (h : RequestHeader) (s : Server) (body : string) : Prop :=
  ReqType h = BatchReqOrderJob ∧
  ∃ a b rest j1 j2, ReadOrderBody body = (Ok (a, b), rest) ∧ get_job env a s = Some j1 ∧ get_job env b s = Some j2 ∧
    Job.ID j1 = Job.ID j2.

Lemma dispatch_waits `{MapRange, SliceSort} env remote privileged h st body e rest :
  dispatchRequest env remote privileged h st body = (Err e, rest) → orders_itself env h st.1 body.
Proof.
  unfold dispatchRequest, dispatch_job, dispatch_other. cbv zeta.
  repeat match goal with |- context [if ?b then Some _ else _] => destruct b eqn:? end; cbn [default from_option id];
    intros (a & Hr & Hh)%with_body_waits;
    try (exfalso; first [discriminate | by eapply replied_returns | by eapply panics_returns | by eapply status_returns
      | revert Hh; case_match; by apply status_returns]).
  - split; [by apply Z.eqb_eq|]. destruct a as [a b]. cbn [fst snd] in Hh. unfold handleOrderJob in Hh.
    destruct (get_job env a st.1) as [j1|] eqn:E1; [|done]. destruct (get_job env b st.1) as [j2|] eqn:E2; [|done].
    case_decide; [|done]. by exists a, b, rest, j1, j2.
Qed.


(** The request to exchange a job of the table with itself, on the wire. *)
Definition order_bytes : string := writeHeader "a" BatchReqOrderJob +:+ WriteString "1.srv" +:+ WriteString "1.srv".


(** C17: a client session is a run of the handlers: a connection that carries any sequence of
    run, delete (without the option to purge), hold, release, modify, move, signal, select
    and manager requests, with an empty extension and arguments that fit the wire, takes the
    server to the state that calling their handlers in that order gives, each from the state
    the one before it left, and the bytes sent back are the replies of those calls, in
    order. *)
Theorem client_session `{MapRange, SliceSort} env LookupAddr remote privileged user cs s :
  wire_str user → Forall sendable cs →
  serve env LookupAddr remote privileged s (concat_str (client_bytes user <$> cs))
  = Closed (foldl (perform env) (s, "") cs).
Proof.
  intros Hu Hcs. unfold serve.
  pose (qs := (λ c, (as_request user c, λ st, perform env st c)) <$> cs).
  replace (client_bytes user <$> cs) with (frame ∘ fst <$> qs).
  2:{ unfold qs. rewrite <- list_fmap_compose. apply list_fmap_ext. intros i c _. apply frame_as_request. }
  replace (foldl (perform env) (s, "") cs) with (foldl (λ st qf, qf.2 st) (s, "") qs).
  2:{ unfold qs. generalize (s, "") as st. induction cs as [|c cs' IH]; intros st; [done|].
      apply Forall_cons in Hcs as [_ Hcs]. apply (IH Hcs). }
  apply handleConnection_serves; [intros *; apply dispatchRequest_len|].
  unfold qs. rewrite Forall_fmap. eapply Forall_impl; [exact Hcs|]. intros c Hc. cbn [fst snd compose].
  split; [|split; [by apply command_reads|by destruct c]]. by destruct c.
Qed.

Lemma client_session_witness :
  serve test_env (λ _, None) "10.0.0.1:900" true running_server
    (concat_str [hold_request "root" "1.srv" "u"; delete_request "root" "1.srv" ""; run_request "root" "1.srv" "n1"])
  = Closed (foldl (perform test_env) (running_server, "") [CHold "1.srv" "u"; CDelete "1.srv"; CRun "1.srv" "n1"]).
Proof.
  apply (client_session test_env (λ _, None) "10.0.0.1:900" true "root" [CHold "1.srv" "u"; CDelete "1.srv"; CRun "1.srv" "n1"]
    running_server); [by_decide|].
  repeat (apply Forall_cons; split; [first [split; by_decide | by_decide]|]). by apply Forall_nil.
Defined.
