(* ===== verification/FloatStd.v ===== *)
(** * Floating point in package time and fmt

    A [float64] is a value of [spec_float], the IEEE 754 numbers of the Standard Library,
    with 53 bits of precision; its operations round to nearest, ties to even, as Go's do.
    With them: the methods of [time.Duration] that return a float, [time.ParseDuration] and
    the verb [%.2f]. *)

From Stdlib Require Import SpecFloat.
From S2P Require Import Prelude GoStd.

Local Open Scope string_scope.
Local Open Scope Z_scope.

Definition float64 : Type := spec_float.

(** [float64(n)] *)
Definition of_int (n : Z) : float64 := binary_normalize 53 1024 n 0 false.
Definition fadd : float64 → float64 → float64 := SFadd 53 1024.
Definition fmul : float64 → float64 → float64 := SFmul 53 1024.
Definition fdiv : float64 → float64 → float64 := SFdiv 53 1024.

(** [int(x)] for a finite [x] in the range of [int]: the fraction is cut off. *)
Definition trunc (x : float64) : Z :=
  match x with
  | S754_finite s m e =>
    let n := if 0 <=? e then Zpos m * 2 ^ e else Zpos m / 2 ^ (- e) in
    if s then - n else n
  | _ => 0
  end.

Example of_int_rounds : trunc (of_int (2 ^ 53 + 1)) = 2 ^ 53.
Proof. reflexivity. Qed.
Example third : trunc (fmul (of_int 1000000) (fdiv (of_int 1) (of_int 3))) = 333333.
Proof. reflexivity. Qed.

(** ** Durations as floats *)

Definition in_units (unit d : Z) : float64 :=
  fadd (of_int (Z.quot d unit)) (fdiv (of_int (Z.rem d unit)) (of_int unit)).
Definition Hours (d : Duration) : float64 := in_units Hour d.
Definition Minutes (d : Duration) : float64 := in_units Minute d.
Definition Seconds (d : Duration) : float64 := in_units Second d.

(** The sum rounds up to the next hour in the last nanosecond of the 5000th. *)
Example hours_exact : trunc (Hours (3 * Hour - 1)) = 2.
Proof. reflexivity. Qed.
Example hours_round : trunc (Hours (5001 * Hour - 1)) = 5001.
Proof. reflexivity. Qed.

(** ** [time.ParseDuration] *)

(** [leadingInt]: the number and the rest; [None] when it does not fit. *)
Fixpoint leadingInt (x : Z) (s : string) : option (Z * string) :=
  match s with
  | String c s' =>
    if negb (is_digit c) then Some (x, s)
    else if 2 ^ 63 / 10 <? x then None
    else let x := x * 10 + digit_val c in
         if 2 ^ 63 <? x then None else leadingInt x s'
  | EmptyString => Some (x, s)
  end.

(** [leadingFraction]: the digits that fit, their scale and the rest. *)
Fixpoint leadingFraction (overflow : bool) (x : Z) (scale : float64) (s : string) : Z * float64 * string :=
  match s with
  | String c s' =>
    if negb (is_digit c) then (x, scale, s)
    else if overflow || ((2 ^ 63 - 1) / 10 <? x) then leadingFraction true x scale s'
    else let y := x * 10 + digit_val c in
         if 2 ^ 63 <? y then leadingFraction true x scale s'
         else leadingFraction false y (fmul scale (of_int 10)) s'
  | EmptyString => (x, scale, s)
  end.

(** The bytes up to the next digit or period. *)
Fixpoint span_unit (s : string) : string * string :=
  match s with
  | EmptyString => (EmptyString, EmptyString)
  | String c s' =>
    if is_digit c || bool_decide (c = "."%char) then (EmptyString, s) else prod_map (String c) id (span_unit s')
  end.

(** The micro sign and the Greek letter, in UTF-8. *)
Definition micro_sign : string := String (byte_of 194) (String (byte_of 181) "s").
Definition greek_mu : string := String (byte_of 206) (String (byte_of 188) "s").
Definition unitMap (u : string) : option Z :=
  switch u [(["ns"], Some 1); (["us"; micro_sign; greek_mu], Some 1000); (["ms"], Some 1000000);
            (["s"], Some Second); (["m"], Some Minute); (["h"], Some Hour)] None.

(** One number with its unit: its nanoseconds and the rest. *)
Definition duration_part (s : string) : option (Z * string) :=
  '(v, s1) ← leadingInt 0 s;
  let pre := negb (bool_decide (String.length s = String.length s1)) in
  let '(f, scale, s2, post) :=
    match s1 with
    | String "." t => let '(f, scale, t') := leadingFraction false 0 (of_int 1) t in
                      (f, scale, t', negb (bool_decide (String.length t = String.length t')))
    | _ => (0, of_int 1, s1, false)
    end in
  if negb pre && negb post then None else
  let '(u, rest) := span_unit s2 in
  if decide (u = "") then None else
  unit ← unitMap u;
  if 2 ^ 63 / unit <? v then None else
  let v := v * unit in
  let v := if 0 <? f then v + trunc (fmul (of_int f) (fdiv (of_int unit) scale)) else v in
  if 2 ^ 63 <? v then None else Some (v, rest).

(** Each part takes at least a byte. *)
Fixpoint duration_parts (fuel : nat) (d : Z) (s : string) : option Z :=
  match fuel with
  | O => None
  | S fuel =>
    if decide (s = "") then Some d
    else '(v, s) ← duration_part s;
         let d := d + v in
         if 2 ^ 63 <? d then None else duration_parts fuel d s
  end.

(** The value of the call: 0 when it reports an error. *)
Definition ParseDuration (s : string) : Duration :=
  let '(neg, s) := match s with
                   | String "-" t => (true, t)
                   | String "+" t => (false, t)
                   | _ => (false, s)
                   end in
  if decide (s = "0" ∨ s = "") then 0
  else match duration_parts (S (String.length s)) 0 s with
  | None => 0
  | Some d => if (neg : bool) then int64 (- d) else if 2 ^ 63 - 1 <? d then 0 else d
  end.

Example durations : ParseDuration <$> ["1h30m"; "1.5h"; "3600"; "-2s"; "10ms"; ".5s"; "1x"; ""] =
  [5400 * Second; 5400 * Second; 0; -2 * Second; 10000000; 500000000; 0; 0].
Proof. reflexivity. Qed.

(** ** The verb [%.2f] *)

(** The nearest integer to [n/d], ties to even. *)
Definition round_even (n d : Z) : Z :=
  let q := n / d in
  let r := 2 * (n mod d) in
  if r <? d then q else if d <? r then q + 1 else if Z.even q then q else q + 1.

Definition fmt_2f (x : float64) : string :=
  match x with
  | S754_zero s => (if s then "-" else "") +:+ "0.00"
  | S754_infinity s => if s then "-Inf" else "+Inf"
  | S754_nan => "NaN"
  | S754_finite s m e =>
    let n := if 0 <=? e then 100 * Zpos m * 2 ^ e else round_even (100 * Zpos m) (2 ^ (- e)) in
    (if s then "-" else "") +:+ Itoa (n / 100) +:+ "." +:+ fmt_02d (n mod 100)
  end.

Example load_averages : fmt_2f <$> [of_int 3; fdiv (of_int 1) (of_int 3); fdiv (of_int 1) (of_int 8); fdiv (of_int 205) (of_int 100)] =
  ["3.00"; "0.33"; "0.12"; "2.05"]%list.
Proof. reflexivity. Qed.

(** ** Small integers are exact *)

Lemma digits_size p : digits2_pos p = Pos.size p.
Proof. induction p as [p IH|p IH|]; cbn; by rewrite ?IH. Qed.

Lemma digits_shift p d : digits2_pos (Pos.iter xO p d) = (digits2_pos p + d)%positive.
Proof.
  induction d as [|d IH] using Pos.peano_ind; [symmetry; apply Pos.add_1_r|]. rewrite Pos.iter_succ. cbn [digits2_pos]. by rewrite IH, Pos.add_succ_r.
Qed.

Lemma shift_value p d : Zpos (Pos.iter xO p d) = Zpos p * 2 ^ Zpos d.
Proof.
  induction d as [|d IH] using Pos.peano_ind; [cbn [Pos.iter]; change (2 ^ 1) with 2; lia|]. rewrite Pos.iter_succ, Pos2Z.inj_succ, Z.pow_succ_r by lia.
  rewrite Pos2Z.inj_xO, IH. ring.
Qed.

Lemma shr_none m e : fexp 53 1024 (Zpos (digits2_pos m) + e) = e → shr_fexp 53 1024 (Zpos m) e loc_Exact = (Build_shr_record (Zpos m) false false, e).
Proof. intros H. unfold shr_fexp. cbn [Zdigits2]. rewrite H, Z.sub_diag. done. Qed.

Lemma round_exact m e :
  fexp 53 1024 (Zpos (digits2_pos m) + e) = e → e ≤ 971 → binary_round_aux 53 1024 false (Zpos m) e loc_Exact = S754_finite false m e.
Proof.
  intros H He. unfold binary_round_aux. rewrite shr_none by done. cbn [shr_m loc_of_shr_record round_nearest_even].
  rewrite shr_none by done. cbn [shr_m]. by rewrite (proj2 (Z.leb_le e (1024 - 53))) by lia.
Qed.

Lemma digits_bounds m n : digits2_pos m = n → 2 ^ Zpos n ≤ 2 * Zpos m ∧ Zpos m < 2 ^ Zpos n.
Proof.
  rewrite digits_size. intros <-. split.
  - pose proof (Pos.size_le m) as Hs. apply Pos2Z.pos_le_pos in Hs. by rewrite Pos2Z.inj_pow in Hs.
  - pose proof (Pos.size_gt m) as Hs. apply Pos2Z.pos_lt_pos in Hs. by rewrite Pos2Z.inj_pow in Hs.
Qed.

(** [float64(n)] is [n] for a positive [n] below 2^53, with a mantissa of 53 bits. *)
Lemma of_int_exact n :
  0 < n < 2 ^ 53 → ∃ m e, of_int n = S754_finite false m e ∧ e ≤ 0 ∧ Zpos m = n * 2 ^ (- e) ∧ digits2_pos m = 53%positive.
Proof.
  intros Hn. destruct n as [|p|p]; [lia| |lia]. unfold of_int, binary_normalize, binary_round.
  assert (Zpos (digits2_pos p) ≤ 53) as Hd.
  { destruct (digits_bounds p _ eq_refl) as [Hs _]. destruct (Z.le_gt_cases (Zpos (digits2_pos p)) 53) as [|Hgt]; [done|].
    assert (2 ^ 54 ≤ 2 ^ Zpos (digits2_pos p)) by (apply Z.pow_le_mono_r; lia). lia. }
  assert (∀ x, -1000 ≤ x → fexp 53 1024 x = x - 53) as Hf by (intros x Hx; unfold fexp, emin; lia).
  rewrite Z.add_0_r, Hf by lia. unfold shl_align. rewrite Z.sub_0_r.
  destruct (Zpos (digits2_pos p) - 53) as [|d|d] eqn:E; [|lia|].
  - rewrite round_exact; [|rewrite Hf by lia; lia|lia]. exists p, 0. split; [done|]. lia.
  - rewrite round_exact; [|rewrite digits_shift, Hf by lia; lia|lia].
    eexists _, _. split; [reflexivity|]. split_and!; [lia|apply shift_value|]. rewrite digits_shift. lia.
Qed.

(** The order of such numbers is that of the floats. *)
Lemma of_int_lt a b : 0 < a < b → b < 2 ^ 53 → SFleb (of_int b) (of_int a) = false.
Proof.
  intros Ha Hb. destruct (of_int_exact a ltac:(lia)) as (m1 & e1 & -> & H1 & V1 & D1).
  destruct (of_int_exact b ltac:(lia)) as (m2 & e2 & -> & H2 & V2 & D2).
  apply digits_bounds in D1 as [L1 U1], D2 as [L2 U2]. unfold SFleb, SFcompare.
  destruct (Z.compare_spec e2 e1) as [->|Hlt|Hgt]; [| |done].
  - assert (Zpos m1 < Zpos m2) by (rewrite V1, V2; apply Z.mul_lt_mono_pos_r; [apply Z.pow_pos_nonneg|]; lia).
    change (Pos.compare_cont Eq m2 m1) with (m2 ?= m1)%positive. destruct (Pos.compare_spec m2 m1); [lia|lia|done].
  - exfalso. assert (Zpos m1 * 2 ^ (e1 - e2) < Zpos m2) as Hm.
    { rewrite V1, V2, <- Z.mul_assoc, <- Z.pow_add_r by lia. replace (- e1 + (e1 - e2)) with (- e2) by lia.
      apply Z.mul_lt_mono_pos_r; [apply Z.pow_pos_nonneg|]; lia. }
    assert (2 ^ 1 ≤ 2 ^ (e1 - e2)) by (apply Z.pow_le_mono_r; lia). change (2 ^ 1) with 2 in *. nia.
Qed.
