(* ===== verification/MomConfig.v ===== *)
(** * The configuration of a compute node: internal/mom/config/config.go

    [Config] is the record of settings of [pbs_mom], [NewDefaultConfig] its defaults and
    [Load] the reader of its configuration file: comments, [$directive value] lines and
    static resources. *)

From Stdlib Require Import SpecFloat.
From S2P Require Import Prelude GoStd FloatStd NetStd ServerConfig.

Local Open Scope string_scope.
Local Open Scope list_scope.
Local Open Scope Z_scope.

(** ** Settings *)

Definition DefaultMomPort : Z := 15002.
Definition DefaultRMPort : Z := 15003.
Definition DefaultServerPort : Z := 15001.
Definition DefaultPBSHome : string := "/var/spool/torque".
Definition DefaultCheckPoll : Z := 45.
Definition DefaultStatusUpdate : Z := 45.
Definition DefaultPrologAlarm : Z := 300.
Definition DefaultLogEvents : Z := 511.

Record Config := mkConfig {
  PBSHome : string; PBSServers : list string; ServerPort : Z; MomPort : Z; RMPort : Z;
  LogEvents : Z; LogLevel : Z; CheckPollTime : Z; StatusUpdateTime : Z; PrologAlarm : Z;
  PathJobs : string; PathSpool : string; PathMomPriv : string; PathLogs : string;
  PathProlog : string; PathEpilog : string; PathPrologUser : string; PathEpilogUser : string;
  PathUndeliv : string; PathAux : string; EnableMomRestart : bool; DownOnError : bool;
  MomHost : string; UseCp : gmap string string; StaticResources : gmap string string;
  ClientHost : string; Restricted : list string; Timeout : Z; MaxConnTimeoutUsec : Z;
  AliasServerName : string; PBSClient : list string; RemoteReconfig : bool; IdealLoad : float64;
  MaxLoad : float64; AutoIdealLoad : string; AutoMaxLoad : string; IgnWalltime : bool;
  IgnMem : bool; IgnCput : bool; IgnVmem : bool; CputMult : float64; WallMult : float64;
  LogDirectory : string; LogFileMaxSize : Z; LogFileRollDepth : Z; LogFileSuffix : string;
  LogKeepDays : Z; JobStarter : string; JobStarterRunPrivileged : bool; PreExec : string;
  SourceLoginBatch : bool; SourceLoginInteractive : bool; JobOutputFileUmask : Z;
  JobStartBlockTime : Z; JobExitWaitTime : Z; JobOomScoreAdjust : Z; AttemptToMakeDir : bool;
  ExecWithExec : bool; PresetupPrologue : string; ExtPwdRetry : Z; TmpDir : string;
  NodefileSuffix : string; NospoolDirList : string; RcpCmd : string; XauthPath : string;
  SpoolAsFinalName : bool; RemoteCheckpointDirs : string; MaxUpdatesBeforeSending : Z;
  NodeCheckScript : string; NodeCheckInterval : string; ConfigVersion : string;
  ForceOverwrite : bool; RejectJobSubmission : bool; CheckpointInterval : Z;
  CheckpointScript : string; RestartScript : string; CheckpointRunExe : string; VarAttr : string;
  UseSMT : bool; MemoryPressureThreshold : Z; MemoryPressureDuration : Z; MomOomImmunize : bool;
  MaxJoinJobWaitTime : Z; ResendJoinJobWaitTime : Z; MomHierarchyRetryTime : Z;
  JobDirectorySticky : bool; CudaVisibleDevices : bool; ReducePrologChecks : bool;
  ThreadUnlinkCalls : bool; ReporterMom : bool; LoginNode : bool; AllocParCmd : string;
}.
#[export] Instance eta_Config : Eta Config := λ c,
  mkConfig (PBSHome c) (PBSServers c) (ServerPort c) (MomPort c) (RMPort c) (LogEvents c) (LogLevel c)
  (CheckPollTime c) (StatusUpdateTime c) (PrologAlarm c) (PathJobs c) (PathSpool c)
  (PathMomPriv c) (PathLogs c) (PathProlog c) (PathEpilog c) (PathPrologUser c) (PathEpilogUser c)
  (PathUndeliv c) (PathAux c) (EnableMomRestart c) (DownOnError c) (MomHost c) (UseCp c)
  (StaticResources c) (ClientHost c) (Restricted c) (Timeout c) (MaxConnTimeoutUsec c)
  (AliasServerName c) (PBSClient c) (RemoteReconfig c) (IdealLoad c) (MaxLoad c) (AutoIdealLoad c)
  (AutoMaxLoad c) (IgnWalltime c) (IgnMem c) (IgnCput c) (IgnVmem c) (CputMult c) (WallMult c)
  (LogDirectory c) (LogFileMaxSize c) (LogFileRollDepth c) (LogFileSuffix c) (LogKeepDays c)
  (JobStarter c) (JobStarterRunPrivileged c) (PreExec c) (SourceLoginBatch c)
  (SourceLoginInteractive c) (JobOutputFileUmask c) (JobStartBlockTime c) (JobExitWaitTime c)
  (JobOomScoreAdjust c) (AttemptToMakeDir c) (ExecWithExec c) (PresetupPrologue c) (ExtPwdRetry c)
  (TmpDir c) (NodefileSuffix c) (NospoolDirList c) (RcpCmd c) (XauthPath c) (SpoolAsFinalName c)
  (RemoteCheckpointDirs c) (MaxUpdatesBeforeSending c) (NodeCheckScript c) (NodeCheckInterval c)
  (ConfigVersion c) (ForceOverwrite c) (RejectJobSubmission c) (CheckpointInterval c)
  (CheckpointScript c) (RestartScript c) (CheckpointRunExe c) (VarAttr c) (UseSMT c)
  (MemoryPressureThreshold c) (MemoryPressureDuration c) (MomOomImmunize c) (MaxJoinJobWaitTime c)
  (ResendJoinJobWaitTime c) (MomHierarchyRetryTime c) (JobDirectorySticky c)
  (CudaVisibleDevices c) (ReducePrologChecks c) (ThreadUnlinkCalls c) (ReporterMom c)
  (LoginNode c) (AllocParCmd c).

Definition NewDefaultConfig : Config :=
  {| PBSHome := DefaultPBSHome; PBSServers := []; ServerPort := DefaultServerPort;
     MomPort := DefaultMomPort; RMPort := DefaultRMPort; LogEvents := DefaultLogEvents;
     LogLevel := 0; CheckPollTime := DefaultCheckPoll; StatusUpdateTime := DefaultStatusUpdate;
     PrologAlarm := DefaultPrologAlarm;
     PathJobs := path_Join [DefaultPBSHome; "mom_priv"; "jobs"];
     PathSpool := path_Join [DefaultPBSHome; "spool"];
     PathMomPriv := path_Join [DefaultPBSHome; "mom_priv"];
     PathLogs := path_Join [DefaultPBSHome; "mom_logs"];
     PathProlog := path_Join [DefaultPBSHome; "mom_priv"; "prologue"];
     PathEpilog := path_Join [DefaultPBSHome; "mom_priv"; "epilogue"];
     PathPrologUser := path_Join [DefaultPBSHome; "mom_priv"; "prologue.user"];
     PathEpilogUser := path_Join [DefaultPBSHome; "mom_priv"; "epilogue.user"];
     PathUndeliv := path_Join [DefaultPBSHome; "undelivered"];
     PathAux := path_Join [DefaultPBSHome; "aux"]; EnableMomRestart := false;
     DownOnError := false; MomHost := ""; UseCp := ∅; StaticResources := ∅; ClientHost := "";
     Restricted := []; Timeout := 300; MaxConnTimeoutUsec := 0; AliasServerName := "";
     PBSClient := []; RemoteReconfig := false; IdealLoad := of_int (-1); MaxLoad := of_int (-1);
     AutoIdealLoad := ""; AutoMaxLoad := ""; IgnWalltime := false; IgnMem := false;
     IgnCput := false; IgnVmem := false; CputMult := of_int 1; WallMult := of_int 1;
     LogDirectory := ""; LogFileMaxSize := 0; LogFileRollDepth := 1; LogFileSuffix := "";
     LogKeepDays := 0; JobStarter := ""; JobStarterRunPrivileged := false; PreExec := "";
     SourceLoginBatch := true; SourceLoginInteractive := true; JobOutputFileUmask := 63;
     JobStartBlockTime := 5; JobExitWaitTime := 600; JobOomScoreAdjust := 0;
     AttemptToMakeDir := false; ExecWithExec := false; PresetupPrologue := ""; ExtPwdRetry := 3;
     TmpDir := ""; NodefileSuffix := ""; NospoolDirList := ""; RcpCmd := ""; XauthPath := "";
     SpoolAsFinalName := false; RemoteCheckpointDirs := ""; MaxUpdatesBeforeSending := 0;
     NodeCheckScript := ""; NodeCheckInterval := ""; ConfigVersion := ""; ForceOverwrite := false;
     RejectJobSubmission := false; CheckpointInterval := 0; CheckpointScript := "";
     RestartScript := ""; CheckpointRunExe := ""; VarAttr := ""; UseSMT := true;
     MemoryPressureThreshold := 0; MemoryPressureDuration := 0; MomOomImmunize := true;
     MaxJoinJobWaitTime := 600; ResendJoinJobWaitTime := 300; MomHierarchyRetryTime := 0;
     JobDirectorySticky := false; CudaVisibleDevices := true; ReducePrologChecks := false;
     ThreadUnlinkCalls := true; ReporterMom := false; LoginNode := false; AllocParCmd := "" |}.

(** ** [strconv.ParseInt] in a base *)

(** The value of a digit or letter, 36 for any other byte. *)
Definition base_digit (c : ascii) : Z :=
  let b := byte_val (lower_byte c) in
  if is_digit c then digit_val c else if (97 <=? b) && (b <=? 122) then b - 87 else 36.

(** The digits of a number; an underscore is passed over when [under]. *)
Fixpoint base_digits (base : Z) (under : bool) (acc : Z) (s : string) : option Z :=
  match s with
  | EmptyString => Some acc
  | String c s =>
    if under && bool_decide (c = "_"%char) then base_digits base under acc s
    else if base_digit c <? base then base_digits base under (acc * base + base_digit c) s
    else None
  end.

(** The prefix of a literal: its base and the text after the prefix. *)
Definition base_prefix (s : string) : Z * string :=
  match s with
  | String "0" (String p (String c t)) =>
    let l := lower_byte p in
    if decide (l = "b"%char) then (2, String c t)
    else if decide (l = "o"%char) then (8, String c t)
    else if decide (l = "x"%char) then (16, String c t)
    else (8, String p (String c t))
  | String "0" t => (8, t)
  | _ => (10, s)
  end.

(** [underscoreOK]: underscores only between digits or after the prefix. [last] is the
    class of the byte before: ["0"] a digit or prefix, ["_"] an underscore, ["^"] the start. *)
Fixpoint underscores (hex : bool) (last : ascii) (s : string) : bool :=
  match s with
  | EmptyString => negb (bool_decide (last = "_"%char))
  | String c s =>
    let b := byte_val (lower_byte c) in
    if is_digit c || (hex && (97 <=? b) && (b <=? 102)) then underscores hex "0" s
    else if decide (c = "_"%char) then
      if decide (last = "0"%char) then underscores hex "_" s else false
    else if decide (last = "_"%char) then false else underscores hex "!" s
  end.

Definition underscoreOK (s : string) : bool :=
  match s with
  | String "0" (String p t) =>
    let l := lower_byte p in
    if decide (l = "x"%char) then underscores true "0" t
    else if decide (l ∈ ["b"%char; "o"%char]) then underscores false "0" t
    else underscores false "^" s
  | _ => underscores false "^" s
  end.

(** [strconv.ParseInt(s, base, 64)] when it succeeds; base 0 reads a Go literal. *)
Definition ParseInt_base (base : Z) (s : string) : option Z :=
  let '(neg, t) := match s with
                   | String "-" t => (true, t)
                   | String "+" t => (false, t)
                   | _ => (false, s)
                   end in
  if decide (t = "") then None else
  let '(b, digits) := if base =? 0 then base_prefix t else (base, t) in
  if (base =? 0) && has_byte "_" t && negb (underscoreOK t) then None else
  base_digits b (base =? 0) 0 digits ≫= λ n,
  let v := if neg then - n else n in
  if (MinInt64 <=? v) && (v <=? MaxInt64) then Some v else None.

Example base_0 : ParseInt_base 0 <$> ["511"; "0x1ff"; "0777"; "1_000"; "0b11"; "0o17"; "0"] =
  Some <$> [511; 511; 511; 1000; 3; 15; 0].
Proof. reflexivity. Qed.
Example base_bad : ParseInt_base 0 <$> [""; "0x"; "08"; "1__0"; "_1"; "0x1g"; "9223372036854775808"] = replicate 7 None.
Proof. reflexivity. Qed.
Example base_8 : ParseInt_base 8 <$> ["022"; "0077"; "-7"; "8"; "1_1"] = [Some 18; Some 63; Some (-7); None; None].
Proof. reflexivity. Qed.

(** ** [strconv.ParseFloat] *)

(** The mantissa: its digits as one number, how many of them follow the point, whether
    there was a digit, and the rest. *)
Fixpoint mantissa (hex sawdot sawdigits : bool) (m frac : Z) (s : string) : Z * Z * bool * string :=
  match s with
  | EmptyString => (m, frac, sawdigits, s)
  | String c s' =>
    let base := if hex then 16 else 10 in
    if decide (c = "_"%char) then mantissa hex sawdot sawdigits m frac s'
    else if decide (c = "."%char) then
      if sawdot then (m, frac, sawdigits, s) else mantissa hex true sawdigits m frac s'
    else if base_digit c <? base then
      mantissa hex sawdot true (m * base + base_digit c) (if sawdot then frac + 1 else frac) s'
    else (m, frac, sawdigits, s)
  end.

(** The digits of an exponent, which stops growing at five of them, and the rest. *)
Fixpoint exponent_digits (e : Z) (s : string) : Z * string :=
  match s with
  | EmptyString => (e, s)
  | String c s' =>
    if decide (c = "_"%char) then exponent_digits e s'
    else if is_digit c then exponent_digits (if e <? 10000 then e * 10 + digit_val c else e) s'
    else (e, s)
  end.

(** The whole exponent; [None] when it has no digit. *)
Definition exponent (s : string) : option (Z * string) :=
  let '(neg, s) := match s with String "+" t => (false, t) | String "-" t => (true, t) | _ => (false, s) end in
  match s with
  | String c _ => if is_digit c then let '(e, s) := exponent_digits 0 s in Some (if (neg : bool) then - e else e, s) else None
  | EmptyString => None
  end.

(** The float nearest to [m * base^e]: the quotient with 66 bits or more and a last bit that
    tells whether it is exact rounds as the number itself does. *)
Definition nearest (base m e : Z) : float64 :=
  if 0 <=? e then of_int (m * base ^ e)
  else let d := base ^ (- e) in
       let shift := Z.max 0 (66 + Z.log2 d - Z.log2 m) in
       let q := m * 2 ^ shift / d in
       let sticky := if m * 2 ^ shift mod d =? 0 then 0 else 1 in
       binary_normalize 53 1024 (2 * q + sticky) (- (shift + 1)) false.

Definition special (s : string) : option float64 :=
  let t := ToLower s in
  if decide (t ∈ ["inf"; "infinity"; "+inf"; "+infinity"]) then Some (S754_infinity false)
  else if decide (t ∈ ["-inf"; "-infinity"]) then Some (S754_infinity true)
  else if decide (t = "nan") then Some S754_nan else None.

(** [strconv.ParseFloat(s, 64)] when it succeeds; a number that is too large is an error. *)
Definition ParseFloat (s : string) : option float64 :=
  match special s with
  | Some x => Some x
  | None =>
    let '(neg, t) := match s with String "-" t => (true, t) | String "+" t => (false, t) | _ => (false, s) end in
    let '(hex, u) := match t with
                     | String "0" (String p (String c u)) =>
                       if decide (lower_byte p = "x"%char) then (true, String c u) else (false, t)
                     | _ => (false, t)
                     end in
    let '(m, frac, digits, rest) := mantissa hex false false 0 0 u in
    if negb digits then None else
    '(e, rest) ← (match rest with
                  | String c r => if decide (lower_byte c = (if hex : bool then "p" else "e")%char) then exponent r
                                  else if hex : bool then None else Some (0, rest)
                  | EmptyString => if hex : bool then None else Some (0, rest)
                  end);
    if negb (bool_decide (rest = "")) || has_byte "_" t && negb (underscoreOK t) then None else
    let x := if m =? 0 then S754_zero false
             else if hex : bool then nearest 2 m (e - 4 * frac) else nearest 10 m (e - frac) in
    match x with
    | S754_infinity _ => None
    | _ => Some (if (neg : bool) then SFopp x else x)
    end
  end.

Example floats : ParseFloat <$> ["1.0"; "-1.0"; "2.5"; "1e2"; "0x1p-1"; ".5"; "1_0.0"] =
  Some <$> [of_int 1; of_int (-1); fdiv (of_int 5) (of_int 2); of_int 100; fdiv (of_int 1) (of_int 2); fdiv (of_int 1) (of_int 2); of_int 10].
Proof. vm_compute. reflexivity. Qed.
Example float_tenth : ParseFloat "0.1" = Some (fdiv (of_int 1) (of_int 10)).
Proof. vm_compute. reflexivity. Qed.
Example floats_bad : ParseFloat <$> [""; "."; "1e"; "0x1"; "1.0.0"; "1e400"; "x"; "1__0"] = replicate 8 None.
Proof. vm_compute. reflexivity. Qed.

(** ** Directives *)

Definition parseBool (s : string) : bool := bool_decide (ToLower s ∈ ["true"; "yes"; "on"; "1"]).

(** A case of [parseDirective]: an assignment of the text, of the number when it can be
    read in the base, of the float, of the truth value, an extension of a list, or one of the directives
    with code of their own. *)
Inductive Directive :=
  | DStr (get : Config → string) (set : string → Config → Config)
  | DInt (base : Z) (get : Config → Z) (set : Z → Config → Config)
  | DFloat (get : Config → float64) (set : float64 → Config → Config)
  | DBool (get : Config → bool) (set : bool → Config → Config)
  | DWords (get : Config → list string) (set : list string → Config → Config)
  | Servers
  | Clienthost
  | Usecp.

Abbreviation STR f := (DStr f (λ v (c : Config), c <| f := v |>)).
Abbreviation INT f := (DInt 10 f (λ v (c : Config), c <| f := v |>)).
Abbreviation BASE b f := (DInt b f (λ v (c : Config), c <| f := v |>)).
Abbreviation FLOAT f := (DFloat f (λ v (c : Config), c <| f := v |>)).
Abbreviation BOOL f := (DBool f (λ v (c : Config), c <| f := v |>)).
Abbreviation WORDS f := (DWords f (λ v (c : Config), c <| f := v |>)).

(** Servers, timing, connections, load and enforcement. *)
Definition directives_general : list (string * Directive) :=
  [("pbsserver", Servers); ("logevent", BASE 0 LogEvents); ("check_poll_time", INT CheckPollTime);
   ("status_update_time", INT StatusUpdateTime); ("prologalarm", INT PrologAlarm);
   ("enablemomrestart", BOOL EnableMomRestart); ("down_on_error", BOOL DownOnError);
   ("mom_host", STR MomHost); ("usecp", Usecp); ("clienthost", Clienthost);
   ("restricted", WORDS Restricted); ("timeout", INT Timeout);
   ("max_conn_timeout_micro_sec", INT MaxConnTimeoutUsec);
   ("alias_server_name", STR AliasServerName); ("pbsclient", WORDS PBSClient);
   ("remote_reconfig", BOOL RemoteReconfig); ("ideal_load", FLOAT IdealLoad);
   ("max_load", FLOAT MaxLoad); ("auto_ideal_load", STR AutoIdealLoad);
   ("auto_max_load", STR AutoMaxLoad); ("ignwalltime", BOOL IgnWalltime); ("ignmem", BOOL IgnMem);
   ("igncput", BOOL IgnCput); ("ignvmem", BOOL IgnVmem); ("cputmult", FLOAT CputMult);
   ("wallmult", FLOAT WallMult)].

(** Logging, execution, files, health, checkpoints, memory and the rest. *)
Definition directives_execution : list (string * Directive) :=
  [("loglevel", INT LogLevel); ("log_directory", STR LogDirectory);
   ("log_file_max_size", INT LogFileMaxSize); ("log_file_roll_depth", INT LogFileRollDepth);
   ("log_file_suffix", STR LogFileSuffix); ("log_keep_days", INT LogKeepDays);
   ("job_starter", STR JobStarter); ("job_starter_run_privileged", BOOL JobStarterRunPrivileged);
   ("preexec", STR PreExec); ("source_login_batch", BOOL SourceLoginBatch);
   ("source_login_interactive", BOOL SourceLoginInteractive);
   ("job_output_file_umask", BASE 8 JobOutputFileUmask);
   ("job_start_block_time", INT JobStartBlockTime); ("job_exit_wait_time", INT JobExitWaitTime);
   ("job_oom_score_adjust", INT JobOomScoreAdjust);
   ("attempttomakedirectory", BOOL AttemptToMakeDir); ("exec_with_exec", BOOL ExecWithExec);
   ("presetup_prologue", STR PresetupPrologue); ("ext_pwd_retry", INT ExtPwdRetry);
   ("tmpdir", STR TmpDir); ("nodefile_suffix", STR NodefileSuffix);
   ("nospool_dir_list", STR NospoolDirList); ("rcpcmd", STR RcpCmd); ("xauthpath", STR XauthPath);
   ("spool_as_final_name", BOOL SpoolAsFinalName);
   ("remote_checkpoint_dirs", STR RemoteCheckpointDirs);
   ("max_updates_before_sending", INT MaxUpdatesBeforeSending);
   ("node_check_script", STR NodeCheckScript); ("node_check_interval", STR NodeCheckInterval);
   ("configversion", STR ConfigVersion); ("force_overwrite", BOOL ForceOverwrite);
   ("reject_job_submission", BOOL RejectJobSubmission);
   ("checkpoint_interval", INT CheckpointInterval); ("checkpoint_script", STR CheckpointScript);
   ("restart_script", STR RestartScript); ("checkpoint_run_exe", STR CheckpointRunExe);
   ("varattr", STR VarAttr); ("use_smt", BOOL UseSMT);
   ("memory_pressure_threshold", INT MemoryPressureThreshold);
   ("memory_pressure_duration", INT MemoryPressureDuration);
   ("mom_oom_immunize", BOOL MomOomImmunize); ("max_join_job_wait_time", INT MaxJoinJobWaitTime);
   ("resend_join_job_wait_time", INT ResendJoinJobWaitTime);
   ("mom_hierarchy_retry_time", INT MomHierarchyRetryTime);
   ("job_directory_sticky", BOOL JobDirectorySticky);
   ("cuda_visible_devices", BOOL CudaVisibleDevices);
   ("reduce_prolog_checks", BOOL ReducePrologChecks);
   ("thread_unlink_calls", BOOL ThreadUnlinkCalls); ("reporter_mom", BOOL ReporterMom);
   ("login_node", BOOL LoginNode); ("alloc_par_cmd", STR AllocParCmd)].

Definition directives : list (string * Directive) := directives_general ++ directives_execution.

(** A host without its port. *)
Definition strip_port (s : string) : string :=
  match SplitHostPort s with Some (host, _) => host | None => s end.

Definition read_int (base : Z) (val : string) : option Z :=
  if base =? 10 then atoi_ok val else ParseInt_base base val.

Definition apply_directive (d : Directive) (val : string) (c : Config) : Config :=
  match d with
  | DStr _ set => set val c
  | DInt base _ set => match read_int base val with Some v => set v c | None => c end
  | DFloat _ set => match ParseFloat val with Some v => set v c | None => c end
  | DBool _ set => set (parseBool val) c
  | DWords get set => set (get c ++ Fields val) c
  | Servers => c <| PBSServers := PBSServers c ++ (strip_port <$> Fields val) |>
  | Clienthost => c <| ClientHost := val |> <| PBSServers := PBSServers c ++ [strip_port val] |>
  | Usecp =>
    match Fields val with
    | host :: path :: _ => c <| UseCp := <[host := path]> (UseCp c) |>
    | _ => c
    end
  end.

Definition parseDirective (line : string) (c : Config) : Config :=
  match Fields line with
  | [] => c
  | key :: words =>
    match find_case (ToLower key) directives with
    | Some d => apply_directive d (Join " " words) c
    | None => c
    end
  end.

Definition parseLine (line : string) (c : Config) : Config :=
  match strip_prefix "$" line with
  | Some rest => parseDirective rest c
  | None =>
    match cut " " line with
    | Some (name, value) => c <| StaticResources := <[name := TrimSpace value]> (StaticResources c) |>
    | None => c
    end
  end.

(** ** The file *)

(** The lines of [bufio.Scanner], and whether it stopped at a line that does not fit its
    buffer of 64 kB. The text after the last newline is a line when it is not empty. *)
Definition MaxScanTokenSize : Z := 65536.
Fixpoint scan_lines (ls : list string) : list string * bool :=
  match ls with
  | [] => ([], true)
  | [last] => if decide (last = "") then ([], true)
              else if MaxScanTokenSize <=? len last then ([], false) else ([last], true)
  | l :: ls => if MaxScanTokenSize <=? len l then ([], false)
               else let '(rest, ok) := scan_lines ls in (l :: rest, ok)
  end.
Definition ScanLines (text : string) : list string * bool := scan_lines (Split newline text).

Definition load_line (c : Config) (line : string) : Config :=
  let line := TrimSpace line in
  if bool_decide (line = "") || HasPrefix line "#" then c else parseLine line c.

(** The settings after the file, and whether the scan reached its end. *)
Definition Load (text : string) (c : Config) : Config * bool :=
  let '(lines, ok) := ScanLines text in (foldl load_line c lines, ok).

Definition LoadServerName (data : string) (c : Config) : Config :=
  let name := TrimSpace data in
  if negb (bool_decide (name = "")) && bool_decide (PBSServers c = []) then c <| PBSServers := PBSServers c ++ [name] |> else c.

Definition ConfigFile (c : Config) : string := path_Join [PathMomPriv c; "config"].
