(* ===== verification/MomJob.v ===== *)
(** * Jobs of a compute node: internal/mom/job/job.go and manager.go

    The job record of [pbs_mom], its tasks and the table of jobs.  A [*Job] is shared: the
    table, the goroutine that waits for a process and the timer of a delete request hold the
    same object.  An object is identified by [obj], its address; what a goroutine does to an
    object that has left the table cannot be seen any more. *)

From S2P Require Import Prelude GoStd FloatStd.

Local Open Scope string_scope.
Local Open Scope list_scope.
Local Open Scope Z_scope.

(** ** States *)

Definition StateTransit : Z := 0.
Definition StateQueued : Z := 1.
Definition StateHeld : Z := 2.
Definition StateWaiting : Z := 3.
Definition StateRunning : Z := 4.
Definition StateExiting : Z := 5.
Definition StateComplete : Z := 6.

Definition State_String (s : Z) : string :=
  match s with
  | 0 => "TRANSIT" | 1 => "QUEUED" | 2 => "HELD" | 3 => "WAITING"
  | 4 => "RUNNING" | 5 => "EXITING" | 6 => "COMPLETE" | _ => "UNKNOWN"
  end.

Definition SubstateQueued : Z := 10.
Definition SubstateHeld : Z := 20.
Definition SubstateRunning : Z := 42.
Definition SubstateExiting : Z := 50.
Definition SubstateComplete : Z := 59.

Inductive TaskState := TaskEmbryo | TaskRunning | TaskExited | TaskDead.
#[export] Instance TaskState_eq_dec : EqDecision TaskState.
Proof. solve_decision. Defined.

Record Task := mkTask {
  t_ID : Z;
  t_ParentID : string;
  t_State : TaskState;
  t_Pid : Z;
  t_Sid : Z;
  t_ExitCode : Z;
  t_Started : Time;
  t_Ended : Time;
}.
#[export] Instance eta_Task : Eta Task := λ t,
  mkTask (t_ID t) (t_ParentID t) (t_State t) (t_Pid t) (t_Sid t) (t_ExitCode t) (t_Started t) (t_Ended t).

(** Durations in nanoseconds, sizes in bytes. *)
Record Resources := mkUse {
  CPUTime : Duration; WallTime : Duration; Memory : Z; MaxMemory : Z; VMem : Z; MaxVMem : Z;
}.
#[export] Instance eta_Resources : Eta Resources := λ r,
  mkUse (CPUTime r) (WallTime r) (Memory r) (MaxMemory r) (VMem r) (MaxVMem r).

Record ResourceLimits := mkLimits {
  l_CPUTime : Duration; l_WallTime : Duration; l_Memory : Z; l_VMem : Z; l_Ncpus : Z; l_Nodes : Z;
}.
#[export] Instance eta_ResourceLimits : Eta ResourceLimits := λ r,
  mkLimits (l_CPUTime r) (l_WallTime r) (l_Memory r) (l_VMem r) (l_Ncpus r) (l_Nodes r).

(** ** The job record

    The fields that the daemon never writes nor reads (the checkpoint directory, the
    submitting user, the interactive flag) are left out. *)
Record Job := mkJob {
  ID : string; Name : string; Queue : string;
  Owner : string; User : string; Group : string;
  State : Z; Substate : Z;
  Shell : string; Script : string; ScriptFile : string; ExecHost : string; JoinPath : string;
  StdoutPath : string; StderrPath : string; FinalStdout : string; FinalStderr : string;
  VariableList : gmap string string;
  ResourceReq : ResourceLimits; ResourceUse : Resources;
  Tasks : list Task;
  QueueTime : Time; StartTime : Time; EndTime : Time; MTime : Time;
  ExitStatus : Z; ExitSignal : Z;
  Rerunnable : bool;
  StageinList : string; StageoutList : string;
  Process : option Z;          (* the pid of the process, when there is one *)
  SessionID : Z;
  obj : nat;                   (* the address of the object *)
}.
#[export] Instance eta_Job : Eta Job := λ j,
  mkJob (ID j) (Name j) (Queue j) (Owner j) (User j) (Group j) (State j) (Substate j) (Shell j)
    (Script j) (ScriptFile j) (ExecHost j) (JoinPath j) (StdoutPath j) (StderrPath j)
    (FinalStdout j) (FinalStderr j) (VariableList j) (ResourceReq j) (ResourceUse j) (Tasks j)
    (QueueTime j) (StartTime j) (EndTime j) (MTime j) (ExitStatus j) (ExitSignal j)
    (Rerunnable j) (StageinList j) (StageoutList j) (Process j) (SessionID j) (obj j).

Definition NewJob (now : Time) (addr : nat) (id : string) : Job :=
  {| ID := id; Name := ""; Queue := ""; Owner := ""; User := ""; Group := "";
     State := StateQueued; Substate := SubstateQueued;
     Shell := ""; Script := ""; ScriptFile := ""; ExecHost := ""; JoinPath := "";
     StdoutPath := ""; StderrPath := ""; FinalStdout := ""; FinalStderr := "";
     VariableList := ∅; ResourceReq := mkLimits 0 0 0 0 0 0; ResourceUse := mkUse 0 0 0 0 0 0;
     Tasks := []; QueueTime := now; StartTime := zero_time; EndTime := zero_time; MTime := now;
     ExitStatus := 0; ExitSignal := 0; Rerunnable := false; StageinList := ""; StageoutList := "";
     Process := None; SessionID := 0; obj := addr |}.

Definition SetState (now : Time) (state substate : Z) (j : Job) : Job :=
  j <| State := state |> <| Substate := substate |> <| MTime := now |>.

Definition AddTask (now : Time) (pid sid : Z) (j : Job) : Job :=
  j <| Tasks := Tasks j ++ [mkTask (Z.of_nat (length (Tasks j))) (ID j) TaskRunning pid sid 0 now zero_time] |>.

Definition IsRunning (j : Job) : bool := State j =? StateRunning.
Definition IsExiting (j : Job) : bool := State j =? StateExiting.

Definition StatusString (j : Job) : string :=
  if State j =? StateQueued then "Q"
  else if State j =? StateRunning then "R"
  else if State j =? StateHeld then "H"
  else if State j =? StateExiting then "E"
  else if State j =? StateComplete then "C"
  else "?".

Definition formatDuration (d : Duration) : string :=
  let h := trunc (Hours d) in
  let m := Z.rem (trunc (Minutes d)) 60 in
  let s := Z.rem (trunc (Seconds d)) 60 in
  fmt_02d h +:+ ":" +:+ fmt_02d m +:+ ":" +:+ fmt_02d s.

Definition FormatResourceUsed (j : Job) : gmap string string :=
  let u := ResourceUse j in
  <["vmem" := Itoa (Z.quot (MaxVMem u) 1024) +:+ "kb"]>
  (<["mem" := Itoa (Z.quot (MaxMemory u) 1024) +:+ "kb"]>
  (<["walltime" := formatDuration (WallTime u)]>
  (<["cput" := formatDuration (CPUTime u)]> ∅))).

(** ** The table *)

Abbreviation Manager := (gmap string Job).
Definition NewManager : Manager := ∅.

Definition AddJob (j : Job) (m : Manager) : option Manager :=
  match m !! ID j with Some _ => None | None => Some (<[ID j := j]> m) end.
Definition GetJob (id : string) (m : Manager) : option Job := m !! id.
Definition RemoveJob (id : string) (m : Manager) : Manager := delete id m.
Definition JobCount (m : Manager) : Z := Z.of_nat (size m).

Section range.
Context `{MapRange}.

Definition AllJobs (m : Manager) : list Job := omap (λ id, m !! id) (range m).
Definition RunningJobs (m : Manager) : list Job := filter (λ j, IsRunning j || IsExiting j) (AllJobs m).

Lemma elem_AllJobs m j : (∀ id j, m !! id = Some j → ID j = id) → j ∈ AllJobs m ↔ m !! ID j = Some j.
Proof.
  intros Hid. unfold AllJobs. rewrite list_elem_of_omap. split.
  - intros (id & _ & Hl). by rewrite (Hid _ _ Hl).
  - intros Hl. exists (ID j). split; [|done]. apply (map_order_elem m); [apply range_order|eauto].
Qed.

Lemma elem_RunningJobs m j :
  (∀ id j, m !! id = Some j → ID j = id) →
  j ∈ RunningJobs m ↔ m !! ID j = Some j ∧ (State j = StateRunning ∨ State j = StateExiting).
Proof.
  intros Hid. unfold RunningJobs. rewrite list_elem_of_filter, elem_AllJobs by done.
  rewrite orb_True. unfold IsRunning, IsExiting. rewrite !Is_true_true, !Z.eqb_eq. tauto.
Qed.

Lemma NoDup_AllJobs m : (∀ id j, m !! id = Some j → ID j = id) → NoDup (ID <$> AllJobs m).
Proof.
  intros Hid. unfold AllJobs. pose proof (map_order_NoDup m (range m) (range_order m)) as Hn. revert Hn.
  induction (range m) as [|k ks IH]; [constructor|]. intros [Hk Hn]%NoDup_cons. cbn [omap list_omap].
  destruct (m !! k) as [j|] eqn:Hl; [|by apply IH]. cbn [fmap list_fmap]. apply NoDup_cons. split; [|by apply IH].
  rewrite (Hid _ _ Hl). intros (j' & He & (k' & Hk' & Hl')%list_elem_of_omap)%list_elem_of_fmap.
  apply Hid in Hl'. congruence.
Qed.

End range.

Definition MarkJobExiting (now : Time) (id : string) (exitStatus : Z) (m : Manager) : Manager :=
  alter (λ j, SetState now StateExiting SubstateExiting j <| ExitStatus := exitStatus |>) id m.
(** The callback of the daemon only writes to the log. *)
Definition MarkJobComplete (now : Time) (id : string) (m : Manager) : Manager :=
  alter (SetState now StateComplete SubstateComplete) id m.
