(* ===== verification/MomExec.v ===== *)
(** * Processes and files of a compute node: internal/mom/job/executor.go and prolog.go

    What the daemon does to the machine is a list of actions, in order; what the machine
    answers (whether a file can be written, a script succeeds, the pid of a new process, what
    a file holds) is given by [Os], as a function of the actions so far.  So a theorem about
    any [Os] is a theorem about every machine, also one on which anything can fail at any
    moment.  The Windows branches are not modelled. *)

From S2P Require Import Prelude GoStd MomConfig MomJob.

Local Open Scope string_scope.
Local Open Scope list_scope.
Local Open Scope Z_scope.

(** ** The machine *)

Definition SIGHUP : Z := 1.
Definition SIGINT : Z := 2.
Definition SIGKILL : Z := 9.
Definition SIGUSR1 : Z := 10.
Definition SIGUSR2 : Z := 12.
Definition SIGTERM : Z := 15.
Definition SIGCONT : Z := 18.
Definition SIGSTOP : Z := 19.

Inductive action :=
  | WriteFile (path data : string)
  | OpenFile (path : string) (mode : Z)
  | Remove (path : string)
  | MkdirAll (path : string)
  | RunScript (argv env : list string) (timeout : Z)
  | Scp (from to : string)
  | StartProc (argv env : list string) (dir stdout stderr : string)
  | Kill (pid signal : Z)
  | SendObit (server jobID : string) (exitStatus : Z) (used : gmap string string)   (* the attempt *)
  | LogObitFailed (server jobID : string)
  | SendStatus (server : string).
#[export] Instance action_eq_dec : EqDecision action.
Proof. solve_decision. Defined.

(** The contents of a file, or why they cannot be read. *)
Inductive contents := Data (text : string) | NotExist | Unreadable.

(** The kernel's counters of a session. *)
Record ProcessResources := mkProc { p_CPUTime : Duration; p_Memory : Z; p_VMem : Z }.

Definition World : Type := list action.

Record Os := mkOs {
  succeeds : World → action → bool;
  new_pid : World → option Z;                 (* cmd.Start *)
  Stat : World → string → bool;               (* the file exists *)
  IsDir : World → string → bool;
  ReadFile : World → string → contents;
  ReadDir : World → string → option (list (string * bool));  (* names, and whether a directory *)
  GetProcessResources : World → Z → option ProcessResources;
  Hostname : string;
  HOME : string;
  Environ : list string;
  Getpid : Z;
}.

(** Code that acts on the machine. *)
Definition Act (A : Type) : Type := World → A * World.
#[export] Instance Act_ret : MRet Act := λ A a w, (a, w).
#[export] Instance Act_bind : MBind Act := λ A B f m w, let '(a, w) := m w in f a w.

(** ** Paths and texts *)

Definition stripHostPrefix (path : string) : string :=
  match cut ":" path with
  | Some (_, rest) => if HasPrefix rest "/" then rest else path
  | None => path
  end.

Section exec.
Context `{MapRange} (os : Os) (cfg : Config).

Definition act (a : action) : Act bool := λ w, (succeeds os w a, w ++ [a]).
Definition do (a : action) : Act () := λ w, ((), w ++ [a]).
Definition ask {A} (f : World → A) : Act A := λ w, (f w, w).
Definition skip : Act () := mret ().

Definition scriptPath (id : string) : string := path_Join [PathJobs cfg; id +:+ ".SC"].
Definition nodeFile (id : string) : string := path_Join [PBSHome cfg; "aux"; id].
Definition sessionFile (id : string) : string := path_Join [PathJobs cfg; id +:+ ".SID"].
Definition spoolFile (id ext : string) : string := path_Join [PathSpool cfg; id +:+ ext].

(** ** The environment of a job *)

Definition pbsVars (j : Job) : gmap string string :=
  let vars : gmap string string := list_to_map
    [("PBS_JOBID", ID j); ("PBS_JOBNAME", Name j); ("PBS_QUEUE", Queue j);
     ("PBS_O_HOME", HOME os); ("PBS_O_LOGNAME", User j); ("PBS_O_SHELL", Shell j);
     ("PBS_O_WORKDIR", HOME os); ("PBS_ENVIRONMENT", "PBS_BATCH");
     ("PBS_NODEFILE", nodeFile (ID j)); ("PBS_O_QUEUE", Queue j)] in
  let vars := if decide (TmpDir cfg = "") then vars else <["TMPDIR" := TmpDir cfg]> vars in
  if decide (ExecHost j = "") then vars else <["PBS_NODELIST" := ExecHost j]> vars.

Definition assignments (m : gmap string string) : list string :=
  (λ k, k +:+ "=" +:+ lookup_or "" k m) <$> range m.

Definition buildEnvironment (j : Job) : list string :=
  Environ os ++ assignments (pbsVars j) ++ assignments (VariableList j).

Definition getWorkDir (j : Job) (w : World) : string :=
  let candidates := omap (λ k, VariableList j !! k) ["PBS_O_WORKDIR"; "HOME"]
                    ++ (if decide (HOME os = "") then [] else [HOME os]) in
  default "/" (head (filter (λ c, c ≠ "" ∧ IsDir os w c = true) candidates)).

(** ** Starting a job *)

Definition output_mode : Z :=
  if JobOutputFileUmask cfg =? 0 then 420 else Z.land 438 (Z.lnot (JobOutputFileUmask cfg)).

Definition shell_of (j : Job) : string := if decide (Shell j = "") then "/bin/sh" else Shell j.
Definition command_line (shell scriptFile : string) : list string :=
  if SourceLoginBatch cfg then [shell; "-c"; ". /etc/profile 2>/dev/null; exec " +:+ shell +:+ " " +:+ scriptFile]
  else [shell; scriptFile].

Definition persistSession (id : string) (sid : Z) : Act () :=
  if sid <=? 0 then skip else do (WriteFile (sessionFile id) (Itoa sid +:+ String newline "")).

(** The process runs: its pid is the session, the job is running and has one more task. *)
Definition started (now : Time) (pid : Z) (j : Job) : Job :=
  j <| Process := Some pid |> <| SessionID := pid |> <| State := StateRunning |>
    <| Substate := SubstateRunning |> <| StartTime := now |>
    <| Tasks := Tasks j ++ [mkTask 0 (ID j) TaskRunning pid pid 0 now zero_time] |>.

(** The job after the call, and whether it was started. *)
Definition StartJob (now : Time) (j : Job) : Act (Job * bool) :=
  written ← (if decide (Script j = "") then mret true else act (WriteFile (scriptPath (ID j)) (Script j)));
  if negb written then mret (j, false) else
  let j := if decide (Script j = "") then j else j <| ScriptFile := scriptPath (ID j) |> in
  if decide (ScriptFile j = "") then mret (j, false) else
  let j := j <| FinalStdout := stripHostPrefix (StdoutPath j) |> <| FinalStderr := stripHostPrefix (StderrPath j) |>
             <| StdoutPath := spoolFile (ID j) ".OU" |> <| StderrPath := spoolFile (ID j) ".ER" |> in
  let shell := shell_of j in
  let env := buildEnvironment j in
  out ← act (OpenFile (StdoutPath j) output_mode);
  if negb out then mret (j, false) else
  err ← act (OpenFile (StderrPath j) output_mode);
  if negb err then mret (j, false) else
  dir ← ask (getWorkDir j);
  pid ← ask (new_pid os);
  _ ← do (StartProc (command_line shell (ScriptFile j)) env dir (StdoutPath j) (StderrPath j));
  match pid with
  | None => mret (j, false)
  | Some pid =>
    _ ← persistSession (ID j) pid;
    mret (started now pid j, true)
  end.

(** ** The end of a job *)

(** How a process ended: an exit code, a signal, or a wait that failed. *)
Inductive proc_end := Exited (code : Z) | Signaled (signal : Z) | WaitFailed.

(** [ExitCode] of a process that a signal ended is -1. *)
Definition exit_status (e : proc_end) : Z :=
  match e with Exited code => code | Signaled _ => -1 | WaitFailed => -1 end.

Definition end_task (now : Time) (status : Z) (t : Task) : Task :=
  t <| t_State := TaskExited |> <| t_ExitCode := status |> <| t_Ended := now |>.

(** What the goroutine of the [i]-th task does when its process has ended. *)
Definition waitForCompletion (now : Time) (e : proc_end) (i : nat) (j : Job) : Job :=
  let j := j <| EndTime := now |>
             <| ResourceUse := (ResourceUse j) <| WallTime := Sub now (StartTime j) |> |>
             <| ExitStatus := exit_status e |> in
  let j := match e with Signaled sig => j <| ExitSignal := sig |> | _ => j end in
  j <| Tasks := alter (end_task now (ExitStatus j)) i (Tasks j) |>
    <| State := StateExiting |> <| Substate := SubstateExiting |>.

Definition KillJob (j : Job) (signal : Z) : Act () :=
  match Process j with None => skip | Some _ => do (Kill (- SessionID j) signal) end.

(** ** Files *)

Definition CleanupJob (j : Job) : Act () :=
  _ ← do (Remove (scriptPath (ID j)));
  _ ← do (Remove (path_Join [PathJobs cfg; ID j +:+ ".JB"]));
  _ ← do (Remove (sessionFile (ID j)));
  _ ← do (Remove (spoolFile (ID j) ".OU"));
  _ ← do (Remove (spoolFile (ID j) ".ER"));
  do (Remove (nodeFile (ID j))).

Definition killSession (sid signal : Z) : Act () := if sid <=? 0 then skip else do (Kill (- sid) signal).

Definition KillStaleSession (id : string) : Act () :=
  data ← ask (λ w, ReadFile os w (sessionFile id));
  match data with
  | Data text =>
    match scan_d (TrimSpace text) with
    | Some (sid, _) =>
      if sid <=? 0 then do (Remove (sessionFile id))
      else (_ ← killSession sid SIGKILL; do (Remove (sessionFile id)))
    | None => do (Remove (sessionFile id))
    end
  | _ => skip
  end.

Fixpoint for_each {A} (f : A → Act ()) (l : list A) : Act () :=
  match l with [] => skip | x :: l => (_ ← f x; for_each f l) end.

Definition ReapStaleSessions : Act () :=
  entries ← ask (λ w, ReadDir os w (PathJobs cfg));
  match entries with
  | None => skip
  | Some entries =>
    for_each (λ ent : string * bool, if ent.2 then skip else
      match strip_suffix ".SID" ent.1 with Some id => KillStaleSession id | None => skip end) entries
  end.

(** A missing source is copied as an empty file. *)
Definition copyFile (src dst : string) : Act () :=
  data ← ask (λ w, ReadFile os w src);
  match data with
  | Data text => do (WriteFile dst text)
  | NotExist => do (WriteFile dst "")
  | Unreadable => skip
  end.

Definition deliver (spool final : string) : Act () :=
  if decide (final = "" ∨ spool = final) then skip else copyFile spool final.
Definition DeliverOutput (j : Job) : Act () :=
  _ ← deliver (StdoutPath j) (FinalStdout j);
  deliver (StderrPath j) (FinalStderr j).

Definition node_lines (host : string) : list string := split_hd "/" <$> Split "+" host.
Definition CreateNodeFile (j : Job) : Act () :=
  _ ← do (MkdirAll (path_Join [PBSHome cfg; "aux"]));
  let host := if decide (ExecHost j = "") then Hostname os else ExecHost j in
  do (WriteFile (nodeFile (ID j)) (Join (String newline "") (node_lines host) +:+ String newline "")).

(** internal/mom/config/config.go: the directories are made up to the first that fails. *)
Fixpoint make_dirs (dirs : list string) : Act bool :=
  match dirs with
  | [] => mret true
  | dir :: dirs => ok ← act (MkdirAll dir); if (ok : bool) then make_dirs dirs else mret false
  end.
Definition EnsureDirs : Act bool :=
  make_dirs [PathJobs cfg; PathSpool cfg; PathMomPriv cfg; PathLogs cfg; PathUndeliv cfg; PathAux cfg].

(** ** Prologue and epilogue *)

Definition runPelogScript (j : Job) (script : string) (timeout : Z) : Act bool :=
  act (RunScript [script; ID j; User j; Group j; Name j]
         (Environ os ++ ["PBS_JOBID=" +:+ ID j; "PBS_JOBNAME=" +:+ Name j; "PBS_QUEUE=" +:+ Queue j; "PBS_O_LOGNAME=" +:+ User j])
         (if timeout <=? 0 then 300 else timeout)).

(** A script that is configured and exists is run. *)
Definition pelog (j : Job) (script : string) (timeout : Z) : Act bool :=
  if decide (script = "") then mret true else
  exists_ ← ask (λ w, Stat os w script);
  if (exists_ : bool) then runPelogScript j script timeout else mret true.

Definition RunProlog (j : Job) (prolog userProlog : string) (timeout : Z) : Act bool :=
  ok ← pelog j prolog timeout;
  if negb ok then mret false else pelog j userProlog timeout.

Definition RunEpilog (j : Job) (epilog userEpilog : string) (timeout : Z) : Act () :=
  _ ← pelog j userEpilog timeout;
  _ ← pelog j epilog timeout;
  skip.

End exec.
