(* ===== verification/MomConn.v ===== *)
(** * What a compute node sends: internal/mom/server/connection.go

    The status of the machine as strings, the obituary of a job and the authentication
    request, as the bytes written to the connection.  The package [internal/mom/dis] has the
    same codec as the server's, text for text, so the bytes are written with [Dis]. *)

From S2P Require Import Prelude GoStd FloatStd Dis DisMessage Auth MomConfig MomJob MomExec.
Import Proto.

Local Open Scope string_scope.
Local Open Scope list_scope.
Local Open Scope Z_scope.

(** internal/mom/resource/monitor.go; the fields that are reported. *)
Record NodeStatus := mkNodeStatus {
  Arch : string; OSName : string; OSRelease : string; Ncpus : Z; LoadAvg : float64;
  TotalMem : Z; AvailMem : Z; PhysMem : Z; TotalSwap : Z; AvailSwap : Z; IdleTime : Z;
}.

(** ** Node status *)

Definition buildStatusString (now : Time) (status : NodeStatus) (hostname : string) : list string :=
  ["opsys=" +:+ OSName status;
   "uname=" +:+ OSName status +:+ " " +:+ hostname +:+ " " +:+ OSRelease status;
   "sessions="; "nsessions=0"; "nusers=0";
   "ncpus=" +:+ Itoa (Ncpus status);
   "loadave=" +:+ fmt_2f (LoadAvg status);
   "totmem=" +:+ Itoa (TotalMem status) +:+ "kb";
   "availmem=" +:+ Itoa (AvailMem status) +:+ "kb";
   "physmem=" +:+ Itoa (PhysMem status) +:+ "kb"]
  ++ (if 0 <? TotalSwap status then
        ["totswap=" +:+ Itoa (TotalSwap status) +:+ "kb"; "availswap=" +:+ Itoa (AvailSwap status) +:+ "kb"]
      else [])
  ++ ["idletime=" +:+ Itoa (IdleTime status);
      "arch=" +:+ Arch status;
      "state=free"; "gres="; "netload=0"; "varattr= "; "cpuclock=Fixed"; "version=7.0.0-go";
      "rectime=" +:+ Itoa (Unix now);
      "jobs="].

Definition add_item (m : gmap string string) (item : string) : gmap string string :=
  match cut "=" item with
  | Some (k, v) => if decide (k = "") then m else <[k := v]> m
  | None => m
  end.
Definition BuildMomStatusAttrs (now : Time) (status : NodeStatus) (hostname : string) : gmap string string :=
  foldl add_item ∅ (buildStatusString now status hostname).

(** The whole update; [first] is [c.lastUpdate.IsZero()]. *)
Definition status_update (cfg : Config) (now : Time) (host : string) (status : NodeStatus) (first : bool) : string :=
  let shortHost := split_hd "." host in
  SendStatusUpdate (MomPort cfg) (RMPort cfg) shortHost first (buildStatusString now status shortHost).

(** ** Obituaries *)

Section obit.
Context `{MapRange}.

Definition obit_attr (name value : string) : string :=
  WriteUint (len "resources_used" + len name + len value + 3) +:+
  WriteString "resources_used" +:+ WriteUint 1 +:+ WriteString name +:+ WriteString value +:+ WriteUint 1.

Definition SendJobObit (jobID : string) (exitStatus : Z) (resources : gmap string string) : string :=
  WriteRequestHeader BatchReqJobObit "root" +:+
  WriteString jobID +:+
  WriteInt exitStatus +:+
  WriteUint (Z.of_nat (size resources)) +:+
  foldr (λ name out, obit_attr name (lookup_or "" name resources) +:+ out) "" (range resources) +:+
  WriteUint 0.

(** The reply is read up to its code: [None] is an error of the call. *)
Definition obit_reply : Reader Z :=
  _ ← wrap ReadUint; _ ← wrap ReadUint; wrap ReadInt.

End obit.

(** ** Authentication *)

(** The request, from the text of the key file; [None] when the file holds no key. *)
Definition sendAuthToken (now : Time) (user keyFile : string) : option string :=
  key ← DecodeString (TrimSpace keyFile);
  let timestamp := Unix now in
  let token := EncodeToString (hmac_sha256 key (user +:+ "|" +:+ FormatInt timestamp)) in
  Some (WriteUint 2 +:+ WriteUint 2 +:+ WriteUint 63 +:+ WriteString user +:+
        WriteUint (uint64 timestamp) +:+ WriteString token +:+ WriteString "").
