(* ===== verification/Mom.v ===== *)
(** * The daemon of a compute node: internal/mom/mom/daemon.go

    [pbs_mom] answers the server's requests, watches the processes of its jobs and reports
    their end.  Its state is the table of jobs, what it has done to the machine, the
    goroutines that wait for a process and the timers of delete requests.  A request handler
    is a function of the state and the decoded body; the polls, the end of a process and a
    timer are steps of their own, so the daemon is the system whose steps interleave. *)

From S2P Require Import Prelude GoStd FloatStd Dis DisMessage Conn MomConfig MomJob MomExec MomConn.
Import Proto.

Local Open Scope string_scope.
Local Open Scope list_scope.
Local Open Scope Z_scope.

(** ** Constants of internal/mom/dis/protocol.go *)

Module MomProto.
Definition BatchQueueJob : Z := 1.
Definition BatchJobCred : Z := 2.
Definition BatchJobScript : Z := 3.
Definition BatchRdytoCommit : Z := 4.
Definition BatchCommit : Z := 5.
Definition BatchDeleteJob : Z := 6.
Definition BatchHoldJob : Z := 7.
Definition BatchModifyJob : Z := 11.
Definition BatchShutdown : Z := 17.
Definition BatchSignalJob : Z := 18.
Definition BatchStatusJob : Z := 19.
Definition BatchQueueJob2 : Z := 29.
Definition BatchCommit2 : Z := 30.
Definition BatchJobScript2 : Z := 31.
Definition BatchReturnFiles : Z := 53.
Definition BatchCopyFiles : Z := 54.
Definition BatchDelFiles : Z := 55.
Definition BatchDisconnect : Z := 59.
Definition BatchAsySignalJob : Z := 60.
Definition BatchMomStatus : Z := 63.
Definition BatchProtType : Z := 2.
Definition IMProtocol : Z := 3.
Definition PbsErrNoAttr : Z := 15001.
Definition PbsErrInternal : Z := 15003.
Definition PbsErrSystem : Z := 15004.
Definition PbsErrUnkjobid : Z := 15001.
Definition PbsErrJobExist : Z := 15014.
Definition PbsErrProtocol : Z := 15044.
Definition PbsErrUnknownReq : Z := 15048.
End MomProto.
Import MomProto.

(** ** State *)

(** A goroutine that waits for the process of a task. *)
Record wait := mkWait { w_id : string; w_obj : nat; w_task : nat }.
#[export] Instance wait_eq_dec : EqDecision wait.
Proof. solve_decision. Defined.

Record Daemon := mkDaemon {
  cfg : Config;
  jobs : MomJob.Manager;
  world : World;
  waits : list wait;
  timers : list (string * nat);
  next_obj : nat;              (* the next free address *)
  stopped : bool;
}.
#[export] Instance eta_Daemon : Eta Daemon := λ d,
  mkDaemon (cfg d) (jobs d) (world d) (waits d) (timers d) (next_obj d) (stopped d).

Definition New (c : Config) : Daemon := mkDaemon c NewManager [] [] [] 0 false.

(** An assignment through the pointer to a job. *)
Definition put_job (j : Job) (d : Daemon) : Daemon := d <| jobs := <[ID j := j]> (jobs d) |>.
Definition run_act {A} (m : Act A) (d : Daemon) : A * Daemon :=
  let '(a, w) := m (world d) in (a, d <| world := w |>).

(** ** Attributes of a job *)

Record svrAttr := mkSvrAttr { a_name : string; a_resource : string; a_value : string }.

Definition read_svrAttr : Reader svrAttr :=
  _ ← ReadUint;
  name ← ReadString;
  hasResc ← ReadUint;
  resc ← (if hasResc =? 0 then mret "" else ReadString);
  value ← ReadString;
  _ ← ReadUint;
  mret (mkSvrAttr name resc value).

(** [make([]svrAttr, 0, count)], 48 bytes an element. *)
Definition readSvrAttrl : Reader (list svrAttr) :=
  count ← ReadUint;
  if maxAlloc <? count * 48 then panic else read_n read_svrAttr (Z.to_nat count).

(** internal/mom/dis/message.go *)
Definition SkipSvrAttrl : Reader () :=
  count ← wrap ReadUint;
  _ ← read_n read_svrAttr (Z.to_nat count);
  mret ().

Definition parseDuration (s : string) : Duration :=
  match Split ":" s with
  | [h; m; sec] =>
    int64 (int64 (int64 ((Atoi h).1 * Hour) + int64 ((Atoi m).1 * Minute)) + int64 ((Atoi sec).1 * Second))
  | _ => ParseDuration s
  end.

Definition parseSize (s : string) : Z :=
  let s := TrimSpace s in
  let '(s, multiplier) :=
    match strip_suffix "kb" s with
    | Some t => (t, 1024)
    | None => match strip_suffix "mb" s with
    | Some t => (t, 1024 * 1024)
    | None => match strip_suffix "gb" s with
    | Some t => (t, 1024 * 1024 * 1024)
    | None => (default s (strip_suffix "b" s), 1)
    end end end in
  int64 ((ParseInt s).1 * multiplier).

Definition user_of (owner : string) : string :=
  match cut "@" owner with Some (user, _) => user | None => owner end.

(** A pair of a variable list. *)
Definition set_variable (m : gmap string string) (kv : string) : gmap string string :=
  match cut "=" kv with Some (k, v) => <[k := v]> m | None => m end.

Section daemon.
Context `{MapRange} (os : Os).
(** The kernel's report on the machine, [None] on an error. *)
Context (GetNodeStatus : World → option NodeStatus).

Definition set_limit (attr : svrAttr) (l : ResourceLimits) : ResourceLimits :=
  let v := a_value attr in
  switch (a_resource attr)
    [(["walltime"], l <| l_WallTime := parseDuration v |>);
     (["cput"], l <| l_CPUTime := parseDuration v |>);
     (["mem"], l <| l_Memory := parseSize v |>);
     (["vmem"], l <| l_VMem := parseSize v |>);
     (["ncpus"], l <| l_Ncpus := default (l_Ncpus l) (atoi_ok v) |>);
     (["nodes"], l <| l_Nodes := default (l_Nodes l) (atoi_ok v) |>)] l.

Definition applyJobAttribute (j : Job) (attr : svrAttr) : Job :=
  let v := a_value attr in
  switch (a_name attr)
    [(["Job_Name"], j <| MomJob.Name := v |>);
     (["Job_Owner"], j <| Owner := v |> <| User := user_of v |>);
     (["euser"], j <| User := v |>);
     (["egroup"], j <| Group := v |>);
     (["queue"], j <| Queue := v |>);
     (["Shell_Path_List"], j <| Shell := v |>);
     (["Output_Path"], j <| StdoutPath := v |>);
     (["Error_Path"], j <| StderrPath := v |>);
     (["Variable_List"], j <| VariableList := foldl set_variable (VariableList j) (Split "," v) |>);
     (["Join_Path"], j <| JoinPath := v |>);
     (["Rerunable"], j <| Rerunnable := bool_decide (v = "True") |>);
     (["Resource_List"], j <| ResourceReq := set_limit attr (ResourceReq j) |>);
     (["stagein"], j <| StageinList := v |>);
     (["stageout"], j <| StageoutList := v |>)] j.

(** ** File staging *)

Definition staging_item (stagein : bool) (item : string) : option action :=
  match cut "@" item with
  | Some (localFile, remote) => Some (if stagein then Scp remote localFile else Scp localFile remote)
  | None => None
  end.

Fixpoint stage_items (stagein : bool) (items : list string) : Act bool :=
  match items with
  | [] => mret true
  | item :: items =>
    let item := TrimSpace item in
    if decide (item = "") then stage_items stagein items
    else match staging_item stagein item with
    | None => stage_items stagein items
    | Some a => ok ← act os a; if (ok : bool) then stage_items stagein items else mret false
    end
  end.
Definition performStaging (stagein : bool) (spec : string) : Act bool := stage_items stagein (Split "," spec).

(** ** Request handlers

    The state, the reply and whether the body was read and accepted. *)
Definition MHandled : Type := Daemon * Reply * bool.
Definition m_err (code : Z) (d : Daemon) : MHandled := (d, SendErrorReply code 0, false).
Definition m_ok (d : Daemon) : MHandled := (d, SendOkReply, true).

Definition handleQueueJob (now : Time) (user jobID dest : string) (attrs : list svrAttr) (d : Daemon) : MHandled :=
  let j := foldl applyJobAttribute ((NewJob now (next_obj d) jobID) <| Owner := user |> <| Queue := dest |>) attrs in
  match AddJob j (jobs d) with
  | None => m_err PbsErrJobExist (d <| next_obj := S (next_obj d) |>)
  | Some m => (d <| jobs := m |> <| next_obj := S (next_obj d) |>, SendJobIDReply ReplyChoiceQueue jobID, true)
  end.

Definition handleJobScript (jobID script : string) (d : Daemon) : MHandled :=
  m_ok (d <| jobs := alter (λ j, j <| Script := script |>) jobID (jobs d) |>).

Definition handleReadyToCommit (jobID : string) (d : Daemon) : MHandled :=
  match GetJob jobID (jobs d) with
  | None => m_err PbsErrUnkjobid d
  | Some _ => (d, SendJobIDReply ReplyChoiceRdytoCom jobID, true)
  end.

(** The job takes the host it runs on and a user. *)
Definition committed (user : string) (j : Job) : Job :=
  let j := j <| ExecHost := split_hd "." (Hostname os) +:+ "/0" |> in
  let j := if decide (User j = "") then j <| User := user |> else j in
  if decide (User j = "") then j <| User := Owner j |> else j.

(** Everything a commit does for the job: its node file, its input files, the prologue, the
    end of an earlier instance, the start; and whether the job has started. *)
Definition commit_job (c : Config) (now : Time) (j : Job) : Act (Job * bool) :=
  _ ← CreateNodeFile os c j;
  staged ← (if decide (StageinList j = "") then mret true else performStaging true (StageinList j));
  if negb staged then mret (j, false) else
  ready ← RunProlog os j (PathProlog c) (PathPrologUser c) (PrologAlarm c);
  if negb ready then mret (j, false) else
  _ ← KillStaleSession os c (ID j);
  StartJob os c now j.

Definition handleCommit (now : Time) (user jobID : string) (d : Daemon) : MHandled :=
  match GetJob jobID (jobs d) with
  | None => m_err PbsErrUnkjobid d
  | Some j =>
    let '((j', ok), d) := run_act (commit_job (cfg d) now (committed user j)) d in
    let d := put_job j' d in
    if (ok : bool) then
      (d <| waits := waits d ++ [mkWait (ID j') (obj j') (length (Tasks j))] |>, SendTextReply (Itoa (SessionID j')), true)
    else m_err PbsErrSystem d
  end.

Definition handleDeleteJob (now : Time) (jobID : string) (d : Daemon) : MHandled :=
  match GetJob jobID (jobs d) with
  | None => m_err PbsErrUnkjobid d
  | Some j =>
    let d := if IsRunning j then (run_act (KillJob j SIGTERM) d).2 <| timers := timers d ++ [(ID j, obj j)] |> else d in
    m_ok (d <| jobs := MarkJobExiting now jobID (-1) (jobs d) |>)
  end.

Fixpoint ToUpper (s : string) : string :=
  match s with
  | EmptyString => EmptyString
  | String c s => String (if (97 <=? byte_val c) && (byte_val c <=? 122) then byte_of (byte_val c - 32) else c) (ToUpper s)
  end.
Definition parseSignal (s : string) : Z :=
  switch (ToUpper (TrimPrefix s "SIG"))
    [(["TERM"], SIGTERM); (["KILL"], SIGKILL); (["INT"], SIGINT); (["HUP"], SIGHUP); (["USR1"], SIGUSR1);
     (["USR2"], SIGUSR2); (["CONT"], SIGCONT); (["STOP"], SIGSTOP)] SIGTERM.

Definition handleSignalJob (jobID sigStr : string) (d : Daemon) : MHandled :=
  match GetJob jobID (jobs d) with
  | None => m_err PbsErrUnkjobid d
  | Some j => m_ok (if IsRunning j then (run_act (KillJob j (parseSignal sigStr)) d).2 else d)
  end.

Definition handleHoldJob (now : Time) (jobID : string) (d : Daemon) : MHandled :=
  match GetJob jobID (jobs d) with
  | None => m_err PbsErrUnkjobid d
  | Some _ => m_ok (d <| jobs := alter (SetState now StateHeld SubstateHeld) jobID (jobs d) |>)
  end.

(** The report with the ids of the jobs that run. *)
Definition mom_attrs (now : Time) (status : NodeStatus) (m : MomJob.Manager) : gmap string string :=
  let attrs := BuildMomStatusAttrs now status (split_hd "." (Hostname os)) in
  match RunningJobs m with
  | [] => attrs
  | running => <["jobs" := Join "," (ID <$> running)]> attrs
  end.

Definition handleMomStatus (now : Time) (attr : string) (d : Daemon) : MHandled :=
  let attr := ToLower (TrimSpace attr) in
  match GetNodeStatus (world d) with
  | None => (d, SendErrorReply PbsErrInternal 0, true)
  | Some status =>
    let attrs := mom_attrs now status (jobs d) in
    if decide (attr = "all" ∨ attr = "") then
      (d, SendTextReply (Join (String newline "")
            ((λ k, k +:+ "=" +:+ lookup_or "" k attrs) <$> sort_Strings (range attrs))), true)
    else match attrs !! attr with
    | None => (d, SendErrorReply PbsErrNoAttr 0, true)
    | Some val => (d, SendTextReply val, true)
    end
  end.

(** ** Requests *)

Definition St : Type := Daemon * string.

(** The value read, or [x] when the error is dropped. *)
Definition read_or {A} (x : A) (m : Reader A) : Reader A := λ s,
  match m s with (Err _, s) => (Ok x, s) | r => r end.

Definition read_cred : Reader () := _ ← ReadUint; _ ← ReadString; mret ().
Definition read_delete : Reader string := jobID ← ReadString; _ ← ignore SkipSvrAttrl; mret jobID.
Definition read_signal : Reader (string * string) := jobID ← ReadString; sig ← read_or "" ReadString; mret (jobID, sig).
Definition read_queue : Reader (string * string * list svrAttr) :=
  jobID ← ReadString; dest ← ReadString; attrs ← readSvrAttrl; mret (jobID, dest, attrs).
Definition read_script : Reader (string * string) :=
  _ ← ReadUint; _ ← ReadUint; _ ← ReadUint; jobID ← ReadString; script ← ReadString; mret (jobID, script).
Definition read_modify : Reader () := _ ← ignore ReadString; ignore SkipSvrAttrl.

(** A handler that reads its body: an error is answered and the connection goes on. The
    extension is only read when the body was accepted. *)
Definition handled {A} (read : Reader A) (run : A → Daemon → MHandled) (st : St) (s : string) :
    option (St * bool) * string :=
  match read s with
  | (Panic, s) => (None, s)
  | (Err _, s) => (Some ((st.1, st.2 +:+ WriteReply (SendErrorReply PbsErrProtocol 0)), true), s)
  | (Ok a, s) =>
    let '(d, reply, bodyOk) := run a st.1 in
    let st := (d, st.2 +:+ WriteReply reply) in
    if negb bodyOk then (Some (st, true), s)
    else match ReadReqExtend s with
         | (Panic, s) => (None, s)
         | (Err _, s) => (Some (st, false), s)
         | (Ok _, s) => (Some (st, true), s)
         end
  end.

Definition dispatchRequest (now : Time) (h : RequestHeader) : St → string → option (St * bool) * string :=
  let t := ReqType h in
  if (t =? BatchQueueJob) || (t =? BatchQueueJob2) then
    handled read_queue (λ b, handleQueueJob now (DisMessage.User h) b.1.1 b.1.2 b.2)
  else if t =? BatchJobCred then handled read_cred (λ _, m_ok)
  else if (t =? BatchJobScript) || (t =? BatchJobScript2) then handled read_script (λ b, handleJobScript b.1 b.2)
  else if t =? BatchRdytoCommit then handled ReadString handleReadyToCommit
  else if (t =? BatchCommit) || (t =? BatchCommit2) then handled ReadString (handleCommit now (DisMessage.User h))
  else if t =? BatchDeleteJob then handled read_delete (handleDeleteJob now)
  else if (t =? BatchSignalJob) || (t =? BatchAsySignalJob) then handled read_signal (λ b, handleSignalJob b.1 b.2)
  else if t =? BatchStatusJob then handled (ignore ReadString) (λ _, m_ok)
  else if t =? BatchMomStatus then handled (read_or "" ReadString) (handleMomStatus now)
  else if t =? BatchHoldJob then handled (read_or "" ReadString) (handleHoldJob now)
  else if t =? BatchModifyJob then handled read_modify (λ _, m_ok)
  else if t =? BatchShutdown then λ st s,
    (if stopped st.1 then None    (* [Stop] closes a closed channel *)
     else Some ((st.1 <| stopped := true |>, st.2 +:+ WriteReply SendOkReply), false), s)
  else if (t =? BatchCopyFiles) || (t =? BatchDelFiles) || (t =? BatchReturnFiles) then handled (mret ()) (λ _, m_ok)
  else if t =? BatchDisconnect then λ st s, (Some (st, false), s)
  else λ st s, (Some ((st.1, st.2 +:+ WriteReply (SendErrorReply PbsErrUnknownReq 0)), true), s).

(** One turn of [handleConnection]. *)
Definition mom_one (now : Time) (st : St) (s : string) : conn_end St + St * string :=
  match ReadRequestHeader s with
  | (Panic, _) => inl Crashed
  | (Err _, _) => inl (Closed st)
  | (Ok h, s) =>
    if negb (Protocol h =? BatchProtType) then
      if (Protocol h =? IMProtocol) || (Protocol h =? 4) then inl (Closed st)
      else inl (Closed (st.1, st.2 +:+ WriteReply (SendErrorReply PbsErrProtocol 0)))
    else match dispatchRequest now h st s with
         | (None, _) => inl Crashed
         | (Some (st, true), s) => inr (st, s)
         | (Some (st, false), _) => inl (Closed st)
         end
  end.

Fixpoint mom_connection_fuel (now : Time) (fuel : nat) (st : St) (s : string) : option (conn_end St) :=
  match fuel with
  | O => None
  | S fuel =>
    match mom_one now st s with
    | inl e => Some e
    | inr (st, s) => mom_connection_fuel now fuel st s
    end
  end.

(** Each turn reads at least a byte of the header. *)
Definition mom_connection (now : Time) (st : St) (s : string) : conn_end St :=
  default Crashed (mom_connection_fuel now (S (String.length s)) st s).

(** ** The watch over the processes *)

Definition count_use (u : Resources) (p : ProcessResources) : Resources :=
  u <| CPUTime := p_CPUTime p |>
    <| MaxMemory := if MaxMemory u <? p_Memory p then p_Memory p else MaxMemory u |> <| Memory := p_Memory p |>
    <| MaxVMem := if MaxVMem u <? p_VMem p then p_VMem p else MaxVMem u |> <| VMem := p_VMem p |>.

(** The usage of a job with a task more. *)
Definition poll_task (w : World) (u : Resources) (t : Task) : Resources :=
  if decide (t_State t = TaskRunning) then
    match GetProcessResources os w (t_Sid t) with Some p => count_use u p | None => u end
  else u.

Definition poll_usage (now : Time) (w : World) (j : Job) : Job :=
  let u := foldl (poll_task w) (ResourceUse j) (Tasks j) in
  j <| ResourceUse := if IsZero (StartTime j) then u else u <| WallTime := Sub now (StartTime j) |> |>.

(** An obituary that could not be sent, or that the server rejected, is logged and that is all. *)
Definition sendJobObit (c : Config) (j : Job) : Act () :=
  for_each (λ srv,
    ok ← act os (SendObit srv (ID j) (ExitStatus j) (FormatResourceUsed j));
    if (ok : bool) then skip else do (LogObitFailed srv (ID j))) (PBSServers c).

(** What is done for a job that has ended, up to its removal from the table. *)
Definition finish_job (c : Config) (j : Job) : Act () :=
  _ ← RunEpilog os j (PathEpilog c) (PathEpilogUser c) (PrologAlarm c);
  _ ← (if decide (StageoutList j = "") then mret true else performStaging false (StageoutList j));
  _ ← sendJobObit c j;
  _ ← DeliverOutput os j;
  CleanupJob c j.

Definition processExitedJob (now : Time) (j : Job) (d : Daemon) : Daemon :=
  let d := (run_act (finish_job (cfg d) j) d).2 in
  d <| jobs := RemoveJob (ID j) (MarkJobComplete now (ID j) (jobs d)) |>.

(** The first task has exited. *)
Definition has_exited (j : Job) : bool :=
  match Tasks j with t :: _ => bool_decide (t_State t = TaskExited) | [] => false end.

Definition poll_job (now : Time) (d : Daemon) (id : string) : Daemon :=
  match jobs d !! id with
  | None => d
  | Some j => if has_exited j then processExitedJob now j d else put_job (poll_usage now (world d) j) d
  end.
Definition pollJobs (now : Time) (d : Daemon) : Daemon := foldl (poll_job now) d (ID <$> RunningJobs (jobs d)).

(** The process of a waiting goroutine has ended. *)
Definition proc_ended (now : Time) (e : proc_end) (w : wait) (d : Daemon) : Daemon :=
  let d := d <| waits := remove1 w (waits d) |> in
  match jobs d !! w_id w with
  | Some j => if decide (obj j = w_obj w) then put_job (waitForCompletion now e (w_task w) j) d else d
  | None => d
  end.

(** Five seconds after a delete request.  A job that has left the table is complete. *)
Definition timer_fires (t : string * nat) (d : Daemon) : Daemon :=
  let d := d <| timers := remove1 t (timers d) |> in
  match jobs d !! t.1 with
  | Some j => if decide (obj j = t.2) then (if IsRunning j then (run_act (KillJob j SIGKILL) d).2 else d) else d
  | None => d
  end.

Definition sendStatusUpdates (d : Daemon) : Daemon :=
  (run_act (for_each (λ srv, do (SendStatus srv)) (PBSServers (cfg d))) d).2.

(** A new configuration file: three of its settings are taken over. *)
Definition reloadConfig (text : string) (d : Daemon) : Daemon :=
  match Load text NewDefaultConfig with
  | (c, true) => d <| cfg := (cfg d) <| CheckPollTime := CheckPollTime c |> <| StatusUpdateTime := StatusUpdateTime c |>
                                     <| LogEvents := LogEvents c |> |>
  | (_, false) => d
  end.

Definition pidFilePath (c : Config) : string := PathMomPriv c +:+ "/mom.lock".
Definition writePIDFile (c : Config) : Act () := do (WriteFile (pidFilePath c) (Itoa (Getpid os) +:+ String newline "")).

(** [Run] up to the listeners; [None] when a directory cannot be made. *)
Definition mom_run (c : Config) : Act bool :=
  ok ← EnsureDirs os c;
  if negb ok then mret false else
  _ ← ReapStaleSessions os c;
  _ ← writePIDFile c;
  mret true.
Definition mom_start (c : Config) : option Daemon :=
  let '(ok, d) := run_act (mom_run c) (New c) in if (ok : bool) then Some d else None.

End daemon.
