(* ===== verification/MomSpec.v ===== *)
(** * What the daemon of a compute node guarantees

    The invariant that ties the jobs of the table to the processes that are waited for, the
    account of the obituaries, and what happens to a job whose process ends. *)

From S2P Require Import Prelude GoStd FloatStd Dis DisMessage Conn MomConfig MomJob MomExec MomConn Mom.
Import Proto MomProto.

Local Open Scope string_scope.
Local Open Scope list_scope.
Local Open Scope Z_scope.

(** ** Acting on the machine *)

Definition is_obit (a : action) : bool := match a with SendObit _ _ _ _ => true | _ => false end.
Definition obits (w : World) : list action := filter (λ a, is_obit a = true) w.

Lemma obits_app w1 w2 : obits (w1 ++ w2) = obits w1 ++ obits w2.
Proof. apply filter_app. Qed.

(** Code that sends no obituary. *)
Class Quiet {A} (m : Act A) : Prop := quiet : ∀ w, obits (m w).2 = obits w.

#[export] Instance quiet_ret {A} (a : A) : Quiet (mret a).
Proof. by intros w. Qed.
#[export] Instance quiet_skip : Quiet skip.
Proof. by intros w. Qed.
#[export] Instance quiet_ask {A} (f : World → A) : Quiet (ask f).
Proof. by intros w. Qed.
#[export] Instance quiet_bind {A B} (m : Act A) (f : A → Act B) : Quiet m → (∀ a, Quiet (f a)) → Quiet (m ≫= f).
Proof.
  intros Hm Hf w. unfold mbind, Act_bind. specialize (Hm w). destruct (m w) as [a w'].
  rewrite Hf. exact Hm.
Qed.
#[export] Instance quiet_if {A} (b : bool) (m n : Act A) : Quiet m → Quiet n → Quiet (if b then m else n).
Proof. by destruct b. Qed.
#[export] Instance quiet_dec {A} (P : Prop) (b : {P} + {¬ P}) (m n : Act A) :
  Quiet m → Quiet n → Quiet (if b then m else n).
Proof. by destruct b. Qed.
Lemma quiet_act os a : is_obit a = false → Quiet (act os a).
Proof. intros Ha w. unfold act. cbn [snd]. rewrite obits_app. cbn. by rewrite Ha, app_nil_r. Qed.
Lemma quiet_do a : is_obit a = false → Quiet (do a).
Proof. intros Ha w. unfold do. cbn [snd]. rewrite obits_app. cbn. by rewrite Ha, app_nil_r. Qed.
#[export] Hint Extern 1 (Quiet (act _ _)) => (apply quiet_act; reflexivity) : typeclass_instances.
#[export] Hint Extern 1 (Quiet (do _)) => (apply quiet_do; reflexivity) : typeclass_instances.
#[export] Hint Extern 1 (Quiet (match ?x with _ => _ end)) => (destruct x) : typeclass_instances.
#[export] Instance quiet_for_each {A} (f : A → Act ()) l : (∀ a, Quiet (f a)) → Quiet (for_each f l).
Proof. intros Hf. induction l as [|x l IH]; cbn [for_each]; apply _. Qed.

Ltac solve_quiet := repeat (apply quiet_bind; [|intros ?]); try apply _.

Section quiet.
Context `{MapRange} (os : Os).

#[export] Instance quiet_KillJob j sig : Quiet (KillJob j sig).
Proof. unfold KillJob. apply _. Qed.
#[export] Instance quiet_KillStale c id : Quiet (KillStaleSession os c id).
Proof. unfold KillStaleSession, killSession. apply _. Qed.
#[export] Instance quiet_StartJob c now j : Quiet (StartJob os c now j).
Proof. unfold StartJob, persistSession. cbv zeta. apply _. Qed.
#[export] Instance quiet_CreateNodeFile c j : Quiet (CreateNodeFile os c j).
Proof. unfold CreateNodeFile. cbv zeta. apply _. Qed.
#[export] Instance quiet_pelog j s t : Quiet (pelog os j s t).
Proof. unfold pelog, runPelogScript. apply _. Qed.
#[export] Instance quiet_stage b l : Quiet (stage_items os b l).
Proof.
  induction l as [|x l IH]; cbn [stage_items]; [apply _|]. cbv zeta. apply quiet_dec; [done|].
  destruct (staging_item b (TrimSpace x)) as [a|] eqn:Hs; [|done].
  apply quiet_bind; [|intros []; apply _]. apply quiet_act. unfold staging_item in Hs.
  destruct (cut "@" _) as [[u v]|]; [|done]. destruct b; by injection Hs as <-.
Qed.
#[export] Instance quiet_commit c now j : Quiet (commit_job os c now j).
Proof. unfold commit_job, performStaging, RunProlog. apply _. Qed.
#[export] Instance quiet_DeliverOutput j : Quiet (DeliverOutput os j).
Proof. unfold DeliverOutput, deliver, copyFile. apply _. Qed.
#[export] Instance quiet_Cleanup c j : Quiet (CleanupJob c j).
Proof. unfold CleanupJob. apply _. Qed.
#[export] Instance quiet_Epilog j a b t : Quiet (RunEpilog os j a b t).
Proof. unfold RunEpilog. apply _. Qed.

(** The attempts to send the obituary of a job, one for each server. *)
Definition obits_of (c : Config) (j : Job) : list action :=
  (λ srv, SendObit srv (ID j) (ExitStatus j) (FormatResourceUsed j)) <$> PBSServers c.

Lemma sendJobObit_obits c j w : obits (sendJobObit os c j w).2 = obits w ++ obits_of c j.
Proof.
  unfold sendJobObit, obits_of. revert w. induction (PBSServers c) as [|srv l IH]; intros w; cbn [for_each fmap list_fmap].
  - by rewrite app_nil_r.
  - set (a := SendObit srv _ _ _). unfold mbind at 1, Act_bind at 1. unfold mbind at 1, Act_bind at 1. unfold act.
    destruct (succeeds os w a); unfold skip, do, mret, Act_ret; rewrite IH, !obits_app, <- !app_assoc; done.
Qed.

Lemma bind_snd {A B} (m : Act A) (f : A → Act B) w : ((m ≫= f) w).2 = (f (m w).1 (m w).2).2.
Proof. unfold mbind, Act_bind. by destruct (m w). Qed.

Lemma finish_job_obits c j w : obits (finish_job os c j w).2 = obits w ++ obits_of c j.
Proof.
  unfold finish_job, performStaging.
  match goal with |- context [RunEpilog ?a ?b ?c ?d ?e ≫= ?f] => rewrite (bind_snd (RunEpilog a b c d e) f) end.
  rewrite bind_snd, bind_snd, bind_snd.
  rewrite (quiet (Quiet := quiet_Cleanup c j)), (quiet (Quiet := quiet_DeliverOutput j)), sendJobObit_obits.
  f_equal. rewrite (quiet (m := if decide _ then _ else _)). apply quiet.
Qed.

End quiet.

(** ** The invariant *)

(** Every task of a job of the table runs, and a goroutine waits for its process, or has
    exited; a running job has a process; goroutines and objects are never confused. *)
Record mom_ok (d : Daemon) : Prop := {
  mk_ids : ∀ id j, jobs d !! id = Some j → ID j = id;
  mk_objs : ∀ id j, jobs d !! id = Some j → (obj j < next_obj d)%nat;
  mk_inj : ∀ id1 id2 j1 j2, jobs d !! id1 = Some j1 → jobs d !! id2 = Some j2 → obj j1 = obj j2 → id1 = id2;
  mk_tasks : ∀ id j i t, jobs d !! id = Some j → Tasks j !! i = Some t →
    t_State t = (if decide (mkWait id (obj j) i ∈ waits d) then TaskRunning else TaskExited);
  mk_waits : ∀ w j, w ∈ waits d → jobs d !! w_id w = Some j → obj j = w_obj w → (w_task w < length (Tasks j))%nat;
  mk_old : ∀ w, w ∈ waits d → (w_obj w < next_obj d)%nat;
  mk_nodup : NoDup (waits d);
  mk_running : ∀ id j, jobs d !! id = Some j → State j = StateRunning →
    (0 < length (Tasks j))%nat ∧ mkWait id (obj j) (pred (length (Tasks j))) ∈ waits d;
}.

Lemma New_ok c : mom_ok (New c).
Proof.
  assert (∀ id j, jobs (New c) !! id ≠ Some j) as Hj by (intros id j; unfold New, NewManager; simpl; by rewrite lookup_empty).
  assert (∀ w, w ∉ waits (New c)) as Hw by (intros w; apply not_elem_of_nil).
  split; intros *; try (intros ?%Hj; done); try (intros ?%Hw; done). constructor.
Qed.

(** A job that changes in nothing the invariant speaks of. *)
Definition same_job (j j' : Job) : Prop :=
  ID j' = ID j ∧ obj j' = obj j ∧ Tasks j' = Tasks j ∧ (State j' = StateRunning → State j = StateRunning).

(** The table keeps its jobs up to [same_job]. *)
Definition same_jobs (m m' : MomJob.Manager) : Prop :=
  ∀ id j', m' !! id = Some j' → ∃ j, m !! id = Some j ∧ same_job j j'.

#[export] Instance same_job_refl : Reflexive same_job.
Proof. done. Qed.
#[export] Instance same_job_trans : Transitive same_job.
Proof. intros j1 j2 j3 (?&?&?&?) (?&?&?&?). split_and!; [congruence..|auto]. Qed.
#[export] Instance same_jobs_refl : Reflexive same_jobs.
Proof. intros m id j Hj. exists j. by split. Qed.
#[export] Instance same_jobs_trans : Transitive same_jobs.
Proof.
  intros m1 m2 m3 H12 H23 id j3 H3. destruct (H23 _ _ H3) as (j2 & H2 & S2). destruct (H12 _ _ H2) as (j1 & H1 & S1).
  exists j1. split; [done|]. by transitivity j2.
Qed.

Lemma same_ok d d' :
  same_jobs (jobs d) (jobs d') → waits d' = waits d → (next_obj d ≤ next_obj d')%nat → mom_ok d → mom_ok d'.
Proof.
  intros Hs Hw Hn [I1 I2 I3 I4 I5 I6 I7 I8]. split; rewrite ?Hw; intros *.
  - intros (j1 & H1 & (-> & _))%Hs. by apply I1.
  - intros (j1 & H1 & (_ & -> & _))%Hs. apply I2 in H1. lia.
  - intros (k1 & H1 & (_ & -> & _))%Hs (k2 & H2 & (_ & -> & _))%Hs He. by apply (I3 _ _ _ _ H1 H2).
  - intros (j1 & H1 & (_ & -> & -> & _))%Hs Ht. by apply (I4 _ _ _ _ H1).
  - intros Hin (j1 & H1 & (_ & -> & -> & _))%Hs He. by apply I5.
  - intros Hin. apply I6 in Hin. lia.
  - done.
  - intros (j1 & H1 & (_ & -> & -> & Hr))%Hs He. by apply (I8 _ _ H1), Hr.
Qed.

Lemma same_jobs_insert m id j j' :
  m !! id = Some j → same_job j j' → same_jobs m (<[id := j']> m).
Proof.
  intros Hj Hs k j1. rewrite lookup_insert_Some. intros [[<- <-]|[_ Hk]]; [by exists j|]. by exists j1.
Qed.

Lemma same_jobs_alter m id f : (∀ j, m !! id = Some j → same_job j (f j)) → same_jobs m (alter f id m).
Proof.
  intros Hf k j1. rewrite lookup_alter_Some. intros [(<- & j & Hj & ->)|[_ Hk]]; [exists j; auto|]. by exists j1.
Qed.

Lemma same_jobs_delete m id : same_jobs m (delete id m).
Proof. intros k j. rewrite lookup_delete_Some. intros [_ Hk]. by exists j. Qed.

Lemma run_act_eq {A} (m : Act A) d : run_act m d = ((m (world d)).1, d <| world := (m (world d)).2 |>).
Proof. unfold run_act. by destruct (m (world d)). Qed.

(** ** The steps keep it *)

Section steps.
Context `{MapRange} (os : Os) (GetNodeStatus : World → option NodeStatus).

(** *** Starting a job *)

(** What a start leaves of the job: one more running task, or the job as it was. *)
Definition start_effect (now : Time) (j j' : Job) (ok : bool) : Prop :=
  ID j' = ID j ∧ obj j' = obj j ∧
  if ok then State j' = StateRunning ∧
             ∃ pid, SessionID j' = pid ∧ Tasks j' = Tasks j ++ [mkTask 0 (ID j) TaskRunning pid pid 0 now zero_time]
  else State j' = State j ∧ Tasks j' = Tasks j.

Lemma StartJob_effect c now j w : start_effect now j (StartJob os c now j w).1.1 (StartJob os c now j w).1.2.
Proof.
  unfold StartJob, mbind, Act_bind, mret, Act_ret, act, do, ask, persistSession, skip. cbv zeta.
  repeat (case_match; simplify_eq/=; try done);
    repeat split; eauto; destruct (decide (Script j = "")); done.
Qed.

Lemma commit_effect c now j w : start_effect now j (commit_job os c now j w).1.1 (commit_job os c now j w).1.2.
Proof.
  unfold commit_job, mbind, Act_bind, mret, Act_ret.
  repeat (case_match; simplify_eq/=; try done); try apply StartJob_effect.
Qed.

Lemma committed_same user j : same_job j (committed os user j).
Proof. unfold committed. by repeat case_match. Qed.

(** A job that is not in the table enters it. *)
Lemma add_ok d j :
  jobs d !! ID j = None → obj j = next_obj d → Tasks j = [] → State j ≠ StateRunning → mom_ok d →
  mom_ok (d <| jobs := <[ID j := j]> (jobs d) |> <| next_obj := S (next_obj d) |>).
Proof.
  intros Hn Ho Ht Hr [I1 I2 I3 I4 I5 I6 I7 I8]. split; cbn [jobs waits next_obj set_field]; intros *.
  - rewrite lookup_insert_Some. intros [[<- <-]|[_ Hk]]; [done|by apply I1].
  - rewrite lookup_insert_Some. intros [[<- <-]|[_ Hk%I2]]; lia.
  - rewrite !lookup_insert_Some. intros [[<- <-]|[_ H1]] [[<- <-]|[_ H2]] He; [done| | |by apply (I3 _ _ _ _ H1 H2)].
    + apply I2 in H2. lia.
    + apply I2 in H1. lia.
  - rewrite lookup_insert_Some. intros [[<- <-]|[_ Hk]]; [by rewrite Ht, lookup_nil|by apply I4].
  - rewrite lookup_insert_Some. intros Hin [[_ <-]|[_ Hk]] He; [apply I6 in Hin; lia|by apply I5].
  - intros Hin%I6. lia.
  - done.
  - rewrite lookup_insert_Some. intros [[<- <-]|[_ Hk]]; [done|by apply I8].
Qed.

(** A job starts: it gets a task and a goroutine that waits for it. *)
Lemma start_ok d now j j' :
  jobs d !! ID j = Some j → start_effect now j j' true → mom_ok d →
  mom_ok ((put_job j' d) <| waits := waits d ++ [mkWait (ID j') (obj j') (length (Tasks j))] |>).
Proof.
  intros Hj (Hi & Ho & Hs & pid & _ & Ht) [I1 I2 I3 I4 I5 I6 I7 I8]. rewrite Hi, Ho. unfold put_job.
  assert (mkWait (ID j) (obj j) (length (Tasks j)) ∉ waits d) as Hnew.
  { intros Hin. apply (I5 _ _ Hin) in Hj; [|done]. cbn in Hj. lia. }
  split; cbn [jobs waits next_obj set_field]; rewrite ?Hi; intros *; rewrite ?lookup_insert_Some.
  - intros [[<- <-]|[_ Hk]]; [done|by apply I1].
  - intros [[<- <-]|[_ Hk]]; [rewrite Ho; by apply (I2 _ _ Hj)|by apply (I2 _ _ Hk)].
  - intros [[<- <-]|[N1 H1]] [[<- <-]|[N2 H2]]; rewrite ?Ho; [done| | |by apply (I3 _ _ _ _ H1 H2)].
    + intros He. by apply (I3 _ _ _ _ Hj H2).
    + intros He. by apply (I3 _ _ _ _ H1 Hj).
  - intros [[<- <-]|[Hk Hl]] Hti.
    + rewrite Ho. rewrite Ht in Hti. apply lookup_app_Some in Hti as [Hti|[Hle Hti]].
      * rewrite (I4 _ _ _ _ Hj Hti). apply lookup_lt_Some in Hti.
        destruct (decide (_ ∈ waits d)); [rewrite decide_True by set_solver; done|].
        rewrite decide_False; [done|]. intros [?|[= ?]%list_elem_of_singleton]%elem_of_app; [done|lia].
      * apply list_lookup_singleton_Some in Hti as [Hz <-]. rewrite decide_True; [done|].
        apply elem_of_app. right. apply list_elem_of_singleton. f_equal. lia.
    + rewrite (I4 _ _ _ _ Hl Hti). destruct (decide (_ ∈ waits d)); [rewrite decide_True by set_solver; done|].
      rewrite decide_False; [done|]. intros [?|[= ?]%list_elem_of_singleton]%elem_of_app; done.
  - intros Hin [[Hw <-]|[Hk Hl]] He.
    + rewrite Ht, length_app. cbn. apply elem_of_app in Hin as [Hin| ->%list_elem_of_singleton]; [|cbn; lia].
      rewrite Ho in He. rewrite Hw in Hj. specialize (I5 _ _ Hin Hj He). lia.
    + apply elem_of_app in Hin as [Hin| ->%list_elem_of_singleton]; [by apply I5|done].
  - intros [Hin| ->%list_elem_of_singleton]%elem_of_app; [by apply I6|]. cbn. by apply (I2 _ _ Hj).
  - apply NoDup_app. split_and!; [done| |apply NoDup_singleton]. intros w Hw ->%list_elem_of_singleton. done.
  - intros [[<- <-]|[Hk Hl]] Hst.
    + rewrite Ht, Ho, length_app. cbn. split; [lia|]. apply elem_of_app. right. apply list_elem_of_singleton. f_equal. lia.
    + destruct (I8 _ _ Hl Hst). split; [done|]. by apply elem_of_app; left.
Qed.

(** *** The end of a process *)

Lemma elem_remove1 d w x : mom_ok d → w ∈ waits d → x ∈ remove1 w (waits d) ↔ x ∈ waits d ∧ x ≠ w.
Proof.
  intros Hok Hin. pose proof (mk_nodup d Hok) as I7. pose proof (remove1_perm w (waits d) Hin) as Hp.
  rewrite Hp in I7. apply NoDup_cons in I7 as [Hni _].
  assert (x ∈ waits d ↔ x ∈ w :: remove1 w (waits d)) as Hx by by apply elem_of_Permutation_proper.
  rewrite Hx, elem_of_cons. split; [intros Hy; split; [by right|by intros ->]|tauto].
Qed.

(** The goroutine of an object that has left the table. *)
Lemma gone_ok w d :
  w ∈ waits d → (∀ j, jobs d !! w_id w = Some j → obj j ≠ w_obj w) → mom_ok d →
  mom_ok (d <| waits := remove1 w (waits d) |>).
Proof.
  intros Hin Hno Hok. pose proof (λ x, elem_remove1 d w x Hok Hin) as Hrem. destruct Hok as [I1 I2 I3 I4 I5 I6 I7 I8].
  assert (∀ id j i, jobs d !! id = Some j → mkWait id (obj j) i ≠ w) as Hne by (intros id j i Hj <-; by apply (Hno _ Hj)).
  split; cbn [jobs waits next_obj set_field]; [done|done|done| | | | | ].
  - intros id j i t Hj Ht. rewrite (I4 _ _ _ _ Hj Ht). apply decide_ext. rewrite Hrem. naive_solver.
  - intros x j [Hx _]%Hrem. by apply I5.
  - intros x [Hx _]%Hrem. by apply I6.
  - by apply remove1_NoDup.
  - intros id j Hj Hs. destruct (I8 _ _ Hj Hs). split; [done|]. rewrite Hrem. naive_solver.
Qed.

Lemma end_ok now e w d : w ∈ waits d → mom_ok d → mom_ok (proc_ended now e w d).
Proof.
  intros Hin Hok. unfold proc_ended. cbv zeta. cbn [jobs set_field].
  destruct (jobs d !! w_id w) as [j|] eqn:Hj; [|apply gone_ok; [done| |done]; by rewrite Hj].
  destruct (decide (obj j = w_obj w)) as [Ho|Ho]; [|apply gone_ok; [done| |done]; rewrite Hj; by intros ? [= <-]].
  pose proof (λ x, elem_remove1 d w x Hok Hin) as Hrem. destruct Hok as [I1 I2 I3 I4 I5 I6 I7 I8].
  pose proof (I1 _ _ Hj) as Hid.
  assert (∀ id k i, jobs d !! id = Some k → id ≠ w_id w → mkWait id (obj k) i ≠ w) as Hne.
  { intros id k i Hk Hn <-. done. }
  set (j' := waitForCompletion now e (w_task w) j).
  assert (ID j' = w_id w ∧ obj j' = obj j ∧ State j' = StateExiting ∧
          ∃ st, Tasks j' = alter (end_task now st) (w_task w) (Tasks j)) as (Hi' & Ho' & Hs' & st & Ht').
  { unfold j', waitForCompletion. by destruct e; eauto. }
  unfold put_job. rewrite Hi'.
  split; cbn [jobs waits next_obj set_field]; intros *; rewrite ?lookup_insert_Some.
  - intros [[<- <-]|[_ Hk]]; [done|by apply I1].
  - intros [[<- <-]|[_ Hk]]; [rewrite Ho'; by apply (I2 _ _ Hj)|by apply (I2 _ _ Hk)].
  - intros [[<- <-]|[N1 H1]] [[<- <-]|[N2 H2]]; rewrite ?Ho'; [done| | |by apply (I3 _ _ _ _ H1 H2)].
    + intros He. by apply (I3 _ _ _ _ Hj H2).
    + intros He. by apply (I3 _ _ _ _ H1 Hj).
  - intros [[<- <-]|[Hk Hl]] Hti.
    + rewrite Ht', list_lookup_alter in Hti. rewrite Ho'. case_decide as Hiw.
      * subst i. destruct (Tasks j !! w_task w) as [t0|]; [|done]. injection Hti as <-. cbn [t_State end_task set_field].
        rewrite decide_False; [done|]. rewrite Hrem, Ho. intros [_ Hc]. by destruct w.
      * rewrite (I4 _ _ _ _ Hj Hti). apply decide_ext. rewrite Hrem. split; [|tauto]. intros Hx. split; [done|]. intros Hc. by rewrite <- Hc in Hiw.
    + rewrite (I4 _ _ _ _ Hl Hti). apply decide_ext. rewrite Hrem. naive_solver.
  - intros [Hx _]%Hrem [[Hw <-]|[Hk Hl]] He; [|by apply I5]. rewrite Ht', length_alter. apply I5; [done|by rewrite <- Hw|congruence].
  - intros [Hx _]%Hrem. by apply I6.
  - by apply remove1_NoDup.
  - intros [[<- <-]|[Hk Hl]] Hs; [by rewrite Hs' in Hs|]. destruct (I8 _ _ Hl Hs). split; [done|]. rewrite Hrem. naive_solver.
Qed.

(** *** Requests *)

Lemma applyJobAttribute_new j a :
  let j' := applyJobAttribute j a in
  ID j' = ID j ∧ obj j' = obj j ∧ Tasks j' = Tasks j ∧ State j' = State j.
Proof. cbv zeta. unfold applyJobAttribute. apply switch_ind; [|done]. repeat (apply Forall_cons; split; [done|]). by apply Forall_nil. Qed.

Lemma applyJobAttributes_new attrs j :
  let j' := foldl applyJobAttribute j attrs in
  ID j' = ID j ∧ obj j' = obj j ∧ Tasks j' = Tasks j ∧ State j' = State j.
Proof.
  revert j. induction attrs as [|a attrs IH]; intros j; [done|]. cbn [foldl].
  destruct (IH (applyJobAttribute j a)) as (-> & -> & -> & ->). apply applyJobAttribute_new.
Qed.

Lemma handleQueueJob_ok now user id dest attrs d : mom_ok d → mom_ok (handleQueueJob now user id dest attrs d).1.1.
Proof.
  intros Hok. unfold handleQueueJob. cbv zeta. set (j0 := set_field _ _).
  destruct (applyJobAttributes_new attrs j0) as (Hi & Ho & Ht & Hs).
  unfold AddJob. rewrite Hi. destruct (jobs d !! ID j0) eqn:Hl.
  - apply (same_ok d); cbn [jobs waits next_obj set_field m_err fst]; [done|done|lia|done].
  - cbn [fst]. rewrite <- Hi. apply add_ok; [by rewrite Hi|done|done|by rewrite Hs|done].
Qed.

Lemma handleCommit_ok now user id d : mom_ok d → mom_ok (handleCommit os now user id d).1.1.
Proof.
  intros Hok. unfold handleCommit, GetJob. destruct (jobs d !! id) as [j|] eqn:Hj; [|done].
  pose proof (mk_ids d Hok _ _ Hj) as Hid. rewrite run_act_eq.
  pose proof (commit_effect (cfg d) now (committed os user j) (world d)) as He.
  destruct (commit_job os (cfg d) now (committed os user j) (world d)) as [[j' ok] w]. cbn [fst snd] in *.
  pose proof (committed_same user j) as (Hi & Ho & Ht & Hs).
  destruct ok.
  - apply (start_ok (d <| world := w |>) now j j'); [by cbn; rewrite Hid| |].
    + destruct He as (Hi' & Ho' & Hs' & pid & Hp & Ht'). split_and!; [congruence|congruence|done|].
      exists pid. split; [done|]. rewrite Ht', Ht, Hi. done.
    + by apply (same_ok d).
  - cbn [m_err fst]. apply (same_ok d); [|done|done|done]. unfold put_job. cbn [jobs set_field].
    destruct He as (Hi' & Ho' & Hs' & Ht'). rewrite Hi', Hi, Hid. apply (same_jobs_insert _ _ j); [done|].
    split_and!; [congruence|congruence|congruence|]. by rewrite Hs'.
Qed.

Lemma handleDeleteJob_ok now id d : mom_ok d → mom_ok (handleDeleteJob now id d).1.1.
Proof.
  intros Hok. unfold handleDeleteJob, GetJob. destruct (jobs d !! id) as [j|] eqn:Hj; [|done]. cbn [m_ok fst]. rewrite run_act_eq.
  apply (same_ok d); [|by destruct (IsRunning j)|by destruct (IsRunning j)|done].
  match goal with |- same_jobs _ (jobs (set_field _ ?x)) => assert (jobs x = jobs d) as Hx by by destruct (IsRunning j) end.
  cbn [jobs set_field]. rewrite Hx. unfold MarkJobExiting. by apply same_jobs_alter.
Qed.

Lemma handlers_ok now (h : RequestHeader) st s st' k s' :
  dispatchRequest os GetNodeStatus now h st s = (Some (st', k), s') → mom_ok st.1 → mom_ok st'.1.
Proof.
  assert (∀ A (read : Reader A) (run : A → Daemon → MHandled), (∀ a d, mom_ok d → mom_ok (run a d).1.1) →
    handled read run st s = (Some (st', k), s') → mom_ok st.1 → mom_ok st'.1) as Hh.
  { intros A read run Hrun. unfold handled. destruct (read s) as [[a|?|] t]; [|by intros [= <- _ _]|done].
    intros E Hok. specialize (Hrun a st.1 Hok). destruct (run a st.1) as [[d r] b]. cbn [fst] in Hrun. cbv zeta in E.
    destruct (negb b); [by injection E as <- _ _|].
    destruct (ReadReqExtend t) as [[?|?|] u]; by inversion E; subst. }
  unfold dispatchRequest. cbv zeta.
  repeat match goal with |- context [if ?b then _ else _] => destruct b end;
    try (apply Hh; intros *); try done; try (intros [= <- <- <-]; done).
  - apply handleQueueJob_ok.
  - intros Hok. unfold handleJobScript. apply (same_ok d); try done. by apply same_jobs_alter.
  - unfold handleReadyToCommit. by destruct (GetJob _ _).
  - apply handleCommit_ok.
  - apply handleDeleteJob_ok.
  - unfold handleSignalJob. destruct (GetJob _ _) as [j|]; [|done]. cbn [m_ok fst]. destruct (IsRunning j); [|done].
    intros Hok. rewrite run_act_eq. cbn [snd]. by apply (same_ok d).
  - unfold handleMomStatus. cbv zeta. by repeat case_match.
  - unfold handleHoldJob. destruct (GetJob _ _); [|done]. intros Hok. apply (same_ok d); try done. by apply same_jobs_alter.
  - intros [= <- _ _] Hok. by apply (same_ok st.1).
Qed.

(** *** Polls *)

Lemma poll_usage_same now w j : same_job j (poll_usage os now w j).
Proof. done. Qed.

(** What a poll does to the jobs it looks at, and to nothing else. *)
Record polled (now : Time) (l : list Job) (d d' : Daemon) : Prop := {
  pd_cfg : cfg d' = cfg d;
  pd_waits : waits d' = waits d;
  pd_timers : timers d' = timers d;
  pd_next : next_obj d' = next_obj d;
  pd_obits : obits (world d') = obits (world d) ++ concat (obits_of (cfg d) <$> filter (λ j, has_exited j = true) l);
  pd_other : ∀ id, id ∉ ID <$> l → jobs d' !! id = jobs d !! id;
  pd_done : ∀ j, j ∈ l → has_exited j = true → jobs d' !! ID j = None;
  pd_kept : ∀ j, j ∈ l → has_exited j = false → ∃ w, jobs d' !! ID j = Some (poll_usage os now w j);
}.

Lemma poll_fold now l d :
  NoDup (ID <$> l) → (∀ j, j ∈ l → jobs d !! ID j = Some j) → polled now l d (foldl (poll_job os now) d (ID <$> l)).
Proof.
  revert d. induction l as [|j l IH]; intros d Hn Hl.
  { split; cbn; [done..|by rewrite app_nil_r|done|by intros ? ?%not_elem_of_nil|by intros ? ?%not_elem_of_nil]. }
  cbn [fmap list_fmap] in Hn. apply NoDup_cons in Hn as [Hj Hn]. cbn [fmap list_fmap foldl].
  pose proof (Hl j (list_elem_of_here _ _)) as Hd. set (d1 := poll_job os now d (ID j)).
  assert (cfg d1 = cfg d ∧ waits d1 = waits d ∧ timers d1 = timers d ∧ next_obj d1 = next_obj d ∧
          obits (world d1) = obits (world d) ++ (if has_exited j then obits_of (cfg d) j else []) ∧
          (∀ id, id ≠ ID j → jobs d1 !! id = jobs d !! id) ∧
          jobs d1 !! ID j = if has_exited j then None else Some (poll_usage os now (world d) j)) as (C & W & T & N & O & J1 & J2).
  { unfold d1, poll_job. rewrite Hd. destruct (has_exited j).
    - unfold processExitedJob. cbv zeta. rewrite run_act_eq. cbn [snd cfg waits timers next_obj world jobs set_field].
      unfold RemoveJob, MarkJobComplete.
      split_and!; [done..|apply finish_job_obits| |by rewrite lookup_delete_eq].
      intros id Hid. by rewrite lookup_delete_ne, lookup_alter_ne by done.
    - unfold put_job. cbn [cfg waits timers next_obj world jobs set_field]. rewrite app_nil_r.
      change (ID (poll_usage os now (world d) j)) with (ID j).
      split_and!; [done..| |by rewrite lookup_insert_eq]. intros id Hid. by rewrite lookup_insert_ne. }
  destruct (IH d1) as [C1 W1 T1 N1 O1 K1 K2 K3]; [done| |].
  { intros k Hk. rewrite J1; [by apply Hl; right|]. intros He. apply Hj. rewrite <- He. by apply list_elem_of_fmap_2. }
  split.
  - congruence.
  - congruence.
  - congruence.
  - congruence.
  - rewrite O1, O, C, <- app_assoc. f_equal. cbn [filter list_filter]. destruct (has_exited j); [by rewrite decide_True|].
    by rewrite decide_False.
  - intros id. cbn [fmap list_fmap]. rewrite not_elem_of_cons. intros [Hi Hni]. rewrite K1 by done. by apply J1.
  - intros k [->|Hk]%elem_of_cons He; [rewrite K1 by done; by rewrite J2, He|by apply K2].
  - intros k [->|Hk]%elem_of_cons He; [rewrite K1 by done; rewrite J2, He; by eexists|by apply K3].
Qed.

Lemma pollJobs_polled now d : mom_ok d → polled now (RunningJobs (jobs d)) d (pollJobs os now d).
Proof.
  intros Hok. apply poll_fold.
  - unfold RunningJobs. pose proof (NoDup_AllJobs (jobs d) (mk_ids d Hok)) as Hn.
    eapply sublist_NoDup; [exact Hn|]. apply fmap_sublist, sublist_filter.
  - intros j Hj. by apply (elem_RunningJobs (jobs d) j (mk_ids d Hok)).
Qed.

Lemma pollJobs_ok now d : mom_ok d → mom_ok (pollJobs os now d).
Proof.
  intros Hok. destruct (pollJobs_polled now d Hok) as [C W T N O K1 K2 K3].
  apply (same_ok d); [|done|by rewrite N|done]. intros id j' Hj'.
  destruct (decide (id ∈ ID <$> RunningJobs (jobs d))) as [Hin|Hin]; [|rewrite K1 in Hj' by done; by exists j'].
  apply list_elem_of_fmap in Hin as (j & -> & Hj). pose proof (proj1 (elem_RunningJobs _ j (mk_ids d Hok)) Hj) as [Hl _].
  exists j. split; [done|]. destruct (has_exited j) eqn:He; [by rewrite (K2 j Hj He) in Hj'|].
  destruct (K3 j Hj He) as [w Hw]. rewrite Hw in Hj'. injection Hj' as <-. apply poll_usage_same.
Qed.

(** *** Requests drop no job and send no obituary *)

Definition keeps (d d' : Daemon) : Prop :=
  obits (world d') = obits (world d) ∧ ∀ id, is_Some (jobs d !! id) → is_Some (jobs d' !! id).

#[export] Instance keeps_refl : Reflexive keeps.
Proof. by intros d. Qed.

Lemma keeps_alter f id d : keeps d (d <| jobs := alter f id (jobs d) |>).
Proof. split; [done|]. intros k. cbn [jobs set_field]. by rewrite lookup_alter_is_Some. Qed.

Lemma keeps_run {A} (m : Act A) `{!Quiet m} d : keeps d (run_act m d).2.
Proof. rewrite run_act_eq. split; [|done]. apply (quiet (m := m)). Qed.

Lemma keeps_insert id j d : keeps d (d <| jobs := <[id := j]> (jobs d) |>).
Proof.
  split; [done|]. intros k. cbn [jobs set_field].
  destruct (decide (k = id)) as [->|]; [rewrite lookup_insert_eq; eauto|by rewrite lookup_insert_ne].
Qed.

Lemma requests_keep now (h : RequestHeader) st s st' k s' :
  dispatchRequest os GetNodeStatus now h st s = (Some (st', k), s') → keeps st.1 st'.1.
Proof.
  assert (∀ A (read : Reader A) (run : A → Daemon → MHandled), (∀ a d, keeps d (run a d).1.1) →
    handled read run st s = (Some (st', k), s') → keeps st.1 st'.1) as Hh.
  { intros A read run Hrun. unfold handled. destruct (read s) as [[a|?|] t]; [|by intros [= <- _ _]|done].
    intros E. specialize (Hrun a st.1). destruct (run a st.1) as [[d r] b]. cbn [fst] in Hrun. cbv zeta in E.
    destruct (negb b); [by injection E as <- _ _|].
    destruct (ReadReqExtend t) as [[?|?|] u]; by inversion E; subst. }
  unfold dispatchRequest. cbv zeta.
  repeat match goal with |- context [if ?b then _ else _] => destruct b end;
    try (apply Hh; intros *); try done; try (intros [= <- <- <-]; done).
  - unfold handleQueueJob, AddJob. cbv zeta. destruct (jobs d !! _); [done|]. apply (keeps_insert _ _ d).
  - apply keeps_alter.
  - unfold handleReadyToCommit. by destruct (GetJob _ _).
  - unfold handleCommit. destruct (GetJob _ _) as [j|]; [|done]. rewrite run_act_eq.
    pose proof (quiet (m := commit_job os (cfg d) now (committed os (DisMessage.User h) j)) (world d)) as Hq.
    destruct (commit_job _ _ _ _ _) as [[j' ok] w]. cbn [fst snd] in *.
    destruct ok; (split; [done|]); apply (keeps_insert _ _ d).
  - unfold handleDeleteJob. destruct (GetJob _ _) as [j|]; [|done]. cbn [m_ok fst]. destruct (IsRunning j); [|apply keeps_alter].
    destruct (keeps_run (KillJob j SIGTERM) d) as [Hq _]. split; [done|]. rewrite run_act_eq. apply (keeps_alter _ _ d).
  - unfold handleSignalJob. destruct (GetJob _ _) as [j|]; [|done]. cbn [m_ok fst]. destruct (IsRunning j); [|done].
    by apply keeps_run; apply _.
  - unfold handleMomStatus. cbv zeta. by repeat case_match.
  - unfold handleHoldJob. destruct (GetJob _ _); [|done]. apply keeps_alter.
Qed.

(** ** Runs of the daemon *)

(** A step: a request, a poll, the end of a process, a timer, a status update, a reload. *)
Inductive mstep (d : Daemon) : Daemon → Prop :=
  | step_request now h out s st' k s' :
      dispatchRequest os GetNodeStatus now h (d, out) s = (Some (st', k), s') → mstep d st'.1
  | step_poll now : mstep d (pollJobs os now d)
  | step_end now e w : w ∈ waits d → mstep d (proc_ended now e w d)
  | step_timer t : t ∈ timers d → mstep d (timer_fires t d)
  | step_status : mstep d (sendStatusUpdates d)
  | step_reload text : mstep d (reloadConfig text d).

Inductive mreachable (c : Config) : Daemon → Prop :=
  | reach_start d : mom_start os c = Some d → mreachable c d
  | reach_step d d' : mreachable c d → mstep d d' → mreachable c d'.

Lemma timer_jobs t d : jobs (timer_fires t d) = jobs d ∧ waits (timer_fires t d) = waits d ∧ next_obj (timer_fires t d) = next_obj d ∧
  obits (world (timer_fires t d)) = obits (world d).
Proof.
  unfold timer_fires. cbv zeta. repeat case_match; try done. rewrite run_act_eq. cbn [snd jobs waits next_obj world set_field].
  split_and!; try done. apply (quiet (m := KillJob _ SIGKILL)).
Qed.

Lemma status_jobs d : jobs (sendStatusUpdates d) = jobs d ∧ waits (sendStatusUpdates d) = waits d ∧
  next_obj (sendStatusUpdates d) = next_obj d ∧ obits (world (sendStatusUpdates d)) = obits (world d).
Proof.
  unfold sendStatusUpdates. rewrite run_act_eq. cbn [snd jobs waits next_obj world set_field]. split_and!; try done.
  apply (quiet (m := for_each (λ srv, do (SendStatus srv)) _)).
Qed.

Lemma reload_jobs text d : jobs (reloadConfig text d) = jobs d ∧ waits (reloadConfig text d) = waits d ∧
  next_obj (reloadConfig text d) = next_obj d ∧ world (reloadConfig text d) = world d.
Proof. unfold reloadConfig. by destruct (Load _ _) as [c []]. Qed.

Lemma daemon_step_ok d d' : mom_ok d → mstep d d' → mom_ok d'.
Proof.
  intros Hok [now h out s st' k s' E|now|now e w Hw|t Ht| |text].
  - by apply (handlers_ok _ _ _ _ _ _ _ E).
  - by apply pollJobs_ok.
  - by apply end_ok.
  - destruct (timer_jobs t d) as (J & W & N & _). apply (same_ok d); rewrite ?J, ?N; done.
  - destruct (status_jobs d) as (J & W & N & _). apply (same_ok d); rewrite ?J, ?N; done.
  - destruct (reload_jobs text d) as (J & W & N & _). apply (same_ok d); rewrite ?J, ?N; done.
Qed.

Lemma reachable_mom_ok c d : mreachable c d → mom_ok d.
Proof.
  induction 1 as [d Hd|d d' _ IH Hs]; [|by apply (daemon_step_ok d)].
  unfold mom_start in Hd. rewrite run_act_eq in Hd. destruct (mom_run os c _) as [[] w]; [|done].
  injection Hd as <-. apply (same_ok (New c)); try done. apply New_ok.
Qed.

End steps.

(** ** Theorems *)

(** A machine for the witnesses: everything succeeds, the n-th action gives pid 100 + n. *)
Definition easy_os : Os :=
  mkOs (λ _ _, true) (λ w, Some (100 + Z.of_nat (length w))) (λ _ _, false) (λ _ _, true) (λ _ _, NotExist)
    (λ _ _, Some []) (λ _ _, None) "n1.cluster" "/root" [] 77.
Definition mom_config : Config := NewDefaultConfig <| PBSServers := ["srv"] |>.
Definition mom_idle : Daemon := default (New mom_config) (mom_start easy_os mom_config).
Definition mom_time : Time := time_Unix 1700000000.
(** A job that was sent, got its script, was committed and runs as process 112. *)
Definition mom_sent : Daemon :=
  (handleQueueJob mom_time "srv" "7.srv" "batch" [mkSvrAttr "Job_Name" "" "test"; mkSvrAttr "euser" "" "ann"] mom_idle).1.1.
Definition mom_ready : Daemon := (handleJobScript "7.srv" "sleep 60" mom_sent).1.1.
Definition mom_busy : Daemon := (handleCommit easy_os mom_time "srv" "7.srv" mom_ready).1.1.

(** C7: in every run of the daemon, on a machine where anything can fail, each task of a job
    in the table either runs and has a goroutine waiting for its process, or has exited; a
    running job has such a task, so no running job is forgotten, and a goroutine can only
    ever change the object it was started for. *)
Theorem mom_invariant `{MapRange} os GetNodeStatus c d : mreachable os GetNodeStatus c d → mom_ok d.
Proof. apply reachable_mom_ok. Qed.

Lemma easy_request d h s d' out :
  dispatchRequest easy_os (λ _, None) mom_time h (d, "") s = (Some ((d', out), true), "") →
  mreachable easy_os (λ _, None) mom_config d → mreachable easy_os (λ _, None) mom_config d'.
Proof. intros E Hd. eapply reach_step; [exact Hd|]. by apply (step_request _ _ d _ _ _ _ _ _ _ E). Qed.

Lemma busy_reachable : mreachable easy_os (λ _, None) mom_config mom_busy.
Proof.
  apply (easy_request mom_ready (mkHeader 2 2 BatchCommit "srv") (WriteString "7.srv" +:+ WriteUint 0) mom_busy
    (WriteReply (SendTextReply "112"))); [vm_compute; reflexivity|].
  apply (easy_request mom_sent (mkHeader 2 2 BatchJobScript "srv")
    (WriteUint 0 +:+ WriteUint 0 +:+ WriteUint 8 +:+ WriteString "7.srv" +:+ WriteString "sleep 60" +:+ WriteUint 0) mom_ready
    (WriteReply SendOkReply)); [vm_compute; reflexivity|].
  apply (easy_request mom_idle (mkHeader 2 2 BatchQueueJob "srv")
    (WriteString "7.srv" +:+ WriteString "batch" +:+
     WriteSvrAttrl [mkAttr "Job_Name" false "" "test" 2; mkAttr "euser" false "" "ann" 2] +:+ WriteUint 0) mom_sent
    (WriteReply (SendJobIDReply ReplyChoiceQueue "7.srv"))); [vm_compute; reflexivity|].
  apply reach_start. vm_compute. reflexivity.
Qed.

Lemma mom_invariant_witness : mom_ok mom_busy ∧ (State <$> jobs mom_busy !! "7.srv", waits mom_busy) = (Some 4, [mkWait "7.srv" 0 0]).
Proof. split; [apply (mom_invariant easy_os (λ _, None) mom_config), busy_reachable|vm_compute; reflexivity]. Defined.

(** C5: the account of the obituaries: whatever step the daemon makes, there is a list of
    jobs, each of them in the table and with its first process exited, such that exactly
    these leave the table, and for each of them exactly one attempt is made to send its
    obituary to each server, with the job's exit status and resource usage; no other
    obituary is tried.  The job leaves the table whether or not the attempts succeed. *)
Theorem mom_step_accounts `{MapRange} os GetNodeStatus d d' :
  mom_ok d → mstep os GetNodeStatus d d' →
  ∃ gone, Forall (λ j, jobs d !! ID j = Some j ∧ has_exited j = true) gone ∧ NoDup (ID <$> gone) ∧
    obits (world d') = obits (world d) ++ concat (obits_of (cfg d) <$> gone) ∧
    ∀ id j, jobs d !! id = Some j → jobs d' !! id = None ↔ j ∈ gone.
Proof.
  intros Hok Hs.
  assert (keeps d d' → ∃ gone, Forall (λ j, jobs d !! ID j = Some j ∧ has_exited j = true) gone ∧ NoDup (ID <$> gone) ∧
    obits (world d') = obits (world d) ++ concat (obits_of (cfg d) <$> gone) ∧
    ∀ id j, jobs d !! id = Some j → jobs d' !! id = None ↔ j ∈ gone) as Hk.
  { intros [Ho Hj]. exists []. split_and!; [done|constructor|by rewrite app_nil_r|]. intros id j Hl.
    rewrite elem_of_nil. split; [|done]. intros Hn. destruct (Hj id) as [x Hx]; [eauto|congruence]. }
  destruct Hs as [now h out s st' k s' E|now|now e w Hw|t Ht| |text].
  - apply Hk. exact (requests_keep _ _ _ _ _ _ _ _ _ E).
  - destruct (pollJobs_polled os now d Hok) as [C W T N O K1 K2 K3].
    exists (filter (λ j, has_exited j = true) (RunningJobs (jobs d))). split_and!.
    + apply Forall_forall. intros j [He Hin]%list_elem_of_filter. split; [|done].
      by apply (elem_RunningJobs (jobs d) j (mk_ids d Hok)).
    + pose proof (NoDup_AllJobs (jobs d) (mk_ids d Hok)) as Hn. eapply sublist_NoDup; [exact Hn|].
      apply fmap_sublist. etrans; [apply sublist_filter|]. apply sublist_filter.
    + done.
    + intros id j Hl. rewrite list_elem_of_filter. pose proof (mk_ids d Hok _ _ Hl) as Hid. split.
      * intros Hn. destruct (decide (id ∈ ID <$> RunningJobs (jobs d))) as [Hin|Hin]; [|rewrite K1 in Hn by done; congruence].
        apply list_elem_of_fmap in Hin as (j1 & Hi1 & Hj1).
        pose proof (proj1 (elem_RunningJobs _ j1 (mk_ids d Hok)) Hj1) as [Hl1 _]. rewrite <- Hi1 in Hl1.
        rewrite Hl in Hl1. injection Hl1 as <-. split; [|done]. destruct (has_exited j) eqn:He; [done|].
        destruct (K3 j Hj1 He) as [w Hw]. congruence.
      * intros [He Hj]. rewrite <- Hid. by apply K2.
  - apply Hk. unfold proc_ended. cbv zeta. cbn [jobs set_field]. repeat case_match; try done. apply (keeps_insert _ _ d).
  - apply Hk. destruct (timer_jobs t d) as (J & _ & _ & O). split; [done|]. by rewrite J.
  - apply Hk. destruct (status_jobs d) as (J & _ & _ & O). split; [done|]. by rewrite J.
  - apply Hk. destruct (reload_jobs text d) as (J & _ & _ & O). split; [by rewrite O|]. by rewrite J.
Qed.

(** The process of the job has ended with code 3. *)
Definition mom_ended : Daemon := proc_ended (mom_time + 90 * Second) (Exited 3) (mkWait "7.srv" 0 0) mom_busy.

Lemma ended_ok : mom_ok mom_ended.
Proof. apply end_ok; [|by apply (reachable_mom_ok easy_os (λ _, None) mom_config), busy_reachable]. vm_compute. constructor. Qed.

Lemma mom_step_accounts_witness :
  ∃ gone, Forall (λ j, jobs mom_ended !! ID j = Some j ∧ has_exited j = true) gone ∧ NoDup (ID <$> gone) ∧
    obits (world (pollJobs easy_os mom_time mom_ended)) = obits (world mom_ended) ++ concat (obits_of (cfg mom_ended) <$> gone) ∧
    ∀ id j, jobs mom_ended !! id = Some j → jobs (pollJobs easy_os mom_time mom_ended) !! id = None ↔ j ∈ gone.
Proof. apply (mom_step_accounts easy_os (λ _, None) mom_ended (pollJobs easy_os mom_time mom_ended)); [apply ended_ok|apply step_poll]. Defined.

(** C6: when the first process of a job of the table ends, in whatever way, and the daemon
    then makes any steps that leave the job's record as it is (requests for other jobs,
    ends of their processes, timers, reports), the poll after them tries to send an obituary
    with the status of that end and the time the job ran to every server, and the job leaves
    the table; this holds whatever the epilogue, the copies of files and the other jobs of
    the poll do, and whether or not the attempts succeed.  A request that changes the job's
    state in between is not covered. *)
Theorem end_is_reported `{MapRange} os GetNodeStatus now now' e id j d d2 :
  mom_ok d → jobs d !! id = Some j → mkWait id (obj j) 0 ∈ waits d →
  let d1 := proc_ended now e (mkWait id (obj j) 0) d in
  rtc (mstep os GetNodeStatus) d1 d2 → jobs d2 !! id = jobs d1 !! id →
  let d' := pollJobs os now' d2 in
  jobs d' !! id = None ∧
  ∀ srv, srv ∈ PBSServers (cfg d2) →
    SendObit srv id (exit_status e)
      (FormatResourceUsed (j <| ResourceUse := (ResourceUse j) <| WallTime := Sub now (StartTime j) |> |>)) ∈ world d'.
Proof.
  intros Hok Hj Hw d1 Hsteps Hsame d'. pose proof (end_ok now e _ d Hw Hok) as Hok1. fold d1 in Hok1.
  pose proof (mk_ids d Hok _ _ Hj) as Hid. pose proof (mk_waits d Hok _ _ Hw Hj eq_refl) as Hlen. cbn in Hlen.
  set (j1 := waitForCompletion now e 0 j).
  assert (jobs d1 !! id = Some j1) as Hj1.
  { unfold d1, proc_ended. cbv zeta. cbn [jobs set_field w_id w_obj w_task]. rewrite Hj, decide_True by done.
    unfold put_job. cbn [jobs cfg set_field]. fold j1.
    replace (ID j1) with id; [apply lookup_insert_eq|]. unfold j1, waitForCompletion. by destruct e. }
  assert (ID j1 = id ∧ State j1 = StateExiting ∧ has_exited j1 = true ∧ ExitStatus j1 = exit_status e ∧
          ResourceUse j1 = (ResourceUse j) <| WallTime := Sub now (StartTime j) |>) as (Hi & Hs & He & Hx & Hu).
  { unfold j1, waitForCompletion, has_exited. cbv zeta. destruct (Tasks j) as [|t ts] eqn:Ht; [cbn in Hlen; lia|].
    destruct e; cbn [Tasks set_field]; rewrite Ht; done. }
  assert (mom_ok d2) as Hok2.
  { clear -Hok1 Hsteps. induction Hsteps as [|x y z Hs _ IH]; [done|]. apply IH. by eapply daemon_step_ok. }
  rewrite Hj1 in Hsame.
  assert (j1 ∈ RunningJobs (jobs d2)) as Hr.
  { apply (elem_RunningJobs (jobs d2) j1 (mk_ids d2 Hok2)). rewrite Hi. auto. }
  destruct (pollJobs_polled os now' d2 Hok2) as [C W T N O K1 K2 K3]. fold d' in C, W, T, N, O, K1, K2, K3.
  split; [by rewrite <- Hi; apply K2|]. intros srv Hsrv.
  assert (SendObit srv id (exit_status e) (FormatResourceUsed j1) ∈ obits (world d')) as Hin.
  { rewrite O. apply elem_of_app. right. apply list_elem_of_In, in_concat. exists (obits_of (cfg d2) j1). split.
    - apply list_elem_of_In, list_elem_of_fmap_2, list_elem_of_filter. done.
    - apply list_elem_of_In. unfold obits_of. rewrite Hi, Hx. by apply (list_elem_of_fmap_2 (λ srv, SendObit srv _ _ _)). }
  apply list_elem_of_filter in Hin as [_ Hin]. unfold FormatResourceUsed in *. rewrite Hu in Hin. exact Hin.
Qed.

Lemma reported_walltime j : FormatResourceUsed j !! "walltime" = Some (formatDuration (WallTime (ResourceUse j))).
Proof. unfold FormatResourceUsed. by rewrite !lookup_insert_ne, lookup_insert_eq by done. Qed.

Lemma end_is_reported_witness :
  ∃ used, let d' := pollJobs easy_os (mom_time + 120 * Second)
            (proc_ended (mom_time + 90 * Second) (Exited 3) (mkWait "7.srv" 0 0) mom_busy) in
  jobs d' !! "7.srv" = None ∧ SendObit "srv" "7.srv" 3 used ∈ world d' ∧ used !! "walltime" = Some "00:01:30".
Proof.
  destruct (jobs mom_busy !! "7.srv") as [j|] eqn:Hj; [|vm_compute in Hj; discriminate Hj].
  assert (obj j = 0%nat ∧ StartTime j = mom_time) as [Ho Hs] by (vm_compute in Hj; injection Hj as <-; split; reflexivity).
  destruct (end_is_reported easy_os (λ _, None) (mom_time + 90 * Second) (mom_time + 120 * Second) (Exited 3) "7.srv" j mom_busy
    (proc_ended (mom_time + 90 * Second) (Exited 3) (mkWait "7.srv" (obj j) 0) mom_busy)) as [H1 H2].
  - apply (reachable_mom_ok easy_os (λ _, None) mom_config), busy_reachable.
  - exact Hj.
  - rewrite Ho. vm_compute. constructor.
  - apply rtc_refl.
  - reflexivity.
  - rewrite Ho in H1, H2. eexists. split; [exact H1|]. split; [apply (H2 "srv"); vm_compute; constructor|].
    etrans; [apply reported_walltime|]. cbn [ResourceUse set_field WallTime]. rewrite Hs. vm_compute. reflexivity.
Defined.

(** *** What goes wrong *)

(** A delete request sends SIGTERM and starts a timer that is to send SIGKILL five seconds
    later if the job still runs; but the request also sets the job's state to exiting, so the
    timer never finds it running: a process that ignores SIGTERM is never killed. *)
Theorem sigkill_never_sent now id j d :
  jobs d !! id = Some j → ID j = id →
  let d1 := (handleDeleteJob now id d).1.1 in
  (IsRunning j = true → (id, obj j) ∈ timers d1) ∧ world (timer_fires (id, obj j) d1) = world d1.
Proof.
  intros Hj Hid. cbv zeta. unfold handleDeleteJob, GetJob. rewrite Hj. cbn [m_ok fst]. rewrite run_act_eq, Hid.
  split; [intros ->; cbn; apply elem_of_app; right; by apply list_elem_of_singleton|].
  unfold timer_fires. cbv zeta. cbn [jobs timers set_field fst snd].
  match goal with |- context [MarkJobExiting _ _ _ (jobs ?x)] => assert (jobs x = jobs d) as Hx by by destruct (IsRunning j) end.
  rewrite Hx. unfold MarkJobExiting. rewrite lookup_alter, decide_True, Hj by done. cbn [fmap option_fmap option_map].
  destruct (decide _); reflexivity.
Qed.

(** A job whose start fails (a script that cannot be written, a prologue that fails, a
    missing input file) stays in the table: the daemon refuses the job when the server sends
    it again, also after any number of polls, so it can never run on this node. *)
Theorem failed_start_blocks `{MapRange} os now user id d polls now2 user2 dest attrs :
  mom_ok d → (∀ j, jobs d !! id = Some j → Tasks j = []) → is_Some (jobs d !! id) →
  (handleCommit os now user id d).2 = false →
  let d1 := foldl (λ d t, pollJobs os t d) (handleCommit os now user id d).1.1 polls in
  (handleQueueJob now2 user2 id dest attrs d1).1.2 = SendErrorReply PbsErrJobExist 0.
Proof.
  intros Hok Ht [j Hj] Hf. pose proof (mk_ids d Hok _ _ Hj) as Hid.
  assert (∃ j1, jobs (handleCommit os now user id d).1.1 !! id = Some j1 ∧ Tasks j1 = []) as Hc.
  { unfold handleCommit, GetJob in *. rewrite Hj in *. rewrite run_act_eq in *.
    pose proof (commit_effect os (cfg d) now (committed os user j) (world d)) as He.
    destruct (commit_job _ _ _ _ _) as [[j' ok] w]. cbn [fst snd] in *. destruct ok; [done|].
    destruct He as (Hi & Ho & _ & Hts). pose proof (committed_same os user j) as (Hi' & _ & Ht' & _).
    exists j'. unfold put_job. cbn [m_err fst jobs set_field]. rewrite Hi, Hi', Hid, lookup_insert_eq. split; [done|].
    rewrite Hts, Ht'. by apply Ht. }
  pose proof (handleCommit_ok os now user id d Hok) as Hok1. generalize dependent (handleCommit os now user id d).1.1.
  intros d0 (j1 & Hj1 & Ht1) Hok1. cbv zeta.
  assert (∃ j2, jobs (foldl (λ d t, pollJobs os t d) d0 polls) !! id = Some j2) as [j2 Hj2].
  { clear Hf. revert d0 j1 Hj1 Ht1 Hok1. induction polls as [|t polls IH]; intros d0 j1 Hj1 Ht1 Hok1; [eauto|]. cbn [foldl].
    destruct (pollJobs_polled os t d0 Hok1) as [_ _ _ _ _ K1 K2 K3]. pose proof (mk_ids d0 Hok1 _ _ Hj1) as Hi1.
    destruct (decide (id ∈ ID <$> RunningJobs (jobs d0))) as [(j3 & Hi3 & Hin)%list_elem_of_fmap|Hn].
    - pose proof (proj1 (elem_RunningJobs _ j3 (mk_ids d0 Hok1)) Hin) as [Hl _]. rewrite <- Hi3, Hj1 in Hl. injection Hl as <-.
      destruct (K3 j1 Hin) as [w Hw]; [by unfold has_exited; rewrite Ht1|]. rewrite Hi1 in Hw.
      apply (IH _ _ Hw); [done|by apply pollJobs_ok].
    - apply (IH _ j1); [by rewrite K1|done|by apply pollJobs_ok]. }
  unfold handleQueueJob, AddJob. cbv zeta.
  match goal with |- context [foldl applyJobAttribute ?j0 attrs] => destruct (applyJobAttributes_new attrs j0) as (-> & _) end.
  cbn [ID set_field NewJob]. by rewrite Hj2.
Qed.

(** A machine on which no process can be started. *)
Definition full_os : Os :=
  mkOs (λ _ _, true) (λ _, None) (λ _ _, false) (λ _ _, true) (λ _ _, NotExist) (λ _ _, Some []) (λ _ _, None) "n1" "/root" [] 77.

Lemma failed_start_blocks_witness :
  (handleQueueJob mom_time "srv" "7.srv" "batch" [] (foldl (λ d t, pollJobs full_os t d)
     (handleCommit full_os mom_time "srv" "7.srv" mom_ready).1.1 [mom_time; mom_time])).1.2 = SendErrorReply PbsErrJobExist 0.
Proof.
  apply (failed_start_blocks full_os mom_time "srv" "7.srv" mom_ready [mom_time; mom_time] mom_time "srv" "batch" []).
  - unfold mom_ready, handleJobScript. cbn [m_ok fst]. apply (same_ok mom_sent); [by apply same_jobs_alter|done|done|].
    apply handleQueueJob_ok. apply (reachable_mom_ok easy_os (λ _, None) mom_config), reach_start. vm_compute. reflexivity.
  - intros j Hj. vm_compute in Hj. injection Hj as <-. reflexivity.
  - vm_compute. by eexists.
  - vm_compute. reflexivity.
Defined.

(** A hold request between the end of the process and the next poll hides the job from all
    polls: its end is never reported and it stays in the table. *)
Example held_end_is_lost :
  let d := pollJobs easy_os mom_time (handleHoldJob mom_time "7.srv" mom_ended).1.1 in
  (obits (world d), bool_decide (is_Some (jobs d !! "7.srv"))) = ([], true).
Proof. vm_compute. reflexivity. Qed.

(** An obituary that cannot be sent is logged and the job is removed all the same: no later
    poll tries again. *)
Definition cut_off : Os :=
  mkOs (λ _ a, negb (is_obit a)) (λ w, Some (100 + Z.of_nat (length w))) (λ _ _, false) (λ _ _, true) (λ _ _, NotExist)
    (λ _ _, Some []) (λ _ _, None) "n1.cluster" "/root" [] 77.
Example lost_obituary :
  let d := pollJobs cut_off mom_time mom_ended in
  let d' := pollJobs cut_off mom_time d in
  jobs d !! "7.srv" = None ∧ LogObitFailed "srv" "7.srv" ∈ world d ∧ length (obits (world d)) = 1%nat ∧ world d' = world d.
Proof. split_and!; by_decide. Qed.

(** A second commit starts a second process of the job; when the first process ends, the
    poll reports the job and removes it, and the second process runs on without a job. *)
Example second_commit_orphans :
  let d := (handleCommit easy_os mom_time "srv" "7.srv" mom_busy).1.1 in
  let d := pollJobs easy_os mom_time (proc_ended mom_time (Exited 0) (mkWait "7.srv" 0 0) d) in
  (length (obits (world d)), waits d, bool_decide (is_Some (jobs d !! "7.srv"))) = (1%nat, [mkWait "7.srv" 0 1], false).
Proof. vm_compute. reflexivity. Qed.

(** ** Connections end *)

#[export] Instance shrinks_read_or {A} (x : A) (m : Reader A) : Shrinks m → Shrinks (read_or x m).
Proof. intros Hm s r s'. unfold read_or. destruct (m s) as [[a|e|] t] eqn:E; intros [= _ <-]; by apply Hm in E. Qed.
#[export] Instance shrinks_svrAttr : Shrinks read_svrAttr.
Proof. unfold read_svrAttr. apply _. Qed.
#[export] Instance shrinks_svrAttrl : Shrinks readSvrAttrl.
Proof. unfold readSvrAttrl. apply _. Qed.
#[export] Instance shrinks_skip : Shrinks SkipSvrAttrl.
Proof. unfold SkipSvrAttrl. apply _. Qed.

Lemma handled_len {A} (read : Reader A) `{!Shrinks read} run st s r s' :
  handled read run st s = (r, s') → (String.length s' ≤ String.length s)%nat.
Proof.
  unfold handled. destruct (read s) as [[a|e|] t] eqn:E; apply shrinks in E; [|by intros [= _ <-]..].
  destruct (run a st.1) as [[d reply] b]. cbv zeta. destruct (negb b); [by intros [= _ <-]|].
  destruct (ReadReqExtend t) as [[?|?|] u] eqn:E2; apply shrinks in E2; intros [= _ <-]; lia.
Qed.

Lemma mom_dispatch_len `{MapRange} os G now h st s r s' :
  dispatchRequest os G now h st s = (r, s') → (String.length s' ≤ String.length s)%nat.
Proof.
  unfold dispatchRequest. cbv zeta.
  repeat match goal with |- context [if ?b then _ else _] => destruct b end; try (intros [= _ <-]; done);
    apply handled_len; unfold read_queue, read_cred, read_script, read_delete, read_signal, read_modify; apply _.
Qed.

Lemma header_len s h t : ReadRequestHeader s = (Ok h, t) → (String.length t < String.length s)%nat.
Proof.
  unfold ReadRequestHeader, mbind, Reader_bind, wrap. intros E.
  destruct (ReadUint s) as [[p|?|] s0] eqn:E0; [|done..]. apply ReadUint_len in E0 as [_ L0]. specialize (L0 eq_refl).
  cbn in E. repeat match type of E with context [ReadUint ?x] => destruct (ReadUint x) as [[?|?|] ?] eqn:?; [|done..]; cbn in E end.
  destruct (ReadString _) as [[?|?|] ?] eqn:E3; [|done..]. injection E as _ <-. apply ReadString_len_le in E3.
  repeat match goal with H : ReadUint _ = _ |- _ => apply ReadUint_len in H as [? _] end. lia.
Qed.

Section connection.
Context `{MapRange} (os : Os) (G : World → option NodeStatus) (now : Time).

Lemma mom_one_shorter st s st' s' : mom_one os G now st s = inr (st', s') → (String.length s' < String.length s)%nat.
Proof.
  unfold mom_one. destruct (ReadRequestHeader s) as [[h|?|] t] eqn:E; [|done..]. apply header_len in E.
  destruct (negb _); [by destruct (_ || _)|]. destruct (dispatchRequest _ _ _ _ _ _) as [[[st1 []]|] u] eqn:E2; [|done..].
  intros [= <- <-]. apply mom_dispatch_len in E2. lia.
Qed.

(** The daemon ends every connection, on any bytes: the fuel of the model is enough. *)
Lemma mom_connection_enough st s fuel :
  (String.length s < fuel)%nat → mom_connection_fuel os G now fuel st s = Some (mom_connection os G now st s).
Proof.
  enough (∀ f g st s, (String.length s < f)%nat → (String.length s < g)%nat →
    mom_connection_fuel os G now f st s = mom_connection_fuel os G now g st s ∧ is_Some (mom_connection_fuel os G now f st s)) as Hm.
  { intros Hf. destruct (Hm fuel (S (String.length s)) st s) as [He [r Hr]]; [lia..|]. unfold mom_connection. by rewrite <- He, Hr. }
  clear fuel st s. intros f. induction f as [|f IH]; intros [|g] st s Hf Hg; [lia..|]. simpl.
  destruct (mom_one _ _ _ st s) as [e|[st' s']] eqn:E; [eauto|]. apply mom_one_shorter in E. apply IH; lia.
Qed.

Lemma mom_connection_eq st s :
  mom_connection os G now st s = match mom_one os G now st s with inl e => e | inr (st, s) => mom_connection os G now st s end.
Proof.
  unfold mom_connection at 1. simpl. destruct (mom_one _ _ _ st s) as [e|[st' s']] eqn:E; [done|].
  apply mom_one_shorter in E. by rewrite mom_connection_enough by lia.
Qed.

(** A request of a type the daemon knows, from header to reply. *)
Lemma mom_one_request reqType user st body :
  wire_uint reqType → wire_str user →
  mom_one os G now st (WriteRequestHeader reqType user +:+ body) =
  match dispatchRequest os G now (mkHeader PbsBatchProtType PbsBatchProtVer reqType user) st body with
  | (None, _) => inl Crashed
  | (Some (st, true), s) => inr (st, s)
  | (Some (st, false), _) => inl (Closed st)
  end.
Proof.
  intros Ht Hu. unfold mom_one. change (WriteRequestHeader reqType user) with (put_header (mkHeader PbsBatchProtType PbsBatchProtVer reqType user)).
  by rewrite wire_roundtrip.
Qed.

(** A body that is read and accepted, and the empty extension. *)
Lemma handled_accepted {A} (read : Reader A) run st b a rest d reply :
  read (b +:+ WriteReqExtend "" +:+ rest) = (Ok a, WriteReqExtend "" +:+ rest) → run a st.1 = (d, reply, true) →
  handled read run st (b +:+ WriteReqExtend "" +:+ rest) = (Some ((d, st.2 +:+ WriteReply reply), true), rest).
Proof. intros Hr Hd. unfold handled. rewrite Hr, Hd. cbv zeta. cbn [negb]. by rewrite wire_roundtrip by by vm_compute. Qed.

End connection.
