(* ===== verification/ToMom.v ===== *)
(** * From the server to a compute node: the dispatch of a job in internal/server/server.go

    The attributes and the four requests that hand a job to [pbs_mom], the dialogue that
    sends them one after the other, the delete request and the question for the running
    jobs.  A dialogue runs against the bytes that come back, like the calls of [Client];
    [None] for these bytes is a connection that could not be made. *)

From S2P Require Import Prelude GoStd Dis DisMessage Client Job JobManager Node Queue Route.
From S2P Require Import ServerConfig ServerState Submit Exec.
Import Proto.

Local Open Scope string_scope.
Local Open Scope list_scope.
Local Open Scope Z_scope.

Section tomom.
Context `{MapRange}.

(** ** The attributes *)

Definition mom_attr (name value : string) : list SvrAttrl :=
  if decide (value = "") then [] else [mkAttr name false "" value 2].
Definition mom_resc (name resc value : string) : list SvrAttrl :=
  if decide (value = "") then [] else [mkAttr name true resc value 2].
Definition or_default (value dflt : string) : string := if decide (value = "") then dflt else value.

Definition variable_list (m : gmap string string) : string :=
  Join "," ((λ k, k +:+ "=" +:+ lookup_or "" k m) <$> range m).

(** The attributes before the resources and those after the variables. *)
Definition mom_head (j : Job) : list SvrAttrl :=
  mom_attr "Job_Name" (Job.Name j) ++ mom_attr "Job_Owner" (Job.Owner j) ++ mom_attr "queue" (Job.Queue j)
  ++ mom_attr "server" (Job.Server j) ++ mom_attr "Checkpoint" (or_default (Job.Checkpoint j) "u")
  ++ mom_attr "Error_Path" (Job.StderrPath j) ++ mom_attr "exec_host" (Job.ExecHost j)
  ++ mom_attr "provision_vm" (Job.ProvisionVM j) ++ mom_attr "provision_node" (Job.ProvisionNode j)
  ++ mom_attr "exec_port" (Itoa (Job.ExecPort j)) ++ mom_attr "Join_Path" (or_default (Job.JoinPath j) "n")
  ++ mom_attr "Keep_Files" (or_default (Job.KeepFiles j) "n") ++ mom_attr "Output_Path" (Job.StdoutPath j).

Definition mom_tail (now : Time) (j : Job) : list SvrAttrl :=
  mom_attr "euser" (Job.EUser j) ++ mom_attr "egroup" (Job.EGroup j) ++ mom_attr "hashname" (Job.HashName j)
  ++ mom_attr "start_time" (FormatInt (Unix now)) ++ mom_attr "fault_tolerant" "False" ++ mom_attr "job_radix" "0"
  ++ mom_attr "request_version" "1" ++ mom_attr "Shell_Path_List" (Job.Shell j)
  ++ mom_attr "stagein" (Job.StageinList j) ++ mom_attr "stageout" (Job.StageoutList j)
  ++ mom_attr "Rerunable" (Job.Rerunnable j).

Definition mom_rescs (j : Job) : list SvrAttrl :=
  concat ((λ k, mom_resc "Resource_List" k (lookup_or "" k (Job.ResourceReq j))) <$> range (Job.ResourceReq j)).

Definition buildMOMJobAttrs (now : Time) (j : Job) : list SvrAttrl :=
  mom_head j ++ mom_rescs j
  ++ (if decide (Job.VariableList j = ∅) then [] else mom_attr "Variable_List" (variable_list (Job.VariableList j)))
  ++ mom_tail now j.

(** ** The requests; [server] is the name of the server *)

Definition sendQueueJobToMOM (server jobID : string) (attrs : list SvrAttrl) : string :=
  WriteRequestHeader BatchReqQueueJob server +:+ WriteString jobID +:+ WriteString server +:+
  WriteSvrAttrl attrs +:+ WriteReqExtend "".

Definition sendJobScriptToMOM (server jobID script : string) : string :=
  WriteRequestHeader BatchReqJobScript server +:+ WriteUint 0 +:+ WriteUint 0 +:+ WriteUint (len script) +:+
  WriteString jobID +:+ WriteString script +:+ WriteReqExtend "".

Definition sendCommitToMOM (server jobID : string) : string :=
  WriteRequestHeader BatchReqCommit server +:+ WriteString jobID +:+ WriteReqExtend "".

Definition disconnect (server : string) : string :=
  WriteRequestHeader BatchReqDisconnect server +:+ WriteReqExtend "".

Definition delete_on_mom (server jobID : string) : string :=
  WriteRequestHeader BatchReqDeleteJob server +:+ WriteString jobID +:+ WriteReqExtend "".

(** ** The dialogue *)

(** A reply without an error; its choice and text. *)
Definition accepted : Call (Z * string) :=
  r ← recv ReadReply;
  if rp_code r =? 0 then mret (rp_choice r, rp_data r) else reject (ServerError (rp_code r)).

(** The session id when the reply to the commit holds one. *)
Definition dispatch_dialog (now : Time) (server : string) (j : Job) : Call (option Z) :=
  _ ← flush (sendQueueJobToMOM server (Job.ID j) (buildMOMJobAttrs now j));
  _ ← accepted;
  _ ← flush (sendJobScriptToMOM server (Job.ID j) (Job.Script j));
  _ ← accepted;
  _ ← flush (sendCommitToMOM server (Job.ID j));
  r ← accepted;
  _ ← flush (disconnect server);
  mret (if (r.1 =? ReplyChoiceText) && negb (bool_decide (r.2 = "")) then atoi_ok r.2 else None).

(** What is sent and the state after it: a failed dispatch is undone. A panic, which the
    last component stands for, ends the server. *)
Definition dispatchJobToMOM (env : Env) (replies : option string) (j : Job) (node : string) (s : Server) :
    list string * option Server :=
  match replies with
  | None => ([], Some (undoJobDispatch env j node s))
  | Some bytes =>
    match dispatch_dialog (now env) (ServerName (cfg s)) j bytes with
    | (out, Ok (Some sid), _) => (out, Some (upd_job (j <| Job.SessionID := sid |>) s))
    | (out, Ok None, _) => (out, Some s)
    | (out, Err _, _) => (out, Some (undoJobDispatch env j node s))
    | (out, Panic, _) => (out, None)
    end
  end.

(** ** The jobs a compute node runs *)

Definition batchMomStatusRequest : Z := 63.
Definition jobs_query (server : string) : string :=
  WriteRequestHeader batchMomStatusRequest server +:+ WriteString "jobs" +:+ WriteUint 0.

(** An error of a read that is not looked at. *)
Definition choice_or_zero : Reader Z := λ s,
  match ReadUint s with (Err _, s) => (Ok 0, s) | r => r end.

Definition jobs_reply : Reader (option string) :=
  _ ← ignore ReadUint;
  _ ← ignore ReadUint;
  code ← ReadInt;
  _ ← ignore ReadInt;
  choice ← choice_or_zero;
  if negb (code =? 0) || negb (choice =? ReplyChoiceText) then mret None
  else (val ← ReadString; mret (Some val)).

Definition parse_running (val : string) : gset string :=
  list_to_set (filter (λ id, id ≠ "") (TrimSpace <$> Split "," val)).

(** The set of ids, or [None] when there is no usable answer. *)
Definition momRunningJobs (replies : string) : option (gset string) :=
  match (jobs_reply replies).1 with
  | Ok (Some val) => Some (parse_running val)
  | _ => None
  end.

End tomom.
