(* ===== verification/MomLink.v ===== *)
(** * The server and a compute node together

    The bytes the server sends are read by the daemon of [Mom], the bytes the daemon sends
    are read by the server of [Dispatch]: a dispatched job arrives and runs, its obituary
    completes it, and the list of running jobs that the server asks for is exact. *)

From S2P Require Import Prelude GoStd StatusSpec FloatStd NetStd Dis DisMessage Client Conn Job JobManager Node Queue Route.
From S2P Require Import ServerConfig ServerState Submit Exec Persist Status StatusServer Auth JobControl Admin Dispatch DispatchSpec ToMom.
From S2P Require Import MomConfig MomJob MomExec MomConn Mom MomSpec.
Import Proto MomProto.

Local Open Scope string_scope.
Local Open Scope list_scope.
Local Open Scope Z_scope.

(** ** Attributes *)

Definition to_svr (a : SvrAttrl) : svrAttr := mkSvrAttr (DisMessage.Name a) (Resc a) (Value a).

(** The daemon's reader takes what the server's takes, without the operation. *)
Lemma svrAttr_agrees s a s' : ReadSvrAttr s = (Ok a, s') → read_svrAttr s = (Ok (to_svr a), s').
Proof.
  unfold ReadSvrAttr, read_svrAttr, mbind, Reader_bind, wrap, mret, Reader_ret.
  destruct (ReadUint s) as [[?|?|] s0]; cbn [map_err]; [|done..].
  destruct (ReadString s0) as [[name|?|] s1]; cbn [map_err]; [|done..].
  destruct (ReadUint s1) as [[has|?|] s2]; cbn [map_err]; [|done..].
  destruct (has =? 0).
  - destruct (ReadString s2) as [[v|?|] s3]; cbn [map_err]; [|done..].
    destruct (ReadUint s3) as [[op|?|] s4]; cbn [map_err]; [|done..]. by intros [= <- <-].
  - destruct (ReadString s2) as [[r|?|] s3]; cbn [map_err]; [|done..].
    destruct (ReadString s3) as [[v|?|] s4]; cbn [map_err]; [|done..].
    destruct (ReadUint s4) as [[op|?|] s5]; cbn [map_err]; [|done..]. by intros [= <- <-].
Qed.

Lemma read_n_agrees n s l s' :
  read_n ReadSvrAttr n s = (Ok l, s') → read_n read_svrAttr n s = (Ok (to_svr <$> l), s').
Proof.
  revert s l s'. induction n as [|n IH]; intros s l s'; cbn [read_n]; [by intros [= <- <-]|].
  unfold mbind, Reader_bind. destruct (ReadSvrAttr s) as [[a|?|] t] eqn:E; [|done..]. apply svrAttr_agrees in E. rewrite E.
  destruct (read_n ReadSvrAttr n t) as [[l1|?|] u] eqn:E1; [|done..]. rewrite (IH _ _ _ E1). by intros [= <- <-].
Qed.

Lemma readSvrAttrl_write l rest : wire_attrl l → readSvrAttrl (WriteSvrAttrl l +:+ rest) = (Ok (to_svr <$> l), rest).
Proof.
  intros [Hl Hn]. unfold WriteSvrAttrl, readSvrAttrl. wire_step; [|solve_wire].
  replace (maxAlloc <? _) with false by (unfold attr_size in Hn; lia).
  rewrite Nat2Z.id. apply read_n_agrees. by apply read_n_wire.
Qed.

(** ** The job that arrives *)

Section arrives.
Context `{MapRange}.

Lemma take_attr n v (set : string → MomJob.Job → MomJob.Job) j :
  (∀ j, applyJobAttribute j (mkSvrAttr n "" v) = set v j) → (v = "" → set v j = j) →
  foldl applyJobAttribute j (to_svr <$> mom_attr n v) = set v j.
Proof. intros Ha Hs. unfold mom_attr. case_decide as Hv; [cbn; by rewrite Hs|]. cbn. apply Ha. Qed.

Lemma skip_attr n v j :
  applyJobAttribute j (mkSvrAttr n "" v) = j → foldl applyJobAttribute j (to_svr <$> mom_attr n v) = j.
Proof. intros Ha. unfold mom_attr. case_decide; [done|]. cbn. apply Ha. Qed.

(** *** The limits *)

(** The limits of a request, by the resources it names. *)
Definition limits_of (m : gmap string string) : ResourceLimits :=
  mkLimits (parseDuration (lookup_or "" "cput" m)) (parseDuration (lookup_or "" "walltime" m))
    (parseSize (lookup_or "" "mem" m)) (parseSize (lookup_or "" "vmem" m))
    (default 0 (atoi_ok (lookup_or "" "ncpus" m))) (default 0 (atoi_ok (lookup_or "" "nodes" m))).

Definition limit_step (m : gmap string string) (l : ResourceLimits) (k : string) : ResourceLimits :=
  if decide (lookup_or "" k m = "") then l else set_limit (mkSvrAttr "Resource_List" k (lookup_or "" k m)) l.

(** One field of the limits over the keys of the request. *)
Lemma fold_limit {B} (get : ResourceLimits → B) (g : string → B → B) k0 (z : B) m ks l :
  NoDup ks → g "" z = z → get l = z →
  (∀ v l, get (set_limit (mkSvrAttr "Resource_List" k0 v) l) = g v (get l)) →
  (∀ k v l, k ≠ k0 → get (set_limit (mkSvrAttr "Resource_List" k v) l) = get l) →
  get (foldl (limit_step m) l ks) = if decide (k0 ∈ ks) then g (lookup_or "" k0 m) z else z.
Proof.
  intros Hn Hz Hl Hg Ho.
  assert (∀ k l, get (limit_step m l k) = if decide (k = k0) then (if decide (lookup_or "" k0 m = "") then get l else g (lookup_or "" k0 m) (get l)) else get l) as Hs.
  { intros k l'. unfold limit_step. repeat case_decide; subst; try done; by apply Hg || apply Ho. }
  assert (∀ ks l, k0 ∉ ks → get (foldl (limit_step m) l ks) = get l) as Hout.
  { intros ks'. induction ks' as [|k ks' IH]; intros l' Hk; [done|]. apply not_elem_of_cons in Hk as [Hk Hks]. cbn [foldl].
    rewrite IH by done. rewrite Hs. by rewrite decide_False by done. }
  revert l Hl. induction ks as [|k ks IH]; intros l Hl; [done|]. apply NoDup_cons in Hn as [Hk Hn]. cbn [foldl].
  destruct (decide (k = k0)) as [->|Hne].
  - rewrite Hout by done. rewrite Hs, Hl. rewrite (decide_True (P := k0 = k0)) by done.
    rewrite (decide_True (P := k0 ∈ k0 :: ks)) by apply list_elem_of_here.
    destruct (decide (lookup_or "" k0 m = "")) as [->|]; [by rewrite Hz|done].
  - rewrite IH; [|done|by rewrite Hs; rewrite decide_False by done]. apply decide_ext. rewrite elem_of_cons. naive_solver.
Qed.

Ltac other_limit get :=
  intros k v l Hne; unfold set_limit; cbn [a_resource a_value]; apply (switch_ind_in (λ l', get l' = get l)); [|done];
  repeat (apply Forall_cons; split; [intros Hk%list_elem_of_singleton; cbn [fst snd]; first [done | by rewrite Hk in Hne]|]); by apply Forall_nil.

Lemma limits_fold m : foldl (limit_step m) (mkLimits 0 0 0 0 0 0) (range m) = limits_of m.
Proof.
  pose proof (map_order_NoDup m (range m) (range_order m)) as Hn.
  assert (∀ k, k ∈ range m ↔ is_Some (m !! k)) as He by (intros k; apply map_order_elem, range_order).
  assert (∀ {B} (get : ResourceLimits → B) (g : string → B → B) k0 z,
    g "" z = z → get (mkLimits 0 0 0 0 0 0) = z →
    (∀ v l, get (set_limit (mkSvrAttr "Resource_List" k0 v) l) = g v (get l)) →
    (∀ k v l, k ≠ k0 → get (set_limit (mkSvrAttr "Resource_List" k v) l) = get l) →
    get (foldl (limit_step m) (mkLimits 0 0 0 0 0 0) (range m)) = g (lookup_or "" k0 m) z) as Hf.
  { intros B get g k0 z Hz Hl Hg Ho. rewrite (fold_limit get g k0 z); try done. case_decide as Hk; [done|].
    unfold lookup_or. rewrite He in Hk. apply eq_None_not_Some in Hk. rewrite Hk. symmetry. exact Hz. }
  assert (∀ l, mkLimits (l_CPUTime l) (l_WallTime l) (l_Memory l) (l_VMem l) (l_Ncpus l) (l_Nodes l) = l) as Heta by by intros [].
  etrans; [symmetry; apply Heta|]. unfold limits_of. f_equal.
  - apply (Hf _ l_CPUTime (λ v _, parseDuration v) "cput" 0); [done..|]. other_limit l_CPUTime.
  - apply (Hf _ l_WallTime (λ v _, parseDuration v) "walltime" 0); [done..|]. other_limit l_WallTime.
  - apply (Hf _ l_Memory (λ v _, parseSize v) "mem" 0); [done..|]. other_limit l_Memory.
  - apply (Hf _ l_VMem (λ v _, parseSize v) "vmem" 0); [done..|]. other_limit l_VMem.
  - apply (Hf _ l_Ncpus (λ v n, default n (atoi_ok v)) "ncpus" 0); [done..|]. other_limit l_Ncpus.
  - apply (Hf _ l_Nodes (λ v n, default n (atoi_ok v)) "nodes" 0); [done..|]. other_limit l_Nodes.
Qed.

(** *** The variables *)

(** Variables that survive the comma-separated list. *)
Definition plain_vars (m : gmap string string) : Prop :=
  map_Forall (λ k v, has_byte "," k = false ∧ has_byte "=" k = false ∧ has_byte "," v = false) m.

Lemma set_variables m : plain_vars m → m ≠ ∅ → foldl set_variable ∅ (Split "," (variable_list m)) = m.
Proof.
  intros Hm Hne. unfold variable_list.
  assert (∀ k, k ∈ range m ↔ is_Some (m !! k)) as He by (intros k; apply map_order_elem, range_order).
  assert (range m ≠ []) as Hr.
  { intros Hn. apply Hne, map_empty. intros k. apply eq_None_not_Some. rewrite <- He, Hn. apply not_elem_of_nil. }
  rewrite Split_Join; [|by destruct (range m)|].
  2:{ apply Forall_fmap, Forall_forall. intros k [v Hv]%He. change (has_byte "," (k +:+ "=" +:+ lookup_or "" k m) = false).
      destruct (Hm k v Hv) as (H1 & H2 & H3). replace (lookup_or "" k m) with v by (unfold lookup_or; by rewrite Hv).
      by rewrite !has_byte_app, H1, H3. }
  apply map_eq. intros k.
  assert (∀ ks m0, (∀ x, x ∈ ks → is_Some (m !! x)) →
    foldl set_variable m0 ((λ k, k +:+ "=" +:+ lookup_or "" k m) <$> ks) !! k = if decide (k ∈ ks) then m !! k else m0 !! k) as Hf.
  { intros ks. induction ks as [|x ks IH]; intros m0 Hks; [done|]. cbn [fmap list_fmap foldl].
    rewrite IH by (intros; by apply Hks; right). destruct (Hks x (list_elem_of_here _ _)) as [v Hv].
    destruct (Hm x v Hv) as (H1 & H2 & H3). unfold set_variable. unfold lookup_or. rewrite Hv. cbn [default from_option].
    change (x +:+ "=" +:+ id v) with (x +:+ String "=" v). rewrite cut_app by done.
    destruct (decide (k ∈ ks)) as [Hk|Hk]; [by rewrite decide_True by (by right)|].
    destruct (decide (k = x)) as [->|Hkx].
    - rewrite decide_True by apply list_elem_of_here. by rewrite lookup_insert_eq.
    - rewrite decide_False by (rewrite elem_of_cons; naive_solver). by rewrite lookup_insert_ne. }
  rewrite Hf by (intros x; apply He). case_decide as Hk; [done|]. rewrite lookup_empty. rewrite He in Hk.
  by apply eq_None_not_Some in Hk.
Qed.

Lemma variable_list_nonempty m : m ≠ ∅ → variable_list m ≠ "".
Proof.
  intros Hne Hv. assert (∀ k, k ∈ range m ↔ is_Some (m !! k)) as He by (intros k; apply map_order_elem, range_order).
  unfold variable_list in Hv. destruct (range m) as [|k ks] eqn:Hr.
  - apply Hne, map_empty. intros k. apply eq_None_not_Some. rewrite <- He. apply not_elem_of_nil.
  - cbn in Hv. destruct (fmap _ ks) in Hv; by destruct k.
Qed.

(** *** The whole job *)

Definition arrived (now : Time) (addr : nat) (j : Job.Job) : MomJob.Job :=
  (NewJob now addr (Job.ID j))
    <| MomJob.Name := Job.Name j |> <| MomJob.Queue := Job.Queue j |> <| MomJob.Owner := Job.Owner j |>
    <| User := if decide (Job.EUser j = "") then user_of (Job.Owner j) else Job.EUser j |> <| Group := Job.EGroup j |>
    <| MomJob.Shell := Job.Shell j |> <| MomJob.StdoutPath := Job.StdoutPath j |> <| MomJob.StderrPath := Job.StderrPath j |>
    <| MomJob.JoinPath := or_default (Job.JoinPath j) "n" |> <| MomJob.VariableList := Job.VariableList j |>
    <| MomJob.ResourceReq := limits_of (Job.ResourceReq j) |>
    <| MomJob.Rerunnable := bool_decide (Job.Rerunnable j = "True") |>
    <| MomJob.StageinList := Job.StageinList j |> <| MomJob.StageoutList := Job.StageoutList j |>.

Lemma apply_rescs sj j :
  foldl applyJobAttribute j (to_svr <$> mom_rescs sj)
  = j <| MomJob.ResourceReq := foldl (limit_step (Job.ResourceReq sj)) (MomJob.ResourceReq j) (range (Job.ResourceReq sj)) |>.
Proof.
  unfold mom_rescs. generalize (Job.ResourceReq sj) as m. intros m. revert j.
  induction (range m) as [|k ks IH]; intros j; [by destruct j|]. cbn [fmap list_fmap concat foldl].
  rewrite fmap_app, foldl_app, IH.
  assert (foldl applyJobAttribute j (to_svr <$> mom_resc "Resource_List" k (lookup_or "" k m))
          = j <| MomJob.ResourceReq := limit_step m (MomJob.ResourceReq j) k |>) as ->; [|done].
  unfold mom_resc, limit_step. case_decide; [by destruct j|reflexivity].
Qed.

Lemma apply_vars m j :
  plain_vars m → MomJob.VariableList j = ∅ →
  foldl applyJobAttribute j (to_svr <$> (if decide (m = ∅) then [] else mom_attr "Variable_List" (variable_list m)))
  = j <| MomJob.VariableList := m |>.
Proof.
  intros Hm Hj. case_decide as He; [subst m; cbn; destruct j; cbn in Hj; by subst|].
  unfold mom_attr. rewrite decide_False by by apply variable_list_nonempty. cbn [fmap list_fmap foldl].
  unfold applyJobAttribute. cbn [a_name a_value to_svr DisMessage.Name Value switch].
  change (j <| MomJob.VariableList := foldl set_variable (MomJob.VariableList j) (Split "," (variable_list m)) |> = j <| MomJob.VariableList := m |>).
  by rewrite Hj, set_variables.
Qed.

(** Bring a job with updated fields to the form of a record. *)
Ltac flat := lazy beta iota delta [set_field NewJob MomJob.ID MomJob.Name MomJob.Queue MomJob.Owner MomJob.User MomJob.Group MomJob.State MomJob.Substate MomJob.Shell MomJob.Script MomJob.ScriptFile MomJob.ExecHost MomJob.JoinPath MomJob.StdoutPath MomJob.StderrPath MomJob.FinalStdout MomJob.FinalStderr
  MomJob.VariableList MomJob.ResourceReq MomJob.ResourceUse MomJob.Tasks MomJob.QueueTime MomJob.StartTime MomJob.EndTime MomJob.MTime MomJob.ExitStatus MomJob.ExitSignal MomJob.Rerunnable MomJob.StageinList MomJob.StageoutList MomJob.Process MomJob.SessionID MomJob.obj].
Ltac take n set :=
  rewrite (take_attr n _ set); [flat|intros; reflexivity|let E := fresh in intros E; rewrite E; flat; reflexivity].

#[local] Opaque mom_attr.
Lemma job_arrives now now' addr server j :
  Job.Owner j ≠ "" → Job.Queue j ≠ "" → plain_vars (Job.VariableList j) →
  foldl applyJobAttribute ((NewJob now addr (Job.ID j)) <| MomJob.Owner := server |> <| MomJob.Queue := server |>)
    (to_svr <$> buildMOMJobAttrs now' j) = arrived now addr j.
Proof.
  intros Ho Hq Hv. unfold buildMOMJobAttrs, mom_head, mom_tail, arrived. rewrite !fmap_app, !foldl_app. flat.
  take "Job_Name" (λ v j, j <| MomJob.Name := v |>).
  rewrite (take_attr "Job_Owner" _ (λ v j, j <| MomJob.Owner := v |> <| User := user_of v |>)); [flat|intros; reflexivity|done].
  rewrite (take_attr "queue" _ (λ v j, j <| MomJob.Queue := v |>)); [flat|intros; reflexivity|done].
  rewrite (skip_attr "server"), (skip_attr "Checkpoint") by reflexivity.
  take "Error_Path" (λ v j, j <| MomJob.StderrPath := v |>).
  rewrite (skip_attr "exec_host"), (skip_attr "provision_vm"), (skip_attr "provision_node"), (skip_attr "exec_port") by reflexivity.
  take "Join_Path" (λ v j, j <| MomJob.JoinPath := v |>).
  rewrite (skip_attr "Keep_Files") by reflexivity.
  take "Output_Path" (λ v j, j <| MomJob.StdoutPath := v |>).
  rewrite apply_rescs, apply_vars by done. flat. rewrite limits_fold.
  generalize (limits_of (Job.ResourceReq j)) as lims. intros lims.
  assert (∀ v j1, foldl applyJobAttribute j1 (to_svr <$> mom_attr "euser" v) = if decide (v = "") then j1 else j1 <| User := v |>) as Hu
    by (intros v j1; with_strategy transparent [mom_attr] unfold mom_attr; by case_decide).
  rewrite Hu. destruct (decide (Job.EUser j = "")); flat.
  all: take "egroup" (λ v j, j <| Group := v |>).
  all: rewrite (skip_attr "hashname"), (skip_attr "start_time"), (skip_attr "fault_tolerant"), (skip_attr "job_radix"),
    (skip_attr "request_version") by reflexivity.
  all: take "Shell_Path_List" (λ v j, j <| MomJob.Shell := v |>).
  all: take "stagein" (λ v j, j <| MomJob.StageinList := v |>).
  all: take "stageout" (λ v j, j <| MomJob.StageoutList := v |>).
  all: take "Rerunable" (λ v j, j <| MomJob.Rerunnable := bool_decide (v = "True") |>).
  all: reflexivity.
Qed.
#[local] Transparent mom_attr.

End arrives.

(** ** The dispatch of a job *)

Section dispatched.
Context `{MapRange} (os : Os) (G : World → option NodeStatus) (mnow : Time).

Lemma read_queue_write id dest l rest :
  wire_str id → wire_str dest → wire_attrl l →
  read_queue ((WriteString id +:+ WriteString dest +:+ WriteSvrAttrl l) +:+ rest) = (Ok (id, dest, to_svr <$> l), rest).
Proof.
  intros Hi Hd Hl. unfold read_queue. rewrite !app_str_assoc. wire_step; [|done]. wire_step; [|done].
  unfold mbind, Reader_bind. by rewrite readSvrAttrl_write.
Qed.

Lemma read_script_write id script rest :
  wire_str id → wire_str script →
  read_script ((WriteUint 0 +:+ WriteUint 0 +:+ WriteUint (len script) +:+ WriteString id +:+ WriteString script) +:+ rest)
  = (Ok (id, script), rest).
Proof.
  intros Hi Hs. unfold read_script. rewrite !app_str_assoc. pose proof (len_nonneg script).
  wire_step; [|by vm_compute]. wire_step; [|by vm_compute]. wire_step; [|solve_wire]. wire_step; [|done]. wire_step; [|done]. done.
Qed.

(** The connection after a request that is accepted. *)
Lemma mom_accepts {A} reqType server (read : Reader A) run body rest st a d reply :
  wire_uint reqType → wire_str server →
  dispatchRequest os G mnow (mkHeader PbsBatchProtType PbsBatchProtVer reqType server) = handled read run →
  (∀ rest, read (body +:+ rest) = (Ok a, rest)) → run a st.1 = (d, reply, true) →
  mom_connection os G mnow st ((WriteRequestHeader reqType server +:+ body +:+ WriteReqExtend "") +:+ rest)
  = mom_connection os G mnow (d, st.2 +:+ WriteReply reply) rest.
Proof.
  intros Ht Hs Hd Hr Hrun. rewrite mom_connection_eq, !app_str_assoc, mom_one_request, Hd by done.
  by rewrite (handled_accepted read run st body a rest d reply) by done.
Qed.

(** The extension that is left unread is no request. *)
Lemma no_header : ReadRequestHeader (WriteReqExtend "") = (Err (Wrapped (Wrapped EOF)), "").
Proof. vm_compute. reflexivity. Qed.

(** The connection after a request that is refused and is the last. *)
Lemma mom_refuses {A} reqType server (read : Reader A) run body st a d reply :
  wire_uint reqType → wire_str server →
  dispatchRequest os G mnow (mkHeader PbsBatchProtType PbsBatchProtVer reqType server) = handled read run →
  (∀ rest, read (body +:+ rest) = (Ok a, rest)) → run a st.1 = (d, reply, false) →
  mom_connection os G mnow st (WriteRequestHeader reqType server +:+ body +:+ WriteReqExtend "")
  = Closed (d, st.2 +:+ WriteReply reply).
Proof.
  intros Ht Hs Hd Hr Hrun. rewrite mom_connection_eq, mom_one_request, Hd by done.
  unfold handled. rewrite Hr, Hrun. cbv zeta. cbn [negb]. rewrite mom_connection_eq.
  unfold mom_one. by rewrite no_header.
Qed.

Lemma mom_disconnects server st :
  wire_str server → mom_connection os G mnow st (disconnect server) = Closed st.
Proof.
  intros Hs. unfold disconnect. rewrite mom_connection_eq, mom_one_request by (done || by vm_compute). done.
Qed.

End dispatched.

Section server_side.
Context `{MapRange}.

Lemma accepted_reply r rest :
  wire_reply r → rp_code r = 0 → accepted (WriteReply r +:+ rest) = ([], Ok (rp_choice r, rp_data r), rest).
Proof.
  intros Hr Hc. unfold accepted, mbind, Call_bind, recv. rewrite wire_roundtrip by done. cbn [map_err]. by rewrite Hc.
Qed.

Lemma flush_bind {A} m (k : () → Call A) s :
  (flush m ≫= k) s = let '(out, r, s) := k () s in (m :: out, r, s).
Proof. unfold mbind, Call_bind, flush. destruct (k () s) as [[out r] s']. done. Qed.

Lemma accepted_bind {A} r (k : Z * string → Call A) rest :
  wire_reply r → rp_code r = 0 → (accepted ≫= k) (WriteReply r +:+ rest) = k (rp_choice r, rp_data r) rest.
Proof.
  intros Hr Hc. unfold mbind at 1, Call_bind. rewrite accepted_reply by done. destruct (k _ rest) as [[out x] s']. done.
Qed.

End server_side.

(** The four requests of a dispatch. *)
Definition dispatch_requests `{MapRange} (snow : Time) (server : string) (j : Job.Job) : list string :=
  [sendQueueJobToMOM server (Job.ID j) (buildMOMJobAttrs snow j);
   sendJobScriptToMOM server (Job.ID j) (Job.Script j);
   sendCommitToMOM server (Job.ID j); disconnect server].

(** A job the protocol and the variable list can carry. *)
Definition sendable_job `{MapRange} (snow : Time) (server : string) (j : Job.Job) : Prop :=
  wire_str server ∧ wire_str (Job.ID j) ∧ wire_str (Job.Script j) ∧ wire_attrl (buildMOMJobAttrs snow j) ∧
  Job.Owner j ≠ "" ∧ Job.Queue j ≠ "" ∧ plain_vars (Job.VariableList j).

(** The requests as a header, a body and an extension. *)
Lemma queue_body server id l :
  WriteRequestHeader BatchReqQueueJob server +:+ WriteString id +:+ WriteString server +:+ WriteSvrAttrl l +:+ WriteReqExtend ""
  = WriteRequestHeader BatchReqQueueJob server +:+ (WriteString id +:+ WriteString server +:+ WriteSvrAttrl l) +:+ WriteReqExtend "".
Proof. by rewrite !app_str_assoc. Qed.
Lemma script_body server id script :
  WriteRequestHeader BatchReqJobScript server +:+ WriteUint 0 +:+ WriteUint 0 +:+ WriteUint (len script) +:+
    WriteString id +:+ WriteString script +:+ WriteReqExtend ""
  = WriteRequestHeader BatchReqJobScript server +:+
    (WriteUint 0 +:+ WriteUint 0 +:+ WriteUint (len script) +:+ WriteString id +:+ WriteString script) +:+ WriteReqExtend "".
Proof. by rewrite !app_str_assoc. Qed.

(** What taking a dispatch back leaves. *)
Lemma undoJobDispatch_state env j node s n l l' :
  the_nodes s !! node = Some n → ledger n l → l ≡ₚ (Job.ID j, jobRequestedCPUs j) :: l' → ledger_slots l ≤ MaxInt64 →
  ∃ j' n', let s' := undoJobDispatch env j node s in
    the_jobs s' = <[Job.ID j := j']> (the_jobs s) ∧ Job.ID j' = Job.ID j ∧
    Job.State j' = Job.StateQueued ∧ Job.ExecHost j' = "" ∧ Job.ExecPort j' = 0 ∧
    the_nodes s' = <[node := n']> (the_nodes s) ∧ ledger n' l'.
Proof.
  intros Hnode Hl Hp Hb. set (j' := (Job.SetState (now env) Job.StateQueued Job.SubstateQueued j)
    <| Job.ExecHost := "" |> <| Job.ExecPort := 0 |>).
  assert (Job.ID j' = Job.ID j ∧ jobRequestedCPUs j' = jobRequestedCPUs j) as [Hid Hcpu].
  { unfold j', Job.SetState. cbv zeta. split; by repeat case_match. }
  exists j', (ReleaseJob (Job.ID j) (jobRequestedCPUs j) n). cbv zeta. unfold undoJobDispatch. fold j'. cbv zeta.
  rewrite Hid, Hcpu. split_and!; [|done|unfold j', Job.SetState; cbv zeta; by repeat case_match|done|done| |by eapply ReleaseJob_ledger].
  - unfold the_jobs, upd_queue, release_on. repeat case_match; cbn [jobMgr set_field]; by rewrite <- Hid.
  - unfold release_on.
    unfold the_nodes, upd_queue, upd_node, upd_job, upd_mgr. cbn [nodeMgr nodes set_field]. unfold the_nodes in Hnode.
    apply map_eq. intros k. destruct (decide (k = node)) as [->|Hk].
    + by rewrite lookup_alter_eq, lookup_insert_eq, Hnode.
    + by rewrite lookup_alter_ne, lookup_insert_ne.
Qed.

Section whole.
Context `{MapRange} (os : Os) (G : World → option NodeStatus) (mnow : Time).

(** The job as the commit finds it. *)
Definition sent_job (d : Daemon) (j : Job.Job) : MomJob.Job :=
  (arrived mnow (next_obj d) j) <| MomJob.Script := Job.Script j |>.
Definition committing (d : Daemon) (server : string) (j : Job.Job) : MomJob.Job * bool * World :=
  commit_job os (Mom.cfg d) mnow (committed os server (sent_job d j)) (world d).

(** The daemon after the first two requests. *)
Definition holding (d : Daemon) (j : Job.Job) : Daemon :=
  d <| Mom.jobs := <[Job.ID j := sent_job d j]> (Mom.jobs d) |> <| next_obj := S (next_obj d) |>.

Lemma first_two snow server j d rest :
  sendable_job snow server j → Mom.jobs d !! Job.ID j = None →
  mom_connection os G mnow (d, "") (sendQueueJobToMOM server (Job.ID j) (buildMOMJobAttrs snow j) +:+
    sendJobScriptToMOM server (Job.ID j) (Job.Script j) +:+ rest)
  = mom_connection os G mnow (holding d j,
      WriteReply (SendJobIDReply ReplyChoiceQueue (Job.ID j)) +:+ WriteReply SendOkReply) rest.
Proof.
  intros (Hs & Hi & Hsc & Ha & Ho & Hq & Hv) Hn.
  pose (d1 := d <| Mom.jobs := <[Job.ID j := arrived mnow (next_obj d) j]> (Mom.jobs d) |> <| next_obj := S (next_obj d) |>).
  unfold sendQueueJobToMOM, sendJobScriptToMOM. rewrite (queue_body server), (script_body server).
  rewrite (mom_accepts os G mnow BatchReqQueueJob server read_queue
    (λ b, handleQueueJob mnow server b.1.1 b.1.2 b.2) _ _ (d, "") (Job.ID j, server, to_svr <$> buildMOMJobAttrs snow j)
    d1 (SendJobIDReply ReplyChoiceQueue (Job.ID j))); [|by vm_compute|done|reflexivity| |].
  2:{ intros r. by apply read_queue_write. }
  2:{ cbn [fst snd]. unfold handleQueueJob, AddJob. cbv zeta. rewrite job_arrives by done.
      change (MomJob.ID (arrived mnow (next_obj d) j)) with (Job.ID j). by rewrite Hn. }
  rewrite (mom_accepts os G mnow BatchReqJobScript server read_script
    (λ b, handleJobScript b.1 b.2) _ _ _ (Job.ID j, Job.Script j) (holding d j) SendOkReply); [done|by vm_compute|done|reflexivity| |].
  - intros r. by apply read_script_write.
  - cbn [fst snd]. unfold handleJobScript, m_ok, holding, d1.
    match goal with |- context [alter ?f ?i ?m] =>
      replace (alter f i m) with (<[Job.ID j := sent_job d j]> (Mom.jobs d)) by exact (eq_sym (alter_insert_eq (Mom.jobs d) (Job.ID j) f _)) end.
    generalize (sent_job d j), (arrived mnow (next_obj d) j). intros x y. by destruct d.
Qed.

(** A process id of the kernel. *)
Definition is_pid (sid : Z) : Prop := 0 < sid < 2 ^ 31.

Lemma wire_pid sid : is_pid sid → is_int64 sid ∧ wire_str (Itoa sid) ∧ Itoa sid ≠ "".
Proof.
  intros [Hl Hu]. assert (is_int64 sid) as Hi by (unfold is_int64, MinInt64, MaxInt64; lia). split; [done|].
  destruct (decide (sid = 1)) as [->|]; [by vm_compute|]. pose proof (Itoa_len_lt sid ltac:(lia)). unfold wire_str, maxAlloc.
  assert (len (Itoa sid) ≠ 0) as Hn by lia. split; [lia|]. intros He. by rewrite He in Hn.
Qed.

(** The commit, on the job the first two requests have left. *)
Lemma commit_run server d j :
  let '(j2, ok, w) := committing d server j in
  handleCommit os mnow server (Job.ID j) (holding d j)
  = let d2 := put_job j2 ((holding d j) <| world := w |>) in
    if ok then (d2 <| waits := waits d ++ [mkWait (Job.ID j) (next_obj d) 0] |>, SendTextReply (Itoa (MomJob.SessionID j2)), true)
    else m_err PbsErrSystem d2.
Proof.
  unfold committing. pose proof (commit_effect os (Mom.cfg d) mnow (committed os server (sent_job d j)) (world d)) as (Hid & Hob & _).
  pose proof (committed_same os server (sent_job d j)) as (Hid' & Hob' & _).
  unfold handleCommit, GetJob. change (Mom.jobs (holding d j)) with (<[Job.ID j := sent_job d j]> (Mom.jobs d)).
  rewrite lookup_insert_eq, run_act_eq. change (Mom.cfg (holding d j)) with (Mom.cfg d). change (world (holding d j)) with (world d).
  destruct (commit_job _ _ _ _ _) as [[j2 ok] w]. cbn [fst snd] in *. rewrite Hid' in Hid. rewrite Hob' in Hob.
  replace (MomJob.ID j2) with (Job.ID j). by rewrite Hob.
Qed.

Lemma wire_text choice text : wire_uint choice → carries_data choice = true → wire_str text → wire_reply (mkReply PbsErrNone 0 choice text).
Proof. intros Hc Hd Ht. unfold wire_reply. cbn [rp_code rp_auxCode rp_choice rp_data]. rewrite Hd. by split_and!. Qed.
Lemma wire_error code : is_int64 code → wire_reply (SendErrorReply code 0).
Proof. intros Hc. unfold wire_reply. cbn [rp_code rp_auxCode rp_choice rp_data SendErrorReply]. by split_and!. Qed.
Lemma wire_ok : wire_reply SendOkReply.
Proof. by apply wire_error. Qed.

(** The three replies of an accepted dispatch lead the server to the session id. *)
Lemma dialog_accepted snow server j sid :
  wire_str (Job.ID j) → is_pid sid →
  dispatch_dialog snow server j (WriteReply (SendJobIDReply ReplyChoiceQueue (Job.ID j)) +:+ WriteReply SendOkReply +:+
    WriteReply (SendTextReply (Itoa sid)))
  = (dispatch_requests snow server j, Ok (Some sid), "").
Proof.
  intros Hi (H1 & H2 & H3)%wire_pid. unfold dispatch_dialog. rewrite flush_bind, accepted_bind; [|by apply wire_text|done].
  rewrite flush_bind, accepted_bind; [|by apply wire_ok|done].
  rewrite <- (app_str_nil_r (WriteReply (SendTextReply _))).
  rewrite flush_bind, accepted_bind; [|by apply wire_text|done].
  rewrite flush_bind. unfold mret, Call_ret. cbn [fst snd rp_choice rp_data SendTextReply].
  rewrite Z.eqb_refl, bool_decide_eq_false_2 by done. cbn [negb andb]. by rewrite atoi_ok_Itoa.
Qed.

Lemma dialog_refused snow server j code :
  wire_str (Job.ID j) → is_int64 code → code ≠ 0 →
  dispatch_dialog snow server j (WriteReply (SendJobIDReply ReplyChoiceQueue (Job.ID j)) +:+ WriteReply SendOkReply +:+
    WriteReply (SendErrorReply code 0))
  = (take 3 (dispatch_requests snow server j), Err (ReplyError (ServerError code)), "").
Proof.
  intros Hi Hc Hn. unfold dispatch_dialog. rewrite flush_bind, accepted_bind; [|by apply wire_text|done].
  rewrite flush_bind, accepted_bind; [|by apply wire_ok|done].
  rewrite flush_bind. rewrite <- (app_str_nil_r (WriteReply (SendErrorReply _ _))).
  unfold mbind at 1, Call_bind, accepted, mbind at 1, Call_bind, recv. rewrite wire_roundtrip by by apply wire_error.
  cbn [map_err rp_code SendErrorReply]. destruct (Z.eqb_spec code 0); [done|]. done.
Qed.

Lemma commit_bytes server id rest :
  sendCommitToMOM server id +:+ rest
  = (WriteRequestHeader BatchReqCommit server +:+ WriteString id +:+ WriteReqExtend "") +:+ rest.
Proof. done. Qed.

Lemma mom_takes snow server j d :
  sendable_job snow server j → Mom.jobs d !! Job.ID j = None → (committing d server j).1.2 = true →
  mom_connection os G mnow (d, "") (concat_str (dispatch_requests snow server j))
  = Closed ((handleCommit os mnow server (Job.ID j) (holding d j)).1.1,
      WriteReply (SendJobIDReply ReplyChoiceQueue (Job.ID j)) +:+ WriteReply SendOkReply +:+
      WriteReply (SendTextReply (Itoa (MomJob.SessionID (committing d server j).1.1)))).
Proof.
  intros Hj Hn Hc. pose proof (commit_run server d j) as Hrun. destruct (committing d server j) as [[j2 ok] w].
  cbn [fst snd] in *. subst ok. cbv zeta in Hrun. cbn [dispatch_requests concat_str foldr]. rewrite app_str_nil_r.
  rewrite (first_two snow) by done. destruct Hj as (Hs & Hi & _). rewrite commit_bytes.
  erewrite (mom_accepts os G mnow BatchReqCommit server ReadString (handleCommit os mnow server) (WriteString (Job.ID j)) _ _ (Job.ID j));
    [|by vm_compute|done|reflexivity| |exact Hrun].
  2:{ intros r. by apply wire_roundtrip. }
  rewrite mom_disconnects by done. rewrite Hrun, <- app_str_assoc. done.
Qed.

Lemma mom_fails snow server j d :
  sendable_job snow server j → Mom.jobs d !! Job.ID j = None → (committing d server j).1.2 = false →
  mom_connection os G mnow (d, "") (concat_str (take 3 (dispatch_requests snow server j)))
  = Closed ((handleCommit os mnow server (Job.ID j) (holding d j)).1.1,
      WriteReply (SendJobIDReply ReplyChoiceQueue (Job.ID j)) +:+ WriteReply SendOkReply +:+
      WriteReply (SendErrorReply PbsErrSystem 0)).
Proof.
  intros Hj Hn Hc. pose proof (commit_run server d j) as Hrun. destruct (committing d server j) as [[j2 ok] w].
  cbn [fst snd] in *. subst ok. cbv zeta in Hrun. cbn [dispatch_requests concat_str foldr take]. rewrite app_str_nil_r.
  rewrite (first_two snow) by done. destruct Hj as (Hs & Hi & _). unfold sendCommitToMOM.
  erewrite (mom_refuses os G mnow BatchReqCommit server ReadString (handleCommit os mnow server) (WriteString (Job.ID j)) _ (Job.ID j));
    [|by vm_compute|done|reflexivity| |exact Hrun].
  2:{ intros r. by apply wire_roundtrip. }
  rewrite Hrun, <- app_str_assoc. done.
Qed.

Lemma committing_effect server d j :
  MomJob.ID (committing d server j).1.1 = Job.ID j ∧
  ((committing d server j).1.2 = true → MomJob.State (committing d server j).1.1 = StateRunning).
Proof.
  unfold committing. destruct (commit_effect os (Mom.cfg d) mnow (committed os server (sent_job d j)) (world d)) as (Hid & _ & He).
  destruct (committed_same os server (sent_job d j)) as (Hid' & _). split; [exact (eq_trans Hid Hid')|].
  intros Hc. rewrite Hc in He. by destruct He.
Qed.

(** The state after a commit that has started the job. *)
Lemma commit_state server d j :
  (committing d server j).1.2 = true →
  let d' := (handleCommit os mnow server (Job.ID j) (holding d j)).1.1 in
  Mom.jobs d' = <[Job.ID j := (committing d server j).1.1]> (Mom.jobs d) ∧
  waits d' = waits d ++ [mkWait (Job.ID j) (next_obj d) 0] ∧ MomJob.State (committing d server j).1.1 = StateRunning.
Proof.
  intros Hc. pose proof (commit_run server d j) as Hrun.
  destruct (committing_effect server d j) as (Hid & He).
  destruct (committing d server j) as [[j2 ok] w]. cbn [fst snd] in *. subst ok. cbv zeta in Hrun. rewrite Hrun. cbn [fst].
  unfold holding. clear Hrun. generalize (sent_job d j). intros x. unfold put_job. rewrite Hid. destruct d. cbn.
  split_and!; [by rewrite insert_insert_eq|done|by apply He].
Qed.

(** C3: a dispatch that the node carries out: the requests the server writes for a job, read by
    a daemon that does not know the job, leave there the same job, with its owner, paths,
    variables and limits (the times and sizes parsed), running and waited for, and the
    replies of the daemon, read by the server, make it send exactly these requests and record
    the session id.  The job must have an owner and a queue, no comma in its variables (nor
    an equals sign in their names), and attributes that fit the wire; the case that the
    machine starts the process is meant here. *)
Theorem dispatch_reaches_mom env node s j d :
  let server := ServerName (ServerState.cfg s) in
  sendable_job (now env) server j → Mom.jobs d !! Job.ID j = None →
  (committing d server j).1.2 = true → is_pid (MomJob.SessionID (committing d server j).1.1) →
  ∃ d' j2 replies,
    mom_connection os G mnow (d, "") (concat_str (dispatch_requests (now env) server j)) = Closed (d', replies) ∧
    dispatchJobToMOM env (Some replies) j node s
      = (dispatch_requests (now env) server j, Some (upd_job (j <| Job.SessionID := MomJob.SessionID j2 |>) s)) ∧
    Mom.jobs d' = <[Job.ID j := j2]> (Mom.jobs d) ∧
    waits d' = waits d ++ [mkWait (Job.ID j) (next_obj d) 0] ∧ MomJob.State j2 = StateRunning ∧
    j2 = (commit_job os (Mom.cfg d) mnow (committed os server (sent_job d j)) (world d)).1.1.
Proof.
  intros server Hj Hn Hc Hp. rewrite (mom_takes (now env)) by done.
  destruct (commit_state server d j Hc) as (Hjobs & Hw & Hst).
  eexists _, (committing d server j).1.1, _. split; [reflexivity|]. split_and!; [|exact Hjobs|exact Hw|exact Hst|reflexivity].
  unfold dispatchJobToMOM. rewrite dialog_accepted; [done|by destruct Hj as (_ & ? & _)|done].
Qed.


End whole.

(** *** Instances *)

Definition link_job : Job.Job :=
  running_job <| Job.Script := "sleep 60" |> <| Job.EUser := "ann" |>
    <| Job.VariableList := {["HOME" := "/home/ann"; "LANG" := "C"]} |>
    <| Job.ResourceReq := {["walltime" := "01:00:00"; "mem" := "2gb"]} |>.

Lemma link_sendable snow : snow = now test_env → sendable_job snow (ServerName (ServerState.cfg running_server)) link_job.
Proof.
  intros ->. split_and!; try by_decide; try done.
Qed.

Lemma dispatch_reaches_mom_witness :
  ∃ d' j2 replies,
    mom_connection easy_os (λ _, None) mom_time (mom_idle, "")
      (concat_str (dispatch_requests (now test_env) (ServerName (ServerState.cfg running_server)) link_job)) = Closed (d', replies) ∧
    dispatchJobToMOM test_env (Some replies) link_job "n1" running_server
      = (dispatch_requests (now test_env) (ServerName (ServerState.cfg running_server)) link_job,
         Some (upd_job (link_job <| Job.SessionID := MomJob.SessionID j2 |>) running_server)) ∧
    MomJob.SessionID j2 = 112.
Proof.
  destruct (dispatch_reaches_mom easy_os (λ _, None) mom_time test_env "n1" running_server link_job mom_idle)
    as (d' & j2 & replies & H1 & H2 & _ & _ & _ & H3);
    [by apply link_sendable|by vm_compute|by vm_compute|by vm_compute|].
  exists d', j2, replies. split_and!; [exact H1|exact H2|]. rewrite H3. vm_compute. reflexivity.
Defined.


(** ** The end of a job, from the node to the server *)

(** *** Tokens are short *)

Lemma SHA256_sum_len msg : (length (SHA256.sum msg) ≤ 32)%nat.
Proof.
  assert (∀ n h ws, (length (SHA256.blocks n h ws) ≤ length h)%nat) as Hb.
  { intros n. induction n as [|n IH]; intros h ws; [done|]. cbn [SHA256.blocks]. destruct ws; [done|].
    etrans; [apply IH|]. unfold SHA256.block. cbv zeta. rewrite length_zip_with. lia. }
  assert (∀ l : list Z, length (l ≫= SHA256.bytes_be 4) = (4 * length l)%nat) as Hl.
  { intros l. induction l as [|x l IH]; [done|]. cbn [mbind list_bind]. rewrite length_app, IH. cbn. lia. }
  unfold SHA256.sum. cbv zeta. rewrite Hl. specialize (Hb (length (SHA256.words_of (SHA256.pad msg))) SHA256.init (SHA256.words_of (SHA256.pad msg))).
  change (length SHA256.init) with 8%nat in Hb. lia.
Qed.

Lemma token_wire user ts key : wire_str (ComputeToken user ts key).
Proof.
  assert (∀ l, String.length (bytes_string l) = length l) as Hb by (intros l; induction l as [|b l IH]; [done|]; cbn; by rewrite IH).
  assert (∀ s, String.length (EncodeToString s) = (2 * String.length s)%nat) as He
    by (intros s; induction s as [|c s IH]; [done|]; cbn [EncodeToString String.length]; rewrite IH; lia).
  unfold wire_str, ComputeToken, hmac_sha256, maxAlloc, len. cbv zeta. rewrite He, Hb.
  match goal with |- context [SHA256.sum ?m] => pose proof (SHA256_sum_len m) end. lia.
Qed.

(** *** The bytes of an obituary *)

Section obits.
Context `{MapRange}.

Definition obit_attrs (res : gmap string string) : list SvrAttrl :=
  (λ k, mkAttr "resources_used" true k (lookup_or "" k res) 1) <$> range res.

Lemma range_size {A} (m : gmap string A) : length (range m) = size m.
Proof. rewrite (range_order m), length_fmap. apply length_map_to_list. Qed.

Lemma obit_bytes id exit res :
  wire_attrl (obit_attrs res) →
  SendJobObit id exit res
  = frame (mkReq BatchReqJobObit "root" (WriteString id +:+ WriteInt exit +:+ WriteSvrAttrl (obit_attrs res)) "").
Proof.
  intros [Ha _]. unfold SendJobObit, frame, WriteSvrAttrl, obit_attrs in *. cbn [rq_type rq_user rq_body rq_ext].
  rewrite length_fmap, range_size. rewrite !app_str_assoc.
  change (WriteUint 0) with (WriteString ""). do 4 f_equal. f_equal.
  revert Ha. induction (range res) as [|k ks IH]; intros Ha; [done|]. cbn [fmap list_fmap foldr] in *.
  apply Forall_cons in Ha as [(_ & H1 & H2 & _) Ha]. cbn in H1, H2. rewrite IH by done. f_equal.
  unfold obit_attr, WriteSvrAttr. cbn [DisMessage.Name HasResc Resc Value Op]. cbv zeta.
  unfold wire_str, maxAlloc in *. pose proof (len_nonneg k). pose proof (len_nonneg (lookup_or "" k res)).
  rewrite uint64_id by (change (len "resources_used") with 14; unfold_int; lia).
  replace (len "resources_used" + len (lookup_or "" k res) + 2 + (len k + 1)) with (len "resources_used" + len k + len (lookup_or "" k res) + 3) by lia.
  by rewrite !app_str_assoc.
Qed.

(** The usage the server records: what the node reports, over what was known before. *)
Lemma apply_used_all res old : foldl apply_used old (obit_attrs res) = res ∪ old.
Proof.
  assert (∀ k, k ∈ range res ↔ is_Some (res !! k)) as He by (intros k; apply map_order_elem, range_order).
  assert (∀ ks old x, (∀ k, k ∈ ks → is_Some (res !! k)) →
    foldl apply_used old ((λ k, mkAttr "resources_used" true k (lookup_or "" k res) 1) <$> ks) !! x
    = if decide (x ∈ ks) then res !! x else old !! x) as Hf.
  { intros ks. induction ks as [|k ks IH]; intros o x Hks; [done|]. cbn [fmap list_fmap foldl].
    rewrite IH by (intros; by apply Hks; right). unfold apply_used. cbn [DisMessage.Name HasResc Resc Value].
    rewrite bool_decide_eq_true_2 by done. cbn [andb]. destruct (Hks k (list_elem_of_here _ _)) as [v Hv].
    destruct (decide (x ∈ ks)) as [Hx|Hx]; [by rewrite decide_True by (by right)|]. destruct (decide (x = k)) as [->|Hxk].
    - rewrite decide_True by apply list_elem_of_here. rewrite lookup_insert_eq. unfold lookup_or. by rewrite Hv.
    - rewrite decide_False by (rewrite elem_of_cons; naive_solver). by rewrite lookup_insert_ne. }
  apply map_eq. intros x. unfold obit_attrs. rewrite Hf by (intros k; apply He). rewrite lookup_union. case_decide as Hx.
  - apply He in Hx as [v Hv]. rewrite Hv. by destruct (old !! x).
  - rewrite He in Hx. apply eq_None_not_Some in Hx. rewrite Hx. by destruct (old !! x).
Qed.

End obits.

(** *** The connection that carries it *)

Section delivered.
Context `{MapRange} `{SliceSort} (env : Env) (LookupAddr : string → option (list string)) (remote : string).

(** The loop on one request. *)
Lemma handle_one_at reqType user s st st' rest :
  wire_uint reqType → wire_str user →
  Dispatch.dispatchRequest env remote false (mkHeader PbsBatchProtType PbsBatchProtVer reqType user) st s
    = (Ok (st', true), rest) →
  handle_one (Dispatch.dispatchRequest env remote false) (read_status env LookupAddr remote) st
    (writeHeader user reqType +:+ s)
  = if no_extension reqType then inr (st', rest) else
    match ReadReqExtend rest with
    | (Panic, _) => inl Crashed
    | (Err _, _) => inl (Closed st')
    | (Ok _, s) => inr (st', s)
    end.
Proof.
  intros Ht Hu Hd. destruct (wire_uint_int64 _ Ht) as [Ht1 Ht2]. unfold handle_one, writeHeader. rewrite !app_str_assoc, Ht1.
  rewrite (wire_roundtrip (get := ReadUint)) by by vm_compute. change (int64 PbsBatchProtType =? ISProtocolType) with false.
  change (negb (int64 PbsBatchProtType =? PbsBatchProtType)) with false. cbv iota.
  wire_step; [|by vm_compute]. wire_step; [|done]. wire_step; [|done]. unfold mret, Reader_ret. rewrite Ht2.
  change (int64 PbsBatchProtType) with PbsBatchProtType. change (int64 PbsBatchProtVer) with PbsBatchProtVer.
  rewrite Hd. cbn [ReqType]. by destruct (no_extension reqType).
Qed.

(** The token is accepted and the address of the connection belongs to root. *)
Lemma token_accepted mnow keyFile key auth s out rest :
  sendAuthToken mnow "root" keyFile = Some auth → DecodeString (TrimSpace keyFile) = Some key → authKey s = Some key →
  0 ≤ Unix mnow ≤ MaxInt64 → 0 ≤ Unix (now env) ≤ MaxInt64 → Z.abs (Unix (now env) - Unix mnow) ≤ MaxClockSkew →
  handle_one (Dispatch.dispatchRequest env remote false) (read_status env LookupAddr remote) (s, out) (auth +:+ rest)
  = inr ((s <| authMap := <[remote := "root"]> (authMap s) |>, out +:+ WriteReply SendOkReply), rest).
Proof.
  unfold sendAuthToken. intros Ha Hk Hs Hm Hn Hskew. rewrite Hk in Ha. injection Ha as <-.
  change (EncodeToString _) with (ComputeToken "root" (Unix mnow) key). rewrite uint64_id by (unfold_int; lia).
  assert (∀ ts token, (WriteUint 2 +:+ WriteUint 2 +:+ WriteUint 63 +:+ WriteString "root" +:+ WriteUint ts +:+ WriteString token +:+ WriteString "") +:+ rest
    = writeHeader "root" BatchReqAuthToken +:+ ((WriteUint ts +:+ WriteString token +:+ WriteString "") +:+ rest)) as ->
    by (intros; unfold writeHeader; by rewrite !app_str_assoc).
  erewrite handle_one_at; [reflexivity|done|done|]. unfold Dispatch.dispatchRequest.
  change (dispatch_job _ _ _ _) with (@None (Dispatch.St → string → result () (Dispatch.St * bool) * string)).
  change (dispatch_other _ _ _) with (Some (with_body ReadTokenBody PbseBadCred
    (λ b s, replied (handleAuthToken (now env) "root" remote b.1 b.2 s)))).
  cbn [default from_option id]. unfold with_body.
  assert (ReadTokenBody ((WriteUint (Unix mnow) +:+ WriteString (ComputeToken "root" (Unix mnow) key) +:+ WriteString "") +:+ rest)
    = (Ok (Unix mnow, ComputeToken "root" (Unix mnow) key), rest)) as ->.
  { unfold ReadTokenBody. rewrite !app_str_assoc. wire_step; [|done]. wire_step; [|apply token_wire].
    change (WriteString "") with (WriteReqExtend ""). unfold ignore at 1, mbind, Reader_bind.
    by rewrite (wire_roundtrip (get := ReadReqExtend)) by by vm_compute. }
  cbn [fst snd]. unfold handleAuthToken. rewrite Hs, int64_id by (unfold_int; lia).
  rewrite (proj2 (VerifyToken_iff (Unix (now env)) "root" (Unix mnow) (ComputeToken "root" (Unix mnow) key) key ltac:(unfold_int; lia)));
    [done|]. by split.
Qed.

Lemma obit_served id exit res s out :
  wire_str id → is_int64 exit → wire_attrl (obit_attrs res) → is_Some (authMap s !! remote) →
  handleConnection (Dispatch.dispatchRequest env remote false) (read_status env LookupAddr remote) (s, out) (SendJobObit id exit res)
  = let h := handleJobObit env remote false id exit (obit_attrs res) s in Closed (h.1.1, out +:+ WriteReply h.1.2).
Proof.
  intros Hi He Ha Hm. rewrite obit_bytes by done. unfold frame. cbn [rq_type rq_user rq_body rq_ext]. cbv zeta.
  assert ((handleJobObit env remote false id exit (obit_attrs res) s).2 = true) as Hk.
  { unfold handleJobObit. rewrite (bool_decide_eq_true_2 _ Hm). cbn [negb andb]. by destruct (get_job env id s). }
  rewrite handleConnection_eq by (intros *; apply dispatchRequest_len).
  erewrite handle_one_at; [|done|done|].
  2:{ unfold Dispatch.dispatchRequest.
      change (dispatch_job _ _ _ _) with (Some (with_body ReadJobObit PbseBadReq
        (λ b s, replied (handleJobObit env remote false b.1.1 b.1.2 b.2 s)))).
      cbv iota. eapply (with_body_run ReadJobObit _ _ (s, out) _ (WriteString "") (id, exit, obit_attrs res)); [|done|exact Hk].
      unfold ReadJobObit. rewrite !app_str_assoc. wire_step; [|done]. wire_step; [|done]. wire_step; [|done].
      by rewrite int64_id. }
  change (no_extension BatchReqJobObit) with false. cbv iota. change (ReadReqExtend (WriteString "")) with (@Ok io_error _ "", "").
  cbv iota beta. by rewrite handleConnection_eq by (intros *; apply dispatchRequest_len).
Qed.

(** The job after the handler. *)
Lemma obit_recorded id exit res s j :
  the_jobs s !! id = Some j → Job.ID j = id → trimmed id → is_Some (authMap s !! remote) →
  let h := handleJobObit env remote false id exit (obit_attrs res) s in
  the_jobs h.1.1 = <[id := obit_job env exit (obit_attrs res) j]> (the_jobs s) ∧ h.1.2 = SendOkReply.
Proof.
  intros Hj Hid Htr Hm. unfold handleJobObit. rewrite (bool_decide_eq_true_2 _ Hm). cbn [negb andb].
  rewrite (get_job_full env id s j Hj Htr). cbv zeta.
  destruct (obit_job_frame env exit (obit_attrs res) j) as (_ & Hi & _).
  generalize dependent (obit_job env exit (obit_attrs res) j). intros j1 Hi. cbn [ok_reply fst snd]. split; [|done].
  case_decide; autorewrite with server; by rewrite Hi, Hid.
Qed.

Lemma obit_job_used exit res j : Job.ResourceUsed (obit_job env exit (obit_attrs res) j) = res ∪ Job.ResourceUsed j.
Proof.
  unfold obit_job. cbv zeta.
  match goal with |- context [set_field _ ?x] => change (foldl apply_used (Job.ResourceUsed x) (obit_attrs res) = res ∪ Job.ResourceUsed j) end.
  rewrite apply_used_all. f_equal.
Qed.

(** C4: the end of a job reaches the server: a connection from any port that carries the
    authentication of a node that has the shared key and a clock at most five minutes off,
    and then the obituary the daemon sends, leaves the job complete, with the exit status and
    the resource usage of the obituary; no other job changes, and both answers are positive. *)
Theorem obit_completes_job mnow keyFile key auth id exit res s j :
  sendAuthToken mnow "root" keyFile = Some auth → DecodeString (TrimSpace keyFile) = Some key → authKey s = Some key →
  0 ≤ Unix mnow ≤ MaxInt64 → 0 ≤ Unix (now env) ≤ MaxInt64 → Z.abs (Unix (now env) - Unix mnow) ≤ MaxClockSkew →
  wire_str id → trimmed id → is_int64 exit → wire_attrl (obit_attrs res) →
  the_jobs s !! id = Some j → Job.ID j = id →
  ∃ s' j', serve env LookupAddr remote false s (auth +:+ SendJobObit id exit res)
             = Closed (s', WriteReply SendOkReply +:+ WriteReply SendOkReply) ∧
    the_jobs s' = <[id := j']> (the_jobs s) ∧ Job.State j' = StateComplete ∧ Job.ExitStatus j' = exit ∧
    Job.ResourceUsed j' = res ∪ Job.ResourceUsed j.
Proof.
  intros Ha Hk Hs Hm Hn Hskew Hi Htr He Hr Hj Hid. unfold serve.
  rewrite handleConnection_eq by (intros *; apply dispatchRequest_len).
  rewrite (token_accepted mnow keyFile key) by done. set (s1 := s <| authMap := _ |>).
  assert (is_Some (authMap s1 !! remote)) as Hauth by (exists "root"; apply lookup_insert_eq).
  rewrite obit_served by done. cbv zeta.
  destruct (obit_recorded id exit res s1 j Hj Hid Htr Hauth) as [Hjobs ->].
  destruct (obit_job_frame env exit (obit_attrs res) j) as (_ & _ & _ & _ & Hst & Hex).
  eexists _, (obit_job env exit (obit_attrs res) j). split; [reflexivity|]. split_and!; [exact Hjobs|exact Hst|exact Hex|apply obit_job_used].
Qed.

End delivered.

Definition link_key : string := "00ff10a0".
Definition keyed_server : Server := running_server <| authKey := DecodeString link_key |>.

Lemma obit_completes_job_witness :
  ∃ s' j', serve test_env (λ _, None) "10.0.0.5:40001" false keyed_server
             (default "" (sendAuthToken (time_Unix 1010) "root" (link_key +:+ String newline "")) +:+
              SendJobObit "1.srv" 3 {["walltime" := "00:01:30"]})
             = Closed (s', WriteReply SendOkReply +:+ WriteReply SendOkReply) ∧
    the_jobs s' = <["1.srv" := j']> (the_jobs keyed_server) ∧ Job.State j' = StateComplete ∧ Job.ExitStatus j' = 3 ∧
    Job.ResourceUsed j' = {["walltime" := "00:01:30"]} ∪ Job.ResourceUsed running_job.
Proof.
  apply (obit_completes_job test_env (λ _, None) "10.0.0.5:40001" (time_Unix 1010) (link_key +:+ String newline "")
    (default "" (DecodeString link_key)) (default "" (sendAuthToken (time_Unix 1010) "root" (link_key +:+ String newline "")))
    "1.srv" 3 {["walltime" := "00:01:30"]} keyed_server running_job); try by_decide; by vm_compute.
Defined.

(** ** The jobs a node runs, as the server asks for them *)

Section running.
Context `{MapRange} (os : Os) (G : World → option NodeStatus) (mnow : Time).

(** An id that survives a list with commas. *)
Definition plain_id (id : string) : Prop := id ≠ "" ∧ trimmed id ∧ has_byte "," id = false.

Lemma parse_running_list ids : Forall plain_id ids → parse_running (Join "," ids) = list_to_set ids.
Proof.
  intros Hf. unfold parse_running. destruct (decide (ids = [])) as [->|Hne]; [done|].
  rewrite Split_Join; [|done|eapply Forall_impl; [exact Hf|by intros x (_ & _ & ?)]]. f_equal.
  clear Hne. induction Hf as [|x l (Hx & Ht & _) Hf IH]; [done|]. cbn [fmap list_fmap]. rewrite Ht, filter_cons_True by done.
  by rewrite IH.
Qed.

(** The attribute [jobs] of the report. *)
Lemma mom_attrs_jobs now status m : mom_attrs os now status m !! "jobs" = Some (Join "," (MomJob.ID <$> RunningJobs m)).
Proof.
  unfold mom_attrs. destruct (RunningJobs m) as [|j l]; [|apply lookup_insert_eq].
  unfold BuildMomStatusAttrs, buildStatusString. rewrite !foldl_app. cbn [foldl]. by apply lookup_insert_eq.
Qed.

Lemma jobs_reply_text text rest : wire_str text → jobs_reply (WriteReply (SendTextReply text) +:+ rest) = (Ok (Some text), rest).
Proof.
  intros Ht. unfold jobs_reply, WriteReply, SendTextReply. cbn [rp_code rp_auxCode rp_choice rp_data].
  change (carries_data ReplyChoiceText) with true. cbv iota. rewrite !app_str_assoc.
  rewrite (ignore_wire (get := ReadUint)) by by vm_compute.
  rewrite (ignore_wire (get := ReadUint)) by by vm_compute.
  wire_step; [|by vm_compute].
  rewrite (ignore_wire (get := ReadInt)) by by vm_compute.
  unfold choice_or_zero. unfold mbind at 1, Reader_bind at 1. rewrite (wire_roundtrip (get := ReadUint)) by by vm_compute.
  change (uint64 ReplyChoiceText) with ReplyChoiceText. change (negb (PbsErrNone =? 0) || negb (ReplyChoiceText =? ReplyChoiceText)) with false.
  cbv iota. by wire_step.
Qed.

(** C8: the answer to the question for the running jobs is exact: the ids the server takes out
    of the daemon's reply are those of the jobs of the daemon's table that run or are exiting,
    and asking changes nothing on the node. *)
Theorem mom_reports_running server status d :
  wire_str server → mom_ok d → G (world d) = Some status → map_Forall (λ id _, plain_id id) (Mom.jobs d) →
  wire_str (Join "," (MomJob.ID <$> RunningJobs (Mom.jobs d))) →
  ∃ reply ids, mom_connection os G mnow (d, "") (jobs_query server) = Closed (d, reply) ∧
    momRunningJobs reply = Some ids ∧
    ∀ id, id ∈ ids ↔ ∃ j, Mom.jobs d !! id = Some j ∧ (MomJob.State j = StateRunning ∨ MomJob.State j = StateExiting).
Proof.
  intros Hs Hok Hg Hids Hw. set (text := Join "," (MomJob.ID <$> RunningJobs (Mom.jobs d))) in *.
  exists (WriteReply (SendTextReply text)), (list_to_set (MomJob.ID <$> RunningJobs (Mom.jobs d))).
  assert (handleMomStatus os G mnow "jobs" d = (d, SendTextReply text, true)) as Hh.
  { unfold handleMomStatus. rewrite Hg. cbv zeta. change (ToLower (TrimSpace "jobs")) with "jobs".
    rewrite decide_False by by intros [|]. by rewrite mom_attrs_jobs. }
  split_and!.
  - unfold jobs_query. change (WriteUint 0) with (WriteReqExtend ""). rewrite <- (app_str_nil_r (_ +:+ _ +:+ WriteReqExtend "")).
    rewrite (mom_accepts os G mnow batchMomStatusRequest server (read_or "" ReadString) (handleMomStatus os G mnow) (WriteString "jobs") "" (d, "")
      "jobs" d (SendTextReply text)); [done|by vm_compute|done|reflexivity| |exact Hh].
    intros rest. unfold read_or. by rewrite (wire_roundtrip (get := ReadString)) by by vm_compute.
  - unfold momRunningJobs. rewrite <- (app_str_nil_r (WriteReply _)), jobs_reply_text by done. cbn [fst]. f_equal. apply parse_running_list.
    apply Forall_fmap, Forall_forall. intros j [Hj _]%elem_RunningJobs; [|apply (mk_ids d Hok)]. by apply (Hids (MomJob.ID j) j).
  - intros id. rewrite elem_of_list_to_set, list_elem_of_fmap. split.
    + intros (j & -> & [Hj Hst]%elem_RunningJobs); [|apply (mk_ids d Hok)]. by exists j.
    + intros (j & Hj & Hst). pose proof (mk_ids d Hok _ _ Hj) as Hid. exists j. split; [done|].
      apply elem_RunningJobs; [apply (mk_ids d Hok)|]. by rewrite Hid.
Qed.

End running.

Definition link_status : NodeStatus := mkNodeStatus "x86_64" "Linux" "6.1" 4 (of_int 0) 1024 512 1024 0 0 10.

Lemma mom_reports_running_witness :
  ∃ reply ids, mom_connection easy_os (λ _, Some link_status) mom_time (mom_busy, "") (jobs_query "srv") = Closed (mom_busy, reply) ∧
    momRunningJobs reply = Some ids ∧ "7.srv" ∈ ids.
Proof.
  destruct (mom_reports_running easy_os (λ _, Some link_status) mom_time "srv" link_status mom_busy) as (reply & ids & H1 & H2 & H3);
    [by vm_compute|apply (reachable_mom_ok easy_os (λ _, None) mom_config), busy_reachable|done| |by vm_compute|].
  - intros id j Hj. assert (mom_busy.(Mom.jobs) = {["7.srv" := default (NewJob 0 0 "") (Mom.jobs mom_busy !! "7.srv")]}) as E by (vm_compute; reflexivity).
    rewrite E in Hj. apply lookup_singleton_Some in Hj as [<- _]. by_decide.
  - exists reply, ids. split_and!; [exact H1|exact H2|]. apply H3. eexists. split; [vm_compute; reflexivity|]. left. reflexivity.
Defined.

(** The daemon's own status report has none of the keys the server reports itself. *)
Lemma mom_report_entries now status host first :
  Forall (λ item, match cut "=" item with Some (k, v) => k = "state" ∨ mom_entry k v | None => True end)
    (status_items host first (buildStatusString now status host)).
Proof.
  unfold status_items, buildStatusString.
  destruct first, (0 <? TotalSwap status); repeat (apply Forall_cons; split; [cbn; first [by left | right; by_decide]|]);
    by apply Forall_nil.
Qed.

Lemma mom_report_status t now status host first n :
  map_Forall (λ k v, k = "state" ∨ mom_entry k v) (Status n) →
  map_Forall (λ k v, k = "state" ∨ mom_entry k v)
    (Status (UpdateFromStatus t (status_items host first (buildStatusString now status host)) n)).
Proof. apply UpdateFromStatus_report, mom_report_entries. Qed.

(** The comma that separates the variables is not quoted: the second half of a value is lost
    on the way to the node. *)
Example comma_splits_variable :
  let j := link_job <| Job.VariableList := {["PATHS" := "/a,/b"]} |> in
  VariableList (foldl applyJobAttribute (NewJob 0 0 "1.srv") (to_svr <$> buildMOMJobAttrs 0 j)) = {["PATHS" := "/a"]}.
Proof. vm_compute. reflexivity. Qed.
