(* ===== verification/Acct.v ===== *)
(** * Accounting records: internal/acct/acct.go

    The lines of the accounting files, one for each event of a job, and [buildJobInfo] of
    internal/server/server.go, which takes them from the job.  The file itself and the clock's
    text form ([01/02/2006 15:04:05]) are arguments. *)

From S2P Require Import Prelude GoStd Job.

Local Open Scope string_scope.
Local Open Scope list_scope.
Local Open Scope Z_scope.

Definition RecordQueue : string := "Q".
Definition RecordStart : string := "S".
Definition RecordEnd : string := "E".
Definition RecordDelete : string := "D".
Definition RecordAbort : string := "A".
Definition RecordRerun : string := "R".

Record JobInfo := mkInfo {
  i_User : string; i_Group : string; i_Account : string; i_JobName : string; i_Queue : string;
  i_CreateTime : Z; i_QueueTime : Z; i_EligTime : Z; i_StartTime : Z; i_EndTime : Z;
  i_ExitStatus : Z; i_ExecHost : string; i_SessionID : Z;
  i_ResourceReq : gmap string string; i_ResourceUsed : gmap string string;
}.
#[export] Instance eta_JobInfo : Eta JobInfo := λ i,
  mkInfo (i_User i) (i_Group i) (i_Account i) (i_JobName i) (i_Queue i) (i_CreateTime i) (i_QueueTime i) (i_EligTime i)
    (i_StartTime i) (i_EndTime i) (i_ExitStatus i) (i_ExecHost i) (i_SessionID i) (i_ResourceReq i) (i_ResourceUsed i).

(** internal/server/server.go *)
Definition buildJobInfo (j : Job) : JobInfo :=
  let start := negb (IsZero (Job.StartTime j)) in
  mkInfo (Job.Owner j) (Job.EGroup j)
    (if decide (Job.Account j = "") then lookup_or "" "Account_Name" (Job.Attrs j) else Job.Account j)
    (Job.Name j) (Job.Queue j) (Unix (Job.CreateTime j)) (Unix (Job.QueueTime j))
    (if start then Unix (Job.StartTime j) else Unix (Job.QueueTime j))
    (if start then Unix (Job.StartTime j) else 0)
    (if IsZero (Job.CompTime j) then 0 else Unix (Job.CompTime j))
    (Job.ExitStatus j) (Job.ExecHost j) (Job.SessionID j) (Job.ResourceReq j) (Job.ResourceUsed j).

Definition extractUser (owner : string) : string :=
  match cut "@" owner with Some (user, _) => user | None => owner end.

(** ** Messages

    A message is [key=value] pairs with a blank between them, in the order of the format. *)

Definition pair_text (kv : string * string) : string := kv.1 +:+ "=" +:+ kv.2.
Definition message (kvs : list (string * string)) : string := Join " " (pair_text <$> kvs).

Section acct.
Context `{MapRange}.

Definition formatResourceReq (req : gmap string string) : list (string * string) :=
  (λ k, ("Resource_List." +:+ k, lookup_or "" k req)) <$> range req.
Definition formatResourceUsed (used : gmap string string) : list (string * string) :=
  (λ k, ("resources_used." +:+ k, lookup_or "" k used)) <$> range used.

(** The pairs every record begins with. *)
Definition info_head (i : JobInfo) : list (string * string) :=
  [("user", extractUser (i_User i)); ("group", i_Group i); ("jobname", i_JobName i); ("queue", i_Queue i);
   ("ctime", FormatInt (i_CreateTime i)); ("qtime", FormatInt (i_QueueTime i))].
Definition opt_pair (key value : string) : list (string * string) := if decide (value = "") then [] else [(key, value)].

Definition RecordQueued (i : JobInfo) : string * string :=
  (RecordQueue, message (info_head i ++ formatResourceReq (i_ResourceReq i))).

Definition RecordStarted (i : JobInfo) : string * string :=
  (RecordStart, message (info_head i ++
    [("etime", FormatInt (i_EligTime i)); ("start", FormatInt (i_StartTime i)); ("exec_host", i_ExecHost i)]
    ++ opt_pair "account" (i_Account i) ++ formatResourceReq (i_ResourceReq i))).

(** The pairs of an end record. *)
Definition ended_pairs (i : JobInfo) : list (string * string) :=
  info_head i ++
  [("etime", FormatInt (i_EligTime i)); ("start", FormatInt (i_StartTime i)); ("end", FormatInt (i_EndTime i));
   ("Exit_status", FormatInt (i_ExitStatus i))]
  ++ opt_pair "exec_host" (i_ExecHost i)
  ++ (if i_SessionID i =? 0 then [] else [("session", FormatInt (i_SessionID i))])
  ++ opt_pair "account" (i_Account i)
  ++ formatResourceReq (i_ResourceReq i) ++ formatResourceUsed (i_ResourceUsed i).
Definition RecordEnded (i : JobInfo) : string * string := (RecordEnd, message (ended_pairs i)).

Definition RecordDeleted (i : JobInfo) : string * string :=
  (RecordDelete, message (info_head i ++ opt_pair "exec_host" (i_ExecHost i))).

Definition RecordAborted (i : JobInfo) : string * string :=
  (RecordAbort, message (info_head i ++ [("Exit_status", FormatInt (i_ExitStatus i))] ++ opt_pair "exec_host" (i_ExecHost i))).

Definition RecordRerun_ (i : JobInfo) : string * string := (RecordRerun, message (info_head i)).

(** The line of a record. *)
Definition Record_ (ts jobID : string) (r : string * string) : string :=
  ts +:+ ";" +:+ r.1 +:+ ";" +:+ jobID +:+ ";" +:+ r.2 +:+ String newline "".

End acct.
