(* ===== verification/Cost.v ===== *)
(** * Costs: internal/cost/parse.go, internal/cost/cost.go and the bills of cmd/pbs_cost

    The end records of the accounting files are turned into the use of nodes by accounts, and
    the bill of each node is shared among the accounts that used it.  The arithmetic is a
    parameter: the program computes with [float64], and with exact numbers the shares add up. *)

From Stdlib Require Import SpecFloat Qcanon.
From S2P Require Import Prelude GoStd FloatStd NetStd ServerConfig MomConfig Job Acct.

Local Open Scope string_scope.
Local Open Scope list_scope.
Local Open Scope Z_scope.

(** ** Arithmetic *)

Class Num (K : Type) := {
  n_zero : K;
  n_add : K → K → K;
  n_mul : K → K → K;
  n_div : K → K → K;
  n_nonpos : K → bool;   (* at most zero *)
}.
#[export] Instance Num_float64 : Num float64 :=
  {| n_zero := S754_zero false; n_add := fadd; n_mul := fmul; n_div := fdiv; n_nonpos x := SFleb x (S754_zero false) |}.
#[export] Instance Num_Qc : Num Qc :=
  {| n_zero := 0%Qc; n_add := Qcplus; n_mul := Qcmult; n_div := Qcdiv;
     n_nonpos x := match Qccompare x 0%Qc with Gt => false | _ => true end |}.

(** ** Reading the accounting files *)

Record Usage (K : Type) := mkUsage { u_Account : string; u_Node : string; u_CoreSeconds : K }.
Arguments mkUsage {K} _ _ _.
Arguments u_Account {K} _.
Arguments u_Node {K} _.
Arguments u_CoreSeconds {K} _.

Definition add_pair (m : gmap string string) (tok : string) : gmap string string :=
  match cut "=" tok with
  | Some (k, v) => if decide (k = "") then m else <[k := v]> m
  | None => m
  end.
Definition parseKeyValues (msg : string) : gmap string string := foldl add_pair ∅ (Fields msg).

Definition host_of (tok : string) : string :=
  let tok := TrimSpace tok in match cut "/" tok with Some (h, _) => h | None => tok end.
Definition nodesFromExecHost (execHost : string) : list string :=
  if decide (execHost = "") then [""]
  else match filter (λ n, n ≠ "") (host_of <$> Split "+" execHost) with
       | [] => [""]
       | nodes => nodes
       end.

(** The number of processors of a job: used, else requested, else one. *)
Definition positive_float (v : string) : option float64 :=
  match ParseFloat v with Some f => if SFltb (S754_zero false) f then Some f else None | None => None end.
Definition cpus_of (kv : gmap string string) : float64 :=
  match kv !! "resources_used.ncpus" with
  | Some v => default (of_int 1) (positive_float v)
  | None =>
    match kv !! "Resource_List.ncpus" with
    | Some v => default (of_int 1) (positive_float v)
    | None => of_int 1
    end
  end.

Definition fsub : float64 → float64 → float64 := SFsub 53 1024.

(** The use of nodes that one line shows. *)
Definition parse_record (line : string) : list (Usage float64) :=
  match Split ";" line with
  | _ :: "E" :: _ :: msg :: _ =>
    let kv := parseKeyValues msg in
    match kv !! "start" ≫= ParseFloat, kv !! "end" ≫= ParseFloat with
    | Some start, Some stop =>
      if SFleb stop start then []
      else
        let coreSec := fmul (cpus_of kv) (fsub stop start) in
        let nodes := nodesFromExecHost (lookup_or "" "exec_host" kv) in
        let per := fdiv coreSec (of_int (Z.of_nat (length nodes))) in
        (λ node, mkUsage (lookup_or "" "account" kv) node per) <$> nodes
    | _, _ => []
    end
  | _ => []
  end.

(** [None] when a line does not fit the scanner's buffer. *)
Definition ParseAccounting (text : string) : option (list (Usage float64)) :=
  let '(lines, ok) := ScanLines text in
  if (ok : bool) then Some (lines ≫= parse_record) else None.

(** ** Sharing the bills *)

Section allocate.
Context {K : Type} `{Num K} `{MapRange}.

Record Bill := mkBill { b_Node : string; b_USD : K }.
Record Allocation := mkAllocation {
  Accounts : gmap string K;
  Overhead : K;
  ByNode : gmap string (gmap string K);
  CoreSeconds : gmap string K;
}.

Definition acctKey (a : string) : string := if decide (a = "") then "(unknown)" else a.

(** [m[k] += v] *)
Definition bump (k : string) (v : K) (m : gmap string K) : gmap string K :=
  <[k := n_add (default n_zero (m !! k)) v]> m.
Definition bump2 (n k : string) (v : K) (m : gmap string (gmap string K)) : gmap string (gmap string K) :=
  <[n := bump k v (default ∅ (m !! n))]> m.

(** What is used of each node by each account, of each node, and by each account. *)
Record Totals := mkTotals { t_used : gmap string (gmap string K); t_node : gmap string K; t_acct : gmap string K }.
Definition add_usage (t : Totals) (u : Usage K) : Totals :=
  mkTotals (bump2 (u_Node u) (u_Account u) (u_CoreSeconds u) (t_used t))
    (bump (u_Node u) (u_CoreSeconds u) (t_node t)) (bump (acctKey (u_Account u)) (u_CoreSeconds u) (t_acct t)).
Definition totals (usages : list (Usage K)) : Totals := foldl add_usage (mkTotals ∅ ∅ ∅) usages.

(** The share of one account in a bill. *)
Definition charge_account (usd total : K) (node : string) (accts : gmap string K) (res : Allocation) (acct : string) : Allocation :=
  let amt := n_mul usd (n_div (default n_zero (accts !! acct)) total) in
  mkAllocation (bump (acctKey acct) amt (Accounts res)) (Overhead res) (bump2 node acct amt (ByNode res)) (CoreSeconds res).

Definition charge_bill (t : Totals) (res : Allocation) (b : Bill) : Allocation :=
  let total := default n_zero (t_node t !! b_Node b) in
  if n_nonpos total then mkAllocation (Accounts res) (n_add (Overhead res) (b_USD b)) (ByNode res) (CoreSeconds res)
  else
    let accts := default ∅ (t_used t !! b_Node b) in
    let res := mkAllocation (Accounts res) (Overhead res) (<[b_Node b := default ∅ (ByNode res !! b_Node b)]> (ByNode res)) (CoreSeconds res) in
    foldl (charge_account (b_USD b) total (b_Node b) accts) res (range accts).

Definition Allocate (usages : list (Usage K)) (bills : list Bill) : Allocation :=
  let t := totals usages in
  foldl (charge_bill t) (mkAllocation ∅ n_zero ∅ (t_acct t)) bills.

End allocate.
Arguments Bill K : clear implicits.
Arguments mkBill {K} _ _.
Arguments Allocation K : clear implicits.

(** ** The bills of cmd/pbs_cost *)

Section bills.
Context `{MapRange}.

(** The items of a list [a=x,b=y] that have a key and a value, trimmed. *)
Definition map_items (s : string) : list (string * string) :=
  omap (λ tok, let tok := TrimSpace tok in
    if decide (tok = "") then None
    else '(k, v) ← cut "=" tok; Some (TrimSpace k, TrimSpace v)) (Split "," s).
Definition parseStringMap (s : string) : gmap string string := foldl (λ m kv, <[kv.1 := kv.2]> m) ∅ (map_items s).
Definition parseFloatMap (s : string) : gmap string float64 :=
  foldl (λ m kv, match ParseFloat kv.2 with Some v => <[kv.1 := v]> m | None => m end) ∅ (map_items s).

Definition nodeSet (usages : list (Usage float64)) : gset string := list_to_set (u_Node <$> usages).

(** The bill of one node, and whether its price is a guess. *)
Definition bill_of (exact prices uptime : gmap string float64) (skus : gmap string string) (defPrice : float64) (node : string) :
    Bill float64 * bool :=
  match exact !! node with
  | Some v => (mkBill node v, false)
  | None =>
    let h := default (S754_zero false) (uptime !! node) in
    let p := default (S754_zero false) (prices !! lookup_or "" node skus) in
    if SFeqb p (S754_zero false) then (mkBill node (fmul h defPrice), bool_decide (skus !! node = None))
    else (mkBill node (fmul h p), false)
  end.

(** The names of the nodes, as the keys of a map. *)
Definition bill_names (nodes : gset string) (exact uptime : gmap string float64) (skus : gmap string string) : gmap string () :=
  gset_to_gmap () (nodes ∪ dom exact ∪ dom uptime ∪ dom skus).

(** The bills and the nodes without a known kind, for which the report has a note. *)
Definition buildBills (nodes : gset string) (billUSD price nodeSKU uptimeHours : string) (defPrice : float64) :
    list (Bill float64) * list string :=
  let exact := parseFloatMap billUSD in
  let prices := parseFloatMap price in
  let skus := parseStringMap nodeSKU in
  let uptime := parseFloatMap uptimeHours in
  let names := filter (λ n, n ≠ "") (range (bill_names nodes exact uptime skus)) in
  let bills := bill_of exact prices uptime skus defPrice <$> names in
  (bills.*1, omap (λ bn : Bill float64 * bool, if bn.2 then Some (b_Node bn.1) else None) bills).

End bills.
