(* ===== verification/CostSpec.v ===== *)
(** * What the cost report guarantees

    The shares of the bills add up to the bills, in exact arithmetic; and the end record the
    server writes for a job is read as the use of its nodes by its account. *)

From Stdlib Require Import SpecFloat Qcanon Field.
From S2P Require Import Prelude GoStd FloatStd NetStd ServerConfig MomConfig Job Queue Route ServerState Exec Acct Cost.

Local Open Scope string_scope.
Local Open Scope list_scope.

(** ** Sums *)

Section sums.
Local Open Scope Qc_scope.

Definition lsum (l : list Qc) : Qc := foldr Qcplus 0 l.
Definition msum (m : gmap string Qc) : Qc := lsum (map_to_list m).*2.

#[export] Instance lsum_perm : Proper ((≡ₚ) ==> (=)) lsum.
Proof. intros l1 l2 Hp. unfold lsum. induction Hp; cbn; [done|by rewrite IHHp|ring|by etrans]. Qed.

Lemma lsum_cons x l : lsum (x :: l) = x + lsum l.
Proof. done. Qed.
Lemma lsum_app l1 l2 : lsum (l1 ++ l2) = lsum l1 + lsum l2.
Proof. unfold lsum. induction l1 as [|x l IH]; cbn; [ring|]. rewrite IH. ring. Qed.

Lemma msum_insert k v m : m !! k = None → msum (<[k := v]> m) = v + msum m.
Proof. intros Hk. unfold msum. by rewrite (map_to_list_insert m k v Hk). Qed.

Lemma msum_bump k v m : msum (bump k v m) = msum m + v.
Proof.
  unfold bump. destruct (m !! k) as [x|] eqn:Hk; cbn [default from_option n_add Num_Qc n_zero id].
  - rewrite <- (insert_id m k x Hk) at 2. rewrite <- insert_delete_eq, <- (insert_delete_eq m k x).
    rewrite !msum_insert by apply lookup_delete_eq. ring.
  - rewrite msum_insert by done. ring.
Qed.

Lemma msum_range `{MapRange} (m : gmap string Qc) : lsum ((λ k, default 0 (m !! k)) <$> range m) = msum m.
Proof.
  unfold msum. rewrite (range_order m), <- list_fmap_compose. f_equal. apply list_fmap_ext. intros i [k v] Hi. cbn.
  apply list_elem_of_lookup_2, elem_of_map_to_list in Hi. by rewrite Hi.
Qed.

Lemma lsum_scale a b l : lsum ((λ x, a * (x / b)) <$> l) = a * (lsum l / b).
Proof. unfold lsum. induction l as [|x l IH]; cbn; unfold Qcdiv in *; [ring|]. rewrite IH. ring. Qed.

End sums.

(** ** Conservation *)

Section conserves.
Context `{MapRange}.
Local Open Scope Qc_scope.

Definition node_sum (n : string) (m : gmap string (gmap string Qc)) : Qc := msum (default ∅ (m !! n)).

Lemma node_sum_bump2 n n' k v m : node_sum n' (bump2 n k v m) = node_sum n' m + (if decide (n = n') then v else 0).
Proof.
  unfold node_sum, bump2. case_decide as He.
  - subst. rewrite lookup_insert_eq. apply msum_bump.
  - rewrite lookup_insert_ne by done. ring.
Qed.

(** The total of a node is the sum over its accounts. *)
Lemma totals_node usages n : default 0 (t_node (totals (K := Qc) usages) !! n) = node_sum n (t_used (totals usages)).
Proof.
  unfold totals.
  assert (∀ t, (∀ n, default 0 (t_node t !! n) = node_sum n (t_used t)) →
    default 0 (t_node (foldl add_usage t usages) !! n) = node_sum n (t_used (foldl add_usage t usages))) as Hf.
  { induction usages as [|u l IH]; intros t Ht; [apply Ht|]. cbn [foldl]. apply IH. intros n'. cbn [add_usage t_node t_used].
    rewrite node_sum_bump2, <- Ht. unfold bump. case_decide as He.
    - subst. by rewrite lookup_insert_eq.
    - rewrite lookup_insert_ne by done. ring. }
  by apply Hf.
Qed.

(** The shares of some accounts in a bill. *)
Lemma charge_accounts usd total node accts ks res :
  let res' := foldl (charge_account usd total node accts) res ks in
  let amount := lsum ((λ k, usd * (default 0 (accts !! k) / total)) <$> ks) in
  msum (Accounts res') = msum (Accounts res) + amount ∧ Overhead res' = Overhead res ∧
  ∀ n, node_sum n (ByNode res') = node_sum n (ByNode res) + (if decide (node = n) then amount else 0).
Proof.
  cbv zeta. revert res. induction ks as [|k ks IH]; intros res; cbn [foldl fmap list_fmap].
  - split_and!; [cbn; ring|done|]. intros n. case_decide; cbn; ring.
  - destruct (IH (charge_account usd total node accts res k)) as (H1 & H2 & H3). rewrite H1, H2. unfold charge_account at 1.
    cbn [Accounts Overhead ByNode]. rewrite msum_bump, !lsum_cons. split_and!; [cbn [n_mul n_div Num_Qc n_zero]; ring|done|].
    intros n. rewrite H3. unfold charge_account. cbn [ByNode]. rewrite node_sum_bump2. case_decide; cbn [n_mul n_div Num_Qc n_zero]; ring.
Qed.

Definition billed (n : string) (bills : list (Bill Qc)) : list (Bill Qc) := filter (λ b, b_Node b = n) bills.
Definition in_use (usages : list (Usage Qc)) (n : string) : bool := negb (n_nonpos (default 0 (t_node (totals usages) !! n))).

(** One bill. *)
Lemma charge_bill_sum usages res b :
  let res' := charge_bill (totals usages) res b in
  msum (Accounts res') + Overhead res' = msum (Accounts res) + Overhead res + b_USD b ∧
  ∀ n, node_sum n (ByNode res') = node_sum n (ByNode res) + (if decide (b_Node b = n) then if in_use usages n then b_USD b else 0 else 0).
Proof.
  cbv zeta. unfold charge_bill, in_use. destruct (n_nonpos (default n_zero (t_node (totals usages) !! b_Node b))) eqn:Hp.
  - cbn [Accounts Overhead ByNode n_add Num_Qc]. split; [ring|]. intros n. case_decide as He; [|ring]. subst n.
    change (default 0) with (default (n_zero (K := Qc))). rewrite Hp. cbn. ring.
  - cbv zeta. set (total := default n_zero (t_node (totals usages) !! b_Node b)) in *.
    set (accts := default ∅ (t_used (totals usages) !! b_Node b)).
    match goal with |- context [foldl (charge_account _ _ _ _) ?r _] => set (res1 := r) end.
    destruct (charge_accounts (b_USD b) total (b_Node b) accts (range accts) res1) as (H1 & H2 & H3).
    assert (lsum ((λ k, b_USD b * (default 0 (accts !! k) / total)) <$> range accts) = b_USD b) as Hs.
    { change ((λ k, b_USD b * (default 0 (accts !! k) / total)) <$> range accts)
        with ((λ x, b_USD b * (x / total)) ∘ (λ k, default 0 (accts !! k)) <$> range accts).
      rewrite list_fmap_compose, lsum_scale, msum_range. change (msum accts) with (node_sum (b_Node b) (t_used (totals usages))).
      rewrite <- totals_node. change (default 0) with (default (n_zero (K := Qc))). fold total.
      assert (total ≠ 0) as Hne by (intros E; rewrite E in Hp; by vm_compute in Hp). by field. }
    rewrite Hs in H1, H3. rewrite H1, H2. cbn [Accounts Overhead res1]. split; [ring|]. intros n. rewrite H3. f_equal.
    + unfold res1, node_sum. cbn [ByNode]. destruct (decide (n = b_Node b)) as [->|Hn].
      * by rewrite lookup_insert_eq.
      * by rewrite lookup_insert_ne.
    + case_decide as He; [|done]. subst n. change (default 0) with (default (n_zero (K := Qc))). fold total. by rewrite Hp.
Qed.

(** C40: every dollar of the bills is charged once: computed exactly, what the accounts pay and
    the overhead add up to the bills, and what the accounts pay for a node that was used adds
    up to the bills of that node. *)
Theorem allocate_conserves (usages : list (Usage Qc)) (bills : list (Bill Qc)) :
  let res := Allocate usages bills in
  msum (Accounts res) + Overhead res = lsum (b_USD <$> bills) ∧
  ∀ n, in_use usages n = true → node_sum n (ByNode res) = lsum (b_USD <$> billed n bills).
Proof.
  cbv zeta. unfold Allocate. set (r0 := mkAllocation _ _ _ _).
  assert (∀ r, let res := foldl (charge_bill (totals usages)) r bills in
    msum (Accounts res) + Overhead res = msum (Accounts r) + Overhead r + lsum (b_USD <$> bills) ∧
    ∀ n, in_use usages n = true → node_sum n (ByNode res) = node_sum n (ByNode r) + lsum (b_USD <$> billed n bills)) as Hf.
  { induction bills as [|b l IH]; intros r; cbn [foldl fmap list_fmap]; cbv zeta.
    - split; [cbn; ring|]. intros n _. cbn. ring.
    - destruct (IH (charge_bill (totals usages) r b)) as [H1 H2]. destruct (charge_bill_sum usages r b) as [H3 H4].
      rewrite H1, H3. rewrite lsum_cons. split; [ring|]. intros n Hn. rewrite (H2 n Hn), H4, Hn. unfold billed.
      rewrite filter_cons. case_decide as He; cbn [fmap list_fmap]; [rewrite lsum_cons|]; ring. }
  destruct (Hf r0) as [H1 H2]. change (msum (Accounts r0)) with 0 in H1. change (Overhead r0) with 0 in H1.
  split; [rewrite H1; ring|]. intros n Hn. rewrite (H2 n Hn). change (node_sum n (ByNode r0)) with 0. ring.
Qed.

End conserves.

(** ** Numbers in records *)

Local Open Scope Z_scope.

Lemma digit_cases c : is_digit c = true → c ∈ ["0"; "1"; "2"; "3"; "4"; "5"; "6"; "7"; "8"; "9"]%char.
Proof. destruct c as [[] [] [] [] [] [] [] []]; vm_compute; intros E; first [discriminate E | repeat constructor]. Qed.

Lemma mantissa_digits b m s :
  all_bytes is_digit s = true → mantissa false false b m 0 s = (dec_value m s, 0, b || negb (bool_decide (s = "")), "").
Proof.
  revert b m. induction s as [|c s IH]; intros b m; [by destruct b|]. cbn [all_bytes]. intros [Hc Hs]%andb_true_iff. cbn [mantissa dec_value].
  rewrite (decide_False (P := c = "_"%char)), (decide_False (P := c = "."%char)) by (intros ->; by vm_compute in Hc).
  assert (base_digit c = digit_val c) as -> by (unfold base_digit; by rewrite Hc).
  assert ((digit_val c <? 10) = true) as -> by (unfold is_digit in Hc; unfold digit_val; bool_to_prop; lia).
  rewrite IH by done. by destruct b.
Qed.

Lemma special_digit c s : is_digit c = true → special (String c s) = None.
Proof.
  intros Hc. unfold special. cbv zeta. cbn [ToLower].
  assert (lower_byte c = c) as -> by (apply digit_cases in Hc; repeat (apply elem_of_cons in Hc as [->|Hc]; [done|]); by apply elem_of_nil in Hc).
  rewrite !decide_False; [done|..]; rewrite ?elem_of_cons, ?elem_of_nil; intros E; destruct_or?; simplify_eq; by vm_compute in Hc.
Qed.

Lemma ParseFloat_FormatInt n : 0 < n < 2 ^ 53 → ParseFloat (FormatInt n) = Some (of_int n).
Proof.
  intros Hn. unfold FormatInt. rewrite (proj2 (Z.ltb_ge n 0)) by lia.
  assert (dec_value 0 (FormatUint n) = n) as Hv by (apply dec_value_fmt_digits; lia).
  pose proof (FormatUint_digits n ltac:(lia)) as Hd. pose proof (FormatUint_nonempty n) as Hne.
  destruct (FormatUint n) as [|c s] eqn:E; [done|]. pose proof Hd as [Hc Hs]%andb_true_iff. unfold ParseFloat. rewrite special_digit by done.
  assert (match String c s with String "-" t => (true, t) | String "+" t => (false, t) | _ => (false, String c s) end = (false, String c s)) as ->
    by (apply digit_cases in Hc; repeat (apply elem_of_cons in Hc as [->|Hc]; [done|]); by apply elem_of_nil in Hc).
  assert (match String c s with
          | String "0" (String p (String c0 u)) => if decide (lower_byte p = "x"%char) then (true, String c0 u) else (false, String c s)
          | _ => (false, String c s) end = (false, String c s)) as ->.
  { destruct s as [|p [|c0 u]]; [by repeat case_match..|]. cbn [all_bytes] in Hs. apply andb_true_iff in Hs as [Hp _].
    rewrite decide_False; [by repeat case_match|].
    intros Hx. apply digit_cases in Hp. repeat (apply elem_of_cons in Hp as [->|Hp]; [by vm_compute in Hx|]). by apply elem_of_nil in Hp. }
  rewrite mantissa_digits by done. rewrite Hv. cbn [orb negb]. change (bool_decide (String c s = "")) with false. cbn [negb mbind option_bind].
  rewrite (all_bytes_has is_digit "_" (String c s)) by done. rewrite bool_decide_eq_true_2 by done. cbn [negb orb andb].
  rewrite (proj2 (Z.eqb_neq n 0)) by lia. unfold nearest. cbn [Z.sub Z.leb Z.compare]. rewrite Z.mul_1_r.
  by destruct (of_int_exact n Hn) as (m & e & -> & _).
Qed.

(** ** Pairs *)

Fixpoint last_val (k : string) (kvs : list (string * string)) : option string :=
  match kvs with
  | [] => None
  | (k', v) :: l => match last_val k l with Some x => Some x | None => if decide (k' = k) then Some v else None end
  end.

Lemma last_val_app k l1 l2 : last_val k (l1 ++ l2) = match last_val k l2 with Some v => Some v | None => last_val k l1 end.
Proof. induction l1 as [|[k' v] l IH]; cbn; [by destruct (last_val k l2)|]. rewrite IH. by destruct (last_val k l2). Qed.

(** A pair that survives the message. *)
Definition plain_pair (kv : string * string) : Prop :=
  has_byte "=" kv.1 = false ∧ kv.1 ≠ "" ∧ no_space kv.1 = true ∧ no_space kv.2 = true ∧ has_byte ";" kv.1 = false ∧ has_byte ";" kv.2 = false.

#[export] Instance plain_pair_dec kv : Decision (plain_pair kv).
Proof. unfold plain_pair. apply _. Defined.

Lemma Fields_Join l : Forall (λ w, no_space w = true ∧ w ≠ "") l → Fields (Join " " l) = l.
Proof.
  unfold Fields. induction 1 as [|w l [Hw Hne] Hl IH]; [done|]. destruct l as [|w' l].
  - change (Join " " [w]) with w. by apply Fields_word.
  - change (Join " " (w :: w' :: l)) with (w +:+ String " " (Join " " (w' :: l))). rewrite fields_go_word by done.
    cbn [fields_go]. change (is_space " ") with true. cbv iota. change ("" +:+ w) with w. rewrite decide_False by done.
    rewrite IH. done.
Qed.

Lemma parse_message kvs k : Forall plain_pair kvs → parseKeyValues (message kvs) !! k = last_val k kvs.
Proof.
  intros Hf. unfold parseKeyValues, message. rewrite Fields_Join.
  2:{ apply Forall_fmap. eapply Forall_impl; [exact Hf|]. intros [x v] (_ & Hne & Hx & Hv & _). unfold compose, pair_text. cbn in *.
      split; [|by destruct x]. unfold no_space in *. rewrite all_bytes_app, Hx. exact Hv. }
  assert (∀ m, foldl add_pair m (pair_text <$> kvs) !! k = match last_val k kvs with Some v => Some v | None => m !! k end) as Hl.
  { induction Hf as [|[x v] l (He & Hne & _) Hl IH]; intros m; [done|]. cbn [fmap list_fmap foldl last_val fst snd] in *. rewrite IH.
    destruct (last_val k l); [done|]. unfold add_pair, pair_text. cbn [fst snd]. change (x +:+ "=" +:+ v) with (x +:+ String "=" v).
    rewrite cut_app, decide_False by done. case_decide as Hk; [subst; apply lookup_insert_eq|by apply lookup_insert_ne]. }
  rewrite Hl. by destruct (last_val k kvs).
Qed.

Lemma message_clean c kvs : c ≠ " "%char → Forall (λ kv, has_byte c kv.1 = false ∧ has_byte c kv.2 = false) kvs → c ≠ "="%char → has_byte c (message kvs) = false.
Proof.
  intros Hb Hf He. unfold message. induction Hf as [|[k v] l [Hk Hv] Hl IH]; [done|]. cbn [fmap list_fmap fst snd] in *.
  assert (has_byte c (pair_text (k, v)) = false) as Hp
    by (unfold pair_text; cbn [fst snd]; rewrite !has_byte_app, Hk, Hv; cbn; by rewrite bool_decide_eq_false_2 by done).
  destruct l as [|[k' v'] l]; [exact Hp|]. cbn [fmap list_fmap Join] in *. rewrite !has_byte_app, Hp. cbn [has_byte orb].
  rewrite bool_decide_eq_false_2 by done. exact IH.
Qed.

(** ** The end record of a job *)

Section ended.
Context `{MapRange}.

Lemma last_val_prefix pre x (m : gmap string string) :
  last_val (pre +:+ x) ((λ k, (pre +:+ k, lookup_or "" k m)) <$> range m) = m !! x.
Proof.
  assert (∀ a b, pre +:+ a = pre +:+ b → a = b) as Hinj.
  { intros a b E. apply (f_equal (strip_prefix pre)) in E. rewrite !strip_prefix_app in E. by simplify_eq. }
  pose proof (λ k, map_order_elem m (range m) k (range_order m)) as He.
  assert (∀ ks, last_val (pre +:+ x) ((λ k, (pre +:+ k, lookup_or "" k m)) <$> ks)
    = if decide (x ∈ ks) then Some (lookup_or "" x m) else None) as ->.
  { intros ks. induction ks as [|k ks IH]; [done|]. cbn [fmap list_fmap last_val]. rewrite IH.
    destruct (decide (x ∈ ks)) as [Hx|Hx]; [by rewrite decide_True by by right|]. destruct (decide (k = x)) as [->|Hk].
    - by rewrite !decide_True by (done || by left).
    - rewrite !decide_False; [done|rewrite elem_of_cons; naive_solver|]. intros E. by apply Hk, Hinj. }
  case_decide as Hx; rewrite He in Hx.
  - destruct Hx as [v Hv]. unfold lookup_or. by rewrite Hv.
  - symmetry. by apply eq_None_not_Some.
Qed.

Lemma last_val_other pre k (m : gmap string string) :
  strip_prefix pre k = None → last_val k ((λ k, (pre +:+ k, lookup_or "" k m)) <$> range m) = None.
Proof.
  intros Hk. induction (range m) as [|x ks IH]; [done|]. cbn [fmap list_fmap last_val]. rewrite IH. rewrite decide_False; [done|].
  intros E. rewrite <- E, strip_prefix_app in Hk. done.
Qed.

Lemma last_val_opt k key v : last_val k (opt_pair key v) = if decide (key = k) then (if decide (v = "") then None else Some v) else None.
Proof. unfold opt_pair. repeat case_decide; subst; cbn; rewrite ?decide_True, ?decide_False by done; done. Qed.

(** A job whose texts survive the record. *)
Definition plain_info (i : JobInfo) : Prop := Forall plain_pair (ended_pairs i).

(** The number of processors the report counts. *)
Definition counted_cpus (i : JobInfo) : float64 :=
  match i_ResourceUsed i !! "ncpus" with
  | Some v => default (of_int 1) (positive_float v)
  | None => match i_ResourceReq i !! "ncpus" with Some v => default (of_int 1) (positive_float v) | None => of_int 1 end
  end.

Ltac last_fixed :=
  unfold ended_pairs, info_head, formatResourceReq, formatResourceUsed; rewrite !last_val_app;
  rewrite ?(last_val_other "Resource_List."), ?(last_val_other "resources_used.") by reflexivity;
  rewrite ?last_val_opt.

Lemma ended_start i : last_val "start" (ended_pairs i) = Some (FormatInt (i_StartTime i)).
Proof. last_fixed. by destruct (i_SessionID i =? 0). Qed.
Lemma ended_end i : last_val "end" (ended_pairs i) = Some (FormatInt (i_EndTime i)).
Proof. last_fixed. by destruct (i_SessionID i =? 0). Qed.
Lemma ended_account i : default "" (last_val "account" (ended_pairs i)) = i_Account i.
Proof. last_fixed. by repeat (case_decide || case_match || simplify_eq/=). Qed.
Lemma ended_host i : default "" (last_val "exec_host" (ended_pairs i)) = i_ExecHost i.
Proof. last_fixed. by repeat (case_decide || case_match || simplify_eq/=). Qed.
Lemma ended_req i : last_val "Resource_List.ncpus" (ended_pairs i) = i_ResourceReq i !! "ncpus".
Proof.
  unfold ended_pairs, info_head, formatResourceReq, formatResourceUsed. rewrite !last_val_app.
  rewrite (last_val_other "resources_used."), (last_val_prefix "Resource_List." "ncpus") by reflexivity. rewrite !last_val_opt.
  destruct (_ !! _); [done|]. by destruct (i_SessionID i =? 0).
Qed.
Lemma ended_used i : last_val "resources_used.ncpus" (ended_pairs i) = i_ResourceUsed i !! "ncpus".
Proof.
  unfold ended_pairs, info_head, formatResourceReq, formatResourceUsed. rewrite !last_val_app.
  rewrite (last_val_other "Resource_List."), (last_val_prefix "resources_used." "ncpus") by reflexivity. rewrite !last_val_opt.
  destruct (_ !! _); [done|]. by destruct (i_SessionID i =? 0).
Qed.

(** The hosts of a job that the server has placed. *)
Lemma nodes_of_exec_host names :
  names ≠ [] → Forall (λ n, clean_name n ∧ no_space n = true ∧ n ≠ "") names → nodesFromExecHost (exec_host names) = names.
Proof.
  intros Hne Hf. assert (Forall clean_name names) as Hcl by (eapply Forall_impl; [exact Hf|]; by intros ? [? _]).
  unfold nodesFromExecHost. rewrite decide_False by by apply exec_host_nonempty. unfold exec_host. rewrite Split_Join.
  - assert (host_of <$> ((λ n, n +:+ "/0") <$> names) = names) as ->.
    { clear Hne Hcl. induction Hf as [|n l ([_ Hs] & Hn & _) Hl IH]; [done|]. cbn [fmap list_fmap]. f_equal; [|exact IH].
      unfold host_of. assert (no_space (n +:+ "/0") = true) as Hsp by (unfold no_space in *; by rewrite all_bytes_app, Hn).
      rewrite TrimSpace_no_space by done. cbv zeta. change (n +:+ "/0") with (n +:+ String "/" "0"). by rewrite cut_app. }
    assert (filter (λ n, n ≠ "") names = names) as ->; [|by destruct names].
    clear Hne Hcl. induction Hf as [|n l (_ & _ & Hn) Hl IH]; [done|]. rewrite filter_cons_True by done. by rewrite IH.
  - by destruct names.
  - apply Forall_fmap. eapply Forall_impl; [exact Hcl|]. intros n [Hp _]. unfold compose. by rewrite has_byte_app, Hp.
Qed.

(** C39: the end record of a job is what the cost report charges: for a job that ended with such a record
    (not with an abort record) and has texts without blanks and semicolons, started and ended at times a
    float64 holds, the line gives its account, on each of the job's nodes, an equal part of the
    processors counted for it times its run time.  The processors counted are the ncpus it used or, when
    there are none, asked for, and one when it gives neither. *)
Theorem ended_is_charged ts jobID i names :
  plain_info i → has_byte ";" ts = false → has_byte newline ts = false → has_byte ";" jobID = false → has_byte newline jobID = false →
  len (Record_ ts jobID (RecordEnded i)) < MaxScanTokenSize →
  0 < i_StartTime i < i_EndTime i → i_EndTime i < 2 ^ 53 →
  i_ExecHost i = exec_host names → names ≠ [] → Forall (λ n, clean_name n ∧ no_space n = true ∧ n ≠ "") names →
  ParseAccounting (Record_ ts jobID (RecordEnded i))
  = Some ((λ n, mkUsage (i_Account i) n
      (fdiv (fmul (counted_cpus i) (fsub (of_int (i_EndTime i)) (of_int (i_StartTime i)))) (of_int (Z.of_nat (length names))))) <$> names).
Proof.
  intros Hp Ht Htn Hi Hin Hlen Hs He Hh Hne Hnames. unfold ParseAccounting, ScanLines.
  set (msg := message (ended_pairs i)). pose (line := ts +:+ ";E;" +:+ jobID +:+ ";" +:+ msg).
  assert (Record_ ts jobID (RecordEnded i) = line +:+ String newline "") as Hl.
  { unfold Record_, RecordEnded, line, msg. cbn [fst snd]. by rewrite !app_str_assoc. }
  assert (has_byte newline msg = false) as Hmn.
  { unfold msg. apply message_clean; [done| |done]. eapply Forall_impl; [exact Hp|]. intros [k v] (_ & _ & Hk & Hv & _).
    split; by apply (all_bytes_has (λ c, negb (is_space c))). }
  assert (has_byte ";" msg = false) as Hms.
  { unfold msg. apply message_clean; [done| |done]. eapply Forall_impl; [exact Hp|]. intros [k v] (_ & _ & _ & _ & Hk & Hv). by split. }
  rewrite Hl in *. rewrite Split_cons.
  2:{ unfold line. rewrite !has_byte_app, Htn, Hin, Hmn. done. }
  rewrite len_app in Hlen. pose proof (len_nonneg (String newline "")). cbn [Split scan_lines].
  rewrite (proj2 (Z.leb_gt _ _)) by lia. rewrite decide_True by done. cbn [mbind list_bind]. rewrite app_nil_r. f_equal.
  unfold parse_record, line. change (";E;" +:+ jobID +:+ ";" +:+ msg) with (String ";" ("E" +:+ String ";" (jobID +:+ String ";" msg))).
  rewrite !Split_cons, Split_no_sep by done. cbv zeta.
  assert (∀ k, parseKeyValues msg !! k = last_val k (ended_pairs i)) as Hkv by (intros k; by apply parse_message).
  rewrite !Hkv, ended_start, ended_end. cbn [mbind option_bind]. rewrite !ParseFloat_FormatInt by lia. rewrite of_int_lt by lia.
  unfold lookup_or, cpus_of. rewrite !Hkv, ended_used, ended_req, ended_account, ended_host, Hh, nodes_of_exec_host by done.
  done.
Qed.

End ended.

(** ** Instances *)

Lemma allocate_conserves_witness :
  let usages := [mkUsage "projA" "n1" (Q2Qc (QArith_base.inject_Z 3)); mkUsage "projB" "n1" (Q2Qc (QArith_base.inject_Z 1))] in
  let bills := [mkBill "n1" (Q2Qc (QArith_base.inject_Z 2)); mkBill "n2" (Q2Qc (QArith_base.inject_Z 5))] in
  let res := Allocate usages bills in
  (msum (Accounts res) + Overhead res = lsum (b_USD <$> bills))%Qc ∧ node_sum "n1" (ByNode res) = lsum (b_USD <$> billed "n1" bills).
Proof.
  destruct (allocate_conserves [mkUsage "projA" "n1" (Q2Qc (QArith_base.inject_Z 3)); mkUsage "projB" "n1" (Q2Qc (QArith_base.inject_Z 1))] [mkBill "n1" (Q2Qc (QArith_base.inject_Z 2)); mkBill "n2" (Q2Qc (QArith_base.inject_Z 5))]) as [H1 H2].
  split; [exact H1|]. apply (H2 "n1"). vm_compute. reflexivity.
Defined.

Definition ended_info : JobInfo :=
  mkInfo "ann@host" "staff" "projA" "sim" "batch" 1700000000 1700000001 1700000002 1700000100 1700000700 0 (exec_host ["n1"; "n2"]) 112
    {["ncpus" := "4"; "walltime" := "01:00:00"]} {["walltime" := "00:10:00"]}.

Lemma ended_is_charged_witness :
  ParseAccounting (Record_ "11/14/2023 22:25:00" "7.srv" (RecordEnded ended_info))
  = Some [mkUsage "projA" "n1" (of_int 1200); mkUsage "projA" "n2" (of_int 1200)].
Proof.
  rewrite (ended_is_charged "11/14/2023 22:25:00" "7.srv" ended_info ["n1"; "n2"]);
    [vm_compute; reflexivity| |done|done|done|done|by vm_compute|done|done|done|done|].
  - unfold plain_info. by_decide.
  - repeat (apply Forall_cons; split; [by split_and!|]). by apply Forall_nil.
Defined.

(** *** What is not charged *)

(** A semicolon in a text cuts the record: the job is not charged at all. *)
Example semicolon_not_charged :
  ParseAccounting (Record_ "11/14/2023 22:25:00" "7.srv" (RecordEnded (ended_info <| i_JobName := "a;b" |>))) = Some [].
Proof. vm_compute. reflexivity. Qed.

(** A job that a signal ends gets an abort record, which is not charged either. *)
Example aborted_not_charged :
  ParseAccounting (Record_ "11/14/2023 22:25:00" "7.srv" (RecordAborted (ended_info <| i_ExitStatus := -1 |>))) = Some [].
Proof. vm_compute. reflexivity. Qed.

(** The processors of a request [nodes=1:ppn=8] count as one. *)
Example ppn_counts_one :
  counted_cpus (ended_info <| i_ResourceReq := {["nodes" := "1:ppn=8"]} |>) = of_int 1.
Proof. vm_compute. reflexivity. Qed.
