(* ===== verification/SchedConf.v ===== *)
(** * The scheduler's configuration file: internal/sched/config/config.go and [loadSchedConfig] of
    internal/server/server.go

    Two programs read [sched_priv/sched_config]: the scheduler ([Load]) and the server
    ([loadSchedConfig]).  Files are an argument: what [os.ReadFile] returns for a path. *)

From S2P Require Import Prelude GoStd FloatStd ServerConfig Sched.

Local Open Scope string_scope.
Local Open Scope list_scope.
Local Open Scope Z_scope.

(** ** Settings

    [Policy] holds the settings that a cycle reads, under the names of [SchedConfig]. *)

#[export] Instance eta_SchedConfig : Eta SchedConfig := λ c,
  mkSchedConfig (StrictFIFO c) (Backfill c) (RoundRobin c) (ByQueue c) (FairShare c) (HelpStarvingJobs c) (SortQueues c)
    (LoadBalancing c) (SortBy c) (MaxStarve c) (HalfLife c) (DefaultQueueDepth c) (SchedMaxJobStart c) (MaxSchedTime c).

Record Config := mkConf {
  s_PBSHome : string; s_Server : string; s_LogLevel : Z; s_SchedulerMode : string;
  Policy : SchedConfig;
  UnknownShares : Z; SyncTime : Duration; DedicatedPrefix : string; SchedulerInterval : Z;
  s_EventDriven : bool; s_SchedMinInterval : Z; s_SchedDefer : bool; s_SchedDeferBatch : bool; s_SchedTriggerPort : Z;
}.
#[export] Instance eta_Conf : Eta Config := λ c,
  mkConf (s_PBSHome c) (s_Server c) (s_LogLevel c) (s_SchedulerMode c) (Policy c) (UnknownShares c) (SyncTime c)
    (DedicatedPrefix c) (SchedulerInterval c) (s_EventDriven c) (s_SchedMinInterval c) (s_SchedDefer c)
    (s_SchedDeferBatch c) (s_SchedTriggerPort c).

Definition DefaultConfig (pbsHome : string) : Config :=
  mkConf pbsHome "" 0 "external"
    (mkSchedConfig false true false true false true true false "fifo" (24 * Hour) (24 * Hour) 100 0 2)
    10 (1 * Hour) "ded" 10 true 100 false false 25003.

(** ** The scheduler's reader *)

Definition parseBool (s : string) : bool := bool_decide (ToLower s ∈ ["true"; "1"; "yes"]).

(** [None] when [time.ParseDuration] reports an error. *)
Definition ParseDuration_ok (s : string) : option Duration :=
  let '(neg, s) := match s with
                   | String "-" t => (true, t)
                   | String "+" t => (false, t)
                   | _ => (false, s)
                   end in
  if decide (s = "0") then Some 0
  else if decide (s = "") then None
  else d ← duration_parts (S (String.length s)) 0 s;
       if (neg : bool) then Some (int64 (- d)) else if 2 ^ 63 - 1 <? d then None else Some d.

Definition parseDuration (s : string) : Duration :=
  match Split ":" s with
  | [h; m; sec] => int64 ((Atoi h).1 * Hour + (Atoi m).1 * Minute + (Atoi sec).1 * Second)
  | _ => default (24 * Hour) (ParseDuration_ok s)
  end.

(** The key and the value of a line, [key: value scope] or [key value scope]; an empty key is skipped. *)
Definition key_value (line : string) : string * string :=
  match cut ":" line with
  | Some (String c k, rest) => (TrimSpace (String c k), hd "" (Fields rest))
  | _ =>
    match Fields line with
    | key :: val :: _ => (key, val)
    | _ => ("", "")
    end
  end.

(** [if n, err := strconv.Atoi(val); err == nil { x = n }] *)
Definition read_num (val : string) (x : Z) : Z := default x (atoi_ok val).

Definition set_key (key val : string) (c : Config) : Config :=
  let p := Policy c in
  let b := parseBool val in
  switch (ToLower key)
    [(["scheduler_mode"], c <| s_SchedulerMode := "external" |>);
     (["strict_fifo"], c <| Policy := p <| StrictFIFO := b |> |>);
     (["backfill"], c <| Policy := p <| Backfill := b |> |>);
     (["round_robin"], c <| Policy := p <| RoundRobin := b |> |>);
     (["by_queue"], c <| Policy := p <| ByQueue := b |> |>);
     (["fair_share"], c <| Policy := p <| FairShare := b |> |>);
     (["help_starving_jobs"], c <| Policy := p <| HelpStarvingJobs := b |> |>);
     (["sort_queues"], c <| Policy := p <| SortQueues := b |> |>);
     (["load_balancing"], c <| Policy := p <| LoadBalancing := b |> |>);
     (["sort_by"], c <| Policy := p <| SortBy := val |> |>);
     (["max_starve"], c <| Policy := p <| MaxStarve := parseDuration val |> |>);
     (["half_life"], c <| Policy := p <| HalfLife := parseDuration val |> |>);
     (["unknown_shares"], c <| UnknownShares := read_num val (UnknownShares c) |>);
     (["sync_time"], c <| SyncTime := parseDuration val |>);
     (["dedicated_prefix"], c <| DedicatedPrefix := val |>);
     (["scheduler_interval"], c <| SchedulerInterval := read_num val (SchedulerInterval c) |>);
     (["sched_interval"], c <| SchedulerInterval := read_num val (SchedulerInterval c) |>);
     (["event_driven"], c <| s_EventDriven := b |>);
     (["sched_min_interval"], c <| s_SchedMinInterval := read_num val (s_SchedMinInterval c) |>);
     (["default_queue_depth"], c <| Policy := p <| DefaultQueueDepth := read_num val (DefaultQueueDepth p) |> |>);
     (["sched_max_job_start"], c <| Policy := p <| SchedMaxJobStart := read_num val (SchedMaxJobStart p) |> |>);
     (["max_sched_time"], c <| Policy := p <| MaxSchedTime := read_num val (MaxSchedTime p) |> |>);
     (["defer"], c <| s_SchedDefer := b |>);
     (["defer_batch"], c <| s_SchedDeferBatch := b |>);
     (["sched_trigger_port"], c <| s_SchedTriggerPort := read_num val (s_SchedTriggerPort c) |>)] c.

Definition is_comment (line : string) : bool :=
  match line with "" => true | String c _ => bool_decide (c = "#"%char) end.

Definition load_line (c : Config) (line : string) : Config :=
  let line := TrimSpace line in
  if is_comment line then c
  else let '(key, val) := key_value line in
       if decide (key = "") then c else set_key key val c.

(** The return before [server_name] is read when there is no configuration file is in the source. *)
Definition Load (ReadFile : string → option string) (pbsHome : string) : Config :=
  let cfg := DefaultConfig pbsHome in
  match ReadFile (path_Join [pbsHome; "sched_priv"; "sched_config"]) with
  | None => cfg
  | Some data =>
    let cfg := foldl load_line cfg (Split newline data) in
    match ReadFile (path_Join [pbsHome; "server_name"]) with
    | Some data => cfg <| s_Server := TrimSpace data |>
    | None => cfg
    end
  end.

(** ** The server's reader *)

Definition server_bool (val : string) : bool := bool_decide (val ∈ ["true"; "1"; "on"]).

Definition server_key_value (line : string) : option (string * string) :=
  let parts := match cut ":" line with
               | Some (k, v) => Some (k, v)
               | None => match Fields line with k :: v :: _ => Some (k, v) | _ => None end
               end in
  '(k, v) ← parts;
  let val := TrimSpace v in
  Some (TrimSpace k, match Fields val with w :: _ => w | [] => val end).

Definition server_set_key (key val : string) (c : ServerConfig.Config) : ServerConfig.Config :=
  let b := server_bool val in
  switch key
    [(["scheduler_mode"], c <| SchedulerMode := "external" |>);
     (["sched_interval"], c <| SchedulerIteration := read_num val (SchedulerIteration c) |>);
     (["event_driven"], c <| EventDriven := b |>);
     (["sched_min_interval"], c <| SchedMinInterval := read_num val (SchedMinInterval c) |>);
     (["default_queue_depth"], c <| cfg_DefaultQueueDepth := read_num val (cfg_DefaultQueueDepth c) |>);
     (["sched_max_job_start"], c <| cfg_SchedMaxJobStart := read_num val (cfg_SchedMaxJobStart c) |>);
     (["max_sched_time"], c <| cfg_MaxSchedTime := read_num val (cfg_MaxSchedTime c) |>);
     (["defer"], c <| SchedDefer := b |>);
     (["defer_batch"], c <| SchedDeferBatch := b |>);
     (["sched_trigger_port"], c <| SchedTriggerPort := read_num val (SchedTriggerPort c) |>)] c.

Definition server_line (c : ServerConfig.Config) (line : string) : ServerConfig.Config :=
  let line := TrimSpace line in
  if is_comment line then c
  else match server_key_value line with Some (key, val) => server_set_key key val c | None => c end.

Definition loadSchedConfig (ReadFile : string → option string) (c : ServerConfig.Config) : ServerConfig.Config :=
  match ReadFile (path_Join [PBSHome c; "sched_priv"; "sched_config"]) with
  | None => c
  | Some data => foldl server_line c (Split newline data)
  end.

(** ** The two readers *)

(** The settings both programs take from the file, each with its own names. *)
Definition scheduler_view (c : Config) : string * Z * bool * Z * Z * Z * Z * bool * bool * Z :=
  (s_SchedulerMode c, SchedulerInterval c, s_EventDriven c, s_SchedMinInterval c, DefaultQueueDepth (Policy c),
   SchedMaxJobStart (Policy c), MaxSchedTime (Policy c), s_SchedDefer c, s_SchedDeferBatch c, s_SchedTriggerPort c).
Definition server_view (c : ServerConfig.Config) : string * Z * bool * Z * Z * Z * Z * bool * bool * Z :=
  (SchedulerMode c, SchedulerIteration c, EventDriven c, SchedMinInterval c, cfg_DefaultQueueDepth c,
   cfg_SchedMaxJobStart c, cfg_MaxSchedTime c, SchedDefer c, SchedDeferBatch c, SchedTriggerPort c).

(** A line both programs understand alike: its key is in lower case and is not [scheduler_interval],
    which only the scheduler knows; a truth value is in lower case and neither [on] nor [yes]. *)
Definition common_line (line : string) : Prop :=
  let '(key, val) := key_value (TrimSpace line) in
  ToLower key = key ∧ key ≠ "scheduler_interval" ∧
  (key ∈ ["event_driven"; "defer"; "defer_batch"] → ToLower val = val ∧ val ≠ "on" ∧ val ≠ "yes").

Lemma fields_trim_left s : Fields (trim_left s) = Fields s.
Proof.
  unfold Fields. induction s as [|c s IH]; simpl; [done|]. destruct (is_space c) eqn:E; [exact IH|]. simpl. by rewrite E.
Qed.

Lemma fields_blank s acc : trim_right s = "" → fields_go s acc = if decide (acc = "") then [] else [acc].
Proof.
  revert acc. induction s as [|c s IH]; simpl; [done|]. intros acc.
  destruct (is_space c); simpl; [|done]. case_bool_decide as Ht; [|done]. intros _.
  rewrite IH by done. simpl. by rewrite app_nil_r.
Qed.

Lemma fields_trim_right s acc : fields_go (trim_right s) acc = fields_go s acc.
Proof.
  revert acc. induction s as [|c s IH]; intros acc; simpl; [done|].
  destruct (is_space c) eqn:E; simpl; [|by rewrite E, IH].
  case_bool_decide as Ht; simpl; rewrite ?E, ?IH; [|done].
  rewrite fields_blank by done. simpl. by rewrite app_nil_r.
Qed.

Lemma Fields_TrimSpace s : Fields (TrimSpace s) = Fields s.
Proof. unfold TrimSpace. rewrite <- (fields_trim_left s). apply fields_trim_right. Qed.

Lemma Fields_nil s : Fields s = [] → TrimSpace s = "".
Proof.
  unfold Fields, TrimSpace. induction s as [|c s IH]; simpl; [done|].
  destruct (is_space c) eqn:E; [exact IH|]. simpl. rewrite E. simpl. intros H. exfalso. revert H.
  assert (∀ acc, acc ≠ "" → fields_go s acc ≠ []) as Hne; [|by apply Hne].
  clear. induction s as [|c s IH]; intros acc Ha; simpl; [by rewrite decide_False|].
  case_match; [by rewrite decide_False|]. apply IH. by destruct acc.
Qed.

(** On a line without a colon in front the two readers see the same key and value. *)
Lemma key_value_agree line c k v :
  key_value line = (String c k, v) →
  server_key_value line = Some (String c k, v) ∨ (∃ w, server_key_value line = Some ("", w)) ∧ c = ":"%char.
Proof.
  unfold key_value, server_key_value.
  assert (∀ s, match Fields (TrimSpace s) with w :: _ => w | [] => TrimSpace s end = hd "" (Fields s)) as Hv.
  { intros s. rewrite Fields_TrimSpace. destruct (Fields s) eqn:Hf; [|done]. by apply Fields_nil. }
  assert (∀ k v l, Fields line = k :: v :: l → TrimSpace k = k ∧ hd "" (Fields v) = v) as Hw.
  { intros a b l Hf. destruct (Fields_clean line a) as [Ha _]; [rewrite Hf; left|].
    destruct (Fields_clean line b) as [Hb Hb']; [rewrite Hf; right; left|].
    by rewrite TrimSpace_no_space, Fields_word. }
  destruct (cut ":" line) as [[[|d a] rest]|] eqn:Hc; cbv [mbind option_bind]; rewrite ?Hv.
  - intros He. right. split; [by eexists|].
    destruct line as [|e line]; [done|]. simpl in Hc. case_decide as Hd; [|by destruct (cut ":" line) as [[]|]].
    subst e. unfold Fields in He. simpl in He.
    destruct (fields_go line ":") as [|x [|y l]] eqn:Hf; simplify_eq.
    clear -Hf. change ":"%string with (String ":" "") in Hf.
    assert (∀ s b x l, fields_go s (String ":" b) = x :: l → ∃ x', x = String ":" x') as Hp.
    { induction s as [|e s IH]; intros b x0 l0; simpl; [intros; simplify_eq; eauto|].
      case_match; simpl; [intros; simplify_eq; eauto|]. apply IH. }
    destruct (Hp _ _ _ _ Hf) as [x' Hx]. by simplify_eq.
  - intros He. left. by f_equal.
  - destruct (Fields line) as [|a [|b l]] eqn:Hf; try done. intros [= -> ->].
    destruct (Hw _ _ _ eq_refl) as [Ha Hb]. left. cbv [mbind option_bind]. by rewrite Hv, Ha, Hb.
Qed.

Definition file_keys : list string :=
  ["scheduler_mode"; "strict_fifo"; "backfill"; "round_robin"; "by_queue"; "fair_share"; "help_starving_jobs"; "sort_queues";
   "load_balancing"; "sort_by"; "max_starve"; "half_life"; "unknown_shares"; "sync_time"; "dedicated_prefix";
   "scheduler_interval"; "sched_interval"; "event_driven"; "sched_min_interval"; "default_queue_depth"; "sched_max_job_start";
   "max_sched_time"; "defer"; "defer_batch"; "sched_trigger_port"].

(** Outside the known names a switch takes its default. *)
Lemma switch_unknown {A} x (cases : list (list string * A)) d :
  Forall (λ c, c.1 ⊆ file_keys) cases → x ∉ file_keys → switch x cases d = d.
Proof.
  induction 1 as [|[ns a] cs Hns Hcs IH]; simpl; intros Hx; [done|].
  rewrite bool_decide_eq_false_2; [auto|]. simpl in Hns. set_solver.
Qed.

(** Evaluates a switch on a known name. *)
Ltac eval_switch :=
  cbv [switch];
  repeat match goal with
  | |- context [bool_decide (?a ∈ ?b)] =>
    let v := eval vm_compute in (bool_decide (a ∈ b)) in change (bool_decide (a ∈ b)) with v; cbv iota
  end.

Lemma bool_agree val : ToLower val = val → val ≠ "on" → val ≠ "yes" → server_bool val = parseBool val.
Proof. intros Hl Hon Hyes. unfold server_bool, parseBool. rewrite Hl. apply bool_decide_ext. set_solver. Qed.

Lemma set_key_agree key val c c' :
  ToLower key = key → key ≠ "scheduler_interval" →
  (key ∈ ["event_driven"; "defer"; "defer_batch"] → ToLower val = val ∧ val ≠ "on" ∧ val ≠ "yes") →
  server_view c = scheduler_view c' → server_view (server_set_key key val c) = scheduler_view (set_key key val c').
Proof.
  intros Hl Hi Hb Hv. unfold server_set_key, set_key. rewrite Hl.
  destruct (decide (key ∈ file_keys)) as [Hk|Hk].
  - assert (key ∈ ["event_driven"; "defer"; "defer_batch"] → server_bool val = parseBool val) as Hbool.
    { intros H. destruct (Hb H) as (?&?&?). by apply bool_agree. }
    clear Hb Hl. unfold file_keys in Hk. rewrite !elem_of_cons, elem_of_nil in Hk.
    destruct_or! Hk; subst key; try done; eval_switch; try done;
      rewrite ?Hbool by by_decide;
      unfold server_view, scheduler_view in *; injection Hv as H1 H2 H3 H4 H5 H6 H7 H8 H9 H10;
      cbn -[parseBool read_num parseDuration]; congruence.
  - rewrite !switch_unknown by (done || by repeat (constructor; [by_decide|])). done.
Qed.

Lemma line_agree c c' line :
  common_line line → server_view c = scheduler_view c' → server_view (server_line c line) = scheduler_view (load_line c' line).
Proof.
  unfold common_line, server_line, load_line. intros Hc Hv. cbv zeta. destruct (is_comment (TrimSpace line)); [done|].
  destruct (key_value (TrimSpace line)) as [key val] eqn:Hk. destruct Hc as (Hl&Hi&Hb). case_decide as Hne.
  - (* a line without a key *)
    destruct (server_key_value (TrimSpace line)) as [[k v]|] eqn:Hs; [|done]. subst key.
    enough (k = "") as -> by done. revert Hk Hs. unfold key_value, server_key_value.
    destruct (cut ":" (TrimSpace line)) as [[[|d a] rest]|] eqn:Hcut; cbv [mbind option_bind].
    + intros _ Hs. by simplify_eq.
    + intros Hk Hs. by simplify_eq.
    + destruct (Fields (TrimSpace line)) as [|x [|y l]] eqn:Hf; try done. intros Hk. simplify_eq.
      destruct (Fields_clean (TrimSpace line) "") as [_ ?]; [rewrite Hf; left|done].
  - destruct key as [|d k]; [done|].
    destruct (key_value_agree _ _ _ _ Hk) as [->|[[w ->] ->]]; [by apply set_key_agree|].
    (* a line that begins with a colon *)
    change (server_view c = scheduler_view (set_key (String ":" k) val c')). rewrite Hv. unfold set_key. rewrite Hl, switch_unknown; [done| |].
    + repeat (constructor; [by_decide|]). done.
    + unfold file_keys. rewrite !elem_of_cons, elem_of_nil. naive_solver.
Qed.

(** *** Theorem *)

(** C32: the server and the scheduler that start with the same settings agree on every setting they both
    take from the configuration file, whatever the file holds besides, when its keys and truth
    values are written in the way both know. *)
Theorem conf_readers_agree ReadFile c data :
  ReadFile (path_Join [PBSHome c; "sched_priv"; "sched_config"]) = Some data →
  Forall common_line (Split newline data) →
  server_view c = scheduler_view (DefaultConfig (PBSHome c)) →
  server_view (loadSchedConfig ReadFile c) = scheduler_view (Load ReadFile (PBSHome c)).
Proof.
  intros Hf Hlines Hv. unfold loadSchedConfig, Load. rewrite Hf.
  assert (server_view (foldl server_line c (Split newline data)) =
    scheduler_view (foldl load_line (DefaultConfig (PBSHome c)) (Split newline data))) as Hfold.
  { revert Hv. generalize (DefaultConfig (PBSHome c)) as c'. generalize c as c0.
    induction Hlines as [|l ls Hl Hls IH]; simpl; [done|]. intros c0 c' Hv. apply IH, line_agree; done. }
  rewrite Hfold. by case_match.
Qed.

Definition sched_file (text path : string) : option string :=
  if decide (path = "/pbs/sched_priv/sched_config") then Some text else None.
Definition example_text : string :=
  Join (String newline "") ["# scheduling"; "sort_by: fifo ALL"; "event_driven: false"; "sched_interval 30"; "max_starve: 12:00:00"; ""].

Lemma conf_readers_agree_witness :
  server_view (loadSchedConfig (sched_file example_text) (NewConfig "/pbs")) = scheduler_view (Load (sched_file example_text) "/pbs") ∧
  s_EventDriven (Load (sched_file example_text) "/pbs") = false ∧ MaxStarve (Policy (Load (sched_file example_text) "/pbs")) = 12 * Hour.
Proof.
  split_and!; [|by vm_compute|by vm_compute].
  apply (conf_readers_agree (sched_file example_text) (NewConfig "/pbs") example_text); [by vm_compute| |by vm_compute].
  repeat (constructor; [vm_compute; split_and!; [reflexivity|discriminate|];
    intros H; first [by split_and!|repeat (inversion_clear H as [|?? H']; rename H' into H)]|]). constructor.
Defined.

(** *** Where the readers differ *)

(** [on] turns the events on for the server, which sends them, and off for the scheduler; [yes] the other way. *)
Example truth_values_differ :
  (EventDriven (loadSchedConfig (sched_file "event_driven: on") (NewConfig "/pbs")),
   s_EventDriven (Load (sched_file "event_driven: on") "/pbs")) = (true, false) ∧
  (EventDriven (loadSchedConfig (sched_file "event_driven: yes") (NewConfig "/pbs")),
   s_EventDriven (Load (sched_file "event_driven: yes") "/pbs")) = (false, true).
Proof. by vm_compute. Qed.

(** In the form without a colon, a duration is cut at its own colon and the line is ignored. *)
Example duration_without_colon :
  MaxStarve (Policy (Load (sched_file "max_starve 01:00:00") "/pbs")) = 24 * Hour ∧
  MaxStarve (Policy (Load (sched_file "max_starve: 01:00:00") "/pbs")) = 1 * Hour.
Proof. by vm_compute. Qed.
