(* ===== verification/SchedMain.v ===== *)
(** * The scheduler process: internal/sched/client/client.go and cmd/pbs_sched/main.go

    The scheduler asks the server over a connection: the requests and the readers of the replies
    are those of [Client], of which internal/sched/client and internal/sched/dis are a second copy
    with fewer requests.  [Link] is a connection whose other end is the server of [Dispatch]; the
    cycle of [Sched] runs over it, and what it reports goes to the controller of [Cec], which drains
    and removes nodes over connections of its own. *)

From Stdlib Require Import SpecFloat.
From S2P Require Import Prelude GoStd NetStd Dis DisMessage Client Conn Auth.
From S2P Require Import ServerConfig ServerState Dispatch Sched SchedConf Cec.
Import Proto.

Local Open Scope string_scope.
Local Open Scope list_scope.
Local Open Scope Z_scope.

(** ** Connections *)

(** The server, whether it still reads the connection, the bytes it sent that are not read yet and
    the number of requests so far. *)
Record Link := mkLink { l_server : Server; l_open : bool; l_inbox : string; l_turn : nat }.

(** What the client takes from its surroundings: the variables PBS_HOME and PBS_DEFAULT, the name of
    the user, the files, the clock and whether an address can be dialled. *)
Record ClientEnv := mkClientEnv {
  ce_pbsHome : string; ce_default : string; ce_user : option string;
  ce_ReadFile : string → option string; ce_now : Time; ce_dial : string → bool;
}.

(** ** The client's codec and requests

    internal/sched/dis/codec.go and internal/sched/client/client.go repeat the text of internal/cli. *)
Module Copy.
Definition disrsi : Z → Reader (Z * bool) := disrsi_cli.
Definition ReadUint : Reader Z := ReadUint_cli.
Definition ReadInt : Reader Z := ReadInt_cli.
Definition ReadString : Reader string := ReadString_cli.
Definition ReadSvrAttrl : Reader (list SvrAttrl) := ReadSvrAttrl_cli.
Definition WriteUint : Z → string := Dis.WriteUint.
Definition WriteString : string → string := Dis.WriteString.
Definition WriteSvrAttrl : list SvrAttrl → string := DisMessage.WriteSvrAttrl.
Definition writeHeader : string → Z → string := Client.writeHeader.
Definition readReply : Reader Reply := Client.readReply.
Definition readStatusReply : Reader (reply_error + list StatusObject) := Client.readStatusReply.
Definition sendStatusRequest : string → Z → string → Call (list StatusObject) := Client.sendStatusRequest.
Definition SubmitJob : string → string → list SvrAttrl → string → Call string := Client.SubmitJob.
Definition DeleteJob : string → string → Call () := Client.DeleteJob.
Definition HoldJob : string → string → string → Call () := Client.HoldJob.
Definition ReleaseJob : string → string → string → Call () := Client.ReleaseJob.
Definition Manager : string → Z → Z → string → list SvrAttrl → Call () := Client.Manager.
Definition RunJob : string → string → string → Call () := Client.RunJob.
End Copy.

Definition defaultServer : string := "localhost".
Definition defaultPort : Z := 15001.
Definition defaultPBSHome : string := "/var/spool/torque".
Definition authKeyFile : string := "auth_key".

(** [net.JoinHostPort] *)
Definition JoinHostPort (host port : string) : string :=
  if has_byte ":" host then "[" +:+ host +:+ "]:" +:+ port else host +:+ ":" +:+ port.

Definition resolveServer (ce : ClientEnv) (pbsHome : string) : string :=
  if decide (ce_default ce = "") then
    match ce_ReadFile ce (path_Join [pbsHome; "server_name"]) with
    | Some data => let s := TrimSpace data in if decide (s = "") then defaultServer else s
    | None => defaultServer
    end
  else ce_default ce.

(** The address that [Connect] dials. *)
Definition connect_addr (ce : ClientEnv) (pbsHome server : string) : string :=
  let server := if decide (server = "") then resolveServer ce pbsHome else server in
  let '(host, port) := default (server, FormatInt defaultPort) (SplitHostPort server) in
  JoinHostPort host port.

(** The request of [authenticate] and the reading of its reply; [None] when the key file is missing
    or holds no key. *)
Definition token_request (user token : string) (timestamp : Z) : string :=
  Copy.writeHeader user BatchReqAuthToken +:+ WriteUint (uint64 timestamp) +:+ WriteString token +:+ WriteString "".
Definition authenticate (ce : ClientEnv) (pbsHome user : string) : option (Call ()) :=
  data ← ce_ReadFile ce (path_Join [pbsHome; authKeyFile]);
  key ← DecodeString (TrimSpace data);
  let timestamp := Unix (ce_now ce) in
  let token := EncodeToString (hmac_sha256 key (user +:+ "|" +:+ FormatInt timestamp)) in
  Some (_ ← flush (token_request user token timestamp); expect_ok).

Section link.
Context `{MapRange} `{SliceSort}.
(** The surroundings of the server at each request, its resolver, and the client's address. *)
Context (envs : nat → Env) (LookupAddr : string → option (list string)) (remote : string).

(** The server's loop on the bytes that have arrived: [inr] waits for more. *)
Fixpoint serve_bytes (fuel : nat) (env : Env) (st : Dispatch.St) (bytes : string) : option (conn_end Dispatch.St + Dispatch.St) :=
  match fuel with
  | O => None
  | S fuel =>
    match bytes with
    | "" => Some (inr st)
    | _ =>
      match handle_one (dispatchRequest env remote false) (read_status env LookupAddr remote) st bytes with
      | inl e => Some (inl e)
      | inr (st, rest) => serve_bytes fuel env st rest
      end
    end
  end.

(** A call that writes one message and then reads: the server answers what has been written. *)
Definition ask {A} (call : Call A) (l : Link) : Link * result call_error A :=
  if negb (l_open l) then
    let '(_, r, inbox) := call (l_inbox l) in (mkLink (l_server l) false inbox (S (l_turn l)), r)
  else
    let msg := concat_str (call "").1.1 in
    let '(s, open, out) :=
      match serve_bytes (S (String.length msg)) (envs (l_turn l)) (l_server l, "") msg with
      | Some (inr (s, out)) => (s, true, out)
      | Some (inl (Closed (s, out))) => (s, false, out)
      | Some (inl (Crashed | Stuck)) | None => (l_server l, false, "")
      end in
    let '(_, r, inbox) := call (l_inbox l +:+ out) in
    (mkLink s open inbox (S (l_turn l)), r).

(** ** The client *)

(** A new connection to the server; [None] when it cannot be made or authenticated. *)
Definition Connect (ce : ClientEnv) (server : string) (turn : nat) (s : Server) : Server * option (Link * string) :=
  let pbsHome := if decide (ce_pbsHome ce = "") then defaultPBSHome else ce_pbsHome ce in
  match ce_user ce with
  | None => (s, None)
  | Some user =>
    if negb (ce_dial ce (connect_addr ce pbsHome server)) then (s, None)
    else match authenticate ce pbsHome user with
    | None => (s, None)
    | Some call =>
      let '(l, r) := ask call (mkLink s true "" turn) in
      (l_server l, if is_ok r then Some (l, user) else None)
    end
  end.

Definition StatusJob (user jobID : string) : Link → Link * result call_error (list StatusObject) :=
  ask (Copy.sendStatusRequest user BatchReqStatusJob jobID).
Definition StatusQueue (user queueName : string) : Link → Link * result call_error (list StatusObject) :=
  ask (Copy.sendStatusRequest user BatchReqStatusQueue queueName).
Definition StatusNode (user nodeID : string) : Link → Link * result call_error (list StatusObject) :=
  ask (Copy.sendStatusRequest user BatchReqStatusNode nodeID).
Definition RunJob (user jobID destination : string) (l : Link) : Link * bool :=
  let '(l, r) := ask (Copy.RunJob user jobID destination) l in (l, is_ok r).
Definition Manager (user : string) (cmd objType : Z) (objName : string) (attrs : list SvrAttrl) (l : Link) : Link * bool :=
  let '(l, r) := ask (Copy.Manager user cmd objType objName attrs) l in (l, is_ok r).

(** Close: the disconnect request, without an answer. *)
Definition Close (user : string) (l : Link) : Server :=
  l_server (ask (flush (Copy.writeHeader user BatchReqDisconnect +:+ WriteString "")) l).1.

(** ** A cycle over a connection *)

(** The three status requests; an error ends the cycle. *)
Definition query (user : string) (l : Link) : Link * option (list StatusObject * list StatusObject * list StatusObject) :=
  let '(l, rq) := StatusQueue user "" l in
  match rq with
  | Ok queueObjs =>
    let '(l, rn) := StatusNode user "" l in
    match rn with
    | Ok nodeObjs =>
      let '(l, rj) := StatusJob user "" l in
      (l, match rj with Ok jobObjs => Some (queueObjs, nodeObjs, jobObjs) | _ => None end)
    | _ => (l, None)
    end
  | _ => (l, None)
  end.

(** The parameters of a cycle that are no part of the state: the value of [math.Pow], the clock, the
    time since the start at each turn and the reader of floats. *)
Record CycleEnv := mkCycleEnv {
  cy_decay : spec_float; cy_now : Time; cy_elapsed : nat → Duration; cy_ParseFloat : string → spec_float;
}.

(** RunCycle and RunCycleLimited: the connection, the usage counts and the result; [None] is a cycle
    that never returns. *)
Definition runCycle_on (cy : CycleEnv) (cfg : SchedConfig) (limited : bool) (usage : gmap string spec_float) (user : string)
    (l : Link) : option (Link * gmap string spec_float * option CycleResult) :=
  let '(l, objs) := query user l in
  match objs with
  | None => Some (l, usage, None)
  | Some (queueObjs, nodeObjs, jobObjs) =>
    let sinfo := queryServer (cy_ParseFloat cy) cfg queueObjs nodeObjs jobObjs in
    c ← runCycle (RunJob user) (cy_elapsed cy) cfg limited (cy_decay cy) (cy_now cy) usage sinfo l;
    Some (c_srv c, c_usage c, Some (cycle_result (range (c_pending c)) c))
  end.

(** ** The node controller *)

Context (ce : ClientEnv) (server : string).

(** One manager request over a connection of its own. *)
Definition manage (cmd : Z) (name : string) (attrs : list SvrAttrl) (s : Server) : Server * bool :=
  match Connect ce server 0 s with
  | (s, None) => (s, false)
  | (_, Some (l, user)) =>
    let '(l, ok) := Manager user cmd MgrObjNode name attrs l in (Close user l, ok)
  end.
Definition offline_attrs : list SvrAttrl := [mkAttr "state" false "" "offline" 1].
Definition server_DrainNode (name : string) : Server → Server * bool := manage MgrCmdSet name offline_attrs.
Definition server_DeregisterNode (name : string) : Server → Server * bool := manage MgrCmdDelete name [].
#[local] Instance serverNodeController : NodeController Server := {
  DrainNode := server_DrainNode;
  DeregisterNode := server_DeregisterNode;
}.

(** ** One cycle of the process *)

(** The part of a cycle that talks to the server: [None] for the result when there is none. *)
Definition cycle_part (cy : CycleEnv) (cfg : SchedConf.Config) (limited : bool) (usage : gmap string spec_float) (s : Server) :
    option (Server * gmap string spec_float * option CycleResult) :=
  match Connect ce (s_Server cfg) 0 s with
  | (s, None) => Some (s, usage, None)
  | (_, Some (l, user)) =>
    '(l, usage, res) ← runCycle_on cy (Policy cfg) limited usage user l;
    Some (Close user l, usage, res)
  end.

(** The event for the controller. *)
Definition to_event (cfg : SchedConf.Config) (e : CapacityEvent) : Event :=
  mkEvent EventCapacity (e_Queue e) (e_Provider e) (e_SKU e) ((λ id, mkDemand id 0 0) <$> e_Jobs e)
    (mkShortfall (e_Cores e) (e_Nodes e) (e_Blocked e)) 0 (e_MinNodes e) (e_MaxNodes e)
    (int64 (e_IdleTime e * Second)) (int64 (e_ProvisionTimeout e * Second)) (e_Reclaim e) (e_SubnetID e) (e_ImageID e)
    (e_DiskSize e) (e_DiskType e) (e_SSHKey e) (e_Location e) (e_RGName e) (s_Server cfg) (int64 (e_Cooldown e * Second))
    (e_ScaleHeadroom e) (int64 (e_DrainTimeout e * Second)).

(** cloudTracker: the cloud queues seen so far. *)
Definition rememberQueue (q : string) (known : gmap string ()) : gmap string () := <[q := ()]> known.
Definition queues (known : gmap string ()) : list string := range known.

Definition send_event {P N} (ev : Event) (c : Controller P N) : Controller P N :=
  mkController (provider c) (pools c) (Events c ++ [ev]) (c_Cooldown c) (c_nodes c).

(** The part after the cycle, that talks to the controller. *)
Definition forward {P} `{Provider P} (now : Time) (cfg : SchedConf.Config) (res : CycleResult) (known : gmap string ())
    (c : Controller P Server) : gmap string () * Controller P Server :=
  let '(known, c) := foldl (λ '(known, c) e, (rememberQueue (e_Queue e) known, send_event (to_event cfg e) c))
    (known, c) (CapacityEvents res) in
  (known, foldl (λ c q, SyncQueuedJobs q (elements (AliveJobs res))
    (RegisterNodesIdle now q (IdleNodes res) (RegisterNodesUp q (FreeNodes res) c))) c (queues known)).

Definition runOneCycle {P} `{Provider P} (cy : CycleEnv) (now : Time) (cfg : SchedConf.Config) (limited : bool)
    (usage : gmap string spec_float) (known : gmap string ()) (s : Server) (c : Controller P Server) :
    option (Server * gmap string spec_float * gmap string () * Controller P Server) :=
  '(s, usage, res) ← cycle_part cy cfg limited usage s;
  match res with
  | None => Some (s, usage, known, c)
  | Some res => let '(known, c) := forward now cfg res known c in Some (s, usage, known, c)
  end.

End link.
