(* ===== verification/SchedLink.v ===== *)
(** * The scheduler and the server together

    The cycle of the scheduler runs over a connection with the server; here are the theorems on the
    two: a cycle starts exactly the jobs it counts, a drained node is not used again, and the
    controller's accounts hold through the cycles of the process. *)

From Stdlib Require Import SpecFloat.
From S2P Require Import Prelude GoStd NetStd Dis DisMessage Client Conn Auth Job JobManager Node Queue.
From S2P Require MomLink ExecSpec.
From S2P Require Import ServerConfig ServerState Submit Exec Status StatusSpec Admin Dispatch DispatchSpec Sched SchedSpec SchedConf Cec SchedMain.
Import Proto.

Local Open Scope string_scope.
Local Open Scope list_scope.
Local Open Scope Z_scope.

(** ** Lemmas: one request on a connection *)

Section link.
Context `{MapRange} `{SliceSort}.
Context (envs : nat → Env) (LookupAddr : string → option (list string)) (remote : string).
Abbreviation ask := (ask envs LookupAddr remote).
Abbreviation RunJob := (SchedMain.RunJob envs LookupAddr remote).
Abbreviation Manager := (SchedMain.Manager envs LookupAddr remote).

(** The connection of a server that waits for the next request, everything read. *)
Definition idle_link (s : Server) (n : nat) : Link := mkLink s true "" n.

Lemma ask_served {A} (call : Call A) msg s n s' out r :
  (call "").1.1 = [msg] → msg ≠ "" →
  handle_one (dispatchRequest (envs n) remote false) (read_status (envs n) LookupAddr remote) (s, "") (msg +:+ "")
    = inr ((s', out), "") →
  call (out +:+ "") = ([msg], r, "") → ask call (idle_link s n) = (idle_link s' (S n), r).
Proof.
  intros Hm Hne Hh Hc. rewrite !app_str_nil_r in *. unfold SchedMain.ask, idle_link. cbn [l_open l_server l_inbox l_turn negb].
  rewrite Hm. cbn [concat_str foldr]. change (foldr String.append "" [msg]) with (msg +:+ ""). rewrite app_str_nil_r.
  destruct msg as [|c msg]; [done|]. cbn [serve_bytes String.length]. rewrite Hh. change ("" +:+ out) with out. by rewrite Hc.
Qed.

(** Without an answer the calls end after their request. *)
Lemma reply_at_end : ∃ e, recv readReply "" = ([], Err e, "").
Proof. eexists. vm_compute. reflexivity. Qed.
Lemma status_at_end : ∃ e, recv readStatusReply "" = ([], Err e, "").
Proof. eexists. vm_compute. reflexivity. Qed.

(** The reply of a handler, as the calls that expect an acknowledgement take it. *)
Definition accepted_code (r : Reply) : result call_error () :=
  if rp_code r =? 0 then Ok () else Err (ReplyError (ServerError (rp_code r))).

Lemma expect_ok_reply msg r rest :
  wire_reply r → (_ ← flush msg; expect_ok) (WriteReply r +:+ rest) = ([msg], accepted_code r, rest).
Proof.
  intros Hr. unfold mbind, Call_bind, flush, expect_ok, accepted_code. unfold mbind, Call_bind.
  rewrite (recv_wire r rest Hr). by destruct (rp_code r =? 0).
Qed.

Lemma frame_nonempty q : frame q ≠ "".
Proof. unfold frame, writeHeader. rewrite !app_str_assoc. change (WriteUint PbsBatchProtType) with "+2". done. Qed.

(** A command of the client is the call of its handler. *)
Lemma ask_command (call : Call ()) user c s n :
  call = (_ ← flush (client_bytes user c); expect_ok) → wire_str user → sendable c →
  wire_reply (handler (envs n) c s).1.2 →
  ask call (idle_link s n) =
    (idle_link (handler (envs n) c s).1.1 (S n), accepted_code (handler (envs n) c s).1.2).
Proof.
  intros -> Hu Hs Hr. rewrite <- frame_as_request. eapply ask_served.
  - done.
  - apply frame_nonempty.
  - rewrite (handle_one_empty_ext _ _ (as_request user c) (λ st, perform (envs n) st c)).
    + by rewrite perform_eq.
    + split; [|by destruct c]. by destruct c.
    + by apply command_reads.
    + by destruct c.
  - cbn [fst snd]. change ("" +:+ ?x) with x. by apply expect_ok_reply.
Qed.

Lemma run_reply_wire env id dest s : wire_reply (handleRunJob env id dest s).1.2.
Proof.
  unfold handleRunJob. destruct (run_check env id dest s) as [h|name n j] eqn:E.
  - unfold run_check in E. repeat case_match; simplify_eq; cbn [ok_reply err_reply fst snd]; by vm_compute.
  - unfold run_start. repeat case_match; cbn [ok_reply err_reply fst snd]; by vm_compute.
Qed.

Lemma RunJob_link user id dest s n :
  wire_str user → wire_str id → wire_str dest →
  RunJob user id dest (idle_link s n) =
    (idle_link (handleRunJob (envs n) id dest s).1.1 (S n), rp_code (handleRunJob (envs n) id dest s).1.2 =? 0).
Proof.
  intros Hu Hi Hd. unfold SchedMain.RunJob.
  rewrite (ask_command _ user (CRun id dest) s n); [|done|done|by split|apply run_reply_wire].
  cbn [handler]. unfold accepted_code. by case_match.
Qed.

End link.

(** ** Lemmas: what a RunJob request does *)

Definition multi_node (j : Job) : bool := 1 <? (jobNodeRequest j).1.

(** A refused request starts nothing; an accepted one starts the job on the node it names, unless the
    job asks for more nodes than are free, when it changes nothing. *)
Lemma run_outcome env id node s s1 r b j :
  ids_ok s → named s → the_jobs s !! id = Some j → trimmed id → has_byte "/" node = false →
  handleRunJob env id (node +:+ "/0") s = (s1, r, b) →
  (rp_code r ≠ 0 ∧ not_started s s1) ∨
  (rp_code r = 0 ∧ multi_node j = true ∧ s1 = s) ∨
  (rp_code r = 0 ∧ ∃ j1 names slots, started env s s1 j j1 names slots ∧ (multi_node j = false → names = [node])).
Proof.
  intros Hids Hnm Hj Htr Hnode. pose proof (Hids _ _ Hj) as Hid. unfold handleRunJob, run_check, run_start.
  destruct (haEnabled s && negb (haActive s)) eqn:Hha; [intros [= <- <- <-]; left; split; [done|split; auto]|].
  rewrite (get_job_full env id s j Hj Htr).
  destruct (negb _ && negb _) eqn:Hstate; [intros [= <- <- <-]; left; split; [done|split; auto]|].
  destruct (enforceRunLimits j s) eqn:Hlim; [|intros [= <- <- <-]; left; split; [done|split; auto]]. cbn [negb].
  destruct (checkDependencies env j s) as [s0 dok] eqn:Hdep.
  assert (not_started s s0 ∧ (dok = true → s0 = s)) as [Hns Hs0].
  { unfold checkDependencies in Hdep. case_decide; [injection Hdep as <- <-; by repeat split; auto|].
    destruct (check_deps _ _ _); injection Hdep as <- <-; repeat split; auto; try done.
    right. exists j, comment. split; [by rewrite Hid|done]. }
  destruct dok; cbn [negb]; [|intros [= <- <- <-]; by left]. specialize (Hs0 eq_refl) as ->.
  rewrite decide_False by (by destruct node).
  assert (split_hd "/" (node +:+ "/0") = node) as ->.
  { unfold split_hd. change "/0" with (String "/" "0"). by rewrite Split_cons. }
  destruct (get_node node s) as [n|] eqn:Hn; [|intros [= <- <- <-]; left; split; [done|split; auto]].
  assert (Job.State j = StateQueued ∨ Job.State j = StateProvisioning) as Hs.
  { apply andb_false_iff in Hstate as [E|E]; bool_to_prop; auto. }
  assert (haEnabled s = true → haActive s = true) as Hact.
  { intros E. rewrite E in Hha. by destruct (haActive s). }
  unfold multi_node. destruct (jobNodeRequest j) as [cnt ppn] eqn:Hreq. cbn [fst]. destruct (1 <? cnt) eqn:Hcnt.
  - destruct (runJobMulti env j node (Node.MomPort n) cnt ppn s) as [s2 ok] eqn:Hm.
    intros [= <- <- <-]. apply runJobMulti_started in Hm as [->|(j1 & names & ? & ? & ? & ? & ? & ? & ? & ? & ? & ?)];
      [by right; left| |by eexists].
    right. right. split; [done|]. exists j1, names, ppn. split; [|done]. split; auto. by rewrite Hreq; cbn [fst snd]; rewrite Hcnt.
  - intros Hrun. right. right.
    assert (rp_code r = 0) as Hr by by injection Hrun as _ <- _. split; [done|].
    set (j' := j <| Job.ExecHost := Node.Name n +:+ "/0" |> <| Job.ExecPort := Node.MomPort n |>) in Hrun.
    exists (Job.SetState (now env) StateRunning SubstateRunning j'), [node], (jobRequestedCPUs j).
    injection Hrun as <- _ _. split; [|done]. split; [done|done|done|done|..].
    + rewrite jobs_emit, start_job_jobs. done.
    + by rewrite SetState_State.
    + rewrite SetState_ExecHost. unfold exec_host. simpl. by rewrite (Hnm node n Hn).
    + by rewrite SetState_ID, SetState_ResourceReq, SetState_Owner.
    + split_and!; [done|apply NoDup_singleton|]. intros x ->%list_elem_of_singleton. by exists n.
    + by rewrite Hreq; cbn [fst snd]; rewrite Hcnt.
    + intros x. change (the_nodes (emit ?a ?b)) with (the_nodes b). rewrite start_job_nodes.
      apply (fold_assign_nodes _ _ [node]). apply NoDup_singleton.
Qed.

(** ** Lemmas: the server through a cycle *)

Section through.
Context {Srv : Type} (Run : string → string → Srv → Srv * bool) (elapsed : nat → Duration)
  (cfg : SchedConfig) (limited : bool) `{SliceSort}.

(** The requests of a cycle are about the queued jobs and the nodes of its snapshot. *)
Definition kept_by_runs (sinfo : ServerInfo) (P : Srv → list (JobInfo * nat) → Prop) : Prop :=
  ∀ srv log j i name, j_ID j ∈ ids (Queues sinfo) → (n_Name <$> Nodes sinfo) !! i = Some name → P srv log →
    P (Run (j_ID j) (name +:+ "/0") srv).1 (if (Run (j_ID j) (name +:+ "/0") srv).2 then log ++ [(j, i)] else log).

(** What a cycle leaves of its snapshot. *)
Definition same_names (queues : list QueueInfo) (nodes : list NodeInfo) (c : Cycle Srv) : Prop :=
  unmarked <$> c_queues c = unmarked <$> queues ∧ n_Name <$> Sched.c_nodes c = n_Name <$> nodes ∧
  c_dispatched c = int64 (Z.of_nat (length (c_log c))).

Lemma names_charge j i (nodes : list NodeInfo) : n_Name <$> alter (charge j) i nodes = n_Name <$> nodes.
Proof.
  apply list_eq. intros k. rewrite !list_lookup_fmap. destruct (decide (i = k)) as [->|Hne].
  - rewrite list_lookup_alter_eq. by destruct (nodes !! k).
  - by rewrite list_lookup_alter_ne.
Qed.

Lemma turn_srv (P : Srv → list (JobInfo * nat) → Prop) sinfo queues attempt c :
  kept_by_runs sinfo P → Forall2 same_queue (Queues sinfo) queues →
  same_names queues (Nodes sinfo) c → P (c_srv c) (c_log c) →
  match cycle_turn Run elapsed cfg limited attempt c with
  | Continue c' | Break c' => same_names queues (Nodes sinfo) c' ∧ P (c_srv c') (c_log c')
  | Hang => True
  end.
Proof.
  intros Hk Hq (Hu & Hn & Hd) HP. unfold cycle_turn.
  destruct (limited && _ && _); [done|]. destruct (limited && _ && _); [done|].
  destruct (next cfg (c_queues c) (c_it c)) as [[[p|] it]|]; [|done..]. cbv zeta.
  change (c_queues (c <| c_it := it |>)) with (c_queues c). destruct (job_at (c_queues c) p) as [j|] eqn:Hj; [|done].
  change (snapshot (c <| c_it := it |>)) with (snapshot c).
  destruct (findNodeForJob cfg (snapshot c) j) as [[i n]|] eqn:Hf.
  - destruct (findNode_fits _ _ _ _ _ Hf) as [Hi _]. cbn [snapshot Nodes] in Hi.
    destruct (job_at_same _ _ _ _ Hu Hj) as (j0 & Hj0 & Heq).
    specialize (Hk (c_srv c) (c_log c) j i (n_Name n)). unfold dispatch. cbn [c_srv set_field].
    assert (j_ID j ∈ ids (Queues sinfo)) as Hid.
    { rewrite <- (ids_same _ _ Hq). apply job_at_ids in Hj0. replace (j_ID j) with (j_ID j0); [done|].
      by apply (f_equal j_ID) in Heq. }
    assert ((n_Name <$> Nodes sinfo) !! i = Some (n_Name n)) as Hname by (by rewrite <- Hn, list_lookup_fmap, Hi).
    specialize (Hk Hid Hname HP). change (c_srv (c <| c_it := it |>)) with (c_srv c).
    destruct (Run (j_ID j) (n_Name n +:+ "/0") (c_srv c)) as [srv ok]. cbn [fst snd] in Hk.
    destruct ok; cbn [negb]; [|done].
    assert (∀ u, same_names queues (Nodes sinfo) (mkCycle (c_queues c) (alter (charge j) i (Sched.c_nodes c)) it (c_pending c)
        (int64 (c_dispatched c + 1)) u srv (c_log c ++ [(j, i)])) ∧ P srv (c_log c ++ [(j, i)])) as Hgoal.
    { intros u. split; [|done]. split_and!; [done|cbn; by rewrite names_charge|]. cbn. rewrite Hd, int64_add_l, length_app. f_equal. simpl. lia. }
    cbv zeta. destruct (limited && _ && _); [apply Hgoal|]. destruct (FairShare cfg); apply Hgoal.
  - unfold blocked. cbv zeta. cbn [c_queues set_field].
    set (qs := upd_job_at p _ (c_queues c)).
    assert (unmarked <$> qs = unmarked <$> queues) as Hqs by (unfold qs; by rewrite upd_job_at_unmarked).
    destruct (queueForJob _ _) as [q|]; [destruct (q_CloudBacked q)|]; [done|..]; by destruct (strictStop cfg).
Qed.

(** A property that every request keeps holds at the end. *)
Lemma cycle_srv_inv (P : Srv → list (JobInfo * nat) → Prop) decay t usage sinfo srv c :
  kept_by_runs sinfo P → P srv [] →
  runCycle Run elapsed cfg limited decay t usage sinfo srv = Some c →
  P (c_srv c) (c_log c) ∧ c_dispatched c = int64 (Z.of_nat (length (c_log c))).
Proof.
  intros Hk HP. destruct (runCycle_loop Run elapsed cfg limited decay t usage sinfo srv) as (u & qs & Hq & ->).
  set (c0 := cycle_start _ _ _). generalize (S (total_jobs qs)) as fuel. generalize 0%nat as attempt.
  assert (same_names qs (Nodes sinfo) c0) as H0 by done. assert (P (c_srv c0) (c_log c0)) as HP0 by done.
  clearbody c0. intros attempt fuel. revert attempt c0 H0 HP0.
  induction fuel as [|fuel IH]; intros attempt c0 H0 HP0; [done|]. cbn [cycle_loop].
  pose proof (turn_srv P sinfo qs attempt c0 Hk Hq H0 HP0) as Ht.
  destruct (cycle_turn _ _ _ _ _ _) as [c1|c1|]; [|intros [= <-]; split; [apply Ht|apply Ht]|done].
  destruct Ht. by apply IH.
Qed.
End through.

(** ** The jobs of a cycle *)

(** A job at the server, before and after the dispatches [log] to the nodes [names]. *)
Definition dispatched_or_kept (names : list string) (log : list (JobInfo * nat)) (k : string) (j0 j1 : Job) : Prop :=
  Job.ResourceReq j1 = Job.ResourceReq j0 ∧
  ((Job.State j1 = Job.State j0 ∧ Job.ExecHost j1 = Job.ExecHost j0 ∧
    ∀ e, e ∈ log → j_ID e.1 = k → multi_node j0 = true) ∨
   (Job.State j1 = StateRunning ∧ ∃ e, e ∈ log ∧ j_ID e.1 = k ∧
    (multi_node j0 = false → ∃ name, names !! e.2 = Some name ∧ Job.ExecHost j1 = name +:+ "/0"))).

Record cycle_effect (names : list string) (s0 s : Server) (log : list (JobInfo * nat)) : Prop := {
  ce_ids : ids_ok s;
  ce_named : named s;
  ce_jobs : ∀ k j0, the_jobs s0 !! k = Some j0 → ∃ j1, the_jobs s !! k = Some j1 ∧ dispatched_or_kept names log k j0 j1;
}.

Lemma multi_same j j' : Job.ResourceReq j' = Job.ResourceReq j → multi_node j' = multi_node j.
Proof. intros E. unfold multi_node, jobNodeRequest, jobRequestedCPUs. by rewrite E. Qed.

(** Dispatches of other jobs leave a job where it is. *)
Lemma kept_more names log log' k j0 j1 :
  (∀ e, e ∈ log → e ∈ log') → (∀ e, e ∈ log' → e ∈ log ∨ j_ID e.1 ≠ k ∨ multi_node j0 = true) →
  dispatched_or_kept names log k j0 j1 → dispatched_or_kept names log' k j0 j1.
Proof.
  intros H1 H2 [Hr [(Hs & Hh & Hl)|(Hs & e & He & Hk & Hn)]]; split; [done| |done|].
  - left. split_and!; [done..|]. intros e He Hk. destruct (H2 e He) as [?|[?|?]]; [by eapply Hl|done|done].
  - right. split; [done|]. exists e. auto.
Qed.

Lemma AssignJob_Name id slots n : Node.Name (Node.AssignJob id slots n) = Node.Name n.
Proof. unfold Node.AssignJob. by repeat case_match. Qed.

Lemma started_effect env names s0 s s1 log id name j j1 ns slots (ji : JobInfo) i :
  cycle_effect names s0 s log → the_jobs s !! id = Some j → j_ID ji = id → names !! i = Some name →
  started env s s1 j j1 ns slots → (multi_node j = false → ns = [name]) →
  cycle_effect names s0 s1 (log ++ [(ji, i)]).
Proof.
  intros [Hids Hnm Hjobs] Hj Hji Hi Hst Hns. pose proof (Hids _ _ Hj) as Hid.
  destruct (st_same _ _ _ _ _ _ _ Hst) as (Hid1 & Hreq1 & _). pose proof (st_table _ _ _ _ _ _ _ Hst) as Ht. rewrite Hid in *.
  split.
  - intros k j'. rewrite Ht. intros [[<- <-]|[_ H]]%lookup_insert_Some; [done|by apply Hids].
  - intros k n. rewrite (st_placed _ _ _ _ _ _ _ Hst). case_decide; [|apply Hnm].
    intros (n0 & Hn0 & ->)%fmap_Some. rewrite AssignJob_Name. by apply (Hnm k n0).
  - intros k j0 Hk0. destruct (Hjobs k j0 Hk0) as (jk & Hjk & Hd). rewrite Ht.
    destruct (decide (k = id)) as [->|Hne].
    + exists j1. rewrite lookup_insert_eq. split; [done|]. assert (jk = j) as -> by congruence.
      destruct Hd as [Hr _]. split; [congruence|]. right. split; [apply (st_run _ _ _ _ _ _ _ Hst)|].
      exists (ji, i). split_and!; [apply elem_of_app; right; by left|done|]. intros Hm. exists name. split; [done|].
      rewrite (st_host _ _ _ _ _ _ _ Hst), Hns; [done|]. by rewrite (multi_same j0).
    + exists jk. rewrite lookup_insert_ne by done. split; [done|]. eapply kept_more; [| |done].
      * intros e He. apply elem_of_app. by left.
      * intros e [He|He]%elem_of_app; [by left|]. apply list_elem_of_singleton in He as ->. right. left. cbn. congruence.
Qed.

Lemma refused_effect names s0 s s1 log :
  cycle_effect names s0 s log → not_started s s1 → cycle_effect names s0 s1 log.
Proof.
  intros [Hids Hnm Hjobs] [Hn Hj]. destruct Hj as [Hj|(jc & c & Hjc & Hj)]; split.
  - intros k j'. rewrite Hj. apply Hids.
  - intros k n. rewrite Hn. apply Hnm.
  - intros k j0 Hk. rewrite Hj. by apply Hjobs.
  - intros k j'. rewrite Hj. intros [[<- <-]|[_ H]]%lookup_insert_Some; [done|by apply Hids].
  - intros k n. rewrite Hn. apply Hnm.
  - intros k j0 Hk. destruct (Hjobs k j0 Hk) as (j1 & Hj1 & Hd). rewrite Hj.
    destruct (decide (k = Job.ID jc)) as [->|Hne].
    + assert (j1 = jc) as -> by congruence. exists (jc <| Job.Comment := c |>). by rewrite lookup_insert_eq.
    + exists j1. by rewrite lookup_insert_ne.
Qed.

(** The snapshot is of jobs the server knows under their full ids, and its texts fit a message. *)
Definition snapshot_of (sinfo : ServerInfo) (s : Server) : Prop :=
  (∀ id, id ∈ ids (Queues sinfo) → is_Some (the_jobs s !! id) ∧ trimmed id ∧ wire_str id) ∧
  (∀ name, name ∈ n_Name <$> Nodes sinfo → has_byte "/" name = false ∧ wire_str (name +:+ "/0")).

Section jobs_of_cycle.
Context `{MapRange} `{SliceSort}.
Context (envs : nat → Env) (LookupAddr : string → option (list string)) (remote : string).

(** *** The snapshot *)

Abbreviation ask := (SchedMain.ask envs LookupAddr remote).

(** The status request of all objects of a kind, with the handler [F] that always answers. *)
Lemma ask_status user ty (F : Server → Server * list StatusObject) run s n :
  wire_uint ty → no_extension ty = false → wire_str user →
  dispatchRequest (envs n) remote false (mkHeader PbsBatchProtType PbsBatchProtVer ty user)
    = with_body ReadStatusBody PbseBadReq run → (∀ s, run ("", []) s = replied_status (F s).1 (Ok (F s).2)) →
  Forall wire_object (F s).2 → Z.of_nat (length (F s).2) * object_size ≤ maxAlloc →
  ask (sendStatusRequest user ty "") (idle_link s n) = (idle_link (F s).1 (S n), Ok (F s).2).
Proof.
  intros Ht Hx Hu Hd Hrun Ho Hlen.
  pose (q := mkReq ty user (WriteString "" +:+ WriteSvrAttrl []) "").
  assert (status_request user ty "" = frame q) as Hq by (unfold frame, status_request; cbn; by rewrite !app_str_assoc).
  eapply (ask_served envs LookupAddr remote _ (frame q)).
  - rewrite <- Hq. destruct status_at_end as [e He].
    unfold sendStatusRequest, mbind, Call_bind, flush. rewrite He. reflexivity.
  - apply frame_nonempty.
  - rewrite (handle_one_empty_ext _ _ q (λ st, ((F st.1).1, st.2 +:+ WriteStatusReply (F st.1).2))); [done|done| |done].
    intros st rest. unfold header_of. cbn [rq_type rq_user rq_body q]. rewrite Hd. unfold with_body.
    assert (ReadStatusBody ((WriteString "" +:+ WriteSvrAttrl []) +:+ rest) = (Ok ("", []), rest)) as ->.
    { unfold ReadStatusBody. rewrite !app_str_assoc. by do 2 (wire_step; [|by_decide]). }
    rewrite Hrun. reflexivity.
  - cbn [fst snd]. rewrite <- Hq. change ("" +:+ ?x) with x. by apply sendStatusRequest_objects.
Qed.

(** What the three status requests of a cycle answer, from the server at the time of each. *)
Definition queue_objects (env : Env) (s : Server) : Server * list StatusObject :=
  (foldl (λ s q, upd_queue (Queue.Name q) (refreshQueueCounts env (jobMgr s)) s) s (AllQueues (queue_order env) (queueMgr s)),
   (λ q, (formatQueueStatus env (jobMgr s) q).2) <$> AllQueues (queue_order env) (queueMgr s)).
Definition node_objects (env : Env) (s : Server) : list StatusObject :=
  formatNodeStatus env s <$> AllNodes (node_order env) (nodeMgr s).
Definition job_objects (env : Env) (s : Server) : list StatusObject :=
  formatJobStatus <$> sort_Slice (λ a b, String.ltb (Job.ID a) (Job.ID b)) (AllJobs (job_order env) (jobMgr s)).

(** A reply that reply_fits a message. *)
Definition reply_fits (objs : list StatusObject) : Prop :=
  Forall wire_object objs ∧ Z.of_nat (length objs) * object_size ≤ maxAlloc.

Lemma query_link user s n :
  wire_str user → let s1 := (queue_objects (envs n) s).1 in
  reply_fits (queue_objects (envs n) s).2 → reply_fits (node_objects (envs (S n)) s1) → reply_fits (job_objects (envs (S (S n))) s1) →
  query envs LookupAddr remote user (idle_link s n)
  = (idle_link s1 (S (S (S n))),
     Some ((queue_objects (envs n) s).2, node_objects (envs (S n)) s1, job_objects (envs (S (S n))) s1)).
Proof.
  intros Hu s1 [Hq1 Hq2] [Hn1 Hn2] [Hj1 Hj2]. unfold query, StatusQueue, StatusNode, StatusJob, Copy.sendStatusRequest.
  rewrite (ask_status user BatchReqStatusQueue (queue_objects (envs n)) _ s n) by first [done|by_decide|reflexivity].
  fold s1.
  rewrite (ask_status user BatchReqStatusNode (λ s, (s, node_objects (envs (S n)) s)) _ s1 (S n)) by first [done|by_decide|reflexivity].
  cbn [fst snd].
  by rewrite (ask_status user BatchReqStatusJob (λ s, (s, job_objects (envs (S (S n))) s)) _ s1 (S (S n))) by first [done|by_decide|reflexivity].
Qed.

(** The dispatches of a cycle and what they do at the server. *)
Lemma cycle_jobs elapsed cfg limited decay t usage user sinfo s n c :
  wire_str user → ids_ok s → named s → snapshot_of sinfo s →
  runCycle (SchedMain.RunJob envs LookupAddr remote user) elapsed cfg limited decay t usage sinfo (idle_link s n) = Some c →
  (∃ m, c_srv c = idle_link (l_server (c_srv c)) m) ∧ c_dispatched c = int64 (Z.of_nat (length (c_log c))) ∧
  cycle_effect (n_Name <$> Nodes sinfo) s (l_server (c_srv c)) (c_log c).
Proof.
  intros Hu Hids Hnm [Hjobs Hnodes] Hrun.
  pose (P (l : Link) (log : list (JobInfo * nat)) :=
    (∃ m, l = idle_link (l_server l) m) ∧ cycle_effect (n_Name <$> Nodes sinfo) s (l_server l) log).
  enough (P (c_srv c) (c_log c) ∧ c_dispatched c = int64 (Z.of_nat (length (c_log c)))) as [[[m Hm] He] Hd] by eauto.
  refine (cycle_srv_inv _ elapsed cfg limited P decay t usage sinfo _ c _ _ Hrun).
  - intros l log j i name Hj Hi [[m ->] He]. destruct (Hjobs _ Hj) as ([j0 Hj0] & Htr & Hw).
    destruct (Hnodes name) as [Hsl Hw2]; [by eapply list_elem_of_lookup_2|].
    rewrite RunJob_link by done. cbn [fst snd l_server idle_link] in *.
    destruct (ce_jobs _ _ _ _ He _ _ Hj0) as (j1 & Hj1 & Hd).
    destruct (handleRunJob (envs m) (j_ID j) (name +:+ "/0") (l_server l)) as [[s1 r] b] eqn:Hh. cbn [fst snd].
    split; [by eexists|]. cbn [l_server].
    apply (run_outcome _ _ _ _ _ _ _ j1) in Hh; [|apply He|apply He|done|done|done].
    destruct Hh as [[Hr Hns]|[(Hr & Hm & ->)|(Hr & j2 & names & slots & Hst & Hn1)]].
    + replace (rp_code r =? 0) with false by lia. by eapply refused_effect.
    + replace (rp_code r =? 0) with true by lia. destruct He as [H1 H2 H3]. split; [done..|].
      intros k jk Hk. destruct (H3 k jk Hk) as (jk' & Hjk' & Hdk). exists jk'. split; [done|].
      eapply kept_more; [| |done].
      * intros e Hin. apply elem_of_app. by left.
      * intros e [Hin|Hin]%elem_of_app; [by left|]. apply list_elem_of_singleton in Hin as ->. right. cbn.
        destruct (decide (j_ID j = k)) as [<-|]; [right|by left].
        assert (jk = j0) as -> by congruence. rewrite <- Hm. symmetry. apply multi_same, Hd.
    + replace (rp_code r =? 0) with true by lia. by eapply started_effect.
  - split; [by eexists|]. cbn. split; [done..|]. intros k j0 Hk. exists j0. split; [done|]. split; [done|]. left.
    split_and!; [done..|]. by intros e ?%elem_of_nil.
Qed.

(** *** The snapshot is of the server *)

Lemma parse_job_ID obj : j_ID (parseJobInfo obj) = obj_Name obj.
Proof.
  unfold parseJobInfo. set (j0 := mkJobInfo _ _ _ _ _ _ _ _ _ _ _ _ _ _ _ _ _ _ _). change (obj_Name obj) with (j_ID j0).
  generalize j0. induction (obj_Attrs obj) as [|a l IH]; intros j1; [done|]. cbn [foldl]. rewrite IH. clear.
  unfold parse_job_attr. cbv zeta. apply (switch_ind (λ j, j_ID j = j_ID j1)).
  - repeat (constructor; [cbn; try done; by repeat case_match|]). constructor.
  - by repeat case_match.
Qed.

Lemma parse_node_Name ParseFloat obj : n_Name (parseNodeInfo ParseFloat obj) = obj_Name obj.
Proof.
  unfold parseNodeInfo. set (n0 := mkNodeInfo _ _ _ _ _ _ _ _ _ _ _ _ _ _).
  assert (∀ l nu, n_Name (foldl (parse_node_attr ParseFloat) nu l).1 = n_Name nu.1) as Hl.
  { intros l. induction l as [|a l IH]; intros nu; [done|]. cbn [foldl]. rewrite IH. clear. destruct nu as [n u].
    unfold parse_node_attr. cbv zeta. apply (switch_ind (λ nu : NodeInfo * bool, n_Name nu.1 = n_Name n)).
    - repeat (constructor; [cbn; try done; by repeat case_match|]). constructor.
    - by repeat case_match. }
  specialize (Hl (obj_Attrs obj) (n0, false)). destruct (foldl _ _ _) as [n u]. cbn in Hl. by destruct u.
Qed.

Lemma queried_ids ParseFloat cfg qs ns js id :
  id ∈ ids (Queues (queryServer ParseFloat cfg qs ns js)) → id ∈ obj_Name <$> js.
Proof.
  unfold ids, queryServer. cbv zeta. cbn [Queues].
  set (queues := (λ obj, _) <$> qs). intros Hin.
  assert (id ∈ queues ≫= λ q, j_ID <$> q_Jobs q) as Hq.
  { destruct (SortQueues cfg); [|done]. by rewrite sort_Slice_perm in Hin. }
  apply list_elem_of_bind in Hq as (q & (j & -> & Hj)%list_elem_of_fmap & (obj & -> & _)%list_elem_of_fmap).
  cbn in Hj. apply list_elem_of_filter in Hj as [_ Hj]. apply list_elem_of_filter in Hj as [_ Hj].
  apply list_elem_of_fmap in Hj as (o & -> & Ho). rewrite parse_job_ID. by apply list_elem_of_fmap_2.
Qed.

Lemma refresh_tables env s : the_jobs (queue_objects env s).1 = the_jobs s ∧ the_nodes (queue_objects env s).1 = the_nodes s.
Proof.
  unfold queue_objects. cbn [fst]. generalize (AllQueues (queue_order env) (queueMgr s)) as qs. intros qs. revert s.
  induction qs as [|q qs IH]; intros s; [done|]. cbn [foldl]. rewrite !(proj1 (IH _)), !(proj2 (IH _)).
  by autorewrite with server.
Qed.

(** The names that go through the protocol: job ids without blanks around them, node names without a slash. *)
Definition plain_names (s : Server) : Prop :=
  (∀ k j, the_jobs s !! k = Some j → trimmed k ∧ wire_str k) ∧
  (∀ k n, the_nodes s !! k = Some n → has_byte "/" k = false ∧ wire_str (k +:+ "/0")).

Lemma snapshot_ok ParseFloat cfg qs env1 env2 s :
  ids_ok s → named s → plain_names s →
  snapshot_of (queryServer ParseFloat cfg qs (node_objects env1 s) (job_objects env2 s)) s.
Proof.
  intros Hids Hnm [Hj Hn]. split.
  - intros id (o & -> & Ho)%queried_ids%list_elem_of_fmap. unfold job_objects in Ho.
    apply list_elem_of_fmap in Ho as (j & -> & Hin). rewrite sort_Slice_perm in Hin.
    apply list_elem_of_omap in Hin as (k & _ & Hk). cbn. rewrite (Hids k j Hk). split; [by eexists|by eapply Hj].
  - intros name. unfold queryServer. cbv zeta. cbn [Nodes]. rewrite <- list_fmap_compose.
    intros (o & -> & Ho)%list_elem_of_fmap. cbn. rewrite parse_node_Name. unfold node_objects in Ho.
    apply list_elem_of_fmap in Ho as (nd & -> & Hin). apply list_elem_of_omap in Hin as (k & _ & Hk). cbn.
    rewrite (Hnm k nd Hk). by eapply Hn.
Qed.

(** The snapshot of a cycle that begins with request [n] at server [s]. *)
Definition seen (cy : CycleEnv) (cfg : SchedConfig) (s : Server) (n : nat) : ServerInfo :=
  let s1 := (queue_objects (envs n) s).1 in
  queryServer (cy_ParseFloat cy) cfg (queue_objects (envs n) s).2 (node_objects (envs (S n)) s1) (job_objects (envs (S (S n))) s1).

End jobs_of_cycle.

(** ** Draining a node *)

(** A client that reaches the server: it has a user, the address answers, and its key file holds the
    server's key; the two clocks are at most [MaxClockSkew] apart. *)
Record reaches (ce : ClientEnv) (server user : string) (env : Env) (s : Server) : Prop := {
  rc_user : ce_user ce = Some user ∧ wire_str user;
  rc_dial : let home := if decide (ce_pbsHome ce = "") then defaultPBSHome else ce_pbsHome ce in
    ce_dial ce (connect_addr ce home server) = true ∧
    ∃ data key, ce_ReadFile ce (path_Join [home; authKeyFile]) = Some data ∧ DecodeString (TrimSpace data) = Some key ∧
      authKey s = Some key;
  rc_clock : 0 ≤ Unix (ce_now ce) ≤ MaxInt64 ∧ 0 ≤ Unix (now env) ≤ MaxInt64 ∧
    Z.abs (Unix (now env) - Unix (ce_now ce)) ≤ MaxClockSkew;
}.

Section drain.
Context `{MapRange} `{SliceSort}.
Context (envs : nat → Env) (LookupAddr : string → option (list string)) (remote : string).

(** The server after the connection of [user] is authenticated. *)
Definition authenticated (user : string) (s : Server) : Server := s <| authMap := <[remote := user]> (authMap s) |>.

Lemma token_dispatched env user ts key s out rest :
  wire_uint ts → authKey s = Some key → wire_uint (Unix (now env)) → Z.abs (Unix (now env) - ts) ≤ MaxClockSkew →
  dispatchRequest env remote false (mkHeader PbsBatchProtType PbsBatchProtVer BatchReqAuthToken user) (s, out)
    (WriteUint ts +:+ WriteString (ComputeToken user ts key) +:+ WriteString "" +:+ rest)
  = (Ok ((authenticated user s, out +:+ WriteReply SendOkReply), true), rest).
Proof.
  intros Hts Hs Hn Hskew. unfold dispatchRequest.
  change (dispatch_job _ _ _ _) with (@None (Dispatch.St → string → result () (Dispatch.St * bool) * string)).
  change (dispatch_other _ _ _) with (Some (with_body ReadTokenBody PbseBadCred
    (λ b s, replied (handleAuthToken (now env) user remote b.1 b.2 s)))).
  cbn [default from_option id]. unfold with_body.
  assert (ReadTokenBody (WriteUint ts +:+ WriteString (ComputeToken user ts key) +:+ WriteString "" +:+ rest)
    = (Ok (ts, ComputeToken user ts key), rest)) as ->.
  { unfold ReadTokenBody. wire_step; [|done]. wire_step; [|apply MomLink.token_wire].
    change (WriteString "") with (WriteReqExtend ""). unfold ignore at 1, mbind, Reader_bind.
    by rewrite (wire_roundtrip (get := ReadReqExtend)) by by vm_compute. }
  cbn [fst snd]. unfold handleAuthToken. rewrite Hs, int64_id by (unfold wire_uint in Hts; unfold_int; lia).
  rewrite (proj2 (VerifyToken_iff (Unix (now env)) user ts (ComputeToken user ts key) key ltac:(unfold wire_uint in *; unfold_int; lia)));
    [done|]. by split.
Qed.

Lemma Connect_ok ce server user n s :
  reaches ce server user (envs n) s →
  Connect envs LookupAddr remote ce server n s
  = (authenticated user s, Some (idle_link (authenticated user s) (S n), user)).
Proof.
  intros [[Hu Hw] [Hd (data & key & Hf & Hk & Ha)] (Hc1 & Hc2 & Hc3)]. unfold Connect. cbv zeta in *. rewrite Hu, Hd. cbn [negb].
  unfold authenticate. rewrite Hf. cbn [mbind option_bind]. rewrite Hk. cbn [mbind option_bind].
  change (EncodeToString (hmac_sha256 key _)) with (ComputeToken user (Unix (ce_now ce)) key).
  set (ts := Unix (ce_now ce)) in *. set (msg := token_request _ _ _).
  assert (msg = writeHeader user BatchReqAuthToken +:+
    (WriteUint ts +:+ WriteString (ComputeToken user ts key) +:+ WriteString "" +:+ "")) as Hmsg.
  { unfold msg, token_request, Copy.writeHeader. by rewrite uint64_id by (unfold_int; lia). }
  fold (idle_link s n).
  rewrite (ask_served envs LookupAddr remote (_ ← flush msg; expect_ok) msg s n (authenticated user s) (WriteReply SendOkReply) (Ok ()));
    [done| | | |].
  - destruct reply_at_end as [e He].
    unfold expect_ok, mbind, Call_bind, flush. rewrite He. reflexivity.
  - rewrite Hmsg. unfold writeHeader. change (WriteUint PbsBatchProtType) with "+2". done.
  - rewrite app_str_nil_r, Hmsg.
    rewrite (MomLink.handle_one_at (envs n) LookupAddr remote BatchReqAuthToken user _ (s, "") (authenticated user s, WriteReply SendOkReply) "");
      [reflexivity|by_decide|done|].
    apply (token_dispatched (envs n) user ts key s "" ""); [unfold wire_uint; lia|done|unfold wire_uint; lia|done].
  - by apply (expect_ok_reply msg SendOkReply "").
Qed.

(** Closing changes nothing at the server. *)
Lemma Close_link user s n : wire_str user → Close envs LookupAddr remote user (idle_link s n) = s.
Proof.
  intros Hu. unfold Close, SchedMain.ask, idle_link. cbn [l_open l_server l_inbox l_turn negb flush fst snd].
  change (concat_str [?m]) with (m +:+ ""). rewrite app_str_nil_r.
  set (msg := Copy.writeHeader user BatchReqDisconnect +:+ WriteString "").
  assert (handle_one (dispatchRequest (envs n) remote false) (read_status (envs n) LookupAddr remote) (s, "") msg
    = inl (Closed (s, ""))) as Hh.
  { unfold msg, Copy.writeHeader, handle_one, writeHeader. rewrite !app_str_assoc.
    rewrite (wire_roundtrip (get := ReadUint)) by by vm_compute. change (int64 PbsBatchProtType =? ISProtocolType) with false.
    change (negb (int64 PbsBatchProtType =? PbsBatchProtType)) with false. cbv iota.
    wire_step; [|by vm_compute]. wire_step; [|by_decide]. wire_step; [|done]. reflexivity. }
  assert (∃ c m, msg = String c m) as (c & m & E).
  { unfold msg, Copy.writeHeader, writeHeader. change (WriteUint PbsBatchProtType) with "+2". by eexists _, _. }
  rewrite E in *. cbn [serve_bytes String.length]. rewrite Hh. reflexivity.
Qed.

Lemma manage_ok ce server user cmd name attrs s s' :
  reaches ce server user (envs 0%nat) s → wire_uint cmd → wire_str name → wire_attrl attrs →
  manager_op cmd MgrObjNode name attrs (authenticated user s) = Some s' →
  manage envs LookupAddr remote ce server cmd name attrs s = (s', true).
Proof.
  intros Hr Hc Hn Ha Hm. pose proof (rc_user _ _ _ _ _ Hr) as [_ Hu]. unfold manage. rewrite (Connect_ok ce server user 0 s Hr).
  unfold SchedMain.Manager. set (c := CManager cmd MgrObjNode name attrs).
  assert (handler (envs 1%nat) c (authenticated user s) = ok_reply s') as Hh.
  { cbn [handler c]. unfold handleManager. rewrite Hm. done. }
  rewrite (ask_command envs LookupAddr remote _ user c (authenticated user s) 1); [|done|done|by split_and!|by rewrite Hh].
  rewrite Hh. cbn [ok_reply fst snd]. change (accepted_code SendOkReply) with (@Ok call_error () tt). cbn [is_ok].
  by rewrite Close_link.
Qed.

(** A node that is offline is refused, whatever else its state says. *)
Lemma offline_refused nd ni : has_flag (Node.State nd) StateOffline = true → n_State ni = Node.StateName nd → nodeSchedulable ni = false.
Proof.
  intros Ho Hn. unfold nodeSchedulable. rewrite Hn. unfold Node.StateName.
  destruct (Node.State nd =? StateFree) eqn:Hf.
  { bool_to_prop. rewrite Hf in Ho. done. }
  cbv zeta. set (l := snd <$> filter _ checkFlags).
  assert (∃ x l', l = x :: l' ∧ x ∈ ["down"; "offline"]) as (x & l' & Hl & Hx).
  { unfold l, checkFlags. rewrite filter_cons. case_decide.
    - exists "down". eexists. split; [reflexivity|by_decide].
    - rewrite filter_cons_True by done. exists "offline". eexists. split; [reflexivity|by_decide]. }
  assert (Forall (λ y, has_byte "," y = false) l) as Hc.
  { unfold l. apply Forall_fmap, Forall_forall. intros cf [_ Hin]%list_elem_of_filter. revert cf Hin. apply Forall_forall.
    by repeat constructor. }
  clearbody l. subst l. rewrite decide_False by (clear -Hx; destruct l'; set_solver).
  rewrite decide_False by (clear -Hx Hc; intros E; apply (f_equal (Split ",")) in E; rewrite (Split_Join "," (x :: l')) in E by done;
    vm_compute in E; set_solver).
  rewrite (Split_Join "," (x :: l')) by done. rewrite !elem_of_cons, elem_of_nil in Hx. by destruct_or! Hx; subst x.
Qed.

(** C30: the drain of a node by the elastic controller takes effect: the request is accepted, the node is
    offline at the server and nothing else has changed, and from then on no cycle of the scheduler that
    sees this state chooses the node, for any job. *)
Theorem drained_node_unused ce server user name nd s :
  reaches ce server user (envs 0%nat) s → wire_str name → named s → the_nodes s !! name = Some nd →
  let off := nd <| Node.State := Z.lor (Node.State nd) StateOffline |> in
  ∃ s', server_DrainNode envs LookupAddr remote ce server name s = (s', true) ∧
    the_nodes s' = <[name := off]> (the_nodes s) ∧ the_jobs s' = the_jobs s ∧
    ∀ later cy cfg m j i n, reported (later (S m)) (queue_objects (later m) s').1 off →
      findNodeForJob cfg (seen later cy cfg s' m) j = Some (i, n) → n_Name n ≠ name.
Proof.
  intros Hr Hw Hnm Hnd off.
  set (s' := triggerSched (saveNodes (upd_node name (applyNodeAttrs offline_attrs) (authenticated user s)))).
  assert (the_nodes s' = <[name := off]> (the_nodes s)) as Hn'.
  { unfold s'. rewrite nodes_trigger. change (the_nodes (saveNodes ?x)) with (the_nodes x).
    change (alter (applyNodeAttrs offline_attrs) name (the_nodes s) = <[name := off]> (the_nodes s)).
    apply map_eq. intros k. destruct (decide (name = k)) as [<-|Hne].
    - by rewrite lookup_alter_eq, Hnd, lookup_insert_eq.
    - by rewrite lookup_alter_ne, lookup_insert_ne. }
  exists s'. split_and!.
  - apply (manage_ok ce server user); [done|by_decide|done|split; [|by_decide]|].
    + repeat constructor; by_decide.
    + unfold manager_op. change (mgrSetNode name offline_attrs (authenticated user s) = Some s'). unfold mgrSetNode.
      unfold get_node, GetNode. change (nodes (nodeMgr (authenticated user s))) with (the_nodes s). by rewrite Hnd.
  - done.
  - unfold s'. by autorewrite with server.
  - intros later cy cfg m j i n Hrep Hf Hname. apply findNode_fits in Hf as [Hi [Hp _]].
    unfold seen in Hi. cbn [Nodes queryServer] in Hi. rewrite list_lookup_fmap in Hi.
    destruct (node_objects _ _ !! i) as [o|] eqn:Ho; [|done]. cbn in Hi. injection Hi as <-. rewrite parse_node_Name in Hname.
    unfold node_objects in Ho. rewrite list_lookup_fmap in Ho.
    destruct (AllNodes _ _ !! i) as [nd0|] eqn:Hnd0; [|done]. cbn in Ho. injection Ho as <-. cbn in Hname.
    apply list_elem_of_lookup_2, list_elem_of_omap in Hnd0 as (k & _ & Hk).
    change (nodes (nodeMgr ?x)) with (the_nodes x) in Hk. rewrite (proj2 (refresh_tables (later m) s')), Hn' in Hk.
    assert (nd0 = off) as ->.
    { apply lookup_insert_Some in Hk as [[_ <-]|[Hne Hk]]; [done|]. pose proof (Hnm _ _ Hk). congruence. }
    destruct (node_as_seen (cy_ParseFloat cy) (later (S m)) (queue_objects (later m) s').1 off Hrep) as (mem & av & ld & Hs).
    assert (has_flag (Node.State off) StateOffline = true) as Hoff.
    { unfold has_flag, off. cbn. rewrite Z.land_lor_distr_l. destruct (Z.land (Node.State nd) StateOffline) as [|p|p]; done. }
    unfold placeable in Hp. do 5 apply andb_prop in Hp as [Hp _].
    exact (eq_true_false_abs _ Hp (offline_refused off _ Hoff (f_equal n_State Hs))).
Qed.
End drain.

(** ** Witnesses *)

Definition link_key : string := "0123456789abcdef".
Definition link_client : ClientEnv :=
  mkClientEnv "" "" (Some "root") (λ p, if decide (p = "/var/spool/torque/auth_key") then Some (key_text link_key) else None)
    (time_Unix 990) (λ a, bool_decide (a = "head:15001")).
Definition cycle_env : CycleEnv := mkCycleEnv (S754_zero false) (time_Unix 1000) (λ _, 0) (λ _, S754_zero false).
Definition policy : SchedConfig := Policy (DefaultConfig "/var/spool/torque").
(** One queued job, two free nodes. *)
Definition link_server (req : gmap string string) : Server := (ExecSpec.pair_server req) <| authKey := Some link_key |>.
Definition link_envs (_ : nat) : Env := ExecSpec.pair_env.

Lemma link_named req : named (link_server req).
Proof. exact (ExecSpec.pair_named req). Qed.
Lemma link_ids req : ids_ok (link_server req).
Proof. intros k j Hk. exact (ok_ids _ (ExecSpec.pair_server_ok req) k j Hk). Qed.
Lemma link_plain : plain_names (link_server ∅).
Proof.
  assert (map_Forall (λ k _, TrimSpace k = k ∧ wire_str k) (the_jobs (link_server ∅))) as Hj by by_decide.
  assert (map_Forall (λ k _, has_byte "/" k = false ∧ wire_str (k +:+ "/0")) (the_nodes (link_server ∅))) as Hn by by_decide.
  split; [exact Hj|exact Hn].
Qed.


(** The job of the witness runs on the first node. *)
Example one_job_started :
  (λ r : Link * gmap string spec_float * option CycleResult,
     (Dispatched <$> r.2, (λ j, (Job.State j, Job.ExecHost j)) <$> the_jobs (l_server r.1.1) !! "1.srv")) <$>
  runCycle_on link_envs (λ _, None) "10.0.0.9:40000" cycle_env policy false ∅ "root" (idle_link (link_server ∅) 0)
  = Some (Some 1, Some (StateRunning, "n1/0")).
Proof. vm_compute. reflexivity. Qed.

Lemma link_reaches req : reaches link_client "head" "root" (link_envs 0) (link_server req).
Proof.
  split.
  - split; [done|by_decide].
  - split; [by vm_compute|]. exists (key_text link_key), link_key. by split_and!; vm_compute.
  - split_and!; by vm_compute.
Qed.

Lemma drained_node_unused_witness :
  ∃ s', server_DrainNode link_envs (λ _, None) "10.0.0.9:40000" link_client "head" "n1" (link_server ∅) = (s', true) ∧
    the_nodes s' = <["n1" := (ExecSpec.free_node "n1" 0) <| Node.State := StateOffline |>]> (the_nodes (link_server ∅)) ∧
    the_jobs s' = the_jobs (link_server ∅) ∧
    ∀ later cy cfg m j i n,
      reported (later (S m)) (queue_objects (later m) s').1 ((ExecSpec.free_node "n1" 0) <| Node.State := StateOffline |>) →
      findNodeForJob cfg (seen later cy cfg s' m) j = Some (i, n) → n_Name n ≠ "n1".
Proof.
  apply (drained_node_unused link_envs (λ _, None) "10.0.0.9:40000" link_client "head" "root" "n1" (ExecSpec.free_node "n1" 0) (link_server ∅)).
  - apply link_reaches.
  - by_decide.
  - apply link_named.
  - by vm_compute.
Defined.

(** ** Where the two do not fit *)

(** What a cycle reports, and the state and the nodes of a job after it. *)
Definition cycle_report (s : Server) (id : string) : option (option Z * option (Z * string)) :=
  (λ r : Link * gmap string spec_float * option CycleResult,
     (Dispatched <$> r.2, (λ j, (Job.State j, Job.ExecHost j)) <$> the_jobs (l_server r.1.1) !! id)) <$>
  runCycle_on link_envs (λ _, None) "10.0.0.9:40000" cycle_env policy false ∅ "root" (idle_link s 0).

Definition with_node (name : string) (n : Node) (s : Server) : Server := upd_node name (λ _, n) s.

(** A request for two nodes is counted as a start when the second node already runs a job, although the
    server, which takes only free nodes, leaves the job in the queue. *)
Example unstarted_job_counted :
  let busy := (ExecSpec.free_node "n2" 1) <| NumProcs := 4 |> <| Node.State := StateJob |> <| AssignedJobs := ["9.srv"] |> in
  cycle_report (with_node "n2" busy (link_server {["nodes" := "2"]})) "1.srv" = Some (Some 1, Some (StateQueued, "")).
Proof. vm_compute. reflexivity. Qed.

(** A node that is to drain and still runs a job is chosen for the next job. *)
Example draining_node_chosen :
  let drain := (ExecSpec.free_node "n1" 0) <| NumProcs := 4 |> <| Node.State := Z.lor StateJob StateDrain |> <| AssignedJobs := ["9.srv"] |> in
  Node.StateName drain = "job-exclusive,drain" ∧
  cycle_report (with_node "n1" drain (with_node "n2" ((ExecSpec.free_node "n2" 1) <| Node.State := StateDown |>) (link_server ∅))) "1.srv" = Some (Some 1, Some (StateRunning, "n1/0")).
Proof. vm_compute. split; reflexivity. Qed.

(** A cycle charges a job for several nodes to one of them: a second job is started on a node that the
    first has filled. *)
Definition second_job : Job := (default (NewJob 0 "" "" "") (the_jobs (link_server ∅) !! "1.srv")) <| Job.ID := "2.srv" |>.
Example second_node_shared :
  let s := upd_mgr (AddJob second_job) (link_server {["nodes" := "2"]}) in
  (λ r : Link * gmap string spec_float * option CycleResult,
     (Dispatched <$> r.2, (λ n, (NumProcs n, AssignedJobs n)) <$> the_nodes (l_server r.1.1) !! "n2")) <$>
  runCycle_on (λ _, mkEnv (time_Unix 1000) ["1.srv"; "2.srv"] ["n1"; "n2"] ["batch"] "head") (λ _, None) "10.0.0.9:40000" cycle_env policy false ∅ "root"
    (idle_link s 0)
  = Some (Some 2, Some (1, ["1.srv"; "2.srv"])).
Proof. vm_compute. reflexivity. Qed.

(** A node that is down counts as free and as idle in the report to the elastic controller. *)
Example down_node_idle :
  let down := (ExecSpec.free_node "n1" 0) <| Node.State := StateDown |> in
  (λ r : Link * gmap string spec_float * option CycleResult, (λ c, (Sched.FreeNodes c, IdleNodes c)) <$> r.2) <$>
  runCycle_on link_envs (λ _, None) "10.0.0.9:40000" cycle_env policy false ∅ "root"
    (idle_link (with_node "n1" down (link_server {["host" := "n3"]})) 0)
  = Some (Some (["n1"; "n2"], ["n1"; "n2"])).
Proof. vm_compute. reflexivity. Qed.

(** The sweep of the controller can come between the start of a job and the report of the cycle that
    started it: the idle timer of the node has run out, so the node is removed under the running job. *)
Definition idle_pool : Pool :=
  (new_pool (mkEvent EventCapacity "batch" "stub" "" [] (mkShortfall 0 0 0) 0 0 0 Second 0 "" "" "" 0 "" "" "" "" "head" 0 0 0))
    <| Owned := {["n1"]} |> <| Running := 1 |> <| IdleSince := {["n1" := time_Unix 900]} |>.
Example reclaim_under_job :
  (λ r : Server * gmap string spec_float * option CycleResult,
     let c := @reclaimIdle StubProvider Server _ (serverNodeController link_envs (λ _, None) "10.0.0.9:40001" link_client "head") _
       (time_Unix 1000) (mkController (NewStubProvider "stub") {["batch" := idle_pool]} [] 0 (Some r.1.1)) in
     (λ s, (the_nodes s !! "n1", (λ j, (Job.State j, Job.ExecHost j)) <$> the_jobs s !! "1.srv")) <$> Cec.c_nodes c) <$>
  cycle_part link_envs (λ _, None) "10.0.0.9:40000" link_client cycle_env ((DefaultConfig "") <| s_Server := "head" |>) false ∅ (link_server ∅)
  = Some (Some (None, Some (StateRunning, "n1/0"))).
Proof. vm_compute. reflexivity. Qed.
