(* ===== verification/SchedLoop.v ===== *)
(** * The main loop of the scheduler: cmd/pbs_sched/main.go

    The loop waits for its ticker, for a trigger of the server or for a signal.  A trigger is a byte on
    a local connection, of which [acceptTriggers] leaves a mark in a channel that holds one; a mark
    starts a limited cycle, at least [minGap] after the last cycle ended.  The loop, the connections
    that bring triggers and the clock are interleaved in any order: each step of one of them is a step
    of the relation [lstep]. *)

From S2P Require Import Prelude GoStd Sched SchedConf.

Local Open Scope string_scope.
Local Open Scope list_scope.
Local Open Scope Z_scope.

Definition Millisecond : Z := 1000000.

(** The period of the ticker and the least time between the end of a cycle and a limited one. *)
Definition interval (cfg : SchedConf.Config) : Duration :=
  let i := int64 (SchedulerInterval cfg * Second) in if i <? 5 * Second then 5 * Second else i.
Definition minGap (cfg : SchedConf.Config) : Duration :=
  let g := int64 (s_SchedMinInterval cfg * Millisecond) in if g <=? 0 then Millisecond else g.

(** Where the loop is: in the [select], after it took a mark, before a limited cycle that must wait for
    a time, in a cycle, or at its end. *)
Inductive phase :=
  | Selecting
  | Draining
  | Waiting (until : Time)
  | Cycling (start : Time) (limited : bool)
  | Stopped.

Record cycle_run := mkRun { cr_start : Time; cr_stop : Time; cr_limited : bool }.

(** The mark, the phase, the end of the last cycle, the cycles that ended and the triggers, in order. *)
Record Loop := mkLoop {
  lp_now : Time; lp_mark : bool; lp_phase : phase; lp_lastRun : Time; lp_cycles : list cycle_run; lp_triggers : list Time;
}.
#[export] Instance eta_Loop : Eta Loop := λ l,
  mkLoop (lp_now l) (lp_mark l) (lp_phase l) (lp_lastRun l) (lp_cycles l) (lp_triggers l).

Definition loop_start (now : Time) : Loop := mkLoop now false Selecting zero_time [] [].

(** acceptTriggers: a byte was read. *)
Definition accept_trigger (l : Loop) : Loop := l <| lp_mark := true |> <| lp_triggers := lp_triggers l ++ [lp_now l] |>.

(** The mark is taken: it is dropped unless cycles are event-driven. *)
Definition take_mark (cfg : SchedConf.Config) (l : Loop) : Loop :=
  l <| lp_mark := false |> <| lp_phase := if s_EventDriven cfg then Draining else Selecting |>.

(** No mark is left: the time the limited cycle may start. *)
Definition throttle (cfg : SchedConf.Config) (l : Loop) : Time :=
  if IsZero (lp_lastRun l) then lp_now l
  else let d := Sub (lp_now l) (lp_lastRun l) in
       if d <? minGap cfg then Add (lp_now l) (int64 (minGap cfg - d)) else lp_now l.
Definition drained (cfg : SchedConf.Config) (l : Loop) : Loop := l <| lp_phase := Waiting (throttle cfg l) |>.

Definition start_cycle (limited : bool) (l : Loop) : Loop := l <| lp_phase := Cycling (lp_now l) limited |>.
Definition end_cycle (start : Time) (limited : bool) (l : Loop) : Loop :=
  l <| lp_phase := Selecting |> <| lp_lastRun := lp_now l |>
    <| lp_cycles := lp_cycles l ++ [mkRun start (lp_now l) limited] |>.

Inductive lstep (cfg : SchedConf.Config) : Loop → Loop → Prop :=
  | ls_clock l t : lp_now l ≤ t → lstep cfg l (l <| lp_now := t |>)
  | ls_trigger l : lstep cfg l (accept_trigger l)
  | ls_tick l : lp_phase l = Selecting → lstep cfg l (start_cycle false l)
  | ls_mark l : lp_phase l = Selecting → lp_mark l = true → lstep cfg l (take_mark cfg l)
  | ls_drain l : lp_phase l = Draining → lp_mark l = true → lstep cfg l (l <| lp_mark := false |>)
  | ls_drained l : lp_phase l = Draining → lp_mark l = false → lstep cfg l (drained cfg l)
  | ls_limited l t : lp_phase l = Waiting t → t ≤ lp_now l → lstep cfg l (start_cycle true l)
  | ls_end l start limited : lp_phase l = Cycling start limited → lstep cfg l (end_cycle start limited l)
  | ls_signal l : lp_phase l = Selecting ∨ (∃ t, lp_phase l = Waiting t) → lstep cfg l (l <| lp_phase := Stopped |>).

(** ** The invariant of the loop *)

(** A cycle has started at or after [t]. *)
Definition served (l : Loop) (t : Time) : Prop :=
  (∃ r, r ∈ lp_cycles l ∧ t ≤ cr_start r) ∨ (∃ start limited, lp_phase l = Cycling start limited ∧ t ≤ start).

(** A limited cycle will start before the loop selects again. *)
Definition committed (l : Loop) : Prop := lp_phase l = Draining ∨ ∃ t, lp_phase l = Waiting t.

(** The cycle started at [start] leaves a gap after every earlier one. *)
Definition gap_kept (cfg : SchedConf.Config) (runs : list cycle_run) (start : Time) : Prop :=
  ∀ r, r ∈ runs → cr_stop r + minGap cfg ≤ start.

Record loop_ok (cfg : SchedConf.Config) (l : Loop) : Prop := {
  lo_time : 0 < lp_now l ∧ lp_lastRun l ≤ lp_now l ∧ (lp_lastRun l = 0 ∨ 0 < lp_lastRun l);
  lo_past : ∀ r, r ∈ lp_cycles l → cr_stop r ≤ lp_lastRun l ∧ 0 < lp_lastRun l;
  lo_start : ∀ start limited, lp_phase l = Cycling start limited → start ≤ lp_now l;
  lo_wait : ∀ t, lp_phase l = Waiting t → gap_kept cfg (lp_cycles l) t;
  lo_limited : ∀ start, lp_phase l = Cycling start true → gap_kept cfg (lp_cycles l) start;
  lo_gaps : ∀ i r, lp_cycles l !! i = Some r → cr_limited r = true → gap_kept cfg (take i (lp_cycles l)) (cr_start r);
  lo_triggers : s_EventDriven cfg = true → ∀ t, t ∈ lp_triggers l →
    t ≤ lp_now l ∧ (lp_phase l = Stopped ∨ lp_mark l = true ∨ committed l ∨ served l t);
}.

Lemma minGap_pos cfg : 0 < minGap cfg ≤ MaxInt64.
Proof.
  unfold minGap, Millisecond. cbv zeta. pose proof (int64_range (s_SchedMinInterval cfg * 1000000)). unfold_int.
  destruct (_ <=? 0) eqn:E; lia.
Qed.

(** The wait is long enough. *)
Lemma throttle_gap cfg l : loop_ok cfg l → gap_kept cfg (lp_cycles l) (throttle cfg l).
Proof.
  intros Hok r Hr. destruct (lo_past _ _ Hok r Hr) as [Hs Hp]. destruct (lo_time _ _ Hok) as (_ & Hl & _).
  pose proof (minGap_pos cfg) as Hg. unfold throttle, IsZero, Add. replace (lp_lastRun l =? 0) with false by lia.
  unfold Sub, MaxInt64, MinInt64 in *. set (d := Z.max _ _). assert (0 ≤ d) by lia.
  destruct (d <? minGap cfg) eqn:E; [|lia].
  rewrite int64_id by (unfold_int; lia). lia.
Qed.

Lemma loop_start_ok cfg now : 0 < now → loop_ok cfg (loop_start now).
Proof.
  intros Hn. split; cbn.
  - unfold zero_time. lia.
  - by intros r ?%elem_of_nil.
  - done.
  - done.
  - done.
  - done.
  - by intros _ t ?%elem_of_nil.
Qed.

(** What the loop does between cycles keeps the times; only the triggers need an argument. *)
Lemma loop_ok_frame cfg l l' :
  loop_ok cfg l → lp_now l ≤ lp_now l' → lp_lastRun l' = lp_lastRun l → lp_cycles l' = lp_cycles l →
  (∀ start limited, lp_phase l' = Cycling start limited → start ≤ lp_now l' ∧ (limited = true → gap_kept cfg (lp_cycles l) start)) →
  (∀ t, lp_phase l' = Waiting t → gap_kept cfg (lp_cycles l) t) →
  (s_EventDriven cfg = true → ∀ t, t ∈ lp_triggers l' →
    t ≤ lp_now l' ∧ (lp_phase l' = Stopped ∨ lp_mark l' = true ∨ committed l' ∨ served l' t)) →
  loop_ok cfg l'.
Proof.
  intros [H1 H2 H3 H4 H5 H6 H7] Hn Hr Hc Hph Hw Ht. split; rewrite ?Hr, ?Hc; try done.
  - lia.
  - intros start limited E. by apply (Hph start limited).
  - intros start E. by apply (Hph start true).
Qed.

Lemma lstep_ok cfg l l' : lstep cfg l l' → loop_ok cfg l → loop_ok cfg l'.
Proof.
  intros Hs Hok. pose proof Hok as [H1 H2 H3 H4 H5 H6 H7].
  destruct Hs as [l t Ht|l|l Hp|l Hp Hm|l Hp Hm|l Hp Hm|l t Hp Ht|l start limited Hp|l Hp].
  - (* the clock *)
    apply (loop_ok_frame cfg l); cbn; try done.
    + intros start limited E. split; [specialize (H3 _ _ E); lia|intros ->; auto].
    + intros Hev u Hu. destruct (H7 Hev u Hu) as [Hle Hu']. split; [lia|exact Hu'].
  - (* a trigger *)
    apply (loop_ok_frame cfg l); cbn; try done.
    + intros start limited E. split; [by eapply H3|intros ->; auto].
    + intros Hev u [Hu| ->%list_elem_of_singleton]%elem_of_app; [split; [apply (H7 Hev u Hu)|]|split; [done|]]; auto.
  - (* the ticker *)
    apply (loop_ok_frame cfg l); cbn; try done.
    + intros start limited [= <- <-]. done.
    + intros Hev u Hu. destruct (H7 Hev u Hu) as [Hle [Hq|[Hq|[[Hq|[? Hq]]|Hq]]]]; [congruence|split; auto|congruence|congruence|].
      split; [done|]. right. right. right. destruct Hq as [Hq|(? & ? & Hq & _)]; [by left|congruence].
  - (* a mark *)
    apply (loop_ok_frame cfg l); cbn; try done.
    + by destruct (s_EventDriven cfg).
    + by destruct (s_EventDriven cfg).
    + intros Hev u Hu. destruct (H7 Hev u Hu) as [Hle _]. split; [done|]. right. right. left. left. cbn. by rewrite Hev.
  - (* another mark *)
    apply (loop_ok_frame cfg l); cbn; try done.
    + intros start limited E. congruence.
    + intros Hev u Hu. destruct (H7 Hev u Hu) as [Hle _]. split; [done|]. right. right. left. by left.
  - (* no mark left *)
    apply (loop_ok_frame cfg l); cbn; try done.
    + intros t [= <-]. by apply throttle_gap.
    + intros Hev u Hu. destruct (H7 Hev u Hu) as [Hle _]. split; [done|]. right. right. left. right. by eexists.
  - (* the limited cycle *)
    apply (loop_ok_frame cfg l); cbn; try done.
    + intros start limited [= <- <-]. split; [done|]. intros _ r Hr. specialize (H4 t Hp r Hr). lia.
    + intros Hev u Hu. destruct (H7 Hev u Hu) as [Hle _]. split; [done|]. right. right. right. right. by eexists _, _.
  - (* the end of a cycle *)
    pose proof (H3 _ _ Hp) as Hst. split; cbn; try done.
    + lia.
    + intros r [Hr| ->%list_elem_of_singleton]%elem_of_app; [destruct (H2 r Hr); lia|cbn; lia].
    + intros i r. rewrite lookup_app. destruct (lp_cycles l !! i) as [r'|] eqn:Ei.
      * intros [= <-] Hl. rewrite take_app_le by (apply lookup_lt_Some in Ei; lia). by eapply H6.
      * intros Hi Hl. apply lookup_ge_None in Ei. destruct (i - length (lp_cycles l))%nat as [|k] eqn:Ek; [|done].
        cbn in Hi. injection Hi as <-. cbn in *. subst limited. rewrite take_app_le, take_ge by lia. by apply H5.
    + intros Hev u Hu. destruct (H7 Hev u Hu) as [Hle [Hq|[Hq|[[Hq|[? Hq]]|Hq]]]]; [congruence|split; auto|congruence|congruence|].
      split; [done|]. right. right. right. left. destruct Hq as [(r & Hr & Hs)|(start' & limited' & Hq & Hs)].
      * exists r. split; [apply elem_of_app; by left|done].
      * rewrite Hp in Hq. injection Hq as <- <-. exists (mkRun start (lp_now l) limited). split; [apply elem_of_app; right; by left|done].
  - (* a signal *)
    apply (loop_ok_frame cfg l); cbn; try done. intros Hev u Hu. destruct (H7 Hev u Hu) as [Hle _]. by auto.
Qed.

(** ** Theorem *)

(** C31: with cycles driven by events, a trigger that has arrived at the scheduler (its byte has been read)
    is not lost, and the cycles triggers cause are throttled.  However the triggers, the ticker and the
    cycles interleave, as long as the process has not been told to stop, a trigger is still marked, or a
    limited cycle is about to start, or a cycle has started after it; and a limited cycle starts at
    least the configured gap after the end of every cycle before it.  Whether a trigger the server sends
    arrives is not part of this. *)
Theorem triggers_served cfg now l :
  0 < now → s_EventDriven cfg = true → rtc (lstep cfg) (loop_start now) l →
  (lp_phase l ≠ Stopped → ∀ t, t ∈ lp_triggers l → lp_mark l = true ∨ committed l ∨ served l t) ∧
  (∀ i k r r', lp_cycles l !! i = Some r → lp_cycles l !! k = Some r' → (i < k)%nat → cr_limited r' = true →
    cr_stop r + minGap cfg ≤ cr_start r').
Proof.
  intros Hn Hev Hr. assert (loop_ok cfg l) as Hok.
  { pose proof (loop_start_ok cfg now Hn) as H0. induction Hr as [|x y z Hs _ IH]; [done|]. apply IH. by eapply lstep_ok. }
  split.
  - intros Hp t Ht. destruct (lo_triggers _ _ Hok Hev t Ht) as [_ [?|?]]; done.
  - intros i k r r' Hi Hk Hlt Hl. apply (lo_gaps _ _ Hok k r' Hk Hl r).
    apply list_elem_of_lookup. exists i. by rewrite lookup_take_lt.
Qed.

(** A trigger during a cycle: the loop comes back to it. *)
Definition quick_cfg : SchedConf.Config := DefaultConfig "/pbs".
Lemma triggers_served_witness :
  ∃ l, rtc (lstep quick_cfg) (loop_start 1) l ∧ lp_triggers l = [1; 2] ∧ lp_mark l = true ∧
    ((lp_phase l ≠ Stopped → ∀ t, t ∈ lp_triggers l → lp_mark l = true ∨ committed l ∨ served l t) ∧
     (∀ i k r r', lp_cycles l !! i = Some r → lp_cycles l !! k = Some r' → (i < k)%nat → cr_limited r' = true →
       cr_stop r + minGap quick_cfg ≤ cr_start r')).
Proof.
  assert (rtc (lstep quick_cfg) (loop_start 1) (mkLoop 2 true (Cycling 1 true) 0 [] [1; 2])) as Hr.
  { eapply rtc_l; [apply ls_trigger|]. eapply rtc_l; [by apply ls_mark|]. eapply rtc_l; [by apply ls_drained|].
    eapply rtc_l; [by eapply (ls_limited _ _ 1); [|vm_compute]|]. eapply rtc_l; [apply (ls_clock _ _ 2); by vm_compute|].
    eapply rtc_l; [apply ls_trigger|]. apply rtc_refl. }
  eexists. split; [exact Hr|]. split_and!; [done|done|..];
    apply (triggers_served quick_cfg 1 _ ltac:(lia) eq_refl Hr).
Defined.
