(* ===== verification/Qmgr.v ===== *)
(** * The administrator's command: cmd/qmgr/main.go

    A command line is cut into words, its verb and object are looked up, the rest is read as
    assignments and one manager request is sent; [list] and [print] ask for the status instead.  The
    connection is that of [SchedMain], whose text internal/cli/client shares.  The theorem is on a whole
    session: what is typed is what the handlers of the server are called with. *)

From S2P Require Import Prelude GoStd NetStd Dis DisMessage Client Conn.
From S2P Require ExecSpec Queue.
From S2P Require Import ServerConfig ServerState Admin Dispatch DispatchSpec SchedMain SchedLink.
Import Proto.

Local Open Scope string_scope.
Local Open Scope list_scope.
Local Open Scope Z_scope.

(** ** Words *)

Definition double_quote : ascii := byte_of 34.
Definition single_quote : ascii := byte_of 39.
Definition tab : ascii := byte_of 9.
Definition is_quote (c : ascii) : bool := bool_decide (c = single_quote ∨ c = double_quote).
Definition is_blank (c : ascii) : bool := bool_decide (c = " "%char ∨ c = tab).

(** The words so far, the word being read, and the quote it is in. *)
Record scan := mkScan { sc_tokens : list string; sc_current : string; sc_quote : option ascii }.

Definition end_word (sc : scan) : list string :=
  if decide (sc_current sc = "") then sc_tokens sc else sc_tokens sc ++ [sc_current sc].

Definition scan_byte (sc : scan) (c : ascii) : scan :=
  let more := mkScan (sc_tokens sc) (sc_current sc +:+ String c "") (sc_quote sc) in
  match sc_quote sc with
  | Some q => if decide (c = q) then mkScan (sc_tokens sc) (sc_current sc) None else more
  | None =>
    if is_quote c then mkScan (sc_tokens sc) (sc_current sc) (Some c)
    else if is_blank c then mkScan (end_word sc) "" None
    else more
  end.

Fixpoint scan_line (sc : scan) (s : string) : scan :=
  match s with
  | "" => sc
  | String c s => scan_line (scan_byte sc c) s
  end.

Definition tokenize (s : string) : list string := end_word (scan_line (mkScan [] "" None) s).

(** ** Assignments *)

Definition op_code (o : string) : option Z := switch o [(["="], Some 1); (["+="], Some 7); (["-="], Some 8)] None.

(** The operator in a word: what is before it, its code, what is after it. *)
Definition find_op (tok : string) : option (string * Z * string) :=
  match cut_str "+=" tok with
  | Some (k, v) => Some (k, 7, v)
  | None =>
    match cut_str "-=" tok with
    | Some (k, v) => Some (k, 8, v)
    | None => match cut_str "=" tok with Some (k, v) => Some (k, 1, v) | None => None end
    end
  end.

(** The closure [add] of parseAttrs. *)
Definition add_attr (key : string) (op : Z) (val : string) : list SvrAttrl :=
  let key := TrimSpace key in
  let val := TrimSpace val in
  if decide (key = "") then []
  else match cut "." key with
       | Some (String c n, resc) => [mkAttr (String c n) true resc val op]
       | _ => [mkAttr key false "" val op]
       end.

Fixpoint parseAttrs (tokens : list string) : list SvrAttrl :=
  match tokens with
  | [] => []
  | tok :: rest =>
    match find_op tok with
    | None =>
      match rest with
      | o :: rest' =>
        match op_code o with
        | Some op =>
          match rest' with
          | v :: rest'' => add_attr tok op v ++ parseAttrs rest''
          | [] => add_attr tok op ""
          end
        | None => add_attr tok 1 "" ++ parseAttrs rest
        end
      | [] => add_attr tok 1 ""
      end
    | Some (key, op, val) =>
      if decide (TrimSpace val = "") then
        match rest with
        | v :: rest' =>
          match op_code v with
          | None => add_attr key op v ++ parseAttrs rest'
          | Some _ => add_attr key op val ++ parseAttrs rest
          end
        | [] => add_attr key op val
        end
      else add_attr key op val ++ parseAttrs rest
    end
  end.

(** ** Commands *)

Definition MgrCmdList : Z := 5.
Definition MgrCmdPrint : Z := 6.

Definition verb_code (verb : string) : option Z :=
  switch verb
    [(["create"; "c"], Some MgrCmdCreate); (["delete"; "d"], Some MgrCmdDelete); (["set"; "s"], Some MgrCmdSet);
     (["unset"; "u"], Some MgrCmdUnset); (["list"; "l"], Some MgrCmdList); (["print"; "p"], Some MgrCmdPrint)] None.
Definition object_code (objTypeStr : string) : option Z :=
  switch objTypeStr
    [(["server"; "s"], Some MgrObjServer); (["queue"; "que"; "q"], Some MgrObjQueue); (["node"; "n"], Some MgrObjNode)] None.

Inductive qmgr_error :=
  | InvalidCommand (cmdLine : string)
  | UnknownVerb (verb : string)
  | UnknownObject (objTypeStr : string)
  | CallFailed (e : call_error).

(** The lines that [listObject] prints. *)
Definition attr_line (a : SvrAttrl) : string :=
  if HasResc a && negb (bool_decide (Resc a = ""))
  then "    " +:+ Name a +:+ "." +:+ Resc a +:+ " = " +:+ Value a
  else "    " +:+ Name a +:+ " = " +:+ Value a.
Definition object_lines (objType : Z) (obj : StatusObject) : list string :=
  let label := if objType =? MgrObjQueue then "Queue" else if objType =? MgrObjNode then "Node" else "Server" in
  (label +:+ ": " +:+ obj_Name obj) :: (attr_line <$> obj_Attrs obj).

Section qmgr.
Context `{MapRange} `{SliceSort}.
Context (envs : nat → Env) (LookupAddr : string → option (list string)) (remote : string) (ce : ClientEnv).
Abbreviation ask := (ask envs LookupAddr remote).

(** The connection, and what is printed or the error. *)
Definition outcome : Type := result qmgr_error (list string).

Definition listObject (user : string) (objType : Z) (name : string) (l : Link) : Link * outcome :=
  let '(l, r) :=
    if objType =? MgrObjServer then ask (Client.sendStatusRequest user BatchReqStatusServer "") l
    else if objType =? MgrObjQueue then StatusQueue envs LookupAddr remote user name l
    else StatusNode envs LookupAddr remote user name l in
  (l, match r with
      | Ok objects => Ok (mjoin (object_lines objType <$> objects))
      | Err e => Err (CallFailed e)
      | Panic => Panic
      end).

Definition executeCommand (user cmdLine : string) (l : Link) : Link * outcome :=
  match tokenize cmdLine with
  | verb :: objTypeStr :: rest =>
    let verb := ToLower verb in
    let objTypeStr := ToLower objTypeStr in
    match verb_code verb, object_code objTypeStr with
    | None, _ => (l, Err (UnknownVerb verb))
    | _, None => (l, Err (UnknownObject objTypeStr))
    | Some mgrCmd, Some objType =>
      let '(objName, words) :=
        if objType =? MgrObjServer then ("", rest)
        else match rest with name :: words => (name, words) | [] => ("", []) end in
      if (mgrCmd =? MgrCmdList) || (mgrCmd =? MgrCmdPrint) then listObject user objType objName l
      else
        let '(l, r) := ask (Client.Manager user mgrCmd objType objName (parseAttrs words)) l in
        (l, match r with Ok _ => Ok [] | Err e => Err (CallFailed e) | Panic => Panic end)
    end
  | _ => (l, Err (InvalidCommand cmdLine))
  end.

(** The interactive loop on the lines of the input; the outcomes of the commands in order. *)
Fixpoint interact (user : string) (lines : list string) (l : Link) : Link * list outcome :=
  match lines with
  | [] => (l, [])
  | line :: lines =>
    let line := TrimSpace line in
    if decide (line = "") then interact user lines l
    else if decide (line ∈ ["quit"; "exit"; "q"]) then (l, [])
    else let '(l, o) := executeCommand user line l in
         let '(l, os) := interact user lines l in (l, o :: os)
  end.

(** main: [None] when there is no connection.  A single command that fails exits before the
    connection is closed. *)
Definition qmgr (command server : string) (lines : list string) (s : Server) : Server * option (list outcome) :=
  match Connect envs LookupAddr remote ce server 0 s with
  | (s, None) => (s, None)
  | (_, Some (l, user)) =>
    if decide (command = "") then
      let '(l, os) := interact user lines l in (Close envs LookupAddr remote user l, Some os)
    else
      let '(l, o) := executeCommand user command l in
      (if is_ok o then Close envs LookupAddr remote user l else l_server l, Some [o])
  end.
End qmgr.

(** ** What is typed *)

(** A word is typed as it is or in double quotes. *)
Inductive word := Plain (w : string) | Quoted (w : string).
Definition text (w : word) : string := match w with Plain s | Quoted s => s end.
Definition typed (w : word) : string :=
  match w with Plain s => s | Quoted s => String double_quote (s +:+ String double_quote "") end.
Definition plain_byte (c : ascii) : bool := negb (is_space c) && negb (is_quote c).
Definition word_ok (w : word) : Prop :=
  text w ≠ "" ∧ match w with Plain s => all_bytes plain_byte s = true | Quoted s => has_byte double_quote s = false end.

(** An assignment: an attribute with or without a resource, and an operator with a value unless it
    stands alone; it is typed in three words. *)
Inductive operator := Assign | Increment | Decrement.
Definition op_text (o : operator) : string := match o with Assign => "=" | Increment => "+=" | Decrement => "-=" end.
Definition op_number (o : operator) : Z := match o with Assign => 1 | Increment => 7 | Decrement => 8 end.

Record assignment := mkAssign { as_name : string; as_resc : option string; as_value : option (operator * word) }.
Definition as_key (a : assignment) : string :=
  match as_resc a with Some r => as_name a +:+ "." +:+ r | None => as_name a end.
Definition assigned (a : assignment) : SvrAttrl :=
  mkAttr (as_name a) (bool_decide (is_Some (as_resc a))) (default "" (as_resc a))
    (from_option (text ∘ snd) "" (as_value a)) (from_option (op_number ∘ fst) 1 (as_value a)).
Definition assignment_words (a : assignment) : list word :=
  Plain (as_key a) :: match as_value a with Some (o, v) => [Plain (op_text o); v] | None => [] end.
Definition assignment_ok (a : assignment) : Prop :=
  as_name a ≠ "" ∧ has_byte "." (as_name a) = false ∧ has_byte "=" (as_key a) = false ∧
  match as_value a with Some (_, v) => TrimSpace (text v) = text v | None => True end.
#[export] Instance word_ok_dec w : Decision (word_ok w).
Proof. unfold word_ok. destruct w; apply _. Defined.
#[export] Instance assignment_ok_dec a : Decision (assignment_ok a).
Proof. unfold assignment_ok. destruct (as_value a) as [[o v]|]; apply _. Defined.

(** A command that changes something: the words for what it does and to what, in any case of letters. *)
Inductive action := Create | Delete | Set_ | Unset.
Definition action_words (a : action) : list string :=
  match a with Create => ["create"; "c"] | Delete => ["delete"; "d"] | Set_ => ["set"; "s"] | Unset => ["unset"; "u"] end.
Definition action_number (a : action) : Z :=
  match a with Create => MgrCmdCreate | Delete => MgrCmdDelete | Set_ => MgrCmdSet | Unset => MgrCmdUnset end.
(** The server, or a queue or node with its name. *)
Inductive target := TheServer | TheQueue (name : word) | TheNode (name : word).
Definition target_words (o : target) : list string :=
  match o with TheServer => ["server"; "s"] | TheQueue _ => ["queue"; "que"; "q"] | TheNode _ => ["node"; "n"] end.
Definition target_number (o : target) : Z :=
  match o with TheServer => MgrObjServer | TheQueue _ => MgrObjQueue | TheNode _ => MgrObjNode end.
Definition target_name (o : target) : list word := match o with TheServer => [] | TheQueue n | TheNode n => [n] end.

Record request := mkRequest {
  r_action : action; r_verb : string; r_target : target; r_object : string; r_assignments : list assignment;
}.
Definition request_words (q : request) : list word :=
  [Plain (r_verb q); Plain (r_object q)] ++ target_name (r_target q) ++ mjoin (assignment_words <$> r_assignments q).
Definition request_line (q : request) : string := Join " " (typed <$> request_words q).
Definition requested (q : request) : command :=
  CManager (action_number (r_action q)) (target_number (r_target q)) (hd "" (text <$> target_name (r_target q)))
    (assigned <$> r_assignments q).

(** Its words can be typed and it fits a message. *)
Definition request_ok (q : request) : Prop :=
  ToLower (r_verb q) ∈ action_words (r_action q) ∧ ToLower (r_object q) ∈ target_words (r_target q) ∧
  Forall word_ok (request_words q) ∧ Forall assignment_ok (r_assignments q) ∧ sendable (requested q).

(** ** Lemmas: words *)

Lemma scan_plain w toks cur rest :
  all_bytes plain_byte w = true → scan_line (mkScan toks cur None) (w +:+ rest) = scan_line (mkScan toks (cur +:+ w) None) rest.
Proof.
  revert cur. induction w as [|c w IH]; intros cur Hw; [by rewrite app_str_nil_r|].
  cbn [all_bytes] in Hw. apply andb_prop in Hw as [Hc Hw]. unfold plain_byte in Hc. apply andb_prop in Hc as [Hs Hq].
  cbn [String.append scan_line]. unfold scan_byte at 1. cbn [sc_quote sc_tokens sc_current].
  apply negb_true_iff in Hq as ->.
  assert (is_blank c = false) as ->. { apply bool_decide_eq_false. intros [->| ->]; by vm_compute in Hs. }
  rewrite IH by done. by rewrite app_str_assoc.
Qed.

Lemma scan_inside w toks cur rest :
  has_byte double_quote w = false →
  scan_line (mkScan toks cur (Some double_quote)) (w +:+ rest) = scan_line (mkScan toks (cur +:+ w) (Some double_quote)) rest.
Proof.
  revert cur. induction w as [|c w IH]; intros cur Hw; [by rewrite app_str_nil_r|].
  cbn [has_byte] in Hw. apply orb_false_iff in Hw as [Hc Hw]. cbn [String.append scan_line]. unfold scan_byte at 1.
  cbn [sc_quote sc_tokens sc_current]. rewrite decide_False by (by apply bool_decide_eq_false in Hc).
  rewrite IH by done. by rewrite app_str_assoc.
Qed.

Lemma scan_word w toks rest :
  word_ok w → scan_line (mkScan toks "" None) (typed w +:+ rest) = scan_line (mkScan toks (text w) None) rest.
Proof.
  intros [_ Hw]. destruct w as [w|w]; cbn [typed text]; [by rewrite scan_plain|].
  cbn [String.append scan_line]. change (scan_byte (mkScan toks "" None) double_quote) with (mkScan toks "" (Some double_quote)).
  rewrite app_str_assoc, scan_inside by done. cbn [String.append scan_line]. unfold scan_byte at 1. cbn [sc_quote].
  by rewrite decide_True.
Qed.

Lemma end_word_text toks w : text w ≠ "" → end_word (mkScan toks (text w) None) = toks ++ [text w].
Proof. intros Hw. unfold end_word. cbn. by rewrite decide_False. Qed.

(** What is typed is read back. *)
Lemma tokenize_typed ws : Forall word_ok ws → tokenize (Join " " (typed <$> ws)) = text <$> ws.
Proof.
  intros Hws. unfold tokenize. change (text <$> ws) with ([] ++ (text <$> ws)). generalize (@nil string) as toks.
  induction Hws as [|w ws Hw Hws IH]; intros toks; [by rewrite app_nil_r|].
  destruct ws as [|w2 ws].
  - cbn [fmap list_fmap Join]. rewrite <- (app_str_nil_r (typed w)), scan_word by done. by apply end_word_text, Hw.
  - cbn [fmap list_fmap Join] in *. rewrite scan_word by done. change (" " +:+ ?x) with (String " " x). cbn [scan_line].
    unfold scan_byte at 1. cbn [sc_quote]. change (is_quote " ") with false. change (is_blank " ") with true. cbv iota.
    rewrite end_word_text by apply Hw. rewrite IH. by rewrite <- app_assoc.
Qed.

(** *** A line that is typed is not blank at its ends *)

Lemma trim_right_end a b : trim_right b ≠ "" → trim_right (a +:+ b) = a +:+ trim_right b.
Proof.
  intros Hb. induction a as [|c a IH]; [done|]. cbn [String.append trim_right]. rewrite IH.
  rewrite bool_decide_eq_false_2; [by rewrite andb_false_r|]. by destruct a.
Qed.

Lemma plain_no_space s : all_bytes plain_byte s = true → no_space s = true.
Proof.
  unfold no_space. induction s as [|c s IH]; [done|]. cbn [all_bytes]. unfold plain_byte at 1. intros [[Hc _]%andb_prop Hs]%andb_prop.
  by rewrite Hc, IH.
Qed.

Lemma typed_trimmed w : word_ok w → trim_right (typed w) = typed w ∧ typed w ≠ "" ∧ ∀ s, trim_left (typed w +:+ s) = typed w +:+ s.
Proof.
  intros [Hne Hw]. destruct w as [[|c w]|w]; cbn [typed text] in *; [done| |].
  - split_and!; [by apply trim_right_no_space, plain_no_space|done|]. intros s. cbn [String.append trim_left].
    cbn [all_bytes] in Hw. unfold plain_byte in Hw at 1. destruct (is_space c); [done|done].
  - split_and!; [|done|done]. change (String double_quote ?x) with (String double_quote "" +:+ x).
    assert (trim_right (w +:+ String double_quote "") = w +:+ String double_quote "") as E by by rewrite trim_right_end.
    rewrite (trim_right_end (String double_quote "")); rewrite E; [done|]. by destruct w.
Qed.

Lemma typed_line_trimmed ws : Forall word_ok ws → TrimSpace (Join " " (typed <$> ws)) = Join " " (typed <$> ws).
Proof.
  intros Hws. unfold TrimSpace. replace (trim_left _) with (Join " " (typed <$> ws)).
  - induction Hws as [|w ws Hw Hws IH]; [done|]. destruct (typed_trimmed w Hw) as (Ht & Hn & _).
    destruct Hws as [|w2 ws Hw2 Hws]; [done|]. destruct (typed_trimmed w2 Hw2) as (_ & Hn2 & _).
    change (Join " " (typed <$> w :: w2 :: ws)) with (typed w +:+ " " +:+ Join " " (typed <$> w2 :: ws)).
    assert (Join " " (typed <$> w2 :: ws) ≠ "") as Hr by (destruct ws; cbn; destruct (typed w2); done).
    assert (trim_right (" " +:+ Join " " (typed <$> w2 :: ws)) = " " +:+ Join " " (typed <$> w2 :: ws)) as E
      by (rewrite trim_right_end; by rewrite IH).
    by rewrite trim_right_end; rewrite E.
  - destruct Hws as [|w ws Hw Hws]; [done|]. destruct (typed_trimmed w Hw) as (_ & _ & Hl). destruct ws as [|w2 ws].
    + cbn. rewrite <- (app_str_nil_r (typed w)). by rewrite Hl.
    + cbn [fmap list_fmap Join]. by rewrite Hl.
Qed.

(** ** Lemmas: assignments *)

Lemma cut_str_without o b s : has_byte "=" s = false → cut_str (o +:+ String "=" b) s = None.
Proof.
  induction s as [|c s IH]; [by destruct o|]. intros Hs. cbn [has_byte] in Hs. apply orb_false_iff in Hs as [Hc Hs].
  cbn [cut_str]. rewrite IH by done. cbn. destruct (strip_prefix _ _) as [t|] eqn:E; [|done].
  apply strip_prefix_some in E. exfalso. assert (has_byte "=" (String c s) = true) as Ht.
  { rewrite E, !has_byte_app. cbn. by rewrite orb_true_r. }
  cbn [has_byte] in Ht. by rewrite Hc, Hs in Ht.
Qed.

Lemma find_op_key k : has_byte "=" k = false → find_op k = None.
Proof.
  intros Hk. unfold find_op.
  assert (cut_str "+=" k = None) as -> by exact (cut_str_without "+" "" k Hk).
  assert (cut_str "-=" k = None) as -> by exact (cut_str_without "-" "" k Hk).
  by assert (cut_str "=" k = None) as -> by exact (cut_str_without "" "" k Hk).
Qed.

Lemma op_code_key k : has_byte "=" k = false → op_code k = None.
Proof.
  intros Hk. unfold op_code. apply (switch_ind_in (λ o, o = None)); [|done].
  repeat (apply Forall_cons; split; [intros ->%list_elem_of_singleton; done|]). by apply Forall_nil.
Qed.

Lemma op_code_text o : op_code (op_text o) = Some (op_number o).
Proof. by destruct o. Qed.

Lemma add_attr_key a op v :
  word_ok (Plain (as_key a)) → as_name a ≠ "" → has_byte "." (as_name a) = false → TrimSpace v = v →
  add_attr (as_key a) op v = [mkAttr (as_name a) (bool_decide (is_Some (as_resc a))) (default "" (as_resc a)) v op].
Proof.
  intros [Hne Hp] Hn Hd Hv. unfold add_attr. rewrite (TrimSpace_no_space (as_key a)), Hv by by apply plain_no_space.
  rewrite decide_False by done. unfold as_key. destruct (as_resc a) as [r|]; cbn [bool_decide default from_option id].
  - change ("." +:+ r) with (String "." r). rewrite cut_app by done. by destruct (as_name a).
  - by rewrite (proj2 (cut_none "." (as_name a)) Hd).
Qed.

(** The assignments that are typed are the attributes that are sent. *)
Lemma parse_typed l :
  Forall word_ok (mjoin (assignment_words <$> l)) → Forall assignment_ok l →
  parseAttrs (text <$> mjoin (assignment_words <$> l)) = assigned <$> l.
Proof.
  intros Hw Hl. induction Hl as [|a l (Hn & Hd & Hk & Hv) Hl IH]; [done|].
  change (mjoin (assignment_words <$> a :: l)) with (assignment_words a ++ mjoin (assignment_words <$> l)) in *.
  apply Forall_app in Hw as [Ha Hw]. specialize (IH Hw). cbn [fmap list_fmap]. rewrite fmap_app, <- IH.
  unfold assignment_words in Ha |- * at 1. apply Forall_cons in Ha as [Hkey _]. unfold assigned. destruct (as_value a) as [[o v]|].
  - cbn [fmap list_fmap app text parseAttrs]. rewrite find_op_key by done. by rewrite op_code_text, add_attr_key.
  - cbn [fmap list_fmap app text parseAttrs]. rewrite find_op_key by done.
    assert (∀ w ws, text <$> mjoin (assignment_words <$> l) = w :: ws → op_code w = None) as Hnext.
    { intros w ws E. destruct Hl as [|b l (_ & _ & Hb & _) _]; [done|]. cbn in E. injection E as <- _. by apply op_code_key. }
    destruct (text <$> _) as [|w ws] eqn:E.
    + by rewrite add_attr_key.
    + by rewrite (Hnext w ws eq_refl), add_attr_key.
Qed.

Lemma verb_code_action a v : v ∈ action_words a → verb_code v = Some (action_number a).
Proof. destruct a; cbn [action_words]; rewrite !elem_of_cons, elem_of_nil; intros Hv; destruct_or! Hv; by subst v. Qed.
Lemma object_code_target o v : v ∈ target_words o → object_code v = Some (target_number o).
Proof. destruct o; cbn [target_words]; rewrite !elem_of_cons, elem_of_nil; intros Hv; destruct_or! Hv; by subst v. Qed.

(** ** The theorem *)

Section session.
Context `{MapRange} `{SliceSort}.
Context (envs : nat → Env) (LookupAddr : string → option (list string)) (remote : string) (ce : ClientEnv).

(** The handlers called in order from request [n] on, and their replies. *)
Fixpoint perform_all (n : nat) (cs : list command) (s : Server) : Server * list Reply :=
  match cs with
  | [] => (s, [])
  | c :: cs =>
    let '(s, r, _) := handler (envs n) c s in
    let '(s, rs) := perform_all (S n) cs s in (s, r :: rs)
  end.

(** What is shown of a reply. *)
Definition shown (r : Reply) : outcome :=
  if rp_code r =? 0 then Ok [] else Err (CallFailed (ReplyError (ServerError (rp_code r)))).

Lemma manager_reply_wire cmd obj name attrs s : wire_reply (handleManager cmd obj name attrs s).1.2.
Proof. unfold handleManager. case_match; by vm_compute. Qed.

Lemma execute_request user q s n :
  wire_str user → request_ok q →
  executeCommand envs LookupAddr remote user (request_line q) (idle_link s n)
  = (idle_link (handler (envs n) (requested q) s).1.1 (S n), shown (handler (envs n) (requested q) s).1.2).
Proof.
  intros Hu (Hv & Ho & Hw & Ha & Hs). unfold executeCommand, request_line. rewrite tokenize_typed by done.
  unfold request_words in *. rewrite !fmap_app. cbn [fmap list_fmap app text].
  rewrite (verb_code_action _ _ Hv), (object_code_target _ _ Ho).
  assert ((if target_number (r_target q) =? MgrObjServer
    then ("", (text <$> target_name (r_target q)) ++ (text <$> mjoin (assignment_words <$> r_assignments q)))
    else match (text <$> target_name (r_target q)) ++ (text <$> mjoin (assignment_words <$> r_assignments q)) with
         | name :: words => (name, words) | [] => ("", []) end)
    = (hd "" (text <$> target_name (r_target q)), text <$> mjoin (assignment_words <$> r_assignments q))) as ->
    by by destruct (r_target q).
  assert ((action_number (r_action q) =? MgrCmdList) || (action_number (r_action q) =? MgrCmdPrint) = false) as ->
    by by destruct (r_action q).
  rewrite parse_typed by (rewrite ?Forall_app in Hw; tauto).
  rewrite (ask_command envs LookupAddr remote _ user (requested q) s n); [|done|done|done|apply manager_reply_wire].
  f_equal. unfold accepted_code, shown. by destruct (rp_code _ =? 0).
Qed.

Lemma interact_requests user qs s n :
  wire_str user → Forall request_ok qs →
  interact envs LookupAddr remote user (request_line <$> qs) (idle_link s n)
  = (idle_link (perform_all n (requested <$> qs) s).1 (n + length qs)%nat, shown <$> (perform_all n (requested <$> qs) s).2).
Proof.
  intros Hu Hqs. revert s n. induction Hqs as [|q qs Hq Hqs IH]; intros s n; [by rewrite Nat.add_0_r|].
  cbn [fmap list_fmap interact]. pose proof Hq as (_ & _ & Hw & _).
  assert (TrimSpace (request_line q) = request_line q) as -> by by apply typed_line_trimmed.
  assert (∃ v o ws, request_line q = v +:+ String " " (o +:+ ws) ∧ v ≠ "") as (v & o & ws & E & Hv).
  { unfold request_line, request_words. apply Forall_cons in Hw as [[Hv _] _]. exists (r_verb q), (r_object q). cbn [app fmap list_fmap].
    destruct (typed <$> _) as [|w ws]; [by exists ""; rewrite app_str_nil_r|]. by exists (" " +:+ Join " " (w :: ws)). }
  rewrite decide_False by (rewrite E; by destruct v).
  rewrite decide_False.
  2:{ intros Hin. assert (has_byte " " (request_line q) = true) as Hb by (rewrite E, has_byte_app; cbn; by rewrite orb_true_r).
      rewrite !elem_of_cons, elem_of_nil in Hin. destruct_or! Hin; by rewrite Hin in Hb. }
  rewrite (execute_request user q s n) by done. rewrite IH. cbn [perform_all length].
  destruct (handler (envs n) (requested q) s) as [[s1 r] b]. cbn [fst snd].
  destruct (perform_all (S n) (requested <$> qs) s1) as [s2 rs]. cbn [fst snd]. by rewrite <- Nat.add_succ_comm.
Qed.

(** C19: what an administrator types is what the server does, for a session of lines that create, delete,
    set and unset and whose words are not empty, hold no quote, and are quoted where they hold a blank,
    whose assignments are an attribute without an equals sign, with or without a resource, standing alone
    or followed by an operator and a value as words of their own, the value having no blanks around it,
    and that fit a message: each line becomes one request with the object, the name and the
    assignments that were typed, quoted values whole and in their order; the server ends in the state
    that calling its handlers in that order gives, and what is shown for each line is the answer to it,
    an answer that is an error stopping none of the later commands. *)
Theorem qmgr_session server user qs s :
  reaches ce server user (envs 0%nat) s → Forall request_ok qs →
  let '(s', rs) := perform_all 1 (requested <$> qs) (authenticated remote user s) in
  qmgr envs LookupAddr remote ce "" server (request_line <$> qs) s = (s', Some (shown <$> rs)).
Proof.
  intros Hr Hqs. pose proof (rc_user _ _ _ _ _ Hr) as [_ Hu]. unfold qmgr. rewrite (Connect_ok envs LookupAddr remote ce server user 0 s Hr).
  rewrite decide_True by done. rewrite (interact_requests user qs) by done.
  destruct (perform_all 1 (requested <$> qs) _) as [s' rs]. cbn [fst snd]. by rewrite Close_link.
Qed.
End session.

(** ** A session *)

Definition admin_requests : list request :=
  [mkRequest Create "create" (TheQueue (Plain "night")) "queue"
     [mkAssign "queue_type" None (Some (Assign, Plain "execution"));
      mkAssign "resources_max" (Some "walltime") (Some (Assign, Plain "08:00:00"))];
   mkRequest Set_ "Set" TheServer "server"
     [mkAssign "managers" None (Some (Increment, Quoted "root@head")); mkAssign "comment" None (Some (Assign, Quoted "back at = 9"))];
   mkRequest Delete "d" (TheNode (Plain "nowhere")) "n" [];
   mkRequest Unset "unset" (TheQueue (Plain "night")) "que" [mkAssign "acl_users" None None; mkAssign "Priority" None None]].

Lemma qmgr_session_witness :
  let '(s', rs) := perform_all link_envs 1 (requested <$> admin_requests) (authenticated "10.0.0.9:40000" "root" (link_server ∅)) in
  qmgr link_envs (λ _, None) "10.0.0.9:40000" link_client "" "head" (request_line <$> admin_requests) (link_server ∅)
  = (s', Some (shown <$> rs)).
Proof.
  apply (qmgr_session link_envs (λ _, None) "10.0.0.9:40000" link_client "head" "root" admin_requests (link_server ∅)).
  - apply link_reaches.
  - repeat (apply Forall_cons; split; [split_and!; by_decide|]). by apply Forall_nil.
Defined.

(** *** Where the commands do not do what is typed *)

Definition typed_session (lines : list string) : Server * option (list outcome) :=
  qmgr link_envs (λ _, None) "10.0.0.9:40000" link_client "" "head" lines (link_server ∅).

(** Taking a manager off the list leaves the list with that manager alone. *)
Example decrement_replaces :
  Managers (cfg (typed_session ["set server managers = ann@h,bob@h"; "set server managers -= bob@h"]).1) = "bob@h".
Proof. by vm_compute. Qed.

(** Adding a user to a queue's list drops the users that were on it. *)
Example queue_increment_replaces :
  Queue.ACLUsers <$> Queue.GetQueue "q" (queueMgr (typed_session
    ["create queue q"; "set queue q acl_users = ann"; "set queue q acl_users += bob"]).1) = Some ["bob"].
Proof. by vm_compute. Qed.

(** An empty value in quotes is no word, and the next key is taken for the value. *)
Example empty_value_takes_key :
  parseAttrs (tokenize (Join " " ["acl_hosts"; "="; String double_quote (String double_quote ""); "enabled"; "="; "False"]))
  = [mkAttr "acl_hosts" false "" "enabled" 1].
Proof. by vm_compute. Qed.

(** An operator in a value that is typed without blanks is taken for the operator of the word. *)
Example operator_in_value : parseAttrs ["note=a+=b"] = [mkAttr "note=a" false "" "b" 7].
Proof. by vm_compute. Qed.

(** Assignments separated by commas keep the commas. *)
Example comma_is_kept :
  parseAttrs (tokenize "max_running = 5, max_queuable = 10") =
  [mkAttr "max_running" false "" "5," 1; mkAttr "max_queuable" false "" "10" 1].
Proof. by vm_compute. Qed.
