(* ===== verification/Commands.v ===== *)
(** * The commands on jobs, queues and nodes: cmd/qdel, qhold, qrls, qrun, qsig, qmove, qorder, qrerun,
    qchkpt, qmsg, qalter, qselect, qenable, qdisable, qstart, qstop, qterm and pbsnodes

    A command is the function of its options and arguments, as the flag package leaves them, to the
    server's new state, its exit code and what it prints.  Commands that end with [os.Exit] do not run
    their deferred [Close]. *)

From S2P Require Import Prelude GoStd NetStd Node Dis DisMessage Client Conn.
From S2P Require Job.
From S2P Require Import ServerConfig ServerState Submit Exec Admin Auth Dispatch DispatchSpec SchedMain SchedLink Qmgr.
Import Proto.

Local Open Scope string_scope.
Local Open Scope list_scope.
Local Open Scope Z_scope.

Section commands.
Context `{MapRange} `{SliceSort}.
Context (envs : nat → Env) (LookupAddr : string → option (list string)) (remote : string) (ce : ClientEnv).
Abbreviation ask := (ask envs LookupAddr remote).
Abbreviation Connect := (Connect envs LookupAddr remote ce).
Abbreviation Close := (Close envs LookupAddr remote).

(** ** One request for each argument *)

(** The exit code is 1 when a request failed. *)
Fixpoint for_each (each : string → Call ()) (args : list string) (l : Link) : Link * Z :=
  match args with
  | [] => (l, 0)
  | a :: args =>
    let '(l, r) := ask (each a) l in
    let '(l, exitCode) := for_each each args l in (l, if is_ok r then exitCode else 1)
  end.

(** Too few arguments exit with 1, no connection with [fail]. *)
Definition command_main (need : nat) (server : string) (fail : Z) (args : list string) (body : string → Link → Link * Z)
    (s : Server) : Server * Z :=
  if (length args <? need)%nat then (s, 1)
  else match Connect server 0 s with
       | (s, None) => (s, fail)
       | (_, Some (l, user)) => let '(l, exitCode) := body user l in (l_server l, exitCode)
       end.

Definition qdel (purge : bool) (server : string) (args : list string) : Server → Server * Z :=
  let extend := if purge then "purge" else "" in
  command_main 1 server 1 args (λ user, for_each (λ jobID, DeleteJobExtend user jobID extend) args).
Definition qhold (holdType server : string) (args : list string) : Server → Server * Z :=
  command_main 1 server 1 args (λ user, for_each (λ jobID, HoldJob user jobID holdType) args).
Definition qrls (holdType server : string) (args : list string) : Server → Server * Z :=
  command_main 1 server 1 args (λ user, for_each (λ jobID, ReleaseJob user jobID holdType) args).
Definition qrun (host : string) (args : list string) : Server → Server * Z :=
  command_main 1 "" 2 args (λ user, for_each (λ jobID, Client.RunJob user jobID host) args).
Definition qsig (signal : string) (args : list string) : Server → Server * Z :=
  command_main 1 "" 2 args (λ user, for_each (λ jobID, SignalJob user jobID signal) args).
Definition qrerun (force : bool) (args : list string) : Server → Server * Z :=
  command_main 1 "" 2 args (λ user, for_each (λ jobID, RerunJob user jobID force) args).
Definition qchkpt (args : list string) : Server → Server * Z :=
  command_main 1 "" 2 args (λ user, for_each (CheckpointJob user) args).

(** The first argument is not a job: the destination of qmove, the message of qmsg. *)
Definition qmove (args : list string) : Server → Server * Z :=
  command_main 2 "" 2 args (λ user, for_each (λ jobID, MoveJob user jobID (hd "" args)) (tl args)).
Definition msgErr : Z := 1.
Definition msgOut : Z := 2.
Definition qmsg (toErr toOut : bool) (args : list string) : Server → Server * Z :=
  let fileOpt := if toErr then msgErr else if toOut then msgOut else msgErr in
  command_main 2 "" 2 args (λ user, for_each (λ jobID, MessJob user jobID fileOpt (hd "" args)) (tl args)).

Definition set_queues (attrs : list SvrAttrl) (args : list string) : Server → Server * Z :=
  command_main 1 "" 2 args (λ user, for_each (λ queue, Client.Manager user MgrCmdSet MgrObjQueue queue attrs) args).
Definition qenable : list string → Server → Server * Z := set_queues [mkAttr "enabled" false "" "True" 0].
Definition qdisable : list string → Server → Server * Z := set_queues [mkAttr "enabled" false "" "False" 0].
Definition qstart : list string → Server → Server * Z := set_queues [mkAttr "started" false "" "True" 0].
Definition qstop : list string → Server → Server * Z := set_queues [mkAttr "started" false "" "False" 0].

(** One request on two jobs; without an error main returns and the connection is closed. *)
Definition qorder (args : list string) (s : Server) : Server * Z :=
  match args with
  | [a; b] =>
    match Connect "" 0 s with
    | (s, None) => (s, 2)
    | (_, Some (l, user)) =>
      let '(l, r) := ask (OrderJob user a b) l in
      if is_ok r then (Close user l, 0) else (l_server l, 1)
    end
  | _ => (s, 1)
  end.

(** (Conn).Shutdown: an end of the connection in place of a reply is as good as one. *)
Fixpoint says_EOF (e : io_error) : bool :=
  match e with EOF | ErrUnexpectedEOF => true | Wrapped e => says_EOF e | _ => false end.
Definition closed_is_ok (call : Call ()) : Call () := λ inbox,
  match call inbox with
  | (out, Err (IOError e), rest) => (out, if says_EOF e then Ok () else Err (IOError e), rest)
  | answer => answer
  end.
Definition Shutdown (user : string) (manner : Z) : Call () :=
  _ ← flush (writeHeader user BatchReqShutdown +:+ WriteUint (uint64 manner) +:+ WriteString ""); closed_is_ok expect_ok.

Definition shutImmediate : Z := 0.
Definition shutQuick : Z := 2.
Definition qterm (shutType : string) (s : Server) : Server * Z :=
  let manner := if decide (shutType = "immediate") then shutImmediate else shutQuick in
  match Connect "" 0 s with
  | (s, None) => (s, 2)
  | (_, Some (l, user)) =>
    let '(l, r) := ask (Shutdown user manner) l in
    if is_ok r then (Close user l, 0) else (l_server l, 1)
  end.

(** ** qalter *)

Record alter_opts := mkAlter {
  al_dateTime : string; al_errPath : string; al_holdList : string; al_resources : string; al_mailEvts : string;
  al_mailList : string; al_jobName : string; al_outPath : string; al_priority : string; al_rerun : string;
  al_shell : string; al_account : string; al_checkpoint : string; al_join : string; al_keep : string;
  al_queue : string; al_extra : string;
}.

Definition opt_attr (name v : string) : list SvrAttrl := if decide (v = "") then [] else [mkAttr name false "" v 0].
(** The pairs of a list [key=value,key=value]; an item without an equals sign is dropped. *)
Definition opt_pairs (f : string → string → SvrAttrl) (v : string) : list SvrAttrl :=
  if decide (v = "") then [] else omap (λ kv, uncurry f <$> cut "=" kv) (Split "," v).
Definition resource_attr (k v : string) : SvrAttrl := mkAttr "Resource_List" true k v 0.

Definition qalter_attrs (o : alter_opts) : list SvrAttrl :=
  opt_attr "Execution_Time" (al_dateTime o) ++ opt_attr "Error_Path" (al_errPath o) ++ opt_attr "Hold_Types" (al_holdList o) ++
  opt_pairs resource_attr (al_resources o) ++
  opt_attr "Mail_Points" (al_mailEvts o) ++ opt_attr "Mail_Users" (al_mailList o) ++ opt_attr "Job_Name" (al_jobName o) ++
  opt_attr "Output_Path" (al_outPath o) ++ opt_attr "Priority" (al_priority o) ++ opt_attr "Rerunable" (al_rerun o) ++
  opt_attr "Shell_Path_List" (al_shell o) ++ opt_attr "Account_Name" (al_account o) ++ opt_attr "Checkpoint" (al_checkpoint o) ++
  opt_attr "Join_Path" (al_join o) ++ opt_attr "Keep_Files" (al_keep o) ++ opt_attr "queue" (al_queue o) ++
  opt_pairs (λ k v, mkAttr k false "" v 0) (al_extra o).

Definition qalter (o : alter_opts) (args : list string) (s : Server) : Server * Z :=
  if decide (args = []) then (s, 1)
  else if decide (qalter_attrs o = []) then (s, 1)
  else command_main 1 "" 2 args (λ user, for_each (λ jobID, ModifyJob user jobID (qalter_attrs o)) args) s.

(** ** qselect *)

Record select_opts := mkSelect {
  se_execTime : string; se_account : string; se_checkpoint : string; se_holdList : string; se_resources : string;
  se_jobName : string; se_priority : string; se_queue : string; se_rerunnable : string; se_states : string; se_userList : string;
}.
Definition qselect_attrs (o : select_opts) : list SvrAttrl :=
  opt_attr "Execution_Time" (se_execTime o) ++ opt_attr "Account_Name" (se_account o) ++ opt_attr "Checkpoint" (se_checkpoint o) ++
  opt_attr "Hold_Types" (se_holdList o) ++ opt_pairs resource_attr (se_resources o) ++
  opt_attr "Job_Name" (se_jobName o) ++ opt_attr "queue" (se_queue o) ++ opt_attr "Priority" (se_priority o) ++
  opt_attr "Rerunable" (se_rerunnable o) ++ opt_attr "job_state" (se_states o) ++ opt_attr "Job_Owner" (se_userList o).

Definition qselect (o : select_opts) (s : Server) : Server * (Z * list string) :=
  match Connect "" 0 s with
  | (s, None) => (s, (2, []))
  | (_, Some (l, user)) =>
    let '(l, r) := ask (SelectJobs user (qselect_attrs o)) l in
    match r with
    | Ok ids => (Close user l, (0, ids))
    | _ => (l_server l, (1, []))
    end
  end.

(** ** pbsnodes *)

Record nodes_opts := mkNodesOpts {
  no_all : bool; no_down : bool; no_offline : bool; no_drain : bool; no_clear : bool; no_reset : bool;
  no_xml : bool; no_note : string; no_append : string; no_notes : bool;
}.

Definition attr_key (a : SvrAttrl) : string :=
  if HasResc a && negb (bool_decide (Resc a = "")) then Name a +:+ "." +:+ Resc a else Name a.
(** [attrs[key] = a.Value] for each attribute, then [attrs["state"]]. *)
Definition state_of (obj : StatusObject) : string :=
  lookup_or "" "state" (foldl (λ m a, <[attr_key a := Value a]> m) ∅ (obj_Attrs obj)).
Definition listed (downOnly : bool) (obj : StatusObject) : bool :=
  negb (downOnly && negb (Contains (state_of obj) "down") && negb (Contains (state_of obj) "offline")).

Definition displayNodes (objects : list StatusObject) (downOnly : bool) : list string :=
  mjoin ((λ obj, [obj_Name obj] ++ ((λ a, "     " +:+ attr_key a +:+ " = " +:+ Value a) <$> obj_Attrs obj) ++ [""])
    <$> filter (λ obj, listed downOnly obj = true) objects).
Definition displayNodesXML (objects : list StatusObject) (downOnly : bool) : list string :=
  ["<Data>"] ++
  mjoin ((λ obj, ["  <Node>"; "    <name>" +:+ obj_Name obj +:+ "</name>"] ++
      ((λ a, "    <" +:+ attr_key a +:+ ">" +:+ Value a +:+ "</" +:+ attr_key a +:+ ">") <$> obj_Attrs obj) ++ ["  </Node>"])
    <$> filter (λ obj, listed downOnly obj = true) objects) ++
  ["</Data>"].
Definition displayNodeNotes (objects : list StatusObject) : list string :=
  mjoin ((λ obj, (λ a, obj_Name obj +:+ ": " +:+ Value a) <$> filter (λ a, Name a = "note") (obj_Attrs obj)) <$> objects).

(** The attribute that the options set, if any; the cases in the order of the source. *)
Definition nodes_change (o : nodes_opts) : option SvrAttrl :=
  let state v := Some (mkAttr "state" false "" v 1) in
  if no_offline o then state "offline"
  else if no_drain o then state "drain"
  else if no_clear o || no_reset o then state "free"
  else if negb (bool_decide (no_append o = "")) then
    Some (mkAttr "note" false "" (if decide (no_note o = "") then no_append o else no_note o +:+ " " +:+ no_append o) 1)
  else if negb (bool_decide (no_note o = "")) then Some (mkAttr "note" false "" (no_note o) 1)
  else None.

(** Failures of the changes are printed; the exit code stays 0. *)
Definition pbsnodes (o : nodes_opts) (server : string) (args : list string) (s : Server) : Server * (Z * list string) :=
  match Connect server 0 s with
  | (s, None) => (s, (1, []))
  | (_, Some (l, user)) =>
    match nodes_change o with
    | Some a =>
      if decide (args = []) then (l_server l, (1, []))
      else (Close user (for_each (λ node, Client.Manager user MgrCmdSet MgrObjNode node [a]) args l).1, (0, []))
    | None =>
      let nodeID := if no_all o then "" else hd "" args in
      let '(l, r) := StatusNode envs LookupAddr remote user nodeID l in
      match r with
      | Ok objects =>
        (Close user l, (0, if no_xml o then displayNodesXML objects (no_down o)
                           else if no_notes o then displayNodeNotes objects else displayNodes objects (no_down o)))
      | _ => (l_server l, (1, []))
      end
    end
  end.
End commands.

(** ** Command lines as requests *)

Inductive cmdline :=
  | LDel (ids : list string)
  | LHold (holdType : string) (ids : list string)
  | LRelease (holdType : string) (ids : list string)
  | LRun (host : string) (ids : list string)
  | LSignal (signal : string) (ids : list string)
  | LMove (dest : string) (ids : list string)
  | LAlter (o : alter_opts) (ids : list string)
  | LQueues (attr : SvrAttrl) (queues : list string).

(** What each asks for, one request for each argument. *)
Definition requests (c : cmdline) : list command :=
  match c with
  | LDel ids => CDelete <$> ids
  | LHold t ids => (λ id, CHold id t) <$> ids
  | LRelease t ids => (λ id, CRelease id t) <$> ids
  | LRun h ids => (λ id, CRun id h) <$> ids
  | LSignal x ids => (λ id, CSignal id x) <$> ids
  | LMove d ids => (λ id, CMove id d) <$> ids
  | LAlter o ids => (λ id, CModify id (qalter_attrs o)) <$> ids
  | LQueues a qs => (λ q, CManager MgrCmdSet MgrObjQueue q [a]) <$> qs
  end.

Definition given (c : cmdline) : Prop :=
  requests c ≠ [] ∧ match c with LAlter o _ => qalter_attrs o ≠ [] | _ => True end.

Section theorem.
Context `{MapRange} `{SliceSort}.
Context (envs : nat → Env) (LookupAddr : string → option (list string)) (remote : string) (ce : ClientEnv).

Definition run_line (c : cmdline) : Server → Server * Z :=
  match c with
  | LDel ids => qdel envs LookupAddr remote ce false "" ids
  | LHold t ids => qhold envs LookupAddr remote ce t "" ids
  | LRelease t ids => qrls envs LookupAddr remote ce t "" ids
  | LRun h ids => qrun envs LookupAddr remote ce h ids
  | LSignal x ids => qsig envs LookupAddr remote ce x ids
  | LMove d ids => qmove envs LookupAddr remote ce (d :: ids)
  | LAlter o ids => qalter envs LookupAddr remote ce o ids
  | LQueues a qs => set_queues envs LookupAddr remote ce [a] qs
  end.

(** *** Lemmas *)

(** A handler that answers with a code answers with a message that can be sent. *)
Lemma command_reply_wire env c s : (∀ l, c ≠ CSelect l) → wire_reply (handler env c s).1.2.
Proof.
  intros Hc. destruct c; cbn [handler]; [apply run_reply_wire|..|apply manager_reply_wire].
  7: by destruct (Hc attrs).
  all: unfold handleDeleteJob, handleHoldJob, handleReleaseJob, handleModifyJob, handleMoveJob, handleSignalJob, handleMoveJob;
    repeat case_match; by vm_compute.
Qed.

Definition exit_code (rs : list Reply) : Z := if decide (Forall (λ r, rp_code r = 0) rs) then 0 else 1.

Lemma exit_code_cons r rs : exit_code (r :: rs) = if rp_code r =? 0 then exit_code rs else 1.
Proof.
  unfold exit_code. destruct (Z.eqb_spec (rp_code r) 0) as [E|E].
  - destruct (decide (Forall _ rs)) as [Hr|Hr]; [by rewrite decide_True by by constructor|].
    rewrite decide_False; [done|]. intros [_ ?]%Forall_cons. done.
  - rewrite decide_False; [done|]. intros [? _]%Forall_cons. done.
Qed.

Lemma for_each_performs user (each : string → Call ()) (f : string → command) args s n :
  (∀ a, each a = (_ ← flush (client_bytes user (f a)); expect_ok)) → (∀ a l, f a ≠ CSelect l) →
  wire_str user → Forall sendable (f <$> args) →
  for_each envs LookupAddr remote each args (idle_link s n)
  = (idle_link (perform_all envs n (f <$> args) s).1 (n + length args)%nat, exit_code (perform_all envs n (f <$> args) s).2).
Proof.
  intros He Hf Hu. revert s n. induction args as [|a args IH]; intros s n Hs; [by rewrite Nat.add_0_r|].
  cbn [fmap list_fmap] in *. apply Forall_cons in Hs as [Ha Hs]. cbn [for_each perform_all].
  rewrite (ask_command envs LookupAddr remote (each a) user (f a) s n) by (done || apply command_reply_wire, Hf).
  rewrite IH by done. destruct (handler (envs n) (f a) s) as [[s1 r] b]. cbn [fst snd].
  destruct (perform_all envs (S n) (f <$> args) s1) as [s2 rs]. cbn [fst snd length]. rewrite exit_code_cons, Nat.add_succ_comm.
  unfold accepted_code. by destruct (rp_code r =? 0).
Qed.

(** A command that sends a request for each of its arguments. *)
Lemma main_performs user (each : string → string → Call ()) (f : string → command) need fail all args s :
  reaches ce "" user (envs 0%nat) s → (need ≤ length all)%nat →
  (∀ a, each user a = (_ ← flush (client_bytes user (f a)); expect_ok)) → (∀ a l, f a ≠ CSelect l) →
  Forall sendable (f <$> args) →
  command_main envs LookupAddr remote ce need "" fail all (λ user, for_each envs LookupAddr remote (each user) args) s
  = ((perform_all envs 1 (f <$> args) (authenticated remote user s)).1,
     exit_code (perform_all envs 1 (f <$> args) (authenticated remote user s)).2).
Proof.
  intros Hr Hlen He Hf Hs. pose proof (rc_user _ _ _ _ _ Hr) as [_ Hu]. unfold command_main.
  rewrite (proj2 (Nat.ltb_ge _ _) Hlen), (Connect_ok envs LookupAddr remote ce "" user 0 s Hr).
  by rewrite (for_each_performs user (each user) f).
Qed.

(** *** Theorem *)

End theorem.

(** ** Examples *)

Definition no_alter : alter_opts := mkAlter "" "" "" "" "" "" "" "" "" "" "" "" "" "" "" "" "".
Definition no_select : select_opts := mkSelect "" "" "" "" "" "" "" "" "" "" "".

Definition head_client : ClientEnv :=
  mkClientEnv "" "head" (ce_user link_client) (ce_ReadFile link_client) (ce_now link_client) (ce_dial link_client).


(** *** Where the commands do not do what they say *)

Abbreviation run c := (c link_envs (λ _ : string, None) "10.0.0.9:40000" head_client).

(** The server does not look at the criteria of qselect: the owner of the only job is not nobody. *)
Example select_ignores_criteria :
  (run qselect (mkSelect "" "" "" "" "" "" "" "" "" "C" "nobody") (link_server ∅)).2 = (0, ["1.srv"]).
Proof. by vm_compute. Qed.

(** qsub turns a date into seconds; qalter sends its digits, which the server takes for seconds. *)
Example alter_date_is_seconds :
  (λ j, Unix (Job.ExecutionTime j)) <$>
    the_jobs (run qalter (mkAlter "202601011200" "" "" "" "" "" "" "" "" "" "" "" "" "" "" "" "") ["1.srv"] (link_server ∅)).1 !! "1.srv"
  = Some 202601011200.
Proof. by vm_compute. Qed.

(** qalter -q changes the queue of a job without the checks and the counts of qmove. *)
Example alter_queue_unchecked :
  Job.Queue <$>
    the_jobs (run qalter (mkAlter "" "" "" "" "" "" "" "" "" "" "" "" "" "" "" "nowhere" "") ["1.srv"] (link_server ∅)).1 !! "1.srv"
  = Some "nowhere".
Proof. by vm_compute. Qed.

(** A note that is appended takes the place of the note that is there. *)
Example append_note_replaces :
  (λ n, Node.Note n) <$> the_nodes (run pbsnodes (mkNodesOpts false false false false false false false "" "later" false) "" ["n1"]
    (upd_node "n1" (λ n, n <| Node.Note := "first" |>) (link_server ∅))).1 !! "n1" = Some "later".
Proof. by vm_compute. Qed.
