(* ===== verification/Qsub.v ===== *)
(** * Submission: cmd/qsub/main.go

    The options of the command become the attributes of a job, which the client sends with the script
    in two requests.  The local time zone, the files and the user's surroundings are arguments; the
    command line is what the flag package leaves of it. *)

From S2P Require Import Prelude GoStd NetStd Job JobManager Dis DisMessage Client Conn Auth.
From S2P Require Queue Route ExecSpec.
From S2P Require Import ServerConfig ServerState Submit Dispatch DispatchSpec SchedMain SchedLink.
Import Proto.

Local Open Scope string_scope.
Local Open Scope list_scope.
Local Open Scope Z_scope.

(** ** Repeated options: concatValue *)

Definition concat_Set (parts : list string) (s : string) : list string :=
  let s := TrimSpace s in if decide (s = "") then parts else parts ++ [s].
Definition concat_get (parts : list string) : string := Join "," parts.

(** ** Dates: time.ParseInLocation on the layouts of parseExecTime *)

Record date := mkDate { d_year : Z; d_month : Z; d_day : Z; d_hour : Z; d_min : Z; d_sec : Z }.
#[export] Instance eta_date : Eta date := λ d, mkDate (d_year d) (d_month d) (d_day d) (d_hour d) (d_min d) (d_sec d).

(** The elements of a layout: 2006, 01, 02, 15, 04, 05 and a dot. *)
Inductive chunk := LongYear | ZeroMonth | ZeroDay | Hour24 | ZeroMinute | Dot | ZeroSecond.

(** [getnum(s, fixed)]: two digits, or one when the width is not fixed. *)
Definition getnum (s : string) (fixed : bool) : option (Z * string) :=
  match s with
  | String a (String b rest) =>
    if negb (is_digit a) then None
    else if is_digit b then Some (digit_val a * 10 + digit_val b, rest)
    else if fixed then None else Some (digit_val a, String b rest)
  | String a "" => if is_digit a && negb fixed then Some (digit_val a, "") else None
  | "" => None
  end.
Definition getyear (s : string) : option (Z * string) :=
  match s with
  | String a (String b (String c (String d rest))) =>
    if is_digit a && is_digit b && is_digit c && is_digit d
    then Some (dec_value 0 (String a (String b (String c (String d "")))), rest) else None
  | _ => None
  end.

(** A number in its range. *)
Definition in_range (lo hi : Z) (r : option (Z * string)) : option (Z * string) :=
  '(n, rest) ← r; if (lo <=? n) && (n <=? hi) then Some (n, rest) else None.

(** A fraction of a second may follow the seconds though the layout has none. *)
Definition skip_fraction (s : string) : string :=
  match s with
  | String p (String d rest) =>
    if bool_decide (p = "."%char ∨ p = ","%char) && is_digit d then (span_digits rest).2 else s
  | _ => s
  end.

Definition parse_chunk (c : chunk) (d : date) (s : string) : option (date * string) :=
  match c with
  | LongYear => '(n, rest) ← getyear s; Some (d <| d_year := n |>, rest)
  | ZeroMonth => '(n, rest) ← in_range 1 12 (getnum s true); Some (d <| d_month := n |>, rest)
  | ZeroDay => '(n, rest) ← getnum s true; Some (d <| d_day := n |>, rest)
  | Hour24 => '(n, rest) ← in_range 0 23 (getnum s false); Some (d <| d_hour := n |>, rest)
  | ZeroMinute => '(n, rest) ← in_range 0 59 (getnum s true); Some (d <| d_min := n |>, rest)
  | Dot => match s with String "." rest => Some (d, rest) | _ => None end
  | ZeroSecond => '(n, rest) ← in_range 0 59 (getnum s true); Some (d <| d_sec := n |>, skip_fraction rest)
  end.

Fixpoint parse_chunks (cs : list chunk) (d : date) (s : string) : option date :=
  match cs with
  | [] => if decide (s = "") then Some d else None
  | c :: cs => '(d, rest) ← parse_chunk c d s; parse_chunks cs d rest
  end.

Definition is_leap (year : Z) : bool := (year mod 4 =? 0) && (negb (year mod 100 =? 0) || (year mod 400 =? 0)).
Definition daysIn (month year : Z) : Z :=
  if month =? 2 then (if is_leap year then 29 else 28)
  else if bool_decide (month ∈ [4; 6; 9; 11]) then 30 else 31.

(** What the layout does not give is 0 for the year and 1 for the month and the day. *)
Definition ParseInLocation (layout : list chunk) (s : string) : option date :=
  d ← parse_chunks layout (mkDate 0 1 1 0 0 0) s;
  if (1 <=? d_day d) && (d_day d <=? daysIn (d_month d) (d_year d)) then Some d else None.

Definition layouts : list (list chunk) :=
  [[LongYear; ZeroMonth; ZeroDay; Hour24; ZeroMinute; Dot; ZeroSecond]; [LongYear; ZeroMonth; ZeroDay; Hour24; ZeroMinute];
   [ZeroMonth; ZeroDay; Hour24; ZeroMinute; Dot; ZeroSecond]; [ZeroMonth; ZeroDay; Hour24; ZeroMinute];
   [ZeroDay; Hour24; ZeroMinute]; [Hour24; ZeroMinute]].

(** The first layout that fits; a date without a year gets the present one. *)
Definition parseExecTime (nowYear : Z) (s : string) : option date :=
  d ← head (omap (λ layout, ParseInLocation layout s) layouts);
  Some (if d_year d =? 0 then d <| d_year := d_year d + nowYear |> else d).

(** ** Options *)

Record sub_opts := mkSub {
  o_name : string; o_resources : list string; o_outPath : string; o_errPath : string; o_join : string; o_mail : string;
  o_mailUser : string; o_workDir : string; o_varList : string; o_exportAll : bool; o_account : string;
  o_checkpoint : string; o_keepFiles : string; o_shell : string; o_rerunnable : string; o_execTime : string;
  o_priority : Z; o_hold : bool; o_faultTol : bool; o_arrayReq : string; o_userList : string; o_rootDir : string;
  o_extra : string; o_queue : string; o_server : string; o_scriptArgs : string; o_file : option string;
}.

(** The surroundings of the user: the year and the local reading of a date, the environment, the
    user's name and home, the directory, SHELL, the host's name, PATH, and the standard input. *)
Record SubEnv := mkSubEnv {
  e_year : Z; e_local : date → Z; e_environ : list string; e_user : option (string * string);
  e_wd : string; e_shell : string; e_host : string; e_path : string; e_stdin : option string;
}.

Definition set_attr (name v : string) : list SvrAttrl := if decide (v = "") then [] else [mkAttr name false "" v 1].
(** The pairs of a comma-separated list, blanks around an item dropped. *)
Definition pairs_of (v : string) : list (string * string) :=
  if decide (v = "") then [] else omap (λ kv, cut "=" (TrimSpace kv)) (Split "," v).

Definition opt_var (prefix v : string) : list string := if decide (v = "") then [] else [prefix +:+ v].
Definition variables (e : SubEnv) (o : sub_opts) : list string :=
  opt_var "" (o_varList o) ++ (if o_exportAll o then e_environ e else []) ++
  match e_user e with Some (home, name) => ["PBS_O_HOME=" +:+ home; "PBS_O_LOGNAME=" +:+ name] | None => [] end ++
  opt_var "PBS_O_WORKDIR=" (e_wd e) ++ opt_var "PBS_O_SHELL=" (e_shell e) ++ opt_var "PBS_O_HOST=" (e_host e) ++
  opt_var "PBS_O_PATH=" (e_path e).

(** The attribute of an option [-W key=value]; the cases of the source all use the key as the name. *)
Definition extra_attr (kv : string * string) : SvrAttrl := mkAttr (TrimSpace kv.1) false "" (TrimSpace kv.2) 1.

(** buildAttrs, with the name that main has settled; the time it could not read is the zero time. *)
Definition exec_seconds (e : SubEnv) (s : string) : Z :=
  match parseExecTime (e_year e) s with Some d => e_local e d | None => Unix zero_time end.
Definition buildAttrs (e : SubEnv) (name : string) (o : sub_opts) : list SvrAttrl :=
  set_attr "Job_Name" name ++
  ((λ '(k, v), mkAttr "Resource_List" true k v 1) <$> pairs_of (concat_get (o_resources o))) ++
  set_attr "Output_Path" (o_outPath o) ++ set_attr "Error_Path" (o_errPath o) ++ set_attr "Join_Path" (o_join o) ++
  set_attr "Mail_Points" (o_mail o) ++ set_attr "Mail_Users" (o_mailUser o) ++ set_attr "Account_Name" (o_account o) ++
  set_attr "Checkpoint" (o_checkpoint o) ++ set_attr "Keep_Files" (o_keepFiles o) ++ set_attr "Shell_Path_List" (o_shell o) ++
  set_attr "Rerunable" (o_rerunnable o) ++
  (if decide (o_execTime o = "") then [] else [mkAttr "Execution_Time" false "" (FormatInt (exec_seconds e (o_execTime o))) 1]) ++
  (if o_priority o =? 0 then [] else [mkAttr "Priority" false "" (Itoa (o_priority o)) 1]) ++
  (if o_hold o then [mkAttr "Hold_Types" false "" "u" 1] else []) ++
  (if o_faultTol o then [mkAttr "fault_tolerant" false "" "True" 1] else []) ++
  set_attr "job_array_request" (o_arrayReq o) ++ set_attr "User_List" (o_userList o) ++ set_attr "init_root_dir" (o_rootDir o) ++
  (extra_attr <$> pairs_of (o_extra o)) ++
  (if decide (o_workDir o = "") then [] else [mkAttr "Variable_List" false "" ("PBS_O_WORKDIR=" +:+ o_workDir o) 1]) ++
  [mkAttr "Variable_List" false "" (Join "," (variables e o)) 1].

(** ** The command *)

Section qsub.
Context `{MapRange} `{SliceSort}.
Context (envs : nat → Env) (LookupAddr : string → option (list string)) (remote : string) (ce : ClientEnv).

(** A call of several messages: what the call writes is served as it is written, and it reads what has
    been sent back so far; [served] counts the messages that have been answered. *)
Fixpoint converse {A} (fuel : nat) (call : Call A) (served : nat) (inbox : string) (l : Link) : Link * result call_error A :=
  let '(written, r, _) := call inbox in
  match fuel, drop served written with
  | O, _ | _, [] => (l, r)
  | S fuel, new =>
    if negb (l_open l) then (l, r)
    else
      let msg := concat_str new in
      let '(s, open, out) :=
        match serve_bytes LookupAddr remote (S (String.length msg)) (envs (l_turn l)) (l_server l, "") msg with
        | Some (inr (s, out)) => (s, true, out)
        | Some (inl (Closed (s, out))) => (s, false, out)
        | Some (inl (Crashed | Stuck)) | None => (l_server l, false, "")
        end in
      converse fuel call (served + length new) (inbox +:+ out) (mkLink s open "" (S (l_turn l)))
  end.

(** SubmitJob writes two messages. *)
Definition SubmitJob (user queue : string) (attrs : list SvrAttrl) (script : string) : Link → Link * result call_error string :=
  converse 2 (Client.SubmitJob user queue attrs script) 0 "".

(** The script and the name of the job: of the file, or of the standard input. *)
Definition read_script (ReadFile : string → option string) (e : SubEnv) (o : sub_opts) : option (string * string) :=
  match o_file o with
  | Some f => data ← ReadFile f; Some (data, if decide (o_name o = "") then f else o_name o)
  | None => data ← e_stdin e; Some (data, if decide (o_name o = "") then "STDIN" else o_name o)
  end.

Definition set_args (o : sub_opts) (script : string) : string :=
  if decide (o_scriptArgs o = "") then script else "set -- " +:+ o_scriptArgs o +:+ String newline script.

(** main: the job's id, or [None] for an exit with 1.  A refused submission exits before [Close]. *)
Definition qsub (e : SubEnv) (o : sub_opts) (s : Server) : Server * option string :=
  match read_script (ce_ReadFile ce) e o with
  | None => (s, None)
  | Some (script, name) =>
    if (o_priority o <? -1024) || (1023 <? o_priority o) then (s, None)
    else if negb (bool_decide (o_execTime o = "")) && bool_decide (parseExecTime (e_year e) (o_execTime o) = None) then (s, None)
    else match Connect envs LookupAddr remote ce (o_server o) 0 s with
    | (s, None) => (s, None)
    | (_, Some (l, user)) =>
      let '(l, r) := SubmitJob user (o_queue o) (buildAttrs e name o) (set_args o script) l in
      match r with
      | Ok jobID => (Close envs LookupAddr remote user l, Some jobID)
      | _ => (l_server l, None)
      end
    end
  end.
End qsub.

(** ** The job that arrives *)

(** The value of the last pair with a key. *)
Definition last_of (key : string) (pairs : list (string * string)) (d : string) : string :=
  foldl (λ v kv, if decide (TrimSpace kv.1 = key) then TrimSpace kv.2 else v) d pairs.
Definition extra_keys : list string := ["depend"; "stagein"; "stageout"; "group_list"].

Section arrives.
Context (t : Time).
Abbreviation apply := (foldl (applyJobAttr t)).

Lemma take_opt n v (set : string → Job.Job → Job.Job) j :
  (∀ j, applyJobAttr t j (mkAttr n false "" v 1) = set v j) → (v = "" → set v j = j) → apply j (set_attr n v) = set v j.
Proof. intros Ha Hs. unfold set_attr. case_decide as Hv; [cbn; by rewrite Hs|]. cbn. apply Ha. Qed.

Lemma apply_resources pairs j :
  apply j ((λ '(k, v), mkAttr "Resource_List" true k v 1) <$> pairs)
  = j <| Job.ResourceReq := foldl (λ m '(k, v), <[k := v]> m) (Job.ResourceReq j) pairs |>.
Proof.
  revert j. induction pairs as [|[k v] pairs IH]; intros j; [by destruct j|]. cbn [fmap list_fmap foldl]. by rewrite IH.
Qed.

Lemma apply_extras pairs j :
  Forall (λ kv, TrimSpace kv.1 ∈ extra_keys) pairs →
  apply j (extra_attr <$> pairs)
  = j <| Job.DependList := last_of "depend" pairs (Job.DependList j) |> <| Job.StageinList := last_of "stagein" pairs (Job.StageinList j) |>
      <| Job.StageoutList := last_of "stageout" pairs (Job.StageoutList j) |> <| Job.GroupList := last_of "group_list" pairs (Job.GroupList j) |>.
Proof.
  intros Hk. revert j. induction Hk as [|[k v] pairs Hk Hp IH]; intros j; [by destruct j|]. cbn [fmap list_fmap foldl]. rewrite IH.
  unfold extra_keys in Hk. cbn [fst] in Hk. unfold extra_attr. cbn [fst snd]. unfold last_of. cbn [foldl fst snd].
  rewrite !elem_of_cons, elem_of_nil in Hk. destruct_or! Hk; rewrite ?Hk; [reflexivity..|done].
Qed.

Lemma set_held j : Job.SetState t StateHeld SubstateHeld j
  = j <| Job.State := StateHeld |> <| Job.Substate := SubstateHeld |> <| Job.MTime := t |> <| Job.Modified := true |>.
Proof. reflexivity. Qed.
Lemma set_waiting j : Job.SetState t StateWaiting SubstateWaiting j
  = j <| Job.State := StateWaiting |> <| Job.Substate := SubstateWaiting |> <| Job.MTime := t |> <| Job.Modified := true |>.
Proof. reflexivity. Qed.

(** *** Variables *)

Lemma Split_app c a b : Split c (a +:+ String c b) = Split c a ++ Split c b.
Proof.
  induction a as [|d a IH]; cbn [String.append Split]; [by rewrite decide_True|].
  case_decide; [by rewrite IH|]. rewrite IH. destruct (Split c a) as [|x xs] eqn:E; [by apply Split_nonempty in E|done].
Qed.

Lemma Join_app sep l l' : l ≠ [] → l' ≠ [] → Join sep (l ++ l') = Join sep l +:+ sep +:+ Join sep l'.
Proof.
  intros Hl Hl'. induction l as [|x l IH]; [done|]. destruct l as [|y l].
  - cbn. by destruct l'.
  - cbn [app Join] in *. rewrite IH by done. by rewrite !app_str_assoc.
Qed.

(** Items without a comma at the end of a list are items of the text. *)
Lemma Split_tail pre post :
  post ≠ [] → Forall (λ x, has_byte "," x = false) post → ∃ first, Split "," (Join "," (pre ++ post)) = first ++ post.
Proof.
  intros Hne Hp. assert (Split "," (Join "," post) = post) as E by (by apply (Split_Join ",")).
  destruct pre as [|x pre]; [exists []; exact E|]. exists (Split "," (Join "," (x :: pre))).
  rewrite (Join_app ",") by done. change ("," +:+ ?y) with (String "," y). by rewrite Split_app, E.
Qed.

Definition plain_user (e : SubEnv) : Prop :=
  Forall (λ x, has_byte "," x = false) ([e_wd e; e_shell e; e_host e; e_path e] ++
    match e_user e with Some (home, name) => [home; name] | None => [] end).

Lemma variables_arrive e o base home name :
  plain_user e → e_user e = Some (home, name) → e_wd e ≠ "" →
  let m := foldl add_variable base (Split "," (Join "," (variables e o))) in
  m !! "PBS_O_HOME" = Some home ∧ m !! "PBS_O_LOGNAME" = Some name ∧ m !! "PBS_O_WORKDIR" = Some (e_wd e).
Proof.
  intros Hp Hu Hwd m. unfold plain_user in Hp. rewrite Hu in Hp. cbn [app] in Hp. rewrite !Forall_cons in Hp.
  destruct Hp as (Hw & Hsh & Hh & Hpa & Hho & Hn & _).
  assert (∃ first, Split "," (Join "," (variables e o)) = first ++ (["PBS_O_HOME=" +:+ home; "PBS_O_LOGNAME=" +:+ name] ++
    opt_var "PBS_O_WORKDIR=" (e_wd e) ++ opt_var "PBS_O_SHELL=" (e_shell e) ++ opt_var "PBS_O_HOST=" (e_host e) ++
    opt_var "PBS_O_PATH=" (e_path e))) as [first E].
  { unfold variables. rewrite Hu, (app_assoc (opt_var "" _)). apply Split_tail; [done|]. unfold opt_var.
    repeat case_decide; cbn [app]; repeat (apply Forall_cons; split; [rewrite has_byte_app; done|]); apply Forall_nil_2. }
  unfold m. rewrite E, foldl_app. generalize (foldl add_variable base first) as m0. intros m0. clear E m.
  assert (∀ k v m, has_byte "=" k = false → k ≠ "" → add_variable m (k +:+ "=" +:+ v) = <[k := v]> m) as Hadd.
  { intros k v m Hk Hne. unfold add_variable. change ("=" +:+ v) with (String "=" v). rewrite cut_app by done. by rewrite decide_False. }
  unfold opt_var. rewrite (decide_False (P := e_wd e = "")) by done. cbn [app foldl].
  change ("PBS_O_HOME=" +:+ home) with ("PBS_O_HOME" +:+ "=" +:+ home).
  change ("PBS_O_LOGNAME=" +:+ name) with ("PBS_O_LOGNAME" +:+ "=" +:+ name).
  change ("PBS_O_WORKDIR=" +:+ e_wd e) with ("PBS_O_WORKDIR" +:+ "=" +:+ e_wd e).
  change ("PBS_O_SHELL=" +:+ e_shell e) with ("PBS_O_SHELL" +:+ "=" +:+ e_shell e).
  change ("PBS_O_HOST=" +:+ e_host e) with ("PBS_O_HOST" +:+ "=" +:+ e_host e).
  change ("PBS_O_PATH=" +:+ e_path e) with ("PBS_O_PATH" +:+ "=" +:+ e_path e).
  repeat case_decide; cbn [app foldl]; rewrite !Hadd by done; split_and!; by simplify_map_eq.
Qed.
End arrives.

(** Bring a job with updated fields to the form of a record. *)
Ltac flat := lazy beta iota delta [set_field Job.NewJob Job.zero_job
    Job.ID Job.Name Job.Owner Job.Queue Job.Server Job.HashName Job.State Job.Substate Job.ExecHost Job.ExecPort
    Job.SessionID Job.ExitStatus Job.CreateTime Job.QueueTime Job.StartTime Job.CompTime Job.ModifyTime Job.MTime
    Job.ExecutionTime Job.Script Job.ScriptFile Job.ScriptArgs Job.StdoutPath Job.StderrPath Job.JoinPath
    Job.Checkpoint Job.ResourceReq Job.ResourceUsed Job.EUser Job.EGroup Job.Shell Job.UserList Job.Account Job.Attrs
    Job.VariableList Job.KeepFiles Job.FaultTolerant Job.JobRadix Job.ReqVersion Job.Priority Job.Rerunnable
    Job.MailPoints Job.MailUsers Job.Comment Job.DependList Job.StageinList Job.StageoutList Job.GroupList
    Job.JobArrayReq Job.InitWorkDir Job.RootDir Job.NodeCount Job.TaskCount Job.NeedNodes Job.ProvisionVM
    Job.ProvisionNode Job.Modified Job.FromRoute Job.HoldTypes Job.Interactive].
Ltac take_field n set :=
  rewrite (take_opt _ n _ set); [flat|intros; reflexivity|let E := fresh in intros E; rewrite E; flat; reflexivity].

(** The job of a submission with the options [o], as user [user] at time [t]. *)
Record arrived (e : SubEnv) (t : Time) (name user : string) (o : sub_opts) (j : Job.Job) : Prop := {
  ar_owner : Job.Owner j = user;
  ar_name : Job.Name j = name;
  ar_resources : Job.ResourceReq j = list_to_map (reverse (pairs_of (concat_get (o_resources o))));
  ar_paths : (Job.StdoutPath j, Job.StderrPath j, Job.JoinPath j, Job.KeepFiles j) = (o_outPath o, o_errPath o, o_join o, o_keepFiles o);
  ar_mail : (Job.MailPoints j, Job.MailUsers j) = (o_mail o, o_mailUser o);
  ar_run : (Job.Account j, Job.Checkpoint j, Job.Shell j, Job.Rerunnable j, Job.UserList j, Job.RootDir j)
    = (o_account o, o_checkpoint o, o_shell o, o_rerunnable o, o_userList o, o_rootDir o);
  ar_array : Job.JobArrayReq j = o_arrayReq o;
  ar_priority : Job.Priority j = o_priority o;
  ar_time : Job.ExecutionTime j = if decide (o_execTime o = "") then zero_time else time_Unix (exec_seconds e (o_execTime o));
  ar_state : Job.State j = if o_hold o then StateHeld else if After (Job.ExecutionTime j) t then StateWaiting else StateTransit;
  ar_hold : Job.HoldTypes j = if o_hold o then "u" else "";
  ar_extra : (Job.DependList j, Job.StageinList j, Job.StageoutList j, Job.GroupList j)
    = (last_of "depend" (pairs_of (o_extra o)) "", last_of "stagein" (pairs_of (o_extra o)) "",
       last_of "stageout" (pairs_of (o_extra o)) "", last_of "group_list" (pairs_of (o_extra o)) "");
  ar_vars home login : plain_user e → e_user e = Some (home, login) → e_wd e ≠ "" →
    Job.VariableList j !! "PBS_O_HOME" = Some home ∧ Job.VariableList j !! "PBS_O_LOGNAME" = Some login ∧
    Job.VariableList j !! "PBS_O_WORKDIR" = Some (e_wd e);
}.

(** The options are in their ranges; -W gives the attributes the command lists. *)
Definition opts_ok (e : SubEnv) (o : sub_opts) : Prop :=
  -1024 ≤ o_priority o ≤ 1023 ∧
  (o_execTime o ≠ "" → parseExecTime (e_year e) (o_execTime o) ≠ None ∧ 0 ≤ exec_seconds e (o_execTime o) ≤ MaxInt64) ∧
  Forall (λ kv, TrimSpace kv.1 ∈ extra_keys) (pairs_of (o_extra o)).

Lemma pairs_map (pairs : list (string * string)) (m : gmap string string) :
  foldl (λ m '(k, v), <[k := v]> m) m pairs = list_to_map (reverse pairs) ∪ m.
Proof.
  revert m. induction pairs as [|[k v] pairs IH]; intros m; cbn [foldl]; [by change (m = ∅ ∪ m); rewrite map_empty_union|].
  rewrite IH, reverse_cons, list_to_map_app. change (list_to_map [(k, v)]) with (<[k := v]> (∅ : gmap string string)).
  by rewrite insert_empty, <- map_union_assoc, <- insert_union_singleton_l.
Qed.

Section stages.
Context (t : Time).
Abbreviation apply := (foldl (applyJobAttr t)).

Lemma apply_time e v j :
  Job.ExecutionTime j = zero_time → (v ≠ "" → is_int64 (exec_seconds e v)) → After zero_time t = false →
  let T := if decide (v = "") then zero_time else time_Unix (exec_seconds e v) in
  apply j (if decide (v = "") then [] else [mkAttr "Execution_Time" false "" (FormatInt (exec_seconds e v)) 1])
  = (if After T t then j <| Job.ExecutionTime := T |> <| Job.State := StateWaiting |> <| Job.Substate := SubstateWaiting |>
       <| Job.MTime := t |> <| Job.Modified := true |>
     else j <| Job.ExecutionTime := T |>).
Proof.
  intros Hj Hn Ht T. unfold T. case_decide as Hv.
  - rewrite Ht. destruct j. cbn in *. by subst.
  - cbn [foldl]. unfold applyJobAttr. cbn [DisMessage.Name Value].
    change (switch "Execution_Time" _ _) with (match ParseInt (FormatInt (exec_seconds e v)) with
      | (ts, None) => let j := j <| Job.ExecutionTime := time_Unix ts |> in
                      if After (Job.ExecutionTime j) t then Job.SetState t StateWaiting SubstateWaiting j else j
      | (_, Some _) => j
      end).
    rewrite ParseInt_FormatInt by auto. reflexivity.
Qed.

Lemma apply_priority p j :
  Job.Priority j = 0 → is_int64 p → apply j (if p =? 0 then [] else [mkAttr "Priority" false "" (Itoa p) 1]) = j <| Job.Priority := p |>.
Proof.
  intros Hj Hp. destruct (Z.eqb_spec p 0) as [->|Hne].
  - destruct j. cbn in *. by subst.
  - cbn [foldl]. change (applyJobAttr t j _) with (j <| Job.Priority := Sscanf_d (Itoa p) (Job.Priority j) |>). by rewrite Sscanf_d_Itoa.
Qed.

Lemma apply_hold (b : bool) j :
  apply j (if b then [mkAttr "Hold_Types" false "" "u" 1] else [])
  = if b then j <| Job.HoldTypes := "u" |> <| Job.State := StateHeld |> <| Job.Substate := SubstateHeld |> <| Job.MTime := t |> <| Job.Modified := true |>
    else j.
Proof. by destruct b. Qed.

Lemma apply_fault (b : bool) j :
  Job.FaultTolerant j = "" →
  apply j (if b then [mkAttr "fault_tolerant" false "" "True" 1] else []) = j <| Job.FaultTolerant := if b then "True" else "" |>.
Proof. intros Hj. destruct b; [done|]. destruct j. cbn in *. by subst. Qed.

(** The last two attributes set the variables. *)
Lemma apply_variables dir v j :
  ∃ base, apply (apply j (if decide (dir = "") then [] else [mkAttr "Variable_List" false "" ("PBS_O_WORKDIR=" +:+ dir) 1]))
            [mkAttr "Variable_List" false "" v 1]
          = j <| Job.VariableList := foldl add_variable base (Split "," v) |>.
Proof.
  case_decide; [by exists (Job.VariableList j)|].
  by exists (foldl add_variable (Job.VariableList j) (Split "," ("PBS_O_WORKDIR=" +:+ dir))).
Qed.
End stages.

#[local] Opaque set_attr pairs_of last_of variables.
Lemma attrs_arrive e t id q srv user name o :
  user ≠ "" → 0 < t → opts_ok e o →
  arrived e t name user o (foldl (applyJobAttr t) ((Job.NewJob t id q srv) <| Job.Owner := user |>) (buildAttrs e name o)).
Proof.
  intros Hu Hpos (Hp & Ht & Hx). unfold buildAttrs. rewrite !foldl_app. flat.
  take_field "Job_Name" (λ v j, j <| Job.Name := v |>). rewrite apply_resources. flat. rewrite pairs_map, map_union_empty.
  take_field "Output_Path" (λ v j, j <| Job.StdoutPath := v |>). take_field "Error_Path" (λ v j, j <| Job.StderrPath := v |>).
  take_field "Join_Path" (λ v j, j <| Job.JoinPath := v |>). take_field "Mail_Points" (λ v j, j <| Job.MailPoints := v |>).
  take_field "Mail_Users" (λ v j, j <| Job.MailUsers := v |>). take_field "Account_Name" (λ v j, j <| Job.Account := v |>).
  take_field "Checkpoint" (λ v j, j <| Job.Checkpoint := v |>). take_field "Keep_Files" (λ v j, j <| Job.KeepFiles := v |>).
  take_field "Shell_Path_List" (λ v j, j <| Job.Shell := v |>). take_field "Rerunable" (λ v j, j <| Job.Rerunnable := v |>).
  rewrite apply_time; [|done|intros He; destruct (Ht He); unfold_int; lia|unfold After, zero_time; lia]. cbv zeta.
  destruct (After _ t) eqn:Haft; flat.
  all: rewrite apply_priority by (done || unfold_int; lia); flat; rewrite apply_hold; destruct (o_hold o) eqn:Hh; flat.
  all: rewrite apply_fault by done; flat.
  all: take_field "job_array_request" (λ v j, j <| Job.JobArrayReq := v |>).
  all: take_field "User_List" (λ v j, j <| Job.UserList := v |>).
  all: take_field "init_root_dir" (λ v j, j <| Job.RootDir := v |>).
  all: rewrite apply_extras by done; flat.
  all: match goal with |- context [foldl _ (foldl _ ?j (if decide (?d = "") then _ else _)) [mkAttr _ _ _ ?v _]] =>
         destruct (apply_variables t d v j) as [base ->] end; flat.
  all: split; flat; rewrite ?Hh, ?Haft; try reflexivity; intros home login; apply variables_arrive.
Qed.
#[local] Transparent set_attr pairs_of last_of variables.

(** ** The dialogue *)

Section submit.
Context `{MapRange} `{SliceSort}.
Context (envs : nat → Env) (LookupAddr : string → option (list string)) (remote : string) (ce : ClientEnv).
Abbreviation dispatchRequest env := (dispatchRequest env remote false).

(** A request whose body is read as [a] is the call of its handler; the answer says whether the
    connection stays open. *)
Lemma served_request {A} env reqType user (read : Reader A) code (run : A → Server → Outcome) body a s s' r keep :
  wire_uint reqType → wire_str user → no_extension reqType = false →
  (∀ st b, dispatchRequest env (mkHeader PbsBatchProtType PbsBatchProtVer reqType user) st b = with_body read code run st b) →
  (∀ rest, read (body +:+ rest) = (Ok a, rest)) → run a s = Ok (s', WriteReply r, keep) →
  let msg := writeHeader user reqType +:+ body +:+ WriteString "" in
  serve_bytes LookupAddr remote (S (String.length msg)) env (s, "") msg
  = Some (if keep then inr (s', WriteReply r) else inl (Closed (s', WriteReply r))).
Proof.
  intros Ht Hu Hn Hd Hread Hrun msg.
  assert (handle_one (dispatchRequest env) (read_status env LookupAddr remote) (s, "") msg
    = if keep then inr ((s', WriteReply r), "") else inl (Closed (s', WriteReply r))) as Hh.
  { destruct (wire_uint_int64 _ Ht) as [Ht1 Ht2]. unfold msg, handle_one, writeHeader. rewrite !app_str_assoc, Ht1.
    rewrite (wire_roundtrip (get := ReadUint)) by by vm_compute. change (int64 PbsBatchProtType =? ISProtocolType) with false.
    change (negb (int64 PbsBatchProtType =? PbsBatchProtType)) with false. cbv iota.
    wire_step; [|by vm_compute]. wire_step; [|done]. wire_step; [|done]. unfold mret, Reader_ret. rewrite Ht2.
    change (int64 PbsBatchProtType) with PbsBatchProtType. change (int64 PbsBatchProtVer) with PbsBatchProtVer.
    rewrite Hd. unfold with_body. rewrite Hread. cbn [fst snd ReqType]. rewrite Hrun, Hn.
    change (ReadReqExtend (WriteString "")) with (@Ok io_error string "", ""). by destruct keep. }
  assert (∃ c m, msg = String c m) as (c & m & E).
  { unfold msg, writeHeader. change (WriteUint PbsBatchProtType) with "+2". by eexists _, _. }
  rewrite E in *. cbn [serve_bytes String.length]. rewrite Hh. by destruct keep.
Qed.

Lemma script_reply env id data b s s' r keep :
  handleJobScript env id data b s = Some (s', r, keep) → wire_reply r ∧ (rp_code r = 0 → keep = true).
Proof.
  unfold handleJobScript, commit_request. intros E. repeat case_match; simplify_eq/=; split; by vm_compute.
Qed.

(** The job a QueueJob request enters in the table. *)
Lemma queued_job env user dest attrs s s' r keep :
  handleQueueJob env user dest attrs s = (s', r, keep) →
  (rp_code r = 0 → keep = true ∧ rp_choice r = ReplyChoiceQueue ∧ ∃ id q j0,
     j0 = applyJobAttrs (now env) attrs ((Job.NewJob (now env) id q (ServerName (cfg s))) <| Job.Owner := user |>) ∧
     the_jobs s' !! rp_data r = Some (if decide (Job.Owner j0 = "") then j0 <| Job.Owner := user |> else j0)) ∧
  (rp_code r ≠ 0 → keep = false).
Proof.
  unfold handleQueueJob. cbv zeta. destruct (if decide (dest = "") then _ else _) as [qn|]; [|intros [= <- <- <-]; by split].
  destruct (Queue.GetQueue qn (queueMgr s)) as [q|]; [|intros [= <- <- <-]; by split]. destruct (NextJobID (jobMgr s)) as [id m].
  set (s1 := s <| jobMgr := m |>). change (cfg s1) with (cfg s). set (j0 := applyJobAttrs _ attrs _). set (j := if decide _ then _ else j0).
  destruct (enforceSubmitLimits user s1); [intros [= <- <- <-]; by split|].
  destruct (Route.queueAllowsSubmitHost _ j); intros [= <- <- <-]; split; try done. intros _. split_and!; [done..|].
  exists id, qn, j0. split; [done|]. fold j. rewrite jobs_upd_mgr, AddJob_jobs.
  assert (Job.ID j = id) as -> by (transitivity (Job.ID j0); [unfold j; by case_decide|apply applyJobAttrs_ID]).
  by rewrite lookup_insert_eq.
Qed.

(** The last steps of the server on the attributes leave what has arrived. *)
Lemma arrived_kept e t name user o attrs j :
  user ≠ "" → arrived e t name user o (foldl (applyJobAttr t) j attrs) →
  let j0 := applyJobAttrs t attrs j in
  arrived e t name user o (if decide (Job.Owner j0 = "") then j0 <| Job.Owner := user |> else j0).
Proof.
  intros Hu Ha. cbv zeta. unfold applyJobAttrs. cbv zeta. set (j1 := foldl (applyJobAttr t) j attrs) in *.
  set (j2 := if decide (Job.EUser j1 = "") then _ else j1).
  assert (arrived e t name user o j2) as H2 by (unfold j2; repeat case_match; try done; by destruct Ha).
  set (j3 := if decide (Job.HashName j2 = "") then _ else j2).
  assert (arrived e t name user o j3) as H3 by (unfold j3; case_decide; [by destruct H2|done]).
  rewrite decide_False; [done|]. by rewrite (ar_owner _ _ _ _ _ _ H3).
Qed.

(** *** The calls of SubmitJob on what has come back so far *)

Lemma submit_first user dest attrs script : ∃ e, Client.SubmitJob user dest attrs script "" = ([queuejob_request user dest attrs], Err e, "").
Proof. destruct reply_at_end as [e He]. exists e. unfold Client.SubmitJob, mbind, Call_bind, flush. by rewrite He. Qed.

Lemma submit_refused user dest attrs script r :
  wire_reply r → rp_code r ≠ 0 →
  Client.SubmitJob user dest attrs script (WriteReply r) = ([queuejob_request user dest attrs], Err (ReplyError (ServerError (rp_code r))), "").
Proof.
  intros Hr Hc. unfold Client.SubmitJob, mbind, Call_bind, flush.
  rewrite <- (app_str_nil_r (WriteReply r)), (recv_wire r "" Hr), (proj2 (Z.eqb_neq _ _) Hc). done.
Qed.

Lemma submit_accepted user dest attrs script r rest :
  wire_reply r → rp_code r = 0 → rp_choice r = ReplyChoiceQueue →
  Client.SubmitJob user dest attrs script (WriteReply r +:+ rest)
  = let '(out, x, tail) := expect_ok rest in
    (queuejob_request user dest attrs :: jobscript_request user (rp_data r) script :: out,
     match x with Ok _ => Ok (rp_data r) | Err e => Err e | Panic => Panic end, tail).
Proof.
  intros Hr Hc Hch. unfold Client.SubmitJob. unfold mbind at 1 2 3 4, Call_bind, flush.
  rewrite (recv_wire r rest Hr), Hc, Hch. cbn [Z.eqb negb]. change (ReplyChoiceQueue =? ReplyChoiceQueue) with true. cbn [negb].
  destruct (expect_ok rest) as [[out [x|e|]] tail]; cbn; by rewrite ?app_nil_r.
Qed.

Lemma converse_end {A} fuel (call : Call A) served inbox l r tail written :
  call inbox = (written, r, tail) → drop served written = [] → converse envs LookupAddr remote fuel call served inbox l = (l, r).
Proof. intros Hc Hd. destruct fuel; cbn [converse]; rewrite Hc, ?Hd; reflexivity. Qed.

(** One message that is served. *)
Lemma converse_step {A} fuel (call : Call A) served inbox s n written msg r tail s' out (keep : bool) :
  call inbox = (written, r, tail) → drop served written = [msg] →
  serve_bytes LookupAddr remote (S (String.length msg)) (envs n) (s, "") msg
    = Some (if keep then inr (s', out) else inl (Closed (s', out))) →
  converse envs LookupAddr remote (S fuel) call served inbox (idle_link s n)
  = converse envs LookupAddr remote fuel call (S served) (inbox +:+ out) (mkLink s' keep "" (S n)).
Proof.
  intros Hc Hd Hs. cbn [converse]. rewrite Hc, Hd. cbn [idle_link l_open l_turn l_server negb]. change (concat_str [msg]) with (msg +:+ "").
  rewrite app_str_nil_r, Hs, Nat.add_1_r. by destruct keep.
Qed.

Lemma SubmitJob_link user dest attrs script s n s1 r1 keep1 :
  wire_str user → wire_str dest → wire_attrl attrs → wire_str script → wire_reply r1 →
  handleQueueJob (envs n) user dest attrs s = (s1, r1, keep1) →
  if rp_code r1 =? 0 then
    ∀ s2 r2 keep2, handleJobScript (envs (S n)) (rp_data r1) script true s1 = Some (s2, r2, keep2) →
      SubmitJob envs LookupAddr remote user dest attrs script (idle_link s n)
      = (mkLink s2 keep2 "" (S (S n)), if rp_code r2 =? 0 then Ok (rp_data r1) else Err (ReplyError (ServerError (rp_code r2))))
  else SubmitJob envs LookupAddr remote user dest attrs script (idle_link s n)
       = (mkLink s1 keep1 "" (S n), Err (ReplyError (ServerError (rp_code r1)))).
Proof.
  intros Hu Hd Ha Hsc Hr1 Hq. pose proof (queued_job _ _ _ _ _ _ _ _ Hq) as [Hok Hno]. unfold SubmitJob.
  destruct (submit_first user dest attrs script) as [e He].
  assert (serve_bytes LookupAddr remote (S (String.length (queuejob_request user dest attrs))) (envs n) (s, "") (queuejob_request user dest attrs)
    = Some (if keep1 then inr (s1, WriteReply r1) else inl (Closed (s1, WriteReply r1)))) as Hs1.
  { replace (queuejob_request user dest attrs) with (writeHeader user BatchReqQueueJob2 +:+
      (WriteString "" +:+ WriteString dest +:+ WriteSvrAttrl attrs) +:+ WriteString "")
      by (unfold queuejob_request; by rewrite !app_str_assoc).
    apply (served_request (envs n) BatchReqQueueJob2 user ReadQueueJobBody PbseBadReq
      (λ b s, replied (handleQueueJob (envs n) user b.1.2 b.2 s)) _ ("", dest, attrs)); [by_decide|done|done|done| |].
    - intros rest. unfold ReadQueueJobBody. rewrite !app_str_assoc. decode_fields; done.
    - cbn [fst snd]. by rewrite Hq. }
  rewrite (converse_step 1 _ 0 "" s n _ _ _ _ s1 (WriteReply r1) keep1 He eq_refl Hs1). change ("" +:+ ?x) with x.
  destruct (Z.eqb_spec (rp_code r1) 0) as [Hc|Hc].
  - destruct (Hok Hc) as (-> & Hch & _). intros s2 r2 keep2 Hs. pose proof (script_reply _ _ _ _ _ _ _ _ Hs) as [Hr2 _].
    destruct (reply_at_end) as [e2 He2].
    assert (Client.SubmitJob user dest attrs script (WriteReply r1)
      = ([queuejob_request user dest attrs; jobscript_request user (rp_data r1) script], Err e2, "")) as Hm.
    { rewrite <- (app_str_nil_r (WriteReply r1)), submit_accepted by done. unfold expect_ok, mbind, Call_bind. by rewrite He2. }
    assert (wire_str (rp_data r1)) as Hid by apply Hr1.
    fold (idle_link s1 (S n)). rewrite (converse_step 0 _ 1 _ s1 (S n) _ (jobscript_request user (rp_data r1) script) _ _ s2 (WriteReply r2) keep2 Hm eq_refl).
    + apply (converse_end _ _ _ _ _ _ "" [queuejob_request user dest attrs; jobscript_request user (rp_data r1) script]); [|done].
      rewrite submit_accepted by done. rewrite <- (app_str_nil_r (WriteReply r2)). unfold expect_ok, mbind, Call_bind.
      rewrite (recv_wire r2 "" Hr2). by destruct (rp_code r2 =? 0).
    + pose proof (len_nonneg script). assert (wire_uint (uint64 (len script))) by (rewrite uint64_id; solve_wire).
      replace (jobscript_request user (rp_data r1) script) with (writeHeader user BatchReqJobScript2 +:+
        (WriteUint 0 +:+ WriteUint 0 +:+ WriteUint (uint64 (len script)) +:+ WriteString (rp_data r1) +:+ WriteString script) +:+ WriteString "")
        by (unfold jobscript_request; by rewrite !app_str_assoc).
      apply (served_request (envs (S n)) BatchReqJobScript2 user ReadJobScriptBody PbseBadReq
        (λ b s, replied_or_panics (handleJobScript (envs (S n)) b.1 b.2 true s)) _ (rp_data r1, script)); [by_decide|done|done|done| |].
      * intros rest. unfold ReadJobScriptBody. rewrite !app_str_assoc. decode_fields; done.
      * cbn [fst snd]. by rewrite Hs.
  - apply (converse_end _ _ _ _ _ _ _ _ (submit_refused user dest attrs script r1 Hr1 Hc)). done.
Qed.

(** *** Theorem *)

End submit.

(** ** Examples *)

(** The seconds of a date in a zone without offset. *)
Definition utc (d : date) : Z :=
  let y := if d_month d <=? 2 then d_year d - 1 else d_year d in
  let doy := (153 * (d_month d + (if 2 <? d_month d then -3 else 9)) + 2) / 5 + d_day d - 1 in
  let days := 365 * y + y / 4 - y / 100 + y / 400 + doy - 719468 in
  86400 * days + 3600 * d_hour d + 60 * d_min d + d_sec d.
Definition sub_env : SubEnv :=
  mkSubEnv 2026 utc ["LANG=C"; "A=1"] (Some ("/root", "root")) "/work" "/bin/sh" "login" "/bin:/usr/bin" (Some "echo hi").
Definition night_opts : sub_opts :=
  mkSub "night" ["ncpus=2, mem=1gb"; "walltime=01:00:00"] "/tmp/out" "" "oe" "a" "" "" "X=1" true "phys" "" "" "/bin/bash" "n"
    "203001011200" 5 true false "" "" "" "depend=afterok:7" "batch" "head" "a b" None.

Example night_time : parseExecTime 2026 "203001011200" = Some (mkDate 2030 1 1 12 0 0) ∧ utc (mkDate 2030 1 1 12 0 0) = 1893499200.
Proof. by vm_compute. Qed.


(** *** Where the options do not do what they say *)

(** The directory of -d comes before the present directory in the list, which wins. *)
Example work_dir_overridden :
  let o := mkSub "" [] "" "" "" "" "" "/data" "" false "" "" "" "" "" "" 0 false false "" "" "" "" "" "head" "" None in
  let '(s, id) := qsub link_envs (λ _, None) "10.0.0.9:40000" link_client sub_env o (link_server ∅) in
  (id ← id; j ← the_jobs s !! id; Job.VariableList j !! "PBS_O_WORKDIR") = Some "/work".
Proof. vm_compute. reflexivity. Qed.

(** A time without a date is taken for the first of January, not for today. *)
Example time_of_day : parseExecTime 2026 "1504" = Some (mkDate 2026 1 1 15 4 0) ∧ parseExecTime 2026 "171504" = Some (mkDate 2026 1 17 15 4 0).
Proof. by vm_compute. Qed.

(** The form with a year of two digits is refused. *)
Example short_year_refused : parseExecTime 2026 "2601021504" = None.
Proof. by vm_compute. Qed.

(** The second dependency of a list is dropped. *)
Example second_dependency_lost : extra_attr <$> pairs_of "depend=afterok:1,afterany:2" = [mkAttr "depend" false "" "afterok:1" 1].
Proof. by vm_compute. Qed.
