(* ===== verification/PgStore.v ===== *)
(** * The PostgreSQL store: internal/server/pgstore.go

    The store keeps the server's documents as rows of a database: one row for the server database and
    one for the node list, one per queue, and one per job with its attributes and its script.  The
    database is a service; what is relied on is that a statement is applied whole or not at all.  How
    it ended for the caller is an argument of each write: it was committed, rejected, or no answer came
    though it was applied.  The abstract store is that of [Store], which the file store refines too. *)

From S2P Require Import Prelude GoStd.
From S2P Require Store.
Import Store (Documents, mkDocuments, doc_serverDB, doc_queues, doc_nodes, doc_jobs, doc_scripts, eta_Documents, FileStore, mkFileStore,
  store_op, OpServerDB, OpQueue, OpNodes, OpJob, OpScript, OpDelete).

Local Open Scope string_scope.
Local Open Scope list_scope.
Local Open Scope Z_scope.

(** ** The tables *)

Record Lease := mkLease { l_holder : string; l_heartbeat : Z; l_expires : Z }.
Record PG := mkPG {
  ot_state : gmap string string; ot_queues : gmap string string;
  ot_jobs : gmap string (string * string);   (* attributes and script *)
  ot_lease : option Lease;
}.
#[export] Instance eta_PG : Eta PG := λ p, mkPG (ot_state p) (ot_queues p) (ot_jobs p) (ot_lease p).
(** pgEnsureSchema on a new database. *)
Definition pgEnsureSchema : PG := mkPG ∅ ∅ ∅ None.

Inductive answer := Committed | Rejected | Unanswered.
Definition applied (a : answer) : bool := match a with Rejected => false | _ => true end.
Definition reported (a : answer) : bool := match a with Committed => true | _ => false end.
(** [pool.Exec] of a statement. *)
Definition exec (a : answer) (statement : PG → PG) (p : PG) : bool * PG := (reported a, if applied a then statement p else p).

(** ** The operations of the store *)

Definition stateGet (kind : string) (p : PG) : option string := ot_state p !! kind.
Definition statePut (a : answer) (kind data : string) : PG → bool * PG :=
  exec a (λ p, p <| ot_state := <[kind := data]> (ot_state p) |>).

Definition LoadServerDB : PG → option string := stateGet "serverdb".
Definition SaveServerDB (a : answer) : string → PG → bool * PG := statePut a "serverdb".
Definition LoadNodes : PG → option string := stateGet "nodes".
Definition SaveNodes (a : answer) : string → PG → bool * PG := statePut a "nodes".

Definition LoadQueues (p : PG) : gmap string string := ot_queues p.
Definition SaveQueue (a : answer) (name data : string) : PG → bool * PG :=
  exec a (λ p, p <| ot_queues := <[name := data]> (ot_queues p) |>).

(** An upsert of one column leaves the other, which is empty in a new row. *)
Definition LoadJobs (p : PG) : gmap string string := fst <$> ot_jobs p.
Definition SaveJob (a : answer) (id attrs : string) : PG → bool * PG :=
  exec a (λ p, p <| ot_jobs := <[id := (attrs, from_option snd "" (ot_jobs p !! id))]> (ot_jobs p) |>).
Definition LoadJobScript (id : string) (p : PG) : option string := snd <$> ot_jobs p !! id.
Definition SaveJobScript (a : answer) (id data : string) : PG → bool * PG :=
  exec a (λ p, p <| ot_jobs := <[id := (from_option fst "" (ot_jobs p !! id), data)]> (ot_jobs p) |>).
Definition DeleteJob (a : answer) (id : string) : PG → bool * PG :=
  exec a (λ p, p <| ot_jobs := delete id (ot_jobs p) |>).

(** ** Migration from the files *)

(** Writes one after the other; the first that fails ends the migration. *)
Fixpoint writes (ws : list (PG → bool * PG)) (p : PG) : bool * PG :=
  match ws with
  | [] => (true, p)
  | w :: ws => match w p with (true, p) => writes ws p | (false, p) => (false, p) end
  end.

(** Each write has its own answer. *)
Definition save_op (answers : store_op → answer) (o : store_op) : PG → bool * PG :=
  match o with
  | OpServerDB data => SaveServerDB (answers o) data
  | OpQueue name data => SaveQueue (answers o) name data
  | OpNodes data => SaveNodes (answers o) data
  | OpJob id data => SaveJob (answers o) id data
  | OpScript id data => SaveJobScript (answers o) id data
  | OpDelete id => DeleteJob (answers o) id
  end.
Definition opt_op (f : string → store_op) (o : option string) : list store_op := from_option (λ d, [f d]) [] o.
Definition MigrateFilesToPostgres `{MapRange} (answers : store_op → answer) (f : FileStore) : PG → bool * PG :=
  let queues := Store.LoadQueues f in
  let jobs := Store.LoadJobs f in
  writes (save_op answers <$>
    opt_op OpServerDB (Store.LoadServerDB f) ++ opt_op OpNodes (Store.LoadNodes f) ++
    ((λ name, OpQueue name (lookup_or "" name queues)) <$> range queues) ++
    mjoin ((λ id, OpJob id (lookup_or "" id jobs) :: opt_op (OpScript id) (Store.LoadJobScript id f)) <$> range jobs)).

(** ** The store as a set of documents *)

Definition run_op (p : PG) (ao : answer * store_op) : PG := (save_op (λ _, ao.1) ao.2 p).2.

(** A write takes effect or has none. *)
Definition spec_op (c : Documents) (ao : answer * store_op) : Documents :=
  if applied ao.1 then Store.spec_op c (Store.NoFault, ao.2) else c.

(** A row of a job is there when one of its documents is; the other then reads as empty. *)
Definition row_of (c : Documents) (id : string) (doc : option string) : option string :=
  match doc_jobs c !! id, doc_scripts c !! id with None, None => None | _, _ => Some (default "" doc) end.

Record holds (p : PG) (c : Documents) : Prop := {
  h_serverDB : LoadServerDB p = doc_serverDB c;
  h_queues : LoadQueues p = doc_queues c;
  h_nodes : LoadNodes p = doc_nodes c;
  h_jobs id : LoadJobs p !! id = row_of c id (doc_jobs c !! id);
  h_scripts id : LoadJobScript id p = row_of c id (doc_scripts c !! id);
}.

(** Both columns of a row. *)
Definition full_row (c : Documents) (id : string) : option (string * string) :=
  match doc_jobs c !! id, doc_scripts c !! id with None, None => None | a, s => Some (default "" a, default "" s) end.

Lemma holds_rows p c :
  holds p c ↔ LoadServerDB p = doc_serverDB c ∧ LoadQueues p = doc_queues c ∧ LoadNodes p = doc_nodes c ∧ ∀ id, ot_jobs p !! id = full_row c id.
Proof.
  split.
  - intros [H1 H2 H3 Hj Hs]. split_and!; [done..|]. intros id. specialize (Hj id). specialize (Hs id).
    unfold LoadJobs, LoadJobScript, row_of, full_row in *. rewrite lookup_fmap in Hj.
    destruct (ot_jobs p !! id) as [[a s]|]; cbn in *; repeat case_match; simplify_eq/=; done.
  - intros (H1 & H2 & H3 & Hr). split; [done..| |]; intros id; unfold LoadJobs, LoadJobScript; rewrite ?lookup_fmap, Hr;
      unfold row_of, full_row; by repeat case_match.
Qed.

Lemma pg_op_holds p c ao : holds p c → holds (run_op p ao) (spec_op c ao).
Proof.
  rewrite !holds_rows. intros (H1 & H2 & H3 & Hr). destruct ao as [a o]. unfold spec_op. cbn [fst snd].
  assert (∀ st, (exec a st p).2 = if applied a then st p else p) as Hex by done.
  unfold LoadServerDB, LoadNodes, LoadQueues, stateGet in *.
  destruct o; unfold run_op; cbn [save_op fst snd]; unfold SaveServerDB, SaveQueue, SaveNodes, SaveJob, SaveJobScript, DeleteJob, statePut; rewrite Hex;
    (destruct (applied a); [|done]); cbn [Store.spec_op]; try rewrite bool_decide_eq_true_2 by done; split_and!; cbn; try done.
  - by rewrite lookup_insert_eq.
  - by rewrite lookup_insert_ne.
  - by rewrite H2.
  - by rewrite lookup_insert_ne.
  - by rewrite lookup_insert_eq.
  - intros i. unfold full_row in *. cbn. destruct (decide (id = i)) as [->|Hne].
    + rewrite !lookup_insert_eq, Hr. by repeat case_match.
    + by rewrite !lookup_insert_ne.
  - intros i. unfold full_row in *. cbn. destruct (decide (id = i)) as [->|Hne].
    + rewrite !lookup_insert_eq, Hr. by repeat case_match.
    + by rewrite !lookup_insert_ne.
  - intros i. unfold full_row in *. cbn. destruct (decide (id = i)) as [->|Hne].
    + by rewrite !lookup_delete_eq.
    + by rewrite !lookup_delete_ne.
Qed.

(** ** Theorems *)

(** C25: the database refines the same set of documents as the files: whatever the sequence of saves and
    deletions and however each ended for its caller, loading gives for every document the data of the
    last save of it that was applied, and nothing after a deletion.  No save leaves a part of a
    document, and any name of a queue will do; but a job that has only one of its two documents is
    loaded with an empty one in place of the other. *)
Theorem pg_store_refines ops p c : holds p c → holds (foldl run_op p ops) (foldl spec_op c ops).
Proof.
  revert p c. induction ops as [|ao ops IH]; intros p c H; [done|]. simpl. by apply IH, pg_op_holds.
Qed.

Lemma pg_store_refines_witness :
  let ops := [(Committed, OpScript "1.host" "sleep 1"); (Unanswered, OpJob "1.host" "state=1"); (Committed, OpQueue "q.new" "enabled=True");
              (Rejected, OpJob "1.host" "state=4"); (Committed, OpScript "2.host" "date")] in
  holds (foldl run_op pgEnsureSchema ops) (foldl spec_op (mkDocuments None ∅ None ∅ ∅) ops) ∧
  LoadJobs (foldl run_op pgEnsureSchema ops) = {["1.host" := "state=1"; "2.host" := ""]}.
Proof.
  split; [|by vm_compute]. apply (pg_store_refines _ pgEnsureSchema (mkDocuments None ∅ None ∅ ∅)). by split.
Defined.

(** ** The migration *)

Section migration.
Context `{MapRange}.

Lemma writes_app l l' p : writes (l ++ l') p = match writes l p with (true, p) => writes l' p | (false, p) => (false, p) end.
Proof. revert p. induction l as [|w l IH]; intros p; [done|]. cbn. destruct (w p) as [[] ?]; [apply IH|done]. Qed.

Lemma ranged_elem {A} (m : gmap string A) k : k ∈ range m ↔ is_Some (m !! k).
Proof. apply map_order_elem, range_order. Qed.

Lemma queue_writes (m : gmap string string) ks p :
  ∃ p', writes (save_op (λ _, Committed) <$> ((λ name, OpQueue name (lookup_or "" name m)) <$> ks)) p = (true, p') ∧
    ot_state p' = ot_state p ∧ ot_jobs p' = ot_jobs p ∧
    ∀ k, ot_queues p' !! k = if decide (k ∈ ks) then Some (lookup_or "" k m) else ot_queues p !! k.
Proof.
  revert p. induction ks as [|k ks IH]; intros p; [by exists p|]. cbn [fmap list_fmap writes save_op SaveQueue exec reported applied].
  destruct (IH (p <| ot_queues := <[k := lookup_or "" k m]> (ot_queues p) |>)) as (p' & Hw & Hs & Hj & Hq).
  exists p'. split_and!; [done..|]. intros i. rewrite Hq. cbn. destruct (decide (i ∈ ks)) as [Hi|Hi].
  - by rewrite decide_True by (by right).
  - destruct (decide (k = i)) as [->|Hne].
    + rewrite lookup_insert_eq. by rewrite decide_True by (by left).
    + rewrite lookup_insert_ne by done. rewrite decide_False; [done|]. rewrite elem_of_cons. naive_solver.
Qed.

Lemma job_writes (m : gmap string string) (script : string → option string) ks p :
  NoDup ks → (∀ k, k ∈ ks → ot_jobs p !! k = None) →
  ∃ p', writes (save_op (λ _, Committed) <$> mjoin ((λ id, OpJob id (lookup_or "" id m) :: opt_op (OpScript id) (script id)) <$> ks)) p
      = (true, p') ∧
    ot_state p' = ot_state p ∧ ot_queues p' = ot_queues p ∧
    ∀ k, ot_jobs p' !! k = if decide (k ∈ ks) then Some (lookup_or "" k m, default "" (script k)) else ot_jobs p !! k.
Proof.
  intros Hnd. revert p. induction Hnd as [|k ks Hk Hnd IH]; intros p Hp; [by exists p|].
  set (p1 := p <| ot_jobs := <[k := (lookup_or "" k m, default "" (script k))]> (ot_jobs p) |>).
  assert (writes (save_op (λ _, Committed) <$> OpJob k (lookup_or "" k m) :: opt_op (OpScript k) (script k)) p = (true, p1)) as E.
  { unfold p1. cbn. rewrite (Hp k) by (by left). cbn. destruct (script k); cbn; [|done]. rewrite lookup_insert_eq. cbn.
    unfold set_field. cbn. by rewrite insert_insert_eq. }
  destruct (IH p1) as (p' & Hw & Hs & Hq & Hj).
  { intros i Hi. cbn. rewrite lookup_insert_ne by (by intros ->). apply Hp. by right. }
  exists p'. split_and!; [|done..|].
  - change (mjoin (?f <$> k :: ks)) with (f k ++ mjoin (f <$> ks)). by rewrite fmap_app, writes_app, E.
  - intros i. rewrite Hj. cbn. destruct (decide (i ∈ ks)) as [Hi|Hi].
    + by rewrite decide_True by (by right).
    + destruct (decide (k = i)) as [->|Hne].
      * rewrite lookup_insert_eq. by rewrite decide_True by (by left).
      * rewrite lookup_insert_ne by done. rewrite decide_False; [done|]. rewrite elem_of_cons. naive_solver.
Qed.

(** C10: A migration into a new database whose writes all succeed reports success and keeps what the server
    loads: the server database, the nodes, every queue and every job with its script, which is an empty
    one for a job without a script file. *)
Theorem migration_keeps f :
  ∃ p, MigrateFilesToPostgres (λ _, Committed) f pgEnsureSchema = (true, p) ∧
    LoadServerDB p = Store.LoadServerDB f ∧ LoadNodes p = Store.LoadNodes f ∧ LoadQueues p = Store.LoadQueues f ∧
    LoadJobs p = Store.LoadJobs f ∧
    ∀ id, is_Some (Store.LoadJobs f !! id) → LoadJobScript id p = Some (default "" (Store.LoadJobScript id f)).
Proof.
  unfold MigrateFilesToPostgres. cbv zeta. rewrite !fmap_app.
  set (p0 := pgEnsureSchema <| ot_state := from_option (λ d, {["serverdb" := d]}) ∅ (Store.LoadServerDB f) |>).
  rewrite writes_app. assert (writes (save_op (λ _, Committed) <$> opt_op OpServerDB (Store.LoadServerDB f)) pgEnsureSchema = (true, p0)) as ->
    by (unfold p0; by destruct (Store.LoadServerDB f)).
  set (p1 := p0 <| ot_state := from_option (λ d, <["nodes" := d]> (ot_state p0)) (ot_state p0) (Store.LoadNodes f) |>).
  rewrite writes_app. assert (writes (save_op (λ _, Committed) <$> opt_op OpNodes (Store.LoadNodes f)) p0 = (true, p1)) as ->
    by (unfold p1; by destruct (Store.LoadNodes f)).
  destruct (queue_writes (Store.LoadQueues f) (range (Store.LoadQueues f)) p1) as (p2 & Hw2 & Hs2 & Hj2 & Hq2).
  rewrite writes_app, Hw2.
  destruct (job_writes (Store.LoadJobs f) (λ id, Store.LoadJobScript id f) (range (Store.LoadJobs f)) p2) as (p3 & Hw3 & Hs3 & Hq3 & Hj3).
  { apply (map_order_NoDup (Store.LoadJobs f)), range_order. }
  { intros k _. by rewrite Hj2. }
  exists p3. split; [done|]. unfold LoadServerDB, LoadNodes, stateGet. rewrite Hs3, Hs2. split_and!.
  - unfold p1, p0. cbn. by destruct (Store.LoadServerDB f), (Store.LoadNodes f).
  - unfold p1, p0. cbn. by destruct (Store.LoadServerDB f), (Store.LoadNodes f).
  - unfold LoadQueues. apply map_eq. intros k. rewrite Hq3, Hq2. unfold lookup_or. case_decide as Hk; rewrite ranged_elem in Hk.
    + destruct Hk as [x ->]. done.
    + symmetry. by apply eq_None_not_Some.
  - unfold LoadJobs. apply map_eq. intros k. rewrite lookup_fmap, Hj3. unfold lookup_or. case_decide as Hk; rewrite ranged_elem in Hk.
    + destruct Hk as [x ->]. done.
    + rewrite Hj2. cbn. symmetry. by apply eq_None_not_Some.
  - intros id Hid. unfold LoadJobScript. rewrite Hj3, decide_True by (by apply ranged_elem). done.
Qed.
End migration.
