(* ===== verification/Ha.v ===== *)
(** * High availability: the leader election of internal/server/server.go over internal/server/pgstore.go

    Servers that share a database elect an active one through a row of it, the lease.  Every few seconds
    each asks for the lease with two statements, one that takes or renews it and one that reads whose it
    is; either can fail, and the servers are interleaved between them in any order.  A statement takes
    effect, if at all, before its caller goes on.  Clocks may differ by a bounded skew. *)

From S2P Require Import Prelude GoStd Job JobManager PgStore.
From S2P Require Queue Node.
From S2P Require Import ServerConfig ServerState Exec Submit.
From S2P Require DisMessage.

Local Open Scope string_scope.
Local Open Scope list_scope.
Local Open Scope Z_scope.

(** ** The lease *)

(** ttl, in seconds. *)
Definition ttl : Z := 10.

(** The upsert of TryAcquireLease: the lease is taken when it is free, expired or one's own. *)
Definition take_lease (holder : string) (now : Z) (p : PG) : PG :=
  let mine := mkLease holder now (now + ttl) in
  match ot_lease p with
  | None => p <| ot_lease := Some mine |>
  | Some l => if (l_expires l <? now) || bool_decide (l_holder l = holder) then p <| ot_lease := Some mine |> else p
  end.
(** Its second statement. *)
Definition lease_holder (p : PG) : option string := l_holder <$> ot_lease p.

(** ** An instance *)

(** Where the loop of an instance is: not in an attempt, about to send the first statement with the time
    it has read, about to send the second; after it became active, before each of the three things it
    does then; after it lost the lease, before each of the two. *)
Inductive phase :=
  | Idle | Asked (now : Z) | Written (now : Z)
  | Reconciling | BindingVIP | StartingHealth
  | ReleasingVIP | StoppingHealth.

Record Inst := mkInst {
  in_srv : Server; in_pg : bool; in_phase : phase;
  in_got : Z;                   (* the time of the last attempt that was confirmed *)
  in_vipAddr : string; in_hp : Z; in_vip : bool; in_health : bool;
}.
#[export] Instance eta_Inst : Eta Inst := λ i,
  mkInst (in_srv i) (in_pg i) (in_phase i) (in_got i) (in_vipAddr i) (in_hp i) (in_vip i) (in_health i).

Definition active (i : Inst) : bool := haActive (in_srv i).
Definition set_active (b : bool) (i : Inst) : Inst := i <| in_srv := (in_srv i) <| haActive := b |> |>.

(** The holder's name: the short host name and the port. *)
Definition haHolder (hostname : string) (port : Z) : string := split_hd "." hostname +:+ ":" +:+ Itoa port.

(** The address and the listener; [ok] is whether the command or the call worked. *)
Definition haBindVIP (ok : bool) (i : Inst) : Inst :=
  if decide (in_vipAddr i = "") then i else if ok then i <| in_vip := true |> else i.
Definition haReleaseVIP (ok : bool) (i : Inst) : Inst :=
  if decide (in_vipAddr i = "") then i else if ok then i <| in_vip := false |> else i.
Definition haStartHealth (ok : bool) (i : Inst) : Inst :=
  if (in_hp i <=? 0) || in_health i then i else if ok then i <| in_health := true |> else i.
Definition haStopHealth (i : Inst) : Inst := i <| in_health := false |>.

(** The start: a server in the mode stands by.  The loop on a store that is not shared makes it active
    and returns. *)
Definition ha_start (s : Server) (pg : bool) (now : Z) (vip : string) (hp : Z) : Inst :=
  mkInst (s <| haEnabled := true |> <| haActive := negb pg |>) pg Idle now vip hp false false.

(** The end of an attempt that read [holder], up to the change of [haActive]. *)
Definition leader_tick (me : string) (holder : option string) (now : Z) (i : Inst) : Inst :=
  if decide (holder = Some me) then
    let i := i <| in_got := now |> in
    if active i then i <| in_phase := Idle |> else (set_active true i) <| in_phase := Reconciling |>
  else
    if active i then (set_active false i) <| in_phase := ReleasingVIP |> else i <| in_phase := Idle |>.

(** What follows it, one call at a time; [ok] is the outcome of the command or of the listen. *)
Definition ha_reconcile (momRunningJobs : string → option (list string)) (env : Env) (i : Inst) : Inst :=
  i <| in_srv := (reconcileRunningJobsWithMOMs momRunningJobs env (in_srv i)).1 |> <| in_phase := BindingVIP |>.
Definition ha_bind (ok : bool) (i : Inst) : Inst := (haBindVIP ok i) <| in_phase := StartingHealth |>.
Definition ha_health (ok : bool) (i : Inst) : Inst := (haStartHealth ok i) <| in_phase := Idle |>.
Definition ha_release (ok : bool) (i : Inst) : Inst := (haReleaseVIP ok i) <| in_phase := StoppingHealth |>.
Definition ha_stop_health (i : Inst) : Inst := (haStopHealth i) <| in_phase := Idle |>.

(** ** The servers together *)

Record Cluster := mkCluster { cl_now : Z; cl_db : PG; cl_insts : gmap string Inst }.
#[export] Instance eta_Cluster : Eta Cluster := λ c, mkCluster (cl_now c) (cl_db c) (cl_insts c).
Definition upd (h : string) (i : Inst) (c : Cluster) : Cluster := c <| cl_insts := <[h := i]> (cl_insts c) |>.
Definition cluster_start (now : Z) : Cluster := mkCluster now pgEnsureSchema ∅.

Section cluster.
(** How far the clock of each server is ahead. *)
Context (skew : string → Z).
Definition clock (c : Cluster) (h : string) : Z := cl_now c + skew h.

Inductive hstep : Cluster → Cluster → Prop :=
  | hs_clock c t : cl_now c ≤ t → hstep c (c <| cl_now := t |>)
  | hs_start c h s pg vip hp : cl_insts c !! h = None → hstep c (upd h (ha_start s pg (clock c h) vip hp) c)
  | hs_stop c h : hstep c (c <| cl_insts := delete h (cl_insts c) |>)
  | hs_ask c h i : cl_insts c !! h = Some i → in_pg i = true → in_phase i = Idle →
      hstep c (upd h (i <| in_phase := Asked (clock c h) |>) c)
  | hs_exec c h i r : cl_insts c !! h = Some i → in_phase i = Asked r →
      hstep c (upd h (i <| in_phase := Written r |>) c <| cl_db := take_lease h r (cl_db c) |>)
  | hs_fail c h i r : cl_insts c !! h = Some i → in_phase i = Asked r ∨ in_phase i = Written r →
      hstep c (upd h (i <| in_phase := Idle |>) c)
  | hs_select c h i r : cl_insts c !! h = Some i → in_phase i = Written r →
      hstep c (upd h (leader_tick h (lease_holder (cl_db c)) r i) c)
  | hs_reconcile c h i mom env : cl_insts c !! h = Some i → in_phase i = Reconciling →
      hstep c (upd h (ha_reconcile mom env i) c)
  | hs_bind c h i ok : cl_insts c !! h = Some i → in_phase i = BindingVIP → hstep c (upd h (ha_bind ok i) c)
  | hs_health c h i ok : cl_insts c !! h = Some i → in_phase i = StartingHealth → hstep c (upd h (ha_health ok i) c)
  | hs_release c h i ok : cl_insts c !! h = Some i → in_phase i = ReleasingVIP → hstep c (upd h (ha_release ok i) c)
  | hs_unhealth c h i : cl_insts c !! h = Some i → in_phase i = StoppingHealth → hstep c (upd h (ha_stop_health i) c)
  | hs_serve c h i s : cl_insts c !! h = Some i → haActive s = active i → hstep c (upd h (i <| in_srv := s |>) c).

(** ** The invariant *)

Context (δ : Z) (Hskew : ∀ h, Z.abs (skew h) ≤ δ).

(** The lease is [h]'s until [e] at least. *)
Definition leased (c : Cluster) (h : string) (e : Z) : Prop :=
  ∃ l, ot_lease (cl_db c) = Some l ∧ l_holder l = h ∧ e ≤ l_expires l.

(** After a change of [haActive], before what follows it is done. *)
Definition taking_over (p : phase) : bool := match p with Reconciling | BindingVIP | StartingHealth => true | _ => false end.
Definition standing_down (p : phase) : bool := match p with ReleasingVIP | StoppingHealth => true | _ => false end.

(** An active instance on the database holds the lease, or the term it was last given is over. *)
Record inst_ok (c : Cluster) (h : string) (i : Inst) : Prop := {
  io_got : in_got i ≤ clock c h;
  io_read r : in_phase i = Asked r ∨ in_phase i = Written r → in_got i ≤ r ≤ clock c h;
  io_written r l : in_phase i = Written r → ot_lease (cl_db c) = Some l → l_holder l = h → r + ttl ≤ l_expires l;
  io_active : in_pg i = true → active i = true → leased c h (in_got i + ttl) ∨ in_got i + ttl < cl_now c + δ;
  io_taking : taking_over (in_phase i) = true → active i = true;
  io_health : in_health i = true → active i = true ∨ standing_down (in_phase i) = true;
  io_files : in_pg i = false → in_phase i = Idle;
}.
Definition cluster_ok (c : Cluster) : Prop := ∀ h i, cl_insts c !! h = Some i → inst_ok c h i.

(** A change elsewhere: time goes on, and a lease that was [h]'s is, or its term is over. *)
Lemma inst_ok_frame c c' h i :
  inst_ok c h i → cl_now c ≤ cl_now c' →
  (∀ l', ot_lease (cl_db c') = Some l' → l_holder l' = h → ot_lease (cl_db c) = Some l') →
  (∀ e, leased c h e → leased c' h e ∨ e < cl_now c' + δ) → inst_ok c' h i.
Proof.
  intros [H1 H2 H3 H4 H5 H6 H7] Ht Hl Hd. split; unfold clock in *; try done.
  - lia.
  - intros r Hr. specialize (H2 r Hr). lia.
  - intros r l Hr Hlease Hh. eapply H3; [done| |done]. by apply Hl.
  - intros Hp Ha. destruct (H4 Hp Ha) as [Hle|Hlt]; [by apply Hd|]. right. lia.
Qed.

(** One instance changes and the database stays. *)
Lemma cluster_ok_upd c h i :
  cluster_ok c → inst_ok c h i → cluster_ok (upd h i c).
Proof.
  intros Hc Hi k ik. cbn. destruct (decide (h = k)) as [<-|Hne].
  - rewrite lookup_insert_eq. intros [= <-]. eapply inst_ok_frame; [done|done|done|]. intros e He. by left.
  - rewrite lookup_insert_ne by done. intros Hk. eapply inst_ok_frame; [by apply Hc|done|done|]. intros e He. by left.
Qed.

Lemma reconcile_active mom env s : haActive (reconcileRunningJobsWithMOMs mom env s).1 = haActive s.
Proof.
  unfold reconcileRunningJobsWithMOMs. generalize 0 as p. revert s. induction (job_order env) as [|id ids IH]; intros s p; [done|].
  cbn [foldl]. destruct (reconcile_job mom env (s, p) id) as [s' p'] eqn:E. rewrite IH. unfold reconcile_job in E.
  repeat case_match; simplify_eq; try done. unfold requeueRecoveredJob.
  assert (∀ names s, haActive (foldl (release_on (Job.ID j) (if (jobNodeRequest j).2 <? 1 then 1 else (jobNodeRequest j).2)) s names)
    = haActive s) as Hr.
  { induction names as [|x names IHn]; intros s0; [done|]. cbn [foldl]. by rewrite IHn. }
  rewrite <- (Hr (exec_nodes (Job.ExecHost j)) s). unfold triggerSched. by repeat case_match.
Qed.

(** The upsert leaves the lease or makes it one's own; it takes another's only after its end. *)
Lemma take_lease_cases h r p :
  take_lease h r p = p ∧ (∃ l, ot_lease p = Some l ∧ l_holder l ≠ h) ∨
  ot_lease (take_lease h r p) = Some (mkLease h r (r + ttl)) ∧ ∀ l, ot_lease p = Some l → l_holder l ≠ h → l_expires l < r.
Proof.
  unfold take_lease. destruct (ot_lease p) as [l|] eqn:E; [|by right].
  destruct ((l_expires l <? r) || bool_decide (l_holder l = h)) eqn:Hc.
  - right. split; [done|]. intros l' [= <-] Hne. apply orb_true_iff in Hc as [Hc|Hc]; bool_to_prop; [lia|done].
  - left. split; [done|]. exists l. split; [done|]. apply orb_false_iff in Hc as [_ Hc]. by apply bool_decide_eq_false in Hc.
Qed.

Lemma exec_ok c h i r :
  cluster_ok c → cl_insts c !! h = Some i → in_phase i = Asked r →
  cluster_ok (upd h (i <| in_phase := Written r |>) c <| cl_db := take_lease h r (cl_db c) |>).
Proof.
  intros Hc Hi Hph. destruct (Hc h i Hi) as [H1 H2 H3 H4 H5 H6 H7]. specialize (H2 r (or_introl Hph)). rewrite Hph in H6.
  pose proof (Hskew h) as Hs. destruct (take_lease_cases h r (cl_db c)) as [[E (l & El & Hl)]|[E Hexp]].
  - rewrite E. apply (cluster_ok_upd c h); [done|]. split; cbn; try done.
    + intros r' [?|[= <-]]; [done|lia].
    + intros r' l' [= <-] El' Hh. congruence.
    + intros Hf. by rewrite H7 in Hph.
  - intros k ik. cbn. destruct (decide (h = k)) as [<-|Hne].
    + rewrite lookup_insert_eq. intros [= <-]. split; unfold clock in *; cbn; try done.
      * intros r' [?|[= <-]]; [done|lia].
      * intros r' l' [= <-] El' _. rewrite E in El'. injection El' as <-. cbn. lia.
      * intros Hp Ha. left. eexists. split; [exact E|]. cbn. split; [done|lia].
      * intros Hf. by rewrite H7 in Hph.
    + rewrite lookup_insert_ne by done. intros Hk. eapply inst_ok_frame; [by apply Hc|done|..]; cbn.
      * intros l' El' Hh. rewrite E in El'. injection El' as <-. cbn in Hh. congruence.
      * intros e (l & El & Hh & He). right. unfold clock in *. specialize (Hexp l El). rewrite Hh in Hexp. specialize (Hexp (not_eq_sym Hne)). lia.
Qed.

Lemma select_ok c h i r :
  cluster_ok c → cl_insts c !! h = Some i → in_phase i = Written r →
  inst_ok c h (leader_tick h (lease_holder (cl_db c)) r i).
Proof.
  intros Hc Hi Hph. destruct (Hc h i Hi) as [H1 H2 H3 H4 H5 H6 H7]. specialize (H2 r (or_intror Hph)). rewrite Hph in H6.
  unfold leader_tick, lease_holder. case_decide as Hh.
  - apply fmap_Some in Hh as (l & El & Hh). specialize (H3 r l Hph El (eq_sym Hh)).
    assert (leased c h (r + ttl)) as Hl by (by exists l).
    change (active (i <| in_got := r |>)) with (active i). destruct (active i) eqn:Ha; split; cbn; try done; try lia; auto.
    all: try (intros ? [?|?]; done). intros Hf. rewrite H7 in Hph; done.
  - destruct (active i) eqn:Ha; split; cbn; try done; try (intros ? [?|?]; done).
    + by right.
    + intros Hf. rewrite H7 in Hph; done.
    + intros Hp Ha'. unfold active in *. cbn in Ha'. congruence.
    + intros Hx. unfold active in *. cbn. by destruct (H6 Hx).
Qed.

(** The calls that follow a change of [haActive]. *)
Lemma call_ok c h i i' :
  cluster_ok c → cl_insts c !! h = Some i → in_phase i ≠ Idle →
  in_pg i' = in_pg i → active i' = active i → in_got i' = in_got i →
  (∀ r, in_phase i' ≠ Asked r ∧ in_phase i' ≠ Written r) →
  (taking_over (in_phase i') = true → taking_over (in_phase i) = true) →
  (in_health i' = true → active i = true ∨ standing_down (in_phase i') = true) →
  inst_ok c h i'.
Proof.
  intros Hc Hi Hph Epg Eact Egot Hno Htk Hhl. destruct (Hc h i Hi) as [H1 H2 H3 H4 H5 H6 H7].
  split; rewrite ?Epg, ?Eact, ?Egot; auto.
  - intros r [E|E]; by destruct (Hno r).
  - intros r l E. by destruct (Hno r).
  - intros Hf. by destruct Hph; apply H7.
Qed.

Lemma hstep_ok c c' : hstep c c' → cluster_ok c → cluster_ok c'.
Proof.
  intros Hs Hc. destruct Hs as [c t Ht|c h s pg vip hp Hn|c h|c h i Hi Hp Hph|c h i r Hi Hph|c h i r Hi Hph|c h i r Hi Hph
    |c h i mom env Hi Hph|c h i ok Hi Hph|c h i ok Hi Hph|c h i ok Hi Hph|c h i Hi Hph|c h i s Hi Ha].
  - intros h i Hi. eapply inst_ok_frame; [by apply Hc|done|done|]. intros e He. by left.
  - apply cluster_ok_upd; [done|]. split; unfold clock; cbn; try done; try (intros ? [?|?]; done). intros Hp Ha.
    unfold active in Ha. cbn in Ha. by rewrite Hp in Ha.
  - intros k i. cbn. intros [_ Hi]%lookup_delete_Some. eapply inst_ok_frame; [by apply Hc|done|done|]. intros e He. by left.
  - apply cluster_ok_upd; [done|]. destruct (Hc h i Hi) as [H1 H2 H3 H4 H5 H6 H7]. rewrite Hph in H6. split; cbn; try done.
    + intros r [[= <-]|?]; [lia|done].
    + intros Hf. congruence.
  - by apply exec_ok.
  - apply cluster_ok_upd; [done|]. destruct (Hc h i Hi) as [H1 H2 H3 H4 H5 H6 H7].
    split; cbn; try done; try (intros ? [?|?]; done). intros Hh. destruct (H6 Hh) as [?|Hd]; [by left|]. by destruct Hph as [E|E]; rewrite E in Hd.
  - by apply cluster_ok_upd, select_ok.
  - apply cluster_ok_upd; [done|]. pose proof (Hc h i Hi) as [_ _ _ _ H5 _ _]. rewrite Hph in H5.
    apply (call_ok c h i); try done; [by rewrite Hph|apply reconcile_active|by rewrite Hph|]. intros _. left. by apply H5.
  - apply cluster_ok_upd; [done|]. pose proof (Hc h i Hi) as [_ _ _ _ H5 _ _]. rewrite Hph in H5. unfold ha_bind, haBindVIP.
    apply (call_ok c h i); try done; try (by repeat case_match); [by rewrite Hph|by rewrite Hph|]. intros _. left. by apply H5.
  - apply cluster_ok_upd; [done|]. pose proof (Hc h i Hi) as [_ _ _ _ H5 _ _]. rewrite Hph in H5. unfold ha_health, haStartHealth.
    apply (call_ok c h i); try done; try (by repeat case_match); [by rewrite Hph|]. intros _. left. by apply H5.
  - apply cluster_ok_upd; [done|]. unfold ha_release, haReleaseVIP.
    apply (call_ok c h i); try done; try (by repeat case_match); try (by rewrite Hph). by right.
  - apply cluster_ok_upd; [done|]. apply (call_ok c h i); try done. by rewrite Hph.
  - apply cluster_ok_upd; [done|]. destruct (Hc h i Hi) as [H1 H2 H3 H4 H5 H6 H7]. split; cbn; try done;
      unfold active in *; cbn; rewrite Ha; done.
Qed.

(** ** Theorem *)

(** C26: at most one server acts.  However the attempts of the servers, what they do after an attempt,
    their failures, their starts and their ends interleave, of the servers on the shared database at
    most one is active with an attempt confirmed no longer ago than the term of the lease, less the
    skew of the clocks; a server answers on its health port only while it is active, or while it stands
    down after losing the lease, before it has closed the port; and a standby whose clock is past the
    end of the lease can take over: there is a run from there in which it gets the lease and becomes
    active. *)
Theorem one_leader now c :
  rtc hstep (cluster_start now) c →
  (∀ h h' i i', cl_insts c !! h = Some i → cl_insts c !! h' = Some i' → in_pg i = true → in_pg i' = true →
     active i = true → active i' = true → cl_now c + δ ≤ in_got i + ttl → cl_now c + δ ≤ in_got i' + ttl → h = h') ∧
  (∀ h i, cl_insts c !! h = Some i → in_health i = true → active i = true ∨ standing_down (in_phase i) = true) ∧
  (∀ h i, cl_insts c !! h = Some i → in_pg i = true → in_phase i = Idle → active i = false →
     (∀ l, ot_lease (cl_db c) = Some l → l_expires l < clock c h) →
     ∃ c' i', rtc hstep c c' ∧ cl_insts c' !! h = Some i' ∧ active i' = true ∧ lease_holder (cl_db c') = Some h).
Proof.
  intros Hr. assert (cluster_ok c) as Hok.
  { remember (cluster_start now) as c0 eqn:E0. assert (cluster_ok c0) as H0 by (subst c0; intros h i Hi; change ((∅ : gmap string Inst) !! h = Some i) in Hi; by rewrite lookup_empty in Hi).
    clear E0. induction Hr as [|x y z Hs _ IH]; [done|]. apply IH. by eapply hstep_ok. }
  split_and!.
  - intros h h' i i' Hi Hi' Hp Hp' Ha Ha' Hf Hf'.
    destruct (io_active _ _ _ (Hok h i Hi) Hp Ha) as [(l & El & Hl & _)|Hlt]; [|lia].
    destruct (io_active _ _ _ (Hok h' i' Hi') Hp' Ha') as [(l' & El' & Hl' & _)|Hlt]; [|lia]. congruence.
  - intros h i Hi. apply (io_health _ _ _ (Hok h i Hi)).
  - intros h i Hi Hp Hph Ha Hexp. set (r := clock c h).
    set (c1 := upd h (i <| in_phase := Asked r |>) c). set (i2 := i <| in_phase := Asked r |> <| in_phase := Written r |>).
    set (c2 := upd h i2 c1 <| cl_db := take_lease h r (cl_db c1) |>).
    assert (ot_lease (take_lease h r (cl_db c)) = Some (mkLease h r (r + ttl))) as El.
    { destruct (take_lease_cases h r (cl_db c)) as [[_ (l & Hl & Hne)]|[E _]]; [|done]. specialize (Hexp l Hl). unfold take_lease.
      rewrite Hl. replace (l_expires l <? r) with true by (unfold r; lia). done. }
    exists (upd h (leader_tick h (lease_holder (cl_db c2)) r i2) c2), (leader_tick h (lease_holder (cl_db c2)) r i2). split_and!.
    + eapply rtc_l; [by apply (hs_ask c h i)|]. eapply rtc_l; [eapply (hs_exec c1 h _ r); [by apply lookup_insert_eq|done]|].
      eapply rtc_l; [eapply (hs_select c2 h i2 r); [by apply lookup_insert_eq|done]|]. apply rtc_refl.
    + apply lookup_insert_eq.
    + unfold leader_tick, lease_holder. cbn [c2 cl_db]. change (cl_db c2) with (take_lease h r (cl_db c)). rewrite El. cbn [fmap option_fmap option_map l_holder].
      rewrite decide_True by done. cbv zeta. assert (active (i2 <| in_got := r |>) = false) as -> by exact Ha. done.
    + change (cl_db (upd h _ c2)) with (take_lease h r (cl_db c)). unfold lease_holder. by rewrite El.
Qed.
End cluster.

(** ** Examples *)

Definition quiet_moms (_ : string) : option (list string) := None.
Definition ha_server : Server := Submit.test_server (Queue.NewQueue "batch" Queue.TypeExecution).
Definition no_skew (_ : string) : Z := 0.

(** One attempt of a server that is answered. *)
Lemma attempt skew c h i r :
  cl_insts c !! h = Some i → in_pg i = true → in_phase i = Idle → r = clock skew c h →
  rtc (hstep skew) c (upd h (leader_tick h (lease_holder (take_lease h r (cl_db c))) r (i <| in_phase := Written r |>))
    (c <| cl_db := take_lease h r (cl_db c) |>)).
Proof.
  intros Hi Hp Hph ->. set (r := clock skew c h). set (c1 := upd h (i <| in_phase := Asked r |>) c).
  eapply rtc_l; [by apply (hs_ask skew c h i)|]. eapply rtc_l; [eapply (hs_exec skew c1 h _ r); [by apply lookup_insert_eq|done]|].
  eapply rtc_l; [eapply (hs_select skew _ h _ r); [by apply lookup_insert_eq|done]|].
  unfold upd, c1. cbn. rewrite !insert_insert_eq. apply rtc_refl.
Qed.

(** What follows the change to active, when all of it works. *)
Definition take_over (i : Inst) : Inst := ha_health true (ha_bind true (ha_reconcile quiet_moms Submit.test_env i)).

(** Server [h] starts and its first attempt gives it the lease. *)
Definition leader (h : string) (now : Z) : Inst :=
  take_over (leader_tick h (Some h) now ((ha_start ha_server true now "" 15150) <| in_phase := Written now |>)).

Lemma becomes_leader c h :
  cl_insts c !! h = None → (∀ l, ot_lease (cl_db c) = Some l → l_expires l < cl_now c) →
  rtc (hstep no_skew) c (upd h (leader h (cl_now c)) (c <| cl_db := take_lease h (cl_now c) (cl_db c) |>)).
Proof.
  intros Hn He. assert (clock no_skew c h = cl_now c) as Hclk by (unfold clock, no_skew; lia).
  assert (lease_holder (take_lease h (cl_now c) (cl_db c)) = Some h) as Hl.
  { unfold lease_holder. destruct (take_lease_cases h (cl_now c) (cl_db c)) as [[_ (l & El & _)]|[-> _]]; [|done].
    unfold take_lease. rewrite El. by replace (l_expires l <? cl_now c) with true by (specialize (He l El); lia). }
  set (i := ha_start ha_server true (cl_now c) "" 15150).
  eapply rtc_l; [apply (hs_start no_skew c h ha_server true "" 15150 Hn)|]. rewrite Hclk. fold i.
  eapply rtc_trans; [apply (attempt no_skew (upd h i c) h i (cl_now c)); [apply lookup_insert_eq|done|done|]|].
  - by rewrite <- Hclk.
  - change (cl_db (upd h i c)) with (cl_db c). rewrite Hl.
    eapply rtc_l; [eapply (hs_reconcile no_skew _ h _ quiet_moms Submit.test_env);
      [apply lookup_insert_eq|by unfold leader_tick; rewrite decide_True by done]|].
    eapply rtc_l; [eapply (hs_bind no_skew _ h _ true); [apply lookup_insert_eq|done]|].
    eapply rtc_l; [eapply (hs_health no_skew _ h _ true); [apply lookup_insert_eq|done]|].
    unfold upd. cbn. rewrite !insert_insert_eq. apply rtc_refl.
Qed.

Definition led_by_a : Cluster :=
  mkCluster 100 (take_lease "a:15001" 100 pgEnsureSchema) {["a:15001" := leader "a:15001" 100]}.
Lemma led_by_a_reached : rtc (hstep no_skew) (cluster_start 100) led_by_a.
Proof. exact (becomes_leader (cluster_start 100) "a:15001" eq_refl ltac:(done)). Qed.

Lemma one_leader_witness :
  (∀ h h' i i', cl_insts led_by_a !! h = Some i → cl_insts led_by_a !! h' = Some i' → in_pg i = true → in_pg i' = true →
     active i = true → active i' = true → 100 + 0 ≤ in_got i + ttl → 100 + 0 ≤ in_got i' + ttl → h = h') ∧
  (∀ h i, cl_insts led_by_a !! h = Some i → in_health i = true → active i = true ∨ standing_down (in_phase i) = true).
Proof.
  destruct (one_leader no_skew 0 ltac:(intros; done) 100 led_by_a led_by_a_reached) as (H1 & H2 & _). split; [exact H1|exact H2].
Defined.

(** An error of the database leaves the active server as it is: when its attempts fail for longer than
    the lease lasts, another server takes the lease and both are active. *)
Example two_active :
  ∃ c i j, rtc (hstep no_skew) (cluster_start 100) c ∧ cl_now c = 111 ∧
    cl_insts c !! "a:15001" = Some i ∧ cl_insts c !! "b:15001" = Some j ∧ in_pg i = true ∧ active i = true ∧ active j = true.
Proof.
  set (c1 := led_by_a <| cl_now := 111 |>).
  exists (upd "b:15001" (leader "b:15001" 111) (c1 <| cl_db := take_lease "b:15001" 111 (cl_db c1) |>)), (leader "a:15001" 100), (leader "b:15001" 111).
  split_and!; [|by vm_compute..].
  eapply rtc_trans; [apply led_by_a_reached|].
  eapply rtc_l; [by eapply (hs_ask no_skew led_by_a "a:15001")|].
  eapply rtc_l; [eapply (hs_fail no_skew _ "a:15001" _ 100); [by apply lookup_insert_eq|by left]|].
  eapply rtc_l; [apply (hs_clock no_skew _ 111); by vm_compute|].
  apply (becomes_leader c1 "b:15001"); [by vm_compute|]. by intros l [= <-].
Qed.

(** A server that cannot reach the database at its start falls back to its files and is active whoever
    holds the lease. *)
Example fallback_is_active : active (ha_start ha_server false 100 "" 15150) = true.
Proof. done. Qed.

(** A server that takes over has the tables of its own start: a job that the last active server took
    since is not there, and its number is given again. *)
Example number_given_again :
  let a := in_srv (leader "a:15001" 100) in
  let b := in_srv (take_over (leader_tick "b:15001" (Some "b:15001") 111
    ((ha_start ha_server true 100 "" 15150) <| in_phase := Written 111 |>))) in
  let '(a, r, _) := handleQueueJob Submit.test_env "ann@h" "batch" [] a in
  (DisMessage.rp_data r, the_jobs b !! DisMessage.rp_data r, DisMessage.rp_data (handleQueueJob Submit.test_env "bob@h" "batch" [] b).1.2) = ("1.srv", None, "1.srv").
Proof. by vm_compute. Qed.
