(* ===== verification/FmtStd.v ===== *)
(** * Text as Go prints it: UTF-8, field widths and quoting

    What the commands use of the packages utf8, fmt and strconv: [%-ns] and [%ns] count runes, and [%q]
    writes a string as a Go literal.  Which runes from 0x80 on can be printed is a table of the library,
    an argument here. *)

From S2P Require Import Prelude GoStd.

Local Open Scope string_scope.
Local Open Scope list_scope.
Local Open Scope Z_scope.

(** ** Runes *)

(** A rune with its bytes, or a byte that begins none. *)
Inductive rune := Rune (r : Z) (bytes : string) | BadByte (c : ascii).

(** How many bytes follow the first one, the range of the next, and the bits of the first. *)
Definition lead (c : ascii) : option (nat * Z * Z * Z) :=
  let b := byte_val c in
  let within lo hi := (lo <=? b) && (b <=? hi) in
  if within 0 0x7F then Some (0%nat, 0x80, 0xBF, b)
  else if within 0xC2 0xDF then Some (1%nat, 0x80, 0xBF, b - 0xC0)
  else if within 0xE0 0xE0 then Some (2%nat, 0xA0, 0xBF, b - 0xE0)
  else if within 0xED 0xED then Some (2%nat, 0x80, 0x9F, b - 0xE0)
  else if within 0xE1 0xEF then Some (2%nat, 0x80, 0xBF, b - 0xE0)
  else if within 0xF0 0xF0 then Some (3%nat, 0x90, 0xBF, b - 0xF0)
  else if within 0xF4 0xF4 then Some (3%nat, 0x80, 0x8F, b - 0xF0)
  else if within 0xF1 0xF3 then Some (3%nat, 0x80, 0xBF, b - 0xF0)
  else None.

(** The bytes that follow: the rune, the bytes and the rest. *)
Fixpoint follow (n : nat) (lo hi acc : Z) (s : string) : option (Z * string * string) :=
  match n, s with
  | O, _ => Some (acc, "", s)
  | S n, String c s =>
    if (lo <=? byte_val c) && (byte_val c <=? hi) then
      '(r, bytes, rest) ← follow n 0x80 0xBF (64 * acc + (byte_val c - 0x80)) s; Some (r, String c bytes, rest)
    else None
  | S _, "" => None
  end.

(** [utf8.DecodeRune]; a byte that begins no rune is skipped alone. *)
Definition DecodeRune (c : ascii) (s : string) : rune * string :=
  match ('(n, lo, hi, acc) ← lead c; follow n lo hi acc s) with
  | Some (r, bytes, rest) => (Rune r (String c bytes), rest)
  | None => (BadByte c, s)
  end.

Fixpoint runes_of (fuel : nat) (s : string) : list rune :=
  match fuel, s with
  | S fuel, String c s => let '(r, rest) := DecodeRune c s in r :: runes_of fuel rest
  | _, _ => []
  end.
Definition runes (s : string) : list rune := runes_of (String.length s) s.
Definition rune_bytes (r : rune) : string := match r with Rune _ b => b | BadByte c => String c "" end.
Definition RuneCount (s : string) : Z := Z.of_nat (length (runes s)).

(** ** Widths *)

Fixpoint blanks (n : nat) : string := match n with O => "" | S n => String " " (blanks n) end.
(** [%-ns] and [%ns]. *)
Definition pad_right (n : Z) (s : string) : string := s +:+ blanks (Z.to_nat (n - RuneCount s)).
Definition pad_left (n : Z) (s : string) : string := blanks (Z.to_nat (n - RuneCount s)) +:+ s.

(** ** Quoting *)

Definition hex_char (d : Z) : ascii := if d <? 10 then digit_char d else byte_of (87 + d).
Fixpoint hex (n : nat) (z : Z) : string :=
  match n with O => "" | S n => hex n (z / 16) +:+ String (hex_char (z mod 16)) "" end.

Definition backslash : ascii := byte_of 92.
Definition double_quoted (s : string) : string := String (byte_of 34) (s +:+ String (byte_of 34) "").
Definition quote_rune (IsPrint : Z → bool) (x : rune) : string :=
  match x with
  | BadByte c => String backslash ("x" +:+ hex 2 (byte_val c))
  | Rune r bytes =>
    if (r =? 34) || (r =? 92) then String backslash bytes
    else if (if r <? 0x80 then (0x20 <=? r) && (r <=? 0x7E) else IsPrint r) then bytes
    else String backslash
      match r with
      | 7 => "a" | 8 => "b" | 9 => "t" | 10 => "n" | 11 => "v" | 12 => "f" | 13 => "r"
      | _ => if (r <? 0x20) || (r =? 0x7F) then "x" +:+ hex 2 r
             else if r <? 0x10000 then "u" +:+ hex 4 r else "U" +:+ hex 8 r
      end
  end.
(** [strconv.Quote], which is [%q]. *)
Definition Quote (IsPrint : Z → bool) (s : string) : string :=
  double_quoted (foldr String.append "" (quote_rune IsPrint <$> runes s)).

(** ** Lemmas *)

Lemma follow_length n lo hi acc s r bytes rest :
  follow n lo hi acc s = Some (r, bytes, rest) → s = bytes +:+ rest ∧ (String.length rest ≤ String.length s)%nat.
Proof.
  revert lo hi acc s bytes. induction n as [|n IH]; intros lo hi acc s bytes; cbn; [intros [= -> <- <-]; by split|].
  destruct s as [|c s]; [done|]. case_match; [|done]. destruct (follow n _ _ _ s) as [[[r' b'] rest']|] eqn:E; [|done].
  cbn. intros [= -> <- <-]. apply IH in E as [-> Hl]. split; [done|]. cbn. lia.
Qed.

Lemma DecodeRune_splits c s :
  String c s = rune_bytes (DecodeRune c s).1 +:+ (DecodeRune c s).2 ∧ (String.length (DecodeRune c s).2 ≤ String.length s)%nat.
Proof.
  unfold DecodeRune. destruct (lead c) as [[[[n lo] hi] acc]|]; cbn; [|done].
  destruct (follow n lo hi acc s) as [[[r bytes] rest]|] eqn:E; cbn; [|done]. by apply follow_length in E as [-> Hl].
Qed.

(** The runes of a text are its bytes: the fuel is enough. *)
Lemma runes_bytes s : foldr String.append "" (rune_bytes <$> runes s) = s.
Proof.
  unfold runes. assert (∀ n s, (String.length s ≤ n)%nat → foldr String.append "" (rune_bytes <$> runes_of n s) = s) as H;
    [|by apply H]. clear s. induction n as [|n IH]; intros s Hn; [by destruct s; cbn in *; [|lia]|].
  destruct s as [|c s]; [done|]. cbn [runes_of]. pose proof (DecodeRune_splits c s) as [Hs Hl].
  destruct (DecodeRune c s) as [r rest]. cbn [fst snd fmap list_fmap foldr] in *. rewrite IH by (cbn in Hn; lia). done.
Qed.

(** A text of ASCII has as many runes as bytes. *)
Definition ascii_text (s : string) : bool := all_bytes (λ c, byte_val c <? 128) s.
Lemma runes_ascii s : ascii_text s = true → RuneCount s = len s.
Proof.
  unfold RuneCount, len, runes. intros H. f_equal. induction s as [|c s IH]; [done|]. cbn in H. apply andb_true_iff in H as [Hc H].
  cbn [String.length runes_of]. unfold DecodeRune, lead. assert (0 <= byte_val c < 128) as Hb by (unfold byte_val in *; lia).
  replace ((0 <=? byte_val c) && (byte_val c <=? 127)) with true by lia. cbn. by rewrite IH.
Qed.

Example quoted : Quote (λ _, true) (String "a" (String (byte_of 34) (String newline (String (byte_of 233) "$HOME"))))
  = double_quoted (String "a" (String backslash (String (byte_of 34) (String backslash ("n" +:+ String backslash "xe9$HOME"))))).
Proof. by vm_compute. Qed.
Example accents : RuneCount (String (byte_of 195) (String (byte_of 169) "t")) = 2.
Proof. by vm_compute. Qed.
