(* ===== verification/Drmaa.v ===== *)
(** * The DRMAA library: pkg/drmaa/drmaa.go

    A program's session is a connection of the client with the server.  Each call locks the session and
    is one step on it; between the calls, and between the polls of [Wait], the server goes on with the
    requests of others. *)

From S2P Require Import Prelude GoStd NetStd FmtStd Job JobManager Dis DisMessage Client Conn Auth.
From S2P Require Queue Route ExecSpec.
From S2P Require Import ServerConfig ServerState Submit Exec Persist PersistConf Status Dispatch DispatchSpec SchedMain SchedLink Commands Qsub.
Import Proto.

Local Open Scope string_scope.
Local Open Scope list_scope.
Local Open Scope Z_scope.

#[export] Instance eta_Link : Eta Link := λ l, mkLink (l_server l) (l_open l) (l_inbox l) (l_turn l).

(** ** Constants and data *)

Definition JobStateUndetermined : Z := 0x00.
Definition JobStateQueued : Z := 0x10.
Definition JobStateUserOnHold : Z := 0x12.
Definition JobStateRunning : Z := 0x20.
Definition JobStateDone : Z := 0x30.
Definition JobStateFailed : Z := 0x40.
Definition TimeoutNoWait : Z := 0.
Definition ActionSuspend : Z := 0.
Definition ActionResume : Z := 1.
Definition ActionHold : Z := 2.
Definition ActionRelease : Z := 3.
Definition ActionTerminate : Z := 4.

Record Session := mkSession { ss_conn : Link; ss_user : string; ss_active : bool }.
#[export] Instance eta_Session : Eta Session := λ s, mkSession (ss_conn s) (ss_user s) (ss_active s).

Record JobTemplate := mkTemplate {
  jt_remoteCommand : string; jt_args : list string; jt_jobName : string; jt_queue : string; jt_workingDir : string;
  jt_outputPath : string; jt_errorPath : string; jt_email : list string; jt_nativeSpec : string;
  jt_env : gmap string string; jt_resources : gmap string string;
}.
#[export] Instance eta_JobTemplate : Eta JobTemplate := λ t,
  mkTemplate (jt_remoteCommand t) (jt_args t) (jt_jobName t) (jt_queue t) (jt_workingDir t) (jt_outputPath t) (jt_errorPath t)
    (jt_email t) (jt_nativeSpec t) (jt_env t) (jt_resources t).

Record JobStatus := mkStatus {
  js_JobID : string; js_HasExited : bool; js_ExitStatus : Z; js_HasSignal : bool; js_Signal : string; js_WasAborted : bool;
}.

Inductive drmaa_error := NoActiveSession | CallFailed (e : call_error) | NotFinished (state : Z) | TimedOut | UnknownAction.
Definition of_call {A} (r : result call_error A) : result drmaa_error A :=
  match r with Ok a => Ok a | Err e => Err (CallFailed e) | Panic => Panic end.

(** ** Templates *)

Definition AllocateJobTemplate (ss : Session) : result drmaa_error JobTemplate :=
  if ss_active ss then Ok (mkTemplate "" [] "" "" "" "" "" [] "" ∅ ∅) else Err NoActiveSession.
Definition SetRemoteCommand (cmd : string) (t : JobTemplate) : JobTemplate := t <| jt_remoteCommand := cmd |>.
Definition SetArgs (args : list string) (t : JobTemplate) : JobTemplate := t <| jt_args := args |>.
Definition SetJobName (name : string) (t : JobTemplate) : JobTemplate := t <| jt_jobName := name |>.
Definition SetQueue (queue : string) (t : JobTemplate) : JobTemplate := t <| jt_queue := queue |>.
Definition SetWorkingDir (dir : string) (t : JobTemplate) : JobTemplate := t <| jt_workingDir := dir |>.
Definition SetOutputPath (path : string) (t : JobTemplate) : JobTemplate := t <| jt_outputPath := path |>.
Definition SetErrorPath (path : string) (t : JobTemplate) : JobTemplate := t <| jt_errorPath := path |>.
Definition SetNativeSpec (spec : string) (t : JobTemplate) : JobTemplate := t <| jt_nativeSpec := spec |>.
Definition SetResource (name value : string) (t : JobTemplate) : JobTemplate := t <| jt_resources := <[name := value]> (jt_resources t) |>.
Definition SetEnv (key value : string) (t : JobTemplate) : JobTemplate := t <| jt_env := <[key := value]> (jt_env t) |>.

(** A line of the script. *)
Definition line (s : string) : string := s +:+ String newline "".

Section drmaa.
Context `{MapRange} `{SliceSort}.
Context (envs : nat → Env) (LookupAddr : string → option (list string)) (remote : string) (ce : ClientEnv).
(** The runes that the library takes for printable. *)
Context (IsPrint : Z → bool).

(** ** Sessions *)

Definition NewSession (contact : string) (s : Server) : Server * option Session :=
  match Connect envs LookupAddr remote ce contact 0 s with
  | (s, None) => (s, None)
  | (_, Some (l, user)) => (l_server l, Some (mkSession l user true))
  end.

Definition Close (ss : Session) : Session :=
  if ss_active ss then
    ss <| ss_active := false |>
       <| ss_conn := (ask envs LookupAddr remote (flush (writeHeader (ss_user ss) BatchReqDisconnect +:+ WriteString "")) (ss_conn ss)).1 |>
  else ss.

(** A call under the lock of an active session. *)
Definition in_session {A} (call : string → Link → Link * result drmaa_error A) (ss : Session) : Session * result drmaa_error A :=
  if ss_active ss then let '(l, r) := call (ss_user ss) (ss_conn ss) in (ss <| ss_conn := l |>, r) else (ss, Err NoActiveSession).

(** ** Submission *)

Definition job_script (t : JobTemplate) : string :=
  line "#!/bin/bash" +:+
  (if decide (jt_workingDir t = "") then "" else line ("cd " +:+ jt_workingDir t)) +:+
  concat_str ((λ k, line ("export " +:+ k +:+ "=" +:+ Quote IsPrint (lookup_or "" k (jt_env t)))) <$> range (jt_env t)) +:+
  line (jt_remoteCommand t +:+ concat_str ((λ arg, " " +:+ arg) <$> jt_args t)).

Definition job_attrs (t : JobTemplate) : list SvrAttrl :=
  opt_attr "Job_Name" (jt_jobName t) ++ opt_attr "Output_Path" (jt_outputPath t) ++ opt_attr "Error_Path" (jt_errorPath t) ++
  ((λ resc, resource_attr resc (lookup_or "" resc (jt_resources t))) <$> range (jt_resources t)).

Definition job_queue (t : JobTemplate) : string := if decide (jt_queue t = "") then "batch" else jt_queue t.

Definition RunJob (t : JobTemplate) : Session → Session * result drmaa_error string :=
  in_session (λ user l,
    let '(l, r) := Qsub.SubmitJob envs LookupAddr remote user (job_queue t) (job_attrs t) (job_script t) l in (l, of_call r)).

(** ** Status *)

(** The first attribute job_state with one of the four values. *)
Fixpoint state_code (attrs : list SvrAttrl) : Z :=
  match attrs with
  | [] => JobStateUndetermined
  | a :: attrs =>
    if decide (DisMessage.Name a = "job_state") then
      switch (Value a) [(["Q"], JobStateQueued); (["H"], JobStateUserOnHold); (["R"], JobStateRunning); (["C"], JobStateDone)]
        (state_code attrs)
    else state_code attrs
  end.

Definition GetJobStatus (jobID : string) : Session → Session * result drmaa_error Z :=
  in_session (λ user l,
    let '(l, r) := ask envs LookupAddr remote (Client.sendStatusRequest user BatchReqStatusJob jobID) l in
    (l, match r with
        | Ok [] => Ok JobStateDone
        | Ok (obj :: _) => Ok (state_code (obj_Attrs obj))
        | Err e => Err (CallFailed e)
        | Panic => Panic
        end)).

(** [others k] is what happens to the server between polls [k] and [S k], [clock k] the time after
    poll [k]. *)
Fixpoint wait_loop (others : nat → Server → Server) (clock : nat → Time) (jobID : string) (timeout : Z) (deadline : Time)
    (fuel k : nat) (ss : Session) : option (Session * result drmaa_error JobStatus) :=
  match fuel with
  | O => None
  | S fuel =>
    let '(ss, r) := GetJobStatus jobID ss in
    match r with
    | Err e => Some (ss, Err e)
    | Panic => Some (ss, Panic)
    | Ok state =>
      if (state =? JobStateDone) || (state =? JobStateFailed) then Some (ss, Ok (mkStatus jobID true 0 false "" false))
      else if timeout =? TimeoutNoWait then Some (ss, Err (NotFinished state))
      else if negb (IsZero deadline) && After (clock k) deadline then Some (ss, Err TimedOut)
      else wait_loop others clock jobID timeout deadline fuel (S k)
             (ss <| ss_conn := (ss_conn ss) <| l_server := others k (l_server (ss_conn ss)) |> |>)
    end
  end.
Definition wait_deadline (start : Time) (timeout : Z) : Time :=
  if 0 <? timeout then Add start (int64 (timeout * Second)) else zero_time.
Definition Wait (others : nat → Server → Server) (start : Time) (clock : nat → Time) (jobID : string) (timeout : Z) (fuel : nat)
    (ss : Session) : option (Session * result drmaa_error JobStatus) :=
  wait_loop others clock jobID timeout (wait_deadline start timeout) fuel 0 ss.

(** ** Control *)

Definition Control (jobID : string) (action : Z) : Session → Session * result drmaa_error () :=
  in_session (λ user l,
    let send call := let '(l, r) := ask envs LookupAddr remote call l in (l, of_call r) in
    if action =? ActionSuspend then send (SignalJob user jobID "SIGSTOP")
    else if action =? ActionResume then send (SignalJob user jobID "SIGCONT")
    else if action =? ActionHold then send (HoldJob user jobID "u")
    else if action =? ActionRelease then send (ReleaseJob user jobID "u")
    else if action =? ActionTerminate then send (DeleteJob user jobID)
    else (l, Err UnknownAction)).
End drmaa.

(** ** Lemmas: requests of a session *)

Section lemmas.
Context `{MapRange} `{SliceSort}.
Context (envs : nat → Env) (LookupAddr : string → option (list string)) (remote : string).

(** What the client makes of the answer to a status request. *)
Definition status_answer (r : result Z (list StatusObject)) : result call_error (list StatusObject) :=
  match r with Ok objs => Ok objs | Err code => Err (ReplyError (ServerError code)) | Panic => Panic end.
Definition answer_fits (r : result Z (list StatusObject)) : Prop :=
  match r with Ok objs => reply_fits objs | Err code => code = PbseUnkjobid ∨ code = PbseUnkQue | Panic => False end.

Lemma ask_status_of user ty id (F : Server → Server * result Z (list StatusObject)) run s n :
  wire_uint ty → no_extension ty = false → wire_str user → wire_str id →
  dispatchRequest (envs n) remote false (mkHeader PbsBatchProtType PbsBatchProtVer ty user)
    = with_body ReadStatusBody PbseBadReq run → (∀ s, run (id, []) s = replied_status (F s).1 (F s).2) →
  (∀ s, (F s).2 ≠ Panic) → answer_fits (F s).2 →
  ask envs LookupAddr remote (sendStatusRequest user ty id) (idle_link s n) = (idle_link (F s).1 (S n), status_answer (F s).2).
Proof.
  intros Ht Hx Hu Hi Hd Hrun Hpan Hfit.
  pose (q := mkReq ty user (WriteString id +:+ WriteSvrAttrl []) "").
  assert (status_request user ty id = frame q) as Hq by (unfold frame, status_request; cbn; by rewrite !app_str_assoc).
  set (bytes := λ r : result Z (list StatusObject), match r with Ok objs => WriteStatusReply objs | Err code => WriteReply (SendErrorReply code 0) | Panic => "" end).
  eapply (ask_served envs LookupAddr remote _ (frame q)).
  - rewrite <- Hq. destruct status_at_end as [e He].
    unfold sendStatusRequest, mbind, Call_bind, flush. rewrite He. reflexivity.
  - apply frame_nonempty.
  - rewrite (handle_one_empty_ext _ _ q (λ st, ((F st.1).1, st.2 +:+ bytes (F st.1).2))); [done|done| |done].
    intros st rest. unfold header_of. cbn [rq_type rq_user rq_body q]. rewrite Hd. unfold with_body.
    assert (ReadStatusBody ((WriteString id +:+ WriteSvrAttrl []) +:+ rest) = (Ok (id, []), rest)) as ->.
    { unfold ReadStatusBody. rewrite !app_str_assoc. wire_step; [|done]. by wire_step; [|by_decide]. }
    rewrite Hrun. specialize (Hpan st.1). by destruct (F st.1).2.
  - cbn [fst snd]. rewrite <- Hq. change ("" +:+ ?x) with x. destruct (F s).2 as [objs|code|]; cbn [answer_fits] in Hfit; [|..|done].
    + destruct Hfit. by apply sendStatusRequest_objects.
    + unfold sendStatusRequest, mbind, Call_bind, flush. destruct Hfit as [-> | ->]; reflexivity.
Qed.

(** The state of a job as the session sees it. *)
Definition seen_state (st : Z) : Z :=
  if st =? StateQueued then JobStateQueued else if st =? StateHeld then JobStateUserOnHold
  else if st =? StateRunning then JobStateRunning else if st =? StateComplete then JobStateDone else JobStateUndetermined.

Lemma state_code_skip l l' :
  Forall (λ a, DisMessage.Name a ≠ "job_state") l → state_code (l ++ l') = state_code l'.
Proof. induction 1 as [|a l Ha Hl IH]; [done|]. cbn [app state_code]. by rewrite decide_False. Qed.

Ltac no_state := repeat (apply Forall_app; split);
  unfold text_attr, time_attr, int_attr; repeat case_match; repeat constructor; cbn; discriminate.

Lemma state_of_status j : state_code (obj_Attrs (formatJobStatus j)) = seen_state (Job.State j).
Proof.
  unfold formatJobStatus. cbn [obj_Attrs]. unfold job_head. rewrite !fmap_app, <- !app_assoc.
  rewrite (app_assoc (attr_of <$> text_attr "Job_Name" _)), state_code_skip.
  2: { rewrite <- fmap_app. apply Forall_fmap. no_state. }
  rewrite <- (app_nil_r (attr_of <$> job_tail j)). match goal with |- state_code (?a ++ ?b) = _ => set (rest := b) end.
  assert (state_code rest = JobStateUndetermined) as Hr.
  { unfold rest. rewrite !app_assoc, state_code_skip; [done|]. repeat (apply Forall_app; split).
    all: try (apply Forall_fmap; no_state).
    all: apply Forall_forall; intros a Ha; unfold resc_attrs in Ha; apply list_elem_of_omap in Ha as (k & _ & Hk); case_decide; by simplify_eq/=. }
  unfold text_attr, Job.StateName, StateNames, seen_state.
  destruct (Job.State j) as [|p|p]; [cbn; exact Hr| |cbn; exact Hr].
  do 4 (destruct p as [p|p|]; try (cbn; exact Hr); try reflexivity).
Qed.
End lemmas.

(** ** Theorems *)

Section theorems.
Context `{MapRange} `{SliceSort}.
Context (envs : nat → Env) (LookupAddr : string → option (list string)) (remote user : string) (IsPrint : Z → bool).

(** An open session whose server waits for the next request. *)
Definition session (s : Server) (n : nat) : Session := mkSession (idle_link s n) user true.

Definition unknown_job : drmaa_error := CallFailed (ReplyError (ServerError PbseUnkjobid)).

Lemma GetJobStatus_link id s n :
  wire_str user → wire_str id → id ≠ "" → (∀ j, get_job (envs n) id s = Some j → reply_fits [formatJobStatus j]) →
  GetJobStatus envs LookupAddr remote id (session s n)
  = (session s (S n), match get_job (envs n) id s with Some j => Ok (seen_state (Job.State j)) | None => Err unknown_job end).
Proof.
  intros Hu Hi Hne Hfit. unfold GetJobStatus, in_session, session. cbn [ss_active ss_user ss_conn].
  assert (∀ s, (handleStatusJob (envs n) id s) =
    match get_job (envs n) id s with Some j => Ok [formatJobStatus j] | None => Err PbseUnkjobid end) as Hh.
  { intros s'. unfold handleStatusJob. by rewrite decide_False. }
  rewrite (ask_status_of envs LookupAddr remote user BatchReqStatusJob id (λ s, (s, handleStatusJob (envs n) id s))
    (λ b s, replied_status s (handleStatusJob (envs n) b.1 s)) s n);
    [|by_decide|done|done|done|reflexivity|reflexivity|..].
  - cbn [fst snd]. rewrite Hh. destruct (get_job (envs n) id s); cbn [status_answer]; [|done]. by rewrite state_of_status.
  - intros s'. cbn [snd]. rewrite Hh. destruct (get_job (envs n) id s'); discriminate.
  - cbn [snd]. rewrite Hh. destruct (get_job (envs n) id s) as [j|] eqn:E; cbn; [by apply Hfit|by left].
Qed.

Section wait.
Context (others : nat → Server → Server) (start : Time) (clock : nat → Time) (id : string) (timeout : Z) (s : Server) (n : nat).

(** The server at each poll, and the job there. *)
Fixpoint server_at (k : nat) : Server := match k with O => s | S k => others k (server_at k) end.
Definition job_at (k : nat) : option Job := get_job (envs (n + k)) id (server_at k).

(** What a poll means for the caller; [None] is to wait on. *)
Definition poll_result (k : nat) : option (result drmaa_error JobStatus) :=
  match job_at k with
  | None => Some (Err unknown_job)
  | Some j =>
    if Job.State j =? StateComplete then Some (Ok (mkStatus id true 0 false "" false))
    else if timeout =? 0 then Some (Err (NotFinished (seen_state (Job.State j))))
    else if (0 <? timeout) && (start + timeout * Second <? clock k) then Some (Err TimedOut)
    else None
  end.

Context (Hu : wire_str user) (Hi : wire_str id) (Hne : id ≠ "") (Hstart : 0 ≤ start) (Hmax : timeout * Second ≤ MaxInt64).
Context (Hfit : ∀ k j, job_at k = Some j → reply_fits [formatJobStatus j]).

Lemma seen_done st : (seen_state st =? JobStateDone) || (seen_state st =? JobStateFailed) = (st =? StateComplete).
Proof.
  unfold seen_state. destruct (Z.eqb_spec st StateComplete) as [->|]; [done|]. by repeat case_match.
Qed.

Lemma deadline_passed t :
  negb (IsZero (wait_deadline start timeout)) && After t (wait_deadline start timeout) = (0 <? timeout) && (start + timeout * Second <? t).
Proof.
  unfold wait_deadline, IsZero, After, Add, zero_time. destruct (0 <? timeout) eqn:E; [|done].
  unfold Second in *. rewrite int64_id by (unfold is_int64, MinInt64, MaxInt64 in *; lia). cbn [andb].
  replace (start + timeout * 1000000000 =? 0) with false by lia. done.
Qed.

(** One turn of the loop. *)
Lemma wait_turn fuel k :
  wait_loop envs LookupAddr remote others clock id timeout (wait_deadline start timeout) (S fuel) k (session (server_at k) (n + k))
  = match poll_result k with
    | Some r => Some (session (server_at k) (S (n + k)), r)
    | None => wait_loop envs LookupAddr remote others clock id timeout (wait_deadline start timeout) fuel (S k)
                (session (server_at (S k)) (S (n + k)))
    end.
Proof.
  cbn [wait_loop]. rewrite GetJobStatus_link by (done || apply (Hfit k)). unfold poll_result.
  change (get_job (envs (n + k)) id (server_at k)) with (job_at k). destruct (job_at k) as [j|]; [|done].
  rewrite seen_done, deadline_passed. change (timeout =? TimeoutNoWait) with (timeout =? 0).
  destruct (Job.State j =? StateComplete); [done|]. destruct (timeout =? 0) eqn:E; [done|]. by destruct ((0 <? timeout) && _).
Qed.

Lemma wait_loop_polls K r k :
  (k ≤ K)%nat → (∀ i, (k ≤ i < K)%nat → poll_result i = None) → poll_result K = Some r →
  wait_loop envs LookupAddr remote others clock id timeout (wait_deadline start timeout) (S (K - k)) k (session (server_at k) (n + k))
  = Some (session (server_at K) (S (n + K)), r).
Proof.
  remember (K - k)%nat as d eqn:Hd. revert k Hd. induction d as [|d IH]; intros k Hd Hk Hnone HK; rewrite wait_turn.
  - assert (k = K) as -> by lia. by rewrite HK.
  - rewrite (Hnone k) by lia. rewrite <- Nat.add_succ_r. apply IH; [lia|lia| |done]. intros i Hlt. apply Hnone. lia.
Qed.

(** The first poll with a result. *)
Lemma first_poll K0 :
  is_Some (poll_result K0) → ∃ K r, (K ≤ K0)%nat ∧ (∀ k, (k < K)%nat → poll_result k = None) ∧ poll_result K = Some r.
Proof.
  induction K0 as [K0 IH] using lt_wf_ind. intros [r Hr].
  destruct (decide (Exists (λ k, is_Some (poll_result k)) (seq 0 K0))) as [[k [Hk Hs]]%Exists_exists|Hno].
  - apply elem_of_seq in Hk. destruct (IH k ltac:(lia) Hs) as (K & r' & HK & ?). exists K, r'. split; [lia|done].
  - exists K0, r. split_and!; [done| |done]. intros k Hk. apply eq_None_not_Some. intros Hs. apply Hno, Exists_exists.
    exists k. split; [apply elem_of_seq; lia|done].
Qed.

(** C21: waiting ends, with the state the server has.  Whatever others do to the server between the polls,
    [Wait] returns at the first poll at which the job is complete, is gone from the server's table, or
    the time is over: at once without waiting, and with a timeout of [t] seconds after at most
    [t / 2 + 1] sleeps of two seconds.  The result is that of this poll, and the server is as the
    others left it. *)
Theorem wait_ends K0 :
  timeout = 0 ∨
  0 < timeout < 2 * Z.of_nat K0 ∧ (∀ k, start + 2 * Z.of_nat k * Second ≤ clock k) ∨
  (∃ j, job_at K0 = Some j ∧ Job.State j = StateComplete) ∨ job_at K0 = None →
  ∃ K r, (K ≤ K0)%nat ∧ (∀ k, (k < K)%nat → poll_result k = None) ∧ poll_result K = Some r ∧
    Wait envs LookupAddr remote others start clock id timeout (S K) (session s n) = Some (session (server_at K) (S (n + K)), r).
Proof.
  intros Hcase. destruct (first_poll K0) as (K & r & HK & Hnone & Hr).
  { unfold poll_result. destruct Hcase as [->|[[Ht Hclk]|[(j & -> & ->)| ->]]]; [| |by eexists..].
    - destruct (job_at K0); [|by eexists]. case_match; by eexists.
    - destruct (job_at K0) as [j|]; [|by eexists]. destruct (Job.State j =? StateComplete); [by eexists|].
      destruct (timeout =? 0); [by eexists|]. specialize (Hclk K0). unfold Second in *.
      replace (0 <? timeout) with true by lia. replace (start + _ <? clock K0) with true by lia. by eexists. }
  exists K, r. split_and!; [done..|]. pose proof (wait_loop_polls K r 0 ltac:(lia) ltac:(intros; apply Hnone; lia) Hr) as Hw.
  rewrite Nat.sub_0_r, Nat.add_0_r in Hw. exact Hw.
Qed.
End wait.

(** *** Submission *)

Lemma resources_arrive t j (m : gmap string string) ks :
  foldl (applyJobAttr t) j ((λ k, resource_attr k (lookup_or "" k m)) <$> ks)
  = j <| Job.ResourceReq := foldl (λ acc k, <[k := lookup_or "" k m]> acc) (Job.ResourceReq j) ks |>.
Proof.
  revert j. induction ks as [|k ks IH]; intros j; [by destruct j|]. cbn [fmap list_fmap foldl]. by rewrite IH.
Qed.

Lemma insert_range (m : gmap string string) : foldl (λ acc k, <[k := lookup_or "" k m]> acc) ∅ (range m) = m.
Proof.
  assert (∀ ks (acc : gmap string string) k, foldl (λ acc k, <[k := lookup_or "" k m]> acc) acc ks !! k
    = if decide (k ∈ ks) then Some (lookup_or "" k m) else acc !! k) as Hl.
  { induction ks as [|x ks IH]; intros acc k; [done|]. cbn [foldl]. rewrite IH. destruct (decide (k ∈ ks)) as [Hk|Hk].
    - by rewrite decide_True by (by right).
    - destruct (decide (x = k)) as [->|Hne]; [rewrite lookup_insert_eq, decide_True by (by left); done|].
      rewrite lookup_insert_ne by done. rewrite decide_False; [done|]. rewrite elem_of_cons. naive_solver. }
  apply map_eq. intros k. rewrite Hl, lookup_empty. unfold lookup_or. pose proof (map_order_elem m (range m) k (range_order m)) as Hk.
  case_decide as Hd; rewrite Hk in Hd; [by destruct Hd as [v ->]|]. symmetry. by apply eq_None_not_Some.
Qed.

(** The job that a template describes. *)
Definition as_template (t : JobTemplate) (j : Job) : Prop :=
  (jt_jobName t ≠ "" → Job.Name j = jt_jobName t) ∧ Job.StdoutPath j = jt_outputPath t ∧ Job.StderrPath j = jt_errorPath t ∧
  Job.ResourceReq j = jt_resources t.

Lemma opt_arrives now n v (set : string → Job → Job) j :
  (∀ j, applyJobAttr now j (mkAttr n false "" v 0) = set v j) →
  foldl (applyJobAttr now) j (opt_attr n v) = if decide (v = "") then j else set v j.
Proof. intros Ha. unfold opt_attr. case_decide; [done|]. cbn [foldl]. apply Ha. Qed.

Lemma template_arrives now t id q srv :
  as_template t (foldl (applyJobAttr now) ((Job.NewJob now id q srv) <| Job.Owner := user |>) (job_attrs t)).
Proof.
  unfold job_attrs. rewrite !foldl_app, resources_arrive.
  rewrite (opt_arrives now "Job_Name" _ (λ v j, j <| Job.Name := v |>)) by reflexivity.
  rewrite (opt_arrives now "Output_Path" _ (λ v j, j <| Job.StdoutPath := v |>)) by reflexivity.
  rewrite (opt_arrives now "Error_Path" _ (λ v j, j <| Job.StderrPath := v |>)) by reflexivity.
  set (j0 := (Job.NewJob now id q srv) <| Job.Owner := user |>).
  assert (Job.StdoutPath j0 = "" ∧ Job.StderrPath j0 = "" ∧ Job.ResourceReq j0 = ∅) as (H1 & H2 & H3) by done. clearbody j0.
  unfold as_template. split_and!; [intros Hn; by repeat case_decide| | |].
  - repeat case_decide; cbn; congruence.
  - repeat case_decide; cbn; congruence.
  - rewrite <- (insert_range (jt_resources t)) at 2. rewrite <- H3. by repeat case_decide.
Qed.

Lemma template_kept now t attrs j :
  as_template t (foldl (applyJobAttr now) j attrs) →
  let j0 := applyJobAttrs now attrs j in as_template t (if decide (Job.Owner j0 = "") then j0 <| Job.Owner := user |> else j0).
Proof. unfold applyJobAttrs, as_template. cbv zeta. intros Ht. repeat case_match; exact Ht. Qed.

(** A submitted template becomes the job it describes: when the server takes the request, the job in
    its table has the template's name, paths and resources, and the call gives its id exactly when the
    script and the commit are accepted as well.  The session and the server are in each case as the
    server's handlers leave them. *)
Theorem run_job_submits t s n :
  wire_str user → wire_str (job_queue t) → wire_attrl (job_attrs t) → wire_str (job_script IsPrint t) →
  let '(s1, r1, keep1) := handleQueueJob (envs n) user (job_queue t) (job_attrs t) s in
  wire_reply r1 →
  if rp_code r1 =? 0 then
    (∃ j, the_jobs s1 !! rp_data r1 = Some j ∧ as_template t j) ∧
    ∀ s2 r2 keep, handleJobScript (envs (S n)) (rp_data r1) (job_script IsPrint t) true s1 = Some (s2, r2, keep) →
      RunJob envs LookupAddr remote IsPrint t (session s n)
      = (mkSession (mkLink s2 keep "" (S (S n))) user true,
         if rp_code r2 =? 0 then Ok (rp_data r1) else Err (CallFailed (ReplyError (ServerError (rp_code r2)))))
  else RunJob envs LookupAddr remote IsPrint t (session s n)
       = (mkSession (mkLink s1 keep1 "" (S n)) user true, Err (CallFailed (ReplyError (ServerError (rp_code r1))))).
Proof.
  intros Hu Hq Ha Hs. destruct (handleQueueJob _ _ _ _ _) as [[s1 r1] keep1] eqn:E. intros Hr1.
  pose proof (SubmitJob_link envs LookupAddr remote user (job_queue t) _ _ s n s1 r1 keep1 Hu Hq Ha Hs Hr1 E) as Hlink.
  unfold RunJob, in_session, session. cbn [ss_active ss_user ss_conn].
  destruct (Z.eqb_spec (rp_code r1) 0) as [Hc|Hc]; [|by rewrite Hlink]. split.
  - destruct (proj1 (queued_job _ _ _ _ _ _ _ _ E) Hc) as (_ & _ & id & q & j0 & -> & Hj). eexists. split; [exact Hj|].
    apply template_kept, template_arrives.
  - intros s2 r2 keep H2. rewrite (Hlink s2 r2 keep H2). by destruct (rp_code r2 =? 0).
Qed.

(** *** Control *)

Definition action_command (id : string) (action : Z) : option command :=
  list_to_map (M := gmap Z command)
    [(ActionSuspend, CSignal id "SIGSTOP"); (ActionResume, CSignal id "SIGCONT"); (ActionHold, CHold id "u");
     (ActionRelease, CRelease id "u"); (ActionTerminate, CDelete id)] !! action.

(** A control action is one call of the server's handler, and an unknown action is refused without a
    request. *)
Theorem control_performs id action s n :
  wire_str user → wire_str id →
  Control envs LookupAddr remote id action (session s n)
  = match action_command id action with
    | Some c => (session (handler (envs n) c s).1.1 (S n), of_call (accepted_code (handler (envs n) c s).1.2))
    | None => (session s n, Err UnknownAction)
    end.
Proof.
  intros Hu Hi. unfold Control, in_session, session, action_command. cbn [ss_active ss_user ss_conn list_to_map foldr fst snd].
  assert (∀ call c, call = (_ ← flush (client_bytes user c); expect_ok) → sendable c → (∀ l, c ≠ CSelect l) →
    ask envs LookupAddr remote call (idle_link s n)
    = (idle_link (handler (envs n) c s).1.1 (S n), accepted_code (handler (envs n) c s).1.2)) as Hask.
  { intros call c Hc Hs Hl. apply (ask_command envs LookupAddr remote call user c s n); [done..|]. by apply command_reply_wire. }
  repeat match goal with |- context [action =? ?a] => destruct (Z.eqb_spec action a) as [->|?] end.
  - rewrite (Hask _ (CSignal id "SIGSTOP")) by (done || by_decide). done.
  - rewrite (Hask _ (CSignal id "SIGCONT")) by (done || by_decide). done.
  - rewrite (Hask _ (CHold id "u")) by (done || by_decide). done.
  - rewrite (Hask _ (CRelease id "u")) by (done || by_decide). done.
  - rewrite (Hask _ (CDelete id)) by (done || by_decide). done.
  - by rewrite !lookup_insert_ne by done.
Qed.
End theorems.

(** ** Examples *)

Abbreviation on_link f := (f link_envs (λ _ : string, None) "10.0.0.9:40000") (only parsing).
Definition drmaa_session : Session := session "root" (link_server ∅) 1.

(** The only job ends between the first poll and the second, with exit status 3. *)
Definition job_ends (k : nat) (s : Server) : Server :=
  if decide (k = 0%nat) then
    match the_jobs s !! "1.srv" with
    | Some j => upd_job (j <| Job.State := StateComplete |> <| Job.ExitStatus := 3 |>) s
    | None => s
    end
  else s.
Definition every_2s (k : nat) : Time := time_Unix (1000 + 2 * Z.of_nat k).

Lemma job_ends_later k : server_at job_ends (link_server ∅) (S k) = job_ends 0 (link_server ∅).
Proof. induction k as [|k IH]; [done|]. cbn [server_at] in *. by rewrite IH. Qed.

Lemma wait_ends_witness :
  (∃ K r, (K ≤ 1)%nat ∧ (∀ k, (k < K)%nat → poll_result link_envs job_ends (time_Unix 1000) every_2s "1.srv" 60 (link_server ∅) 1 k = None) ∧
    poll_result link_envs job_ends (time_Unix 1000) every_2s "1.srv" 60 (link_server ∅) 1 K = Some r ∧
    on_link Wait job_ends (time_Unix 1000) every_2s "1.srv" 60 (S K) drmaa_session
    = Some (session "root" (server_at job_ends (link_server ∅) K) (S (1 + K)), r)) ∧
  on_link Wait job_ends (time_Unix 1000) every_2s "1.srv" 60 2 drmaa_session
  = Some (session "root" (job_ends 0 (link_server ∅)) 3, Ok (mkStatus "1.srv" true 0 false "" false)).
Proof.
  split; [|by vm_compute].
  apply (wait_ends link_envs (λ _, None) "10.0.0.9:40000" "root" job_ends (time_Unix 1000) every_2s "1.srv" 60 (link_server ∅) 1).
  - by_decide.
  - by_decide.
  - done.
  - by vm_compute.
  - by vm_compute.
  - intros [|k] j; unfold job_at; [|rewrite job_ends_later]; intros E; vm_compute in E; injection E as <-; split; by_decide.
  - right. right. left. eexists. split; [by vm_compute|done].
Defined.

(** *** Where the library does not do what it says *)

(** The exit status of a job is not read: a job that failed is reported with status 0. *)
Example exit_status_lost :
  (Job.ExitStatus <$> the_jobs (job_ends 0 (link_server ∅)) !! "1.srv",
   snd <$> on_link Wait job_ends (time_Unix 1000) every_2s "1.srv" 60 2 drmaa_session)
  = (Some 3, Some (Ok (mkStatus "1.srv" true 0 false "" false))).
Proof. by vm_compute. Qed.

(** A job that is gone from the server's table is an error, not a job that is done. *)
Example purged_job_is_error : (on_link GetJobStatus "7.srv" drmaa_session).2 = Err unknown_job.
Proof. by vm_compute. Qed.

(** A value of a variable goes into the script as a Go literal, in which the shell expands dollars; the
    arguments go in as they are. *)
Example value_expanded :
  job_script (λ _, true) (SetEnv "A" "$HOME" (SetArgs ["a b"; "c"] (SetRemoteCommand "run" (mkTemplate "" [] "" "" "" "" "" [] "" ∅ ∅))))
  = line "#!/bin/bash" +:+ line ("export A=" +:+ double_quoted "$HOME") +:+ line "run a b c".
Proof. by vm_compute. Qed.

(** The native specification is dropped. *)
Example native_spec_dropped t spec : job_attrs (SetNativeSpec spec t) = job_attrs t ∧ job_script (λ _, true) (SetNativeSpec spec t) = job_script (λ _, true) t.
Proof. done. Qed.

(** Without a queue the job goes to [batch], whatever the server's default; and a refused submission
    ends the connection of the session, which stays active and fails from then on. *)
Example refused_session_is_lost :
  let t := SetQueue "nowhere" (mkTemplate "run" [] "" "" "" "" "" [] "" ∅ ∅) in
  let '(ss, r) := on_link RunJob (λ _, true) t drmaa_session in
  (r, ss_active ss, l_open (ss_conn ss), (on_link RunJob (λ _, true) (SetQueue "batch" t) drmaa_session).2,
   is_ok (on_link RunJob (λ _, true) (SetQueue "batch" t) ss).2)
  = (Err (CallFailed (ReplyError (ServerError PbseUnkQue))), true, false, Ok "1.srv", false).
Proof. by vm_compute. Qed.
