(* ===== verification/Qstat.v ===== *)
(** * Status at the command line: cmd/qstat/main.go

    The command asks for the status of jobs, of queues or of the server and prints the answer: as a
    table with columns of fixed width, with one attribute a line, or as XML. *)

From S2P Require Import Prelude GoStd NetStd FmtStd Job JobManager Dis DisMessage Client Conn Auth.
From S2P Require Queue ExecSpec.
From S2P Require Import ServerConfig ServerState Submit Exec Persist PersistConf Status StatusServer Dispatch DispatchSpec SchedMain SchedLink Commands Qsub Drmaa.
Import Proto.

Local Open Scope string_scope.
Local Open Scope list_scope.
Local Open Scope Z_scope.

(** ** Attributes *)

Definition attrMap (attrs : list SvrAttrl) : gmap string string := foldl (λ m a, <[attr_key a := Value a]> m) ∅ attrs.
Definition truncate (s : string) (maxLen : nat) : string := if (maxLen <? String.length s)%nat then String.substring 0 maxLen s else s.
Definition zeroDefault (s : string) : string := if decide (s = "") then "0" else s.
Definition yesNo (s : string) : string :=
  if bool_decide (s ∈ ["True"; "true"; "1"; "yes"]) then "yes" else if decide (s = "") then "no" else s.
(** The part of an owner before a sign that is not the first byte. *)
Definition owner_name (owner : string) : string :=
  match cut "@" owner with Some (u, _) => if decide (u = "") then owner else u | None => owner end.

(** ** Options *)

Record stat_opts := mkStat {
  st_queues : bool; st_server : bool; st_full : bool; st_idle : bool; st_run : bool; st_node : bool; st_user : string;
  st_host : string; st_noComplete : bool; st_xml : bool;
}.

Definition matchesFilter (obj : StatusObject) (o : stat_opts) : bool :=
  let attrs := attrMap (obj_Attrs obj) in
  let state := lookup_or "" "job_state" attrs in
  if st_idle o && negb (bool_decide (state = "Q")) && negb (bool_decide (state = "H")) && negb (bool_decide (state = "W")) then false
  else if st_run o && negb (bool_decide (state = "R")) then false
  else if decide (st_user o = "") then true
  else bool_decide (owner_name (lookup_or "" "Job_Owner" attrs) = st_user o).

(** The objects that the loops do not skip. *)
Definition printed (o : stat_opts) (obj : StatusObject) : bool :=
  matchesFilter obj o && negb (st_noComplete o && bool_decide (lookup_or "" "job_state" (attrMap (obj_Attrs obj)) = "C")).

(** ** Formats *)

Definition columns (cells : list string) : string := Join " " cells.

Definition attr_lines (obj : StatusObject) : list string := (λ a, "    " +:+ attr_key a +:+ " = " +:+ Value a) <$> obj_Attrs obj.
Definition xml_job (obj : StatusObject) : list string :=
  ["  <Job>"; "    <Job_Id>" +:+ obj_Name obj +:+ "</Job_Id>"] ++
  ((λ a, "    <" +:+ attr_key a +:+ ">" +:+ Value a +:+ "</" +:+ attr_key a +:+ ">") <$> obj_Attrs obj) ++ ["  </Job>"].
Definition full_job (obj : StatusObject) : list string := ["Job Id: " +:+ obj_Name obj] ++ attr_lines obj ++ [""].

Definition job_columns (id name user time state queue : string) : string :=
  columns [pad_right 25 id; pad_right 16 name; pad_right 15 user; time; state; queue].
Definition job_header : list string :=
  [job_columns "Job ID" "Name" "User" (pad_right 8 "Time Use") "S" "Queue";
   job_columns "-------------------------" "----------------" "---------------" (pad_right 8 "--------") "-" "-----"].
Definition job_line (o : stat_opts) (obj : StatusObject) : string :=
  let get k := lookup_or "" k (attrMap (obj_Attrs obj)) in
  let execHost := get "exec_host" in
  job_columns (truncate (obj_Name obj) 25) (truncate (get "Job_Name") 16) (truncate (owner_name (get "Job_Owner")) 15)
    (pad_left 8 (zeroDefault (get "resources_used.walltime"))) (get "job_state") (pad_right 5 (get "queue"))
  +:+ (if st_node o && negb (bool_decide (execHost = "")) then " " +:+ execHost else "").

Definition displayJobs (o : stat_opts) (objects : list StatusObject) : list string :=
  let chosen := filter (λ obj, printed o obj = true) objects in
  if decide (objects = []) then []
  else if st_xml o then ["<Data>"] ++ mjoin (xml_job <$> chosen) ++ ["</Data>"]
  else if st_full o then mjoin (full_job <$> chosen)
  else job_header ++ (job_line o <$> chosen).

Definition queue_columns (name max tot ena str que run hld wat trn ext t cpt : string) : string :=
  columns ([pad_right 18 name; pad_left 3 max; pad_left 6 tot] ++ (pad_left 5 <$> [ena; str; que; run; hld; wat; trn; ext]) ++ [t; pad_left 5 cpt]).
Definition queue_line (obj : StatusObject) : string :=
  let get k := lookup_or "" k (attrMap (obj_Attrs obj)) in
  let count k := zeroDefault (get k) in
  queue_columns (obj_Name obj) (count "max_running") (count "total_jobs") (yesNo (get "enabled")) (yesNo (get "started"))
    (count "state_count_queued") (count "state_count_running") (count "state_count_held") (count "state_count_waiting")
    (count "state_count_transit") (count "state_count_exiting") (if decide (get "queue_type" = "Route") then "R" else "E")
    (count "state_count_complete").
Definition displayQueues (objects : list StatusObject) : list string :=
  [queue_columns "Queue" "Max" "Tot" "Ena" "Str" "Que" "Run" "Hld" "Wat" "Trn" "Ext" "T" "Cpt";
   queue_columns "----------------" "---" "----" "--" "--" "---" "---" "---" "---" "---" "---" "-" "---"] ++ (queue_line <$> objects).

Definition server_columns (name : string) (counts : list string) (status : string) : string :=
  columns ([pad_right 18 name] ++ (pad_left 5 <$> counts) ++ [status]).
Definition server_line (obj : StatusObject) : string :=
  let get k := lookup_or "" k (attrMap (obj_Attrs obj)) in
  server_columns (obj_Name obj)
    ((λ k, zeroDefault (get k)) <$> ["max_running"; "total_jobs"; "state_count_queued"; "state_count_running"; "state_count_held";
       "state_count_waiting"; "state_count_transit"; "state_count_exiting"; "state_count_complete"])
    (get "server_state").
Definition displayServer (showFull : bool) (objects : list StatusObject) : list string :=
  if showFull then mjoin ((λ obj, ("Server: " +:+ obj_Name obj) :: attr_lines obj) <$> objects)
  else [server_columns "Server" ["Max"; "Tot"; "Que"; "Run"; "Hld"; "Wat"; "Trn"; "Ext"; "Com"] "Status";
        server_columns "----------------" ["---"; "---"; "---"; "---"; "---"; "---"; "---"; "---"; "---"] "----------"]
       ++ (server_line <$> objects).

(** ** The command *)

Section qstat.
Context `{MapRange} `{SliceSort}.
Context (envs : nat → Env) (LookupAddr : string → option (list string)) (remote : string) (ce : ClientEnv).

(** The exit code and what is printed.  A failed request exits before [Close]. *)
Definition qstat (o : stat_opts) (args : list string) (s : Server) : Server * (Z * list string) :=
  match Connect envs LookupAddr remote ce (st_host o) 0 s with
  | (s, None) => (s, (1, []))
  | (_, Some (l, user)) =>
    let show reqType id (display : list StatusObject → list string) :=
      let '(l, r) := ask envs LookupAddr remote (Client.sendStatusRequest user reqType id) l in
      match r with
      | Ok objects => (SchedMain.Close envs LookupAddr remote user l, (0, display objects))
      | Err _ => (l_server l, (1, []))
      | Panic => (l_server l, (2, []))
      end in
    if st_queues o then show BatchReqStatusQueue (hd "" args) displayQueues
    else if st_server o then show BatchReqStatusServer "" (displayServer (st_full o))
    else show BatchReqStatusJob (hd "" args) (displayJobs o)
  end.
End qstat.

(** ** The attributes of a job *)

Section attributes.
Context `{MapRange}.
Abbreviation put := (foldl (λ (m : gmap string string) a, <[attr_key a := Value a]> m)).

Lemma put_skip m l key : Forall (λ a, attr_key a ≠ key) l → put m l !! key = m !! key.
Proof.
  intros Hl. revert m. induction Hl as [|a l Ha Hl IH]; intros m; [done|]. cbn [foldl]. by rewrite IH, lookup_insert_ne.
Qed.

Lemma put_text m key v : put m (attr_of <$> text_attr key v) !! key = if decide (v = "") then m !! key else Some v.
Proof. unfold text_attr. case_decide; [done|]. cbn. by rewrite lookup_insert_eq. Qed.

(** A text among attributes with other keys. *)
Lemma put_among before after key v :
  Forall (λ a, attr_key a ≠ key) before → Forall (λ a, attr_key a ≠ key) after →
  lookup_or "" key (attrMap (before ++ (attr_of <$> text_attr key v) ++ after)) = v.
Proof.
  intros Hb Ha. unfold attrMap, lookup_or. rewrite !foldl_app, put_skip, put_text, put_skip, lookup_empty by done. by case_decide.
Qed.

Lemma resc_keys name m key : (∀ k, attr_key (resc_attr name k (lookup_or "" k m)) ≠ key) → Forall (λ a, attr_key a ≠ key) (resc_attrs name m).
Proof.
  intros Hk. apply Forall_forall. intros a Ha. unfold resc_attrs in Ha. apply list_elem_of_omap in Ha as (k & _ & E).
  case_decide; [done|]. injection E as <-. apply Hk.
Qed.

Ltac other_key :=
  first [apply resc_keys; intros k; unfold attr_key; cbn; case_match; cbn; discriminate
        |apply Forall_fmap; unfold text_attr, time_attr, int_attr; repeat case_match; repeat constructor; cbn; discriminate].
Ltac job_attr := unfold formatJobStatus, attrMap, lookup_or; cbn [obj_Attrs]; unfold job_head, job_tail;
  rewrite !fmap_app, !foldl_app; repeat (rewrite put_skip by other_key); rewrite put_text;
  repeat (rewrite put_skip by other_key); rewrite lookup_empty; by case_decide.

Abbreviation job_get k j := (lookup_or "" k (attrMap (obj_Attrs (formatJobStatus j)))) (only parsing).
Lemma job_get_name j : job_get "Job_Name" j = Job.Name j.
Proof. job_attr. Qed.
Lemma job_get_owner j : job_get "Job_Owner" j = Job.Owner j.
Proof. job_attr. Qed.
Lemma job_get_state j : job_get "job_state" j = Job.StateName j.
Proof. job_attr. Qed.
Lemma job_get_queue j : job_get "queue" j = Job.Queue j.
Proof. job_attr. Qed.
Lemma job_get_host j : job_get "exec_host" j = Job.ExecHost j.
Proof. job_attr. Qed.

(** Resources are read back under their own key. *)
Lemma put_resources m acc k :
  k ≠ "" → acc !! ("resources_used." +:+ k) = None →
  lookup_or "" ("resources_used." +:+ k) (foldl (λ (m : gmap string string) a, <[attr_key a := Value a]> m) acc (resc_attrs "resources_used" m))
  = lookup_or "" k m.
Proof.
  intros Hk Hacc. unfold resc_attrs. set (f := λ k, let v := lookup_or "" k m in _).
  assert (∀ ks acc, lookup_or "" ("resources_used." +:+ k) (foldl (λ (m : gmap string string) a, <[attr_key a := Value a]> m) acc (omap f ks))
    = if decide (k ∈ ks ∧ lookup_or "" k m ≠ "") then lookup_or "" k m else lookup_or "" ("resources_used." +:+ k) acc) as Hl.
  { clear acc Hacc. induction ks as [|x ks IH]; intros acc.
    - cbn. rewrite decide_False; [done|]. intros [[]%not_elem_of_nil _].
    - cbn [omap list_omap]. unfold f at 1. cbv zeta. destruct (decide (lookup_or "" x m = "")) as [Hx|Hx].
      + rewrite IH. apply decide_ext. rewrite elem_of_cons. naive_solver.
      + cbn [foldl]. rewrite IH. destruct (decide (k ∈ ks ∧ lookup_or "" k m ≠ "")) as [[Hin Hv]|Hno].
        * by rewrite decide_True by (split; [by right|done]).
        * destruct (decide (k = x)) as [->|Hne].
          { rewrite decide_True by (split; [by left|done]). unfold lookup_or at 1, attr_key. cbn [HasResc Resc resc_attr].
            rewrite bool_decide_eq_false_2 by done. cbn [negb andb DisMessage.Name Value]. change ("resources_used" +:+ "." +:+ x) with ("resources_used." +:+ x).
            by rewrite lookup_insert_eq. }
          rewrite decide_False by (rewrite elem_of_cons; naive_solver). unfold lookup_or at 1 3. rewrite lookup_insert_ne; [done|].
          unfold attr_key. cbn [HasResc Resc resc_attr DisMessage.Name]. case_bool_decide as Hxe; cbn; [by intros [=]|]. intros [= ->]. done. }
  rewrite Hl. replace (lookup_or "" ("resources_used." +:+ k) acc) with "" by (unfold lookup_or; by rewrite Hacc). pose proof (map_order_elem m (range m) k (range_order m)) as Hr.
  destruct (decide (k ∈ range m ∧ lookup_or "" k m ≠ "")) as [Hd|Hd]; [done|]. unfold lookup_or in *. destruct (m !! k) as [v|] eqn:E; [|done]. cbn in *.
  destruct (decide (v = "")) as [->|Hv]; [done|]. exfalso. apply Hd. split; [|done]. apply Hr. by eexists.
Qed.

Lemma job_get_walltime j : job_get "resources_used.walltime" j = lookup_or "" "walltime" (Job.ResourceUsed j).
Proof.
  unfold formatJobStatus, attrMap. cbn [obj_Attrs]. unfold job_head, job_tail. rewrite !fmap_app, !foldl_app.
  unfold lookup_or at 1. repeat (rewrite put_skip by other_key).
  match goal with |- default "" (?m !! _) = _ => change (default "" (m !! "resources_used.walltime")) with (lookup_or "" ("resources_used." +:+ "walltime") m) end.
  apply put_resources; [done|]. repeat (rewrite put_skip by other_key). apply lookup_empty.
Qed.
End attributes.

(** ** Theorem *)

(** Which jobs the options ask for, and the row of one. *)
Definition shown (o : stat_opts) (j : Job) : Prop :=
  (st_idle o = true → Job.StateName j = "Q" ∨ Job.StateName j = "H" ∨ Job.StateName j = "W") ∧ (st_run o = true → Job.StateName j = "R") ∧
  (st_user o ≠ "" → owner_name (Job.Owner j) = st_user o) ∧ (st_noComplete o = true → Job.StateName j ≠ "C").
#[export] Instance shown_dec o j : Decision (shown o j).
Proof. unfold shown. apply _. Defined.
Definition job_row (o : stat_opts) (j : Job) : string :=
  columns [pad_right 25 (truncate (Job.ID j) 25); pad_right 16 (truncate (Job.Name j) 16);
           pad_right 15 (truncate (owner_name (Job.Owner j)) 15);
           pad_left 8 (zeroDefault (lookup_or "" "walltime" (Job.ResourceUsed j))); Job.StateName j; pad_right 5 (Job.Queue j)]
  +:+ (if st_node o && negb (bool_decide (Job.ExecHost j = "")) then " " +:+ Job.ExecHost j else "").

Section theorem.
Context `{MapRange} `{SliceSort}.
Context (envs : nat → Env) (LookupAddr : string → option (list string)) (remote : string) (ce : ClientEnv).

(** The jobs of the server that are asked for: all in the order of their ids, or one. *)
Definition asked_jobs (env : Env) (id : string) (s : Server) : result Z (list Job) :=
  if decide (id = "") then Ok (sort_Slice (λ a b, String.ltb (Job.ID a) (Job.ID b)) (AllJobs (job_order env) (jobMgr s)))
  else match get_job env id s with Some j => Ok [j] | None => Err PbseUnkjobid end.

Lemma status_of_asked env id s :
  handleStatusJob env id s = match asked_jobs env id s with Ok js => Ok (formatJobStatus <$> js) | Err e => Err e | Panic => Panic end.
Proof. unfold handleStatusJob, asked_jobs. case_decide; [done|]. by destruct (get_job env id s). Qed.

Lemma printed_shown o j : printed o (formatJobStatus j) = bool_decide (shown o j).
Proof.
  unfold printed, matchesFilter. rewrite job_get_state, job_get_owner. apply eq_true_iff_eq. rewrite bool_decide_eq_true.
  unfold shown. generalize (Job.StateName j) as st, (owner_name (Job.Owner j)) as ow. intros ow st.
  destruct (st_idle o), (st_run o), (st_noComplete o), (decide (st_user o = "")); cbn [andb negb];
    repeat case_bool_decide; cbn [andb negb]; intuition congruence.
Qed.

Lemma row_of_line o j : job_line o (formatJobStatus j) = job_row o j.
Proof.
  unfold job_line, job_row, job_columns. by rewrite job_get_name, job_get_owner, job_get_state, job_get_queue, job_get_host, job_get_walltime.
Qed.

Lemma display_shown o jobs :
  st_xml o = false → st_full o = false →
  displayJobs o (formatJobStatus <$> jobs) = if decide (jobs = []) then [] else job_header ++ (job_row o <$> filter (shown o) jobs).
Proof.
  intros Hx Hf. unfold displayJobs. rewrite Hx, Hf. destruct jobs as [|j jobs]; [done|]. rewrite decide_False, decide_False by done. f_equal.
  generalize (j :: jobs). clear j jobs. intros l. induction l as [|j l IH]; [done|]. cbn [fmap list_fmap]. rewrite !filter_cons, printed_shown.
  destruct (decide (shown o j)) as [Hj|Hj].
  - rewrite bool_decide_eq_true_2, decide_True by done. cbn [fmap list_fmap]. by rewrite IH, row_of_line.
  - rewrite bool_decide_eq_false_2, decide_False by done. apply IH.
Qed.

(** The table is the server's jobs.  With the options for the table, [qstat] prints exactly the jobs the
    server has (all of them in the order of their ids, or the one that is named) that pass the filters,
    each with its id, name, owner, used time, state and queue cut and padded to the columns, and with its
    hosts when asked; an unknown job exits with 1 and prints nothing.  The server's tables stay as they
    were. *)
Theorem qstat_shows_jobs o args user s :
  reaches ce (st_host o) user (envs 0%nat) s → wire_str (hd "" args) →
  st_queues o = false → st_server o = false → st_xml o = false → st_full o = false →
  let s' := authenticated remote user s in
  match asked_jobs (envs 1%nat) (hd "" args) s' with
  | Ok jobs => reply_fits (formatJobStatus <$> jobs) →
      qstat envs LookupAddr remote ce o args s
      = (s', (0, if decide (jobs = []) then [] else job_header ++ (job_row o <$> filter (shown o) jobs)))
  | _ => qstat envs LookupAddr remote ce o args s = (s', (1, []))
  end.
Proof.
  intros Hr Hid Hq Hs Hx Hf s'. pose proof (rc_user _ _ _ _ _ Hr) as [_ Hu]. set (id := hd "" args) in *.
  assert (∀ R, answer_fits (handleStatusJob (envs 1%nat) id s') → handleStatusJob (envs 1%nat) id s' = R →
    qstat envs LookupAddr remote ce o args s
    = match status_answer R with
      | Ok objs => (s', (0, displayJobs o objs)) | Err _ => (s', (1, [])) | Panic => (s', (2, []))
      end) as Hask.
  { intros R Hfit <-. unfold qstat. rewrite (Connect_ok envs LookupAddr remote ce (st_host o) user 0 s Hr), Hq, Hs. fold id s'.
    rewrite (ask_status_of envs LookupAddr remote user BatchReqStatusJob id (λ s, (s, handleStatusJob (envs 1%nat) id s))
      (λ b s, replied_status s (handleStatusJob (envs 1%nat) b.1 s)) s' 1); [|by_decide|done|done|done|reflexivity|reflexivity| |done].
    - cbn [fst snd]. destruct (handleStatusJob (envs 1%nat) id s'); cbn [status_answer]; [|done..]. by rewrite Close_link.
    - intros s0. cbn [snd]. unfold handleStatusJob. repeat case_match; discriminate. }
  rewrite status_of_asked in Hask. destruct (asked_jobs (envs 1%nat) id s') as [jobs|code|] eqn:E; unfold asked_jobs in E.
  - intros Hfit. rewrite (Hask _ Hfit eq_refl). cbn [status_answer]. by rewrite display_shown.
  - assert (code = PbseUnkjobid) as -> by (repeat case_match; by simplify_eq). by rewrite (Hask _ (or_introl eq_refl) eq_refl).
  - repeat case_match; by simplify_eq.
Qed.
End theorem.

(** ** Examples *)

Definition table_opts : stat_opts := mkStat false false false false false true "" "head" true false.

Lemma qstat_shows_jobs_witness :
  let s' := authenticated "10.0.0.9:40000" "root" (link_server ∅) in
  (match asked_jobs (link_envs 1) "" s' with
   | Ok jobs => reply_fits (formatJobStatus <$> jobs) →
       qstat link_envs (λ _, None) "10.0.0.9:40000" link_client table_opts [] (link_server ∅)
       = (s', (0, if decide (jobs = []) then [] else job_header ++ (job_row table_opts <$> filter (shown table_opts) jobs)))
   | _ => qstat link_envs (λ _, None) "10.0.0.9:40000" link_client table_opts [] (link_server ∅) = (s', (1, []))
   end) ∧
  reply_fits (formatJobStatus <$> match asked_jobs (link_envs 1) "" s' with Ok jobs => jobs | _ => [] end) ∧
  (qstat link_envs (λ _, None) "10.0.0.9:40000" link_client table_opts [] (link_server ∅)).2.2
  = ["Job ID                    Name             User            Time Use S Queue";
     "------------------------- ---------------- --------------- -------- - -----";
     "1.srv                                      alice                  0 Q batch"].
Proof.
  split_and!.
  - apply (qstat_shows_jobs link_envs (λ _, None) "10.0.0.9:40000" link_client table_opts [] "root" (link_server ∅)); [|by_decide|done..].
    apply link_reaches.
  - split; by_decide.
  - vm_compute. reflexivity.
Defined.

(** *** Where the command does not do what it says *)

(** The columns of the states read attributes that the server does not send: its only queued job is not
    counted, neither for the queue nor for the server. *)
Example state_columns_are_zero :
  (qstat link_envs (λ _, None) "10.0.0.9:40000" link_client (mkStat true false false false false false "" "head" false false) ["batch"] (link_server ∅)).2.2 !! 2%nat
  = Some "batch                0      1   yes   yes     0     0     0     0     0     0 E     0" ∧
  (qstat link_envs (λ _, None) "10.0.0.9:40000" link_client (mkStat false true false false false false "" "head" false false) [] (link_server ∅)).2.2 !! 2%nat
  = Some "srv                    0     1     0     0     0     0     0     0     0 Active".
Proof. split; vm_compute; reflexivity. Qed.

(** Only the first job that is named is asked for. *)
Example later_jobs_ignored `{MapRange} `{SliceSort} envs LookupAddr remote ce o id ids s :
  qstat envs LookupAddr remote ce o (id :: ids) s = qstat envs LookupAddr remote ce o [id] s.
Proof. done. Qed.

(** Nothing is escaped in the XML. *)
Example xml_not_escaped :
  xml_job (mkObject MgrObjJob "1.srv" [mkAttr "Job_Name" false "" "a<b" 1])
  = ["  <Job>"; "    <Job_Id>1.srv</Job_Id>"; "    <Job_Name>a<b</Job_Name>"; "  </Job>"].
Proof. done. Qed.
